(* ===== verification/_CoqProject ===== *)
-Q . S2P
Prelude.v
Store.v
StoreSpec.v
Limits.v
Jobs.v
JobsSpec.v
Models.v
Codec.v
NetIP.v
NetIPSpec.v
Config.v
World.v
Mail.v
Json.v
JsonSpec.v
Sql.v
Repos.v
Jwt.v
JwtSpec.v
AuditTrail.v
AuditSpec.v
Boot.v
Common.v
Identity.v
Totp.v
Auth.v
Account.v
OAuth.v
Passkey.v
Admin.v
Webhook.v
AuditExport.v
Http.v
Handlers.v
OAuthHandler.v
PasskeyHandler.v
Endpoints.v
Routes.v
Wiring.v
Demo.v
IdentitySpec.v
Evolve.v
Cleanup.v
Lifetime.v
Frames.v
SignInSpec.v
AccountSpec.v
TotpSpec.v
PurgeSpec.v
HttpSpec.v
OAuthSpec.v
PasskeySpec.v
AnswersSpec.v
BootSpec.v
IntrospectSpec.v
AuditBuffer.v
Sealing.v
Logging.v
Screening.v
MailSpec.v
WebhookSpec.v
ExportSpec.v
AuditOps.v
