(* ===== verification/Prelude.v ===== *)
(** * FinnApiGo: a verification development

    FinnApiGo is an identity service in Go: accounts, sign-in, sessions and
    tokens, second factors, tenants, an audit trail, and the HTTP API over them.
    This library models the program from its tables and its key-value store up to
    the router and the start of the server, one file or Module per component, and
    proves what each component promises.  The names of the definitions are the
    program's; a header in each file says which sources it models.

    ** The parts and how they interact

    A request enters the router ([Routes], [routes.go]), passes the middlewares
    ([Http], [internal/middleware]) and reaches a handler ([Handlers],
    [OAuthHandler], [PasskeyHandler], [Endpoints]), which binds the body, calls one
    service and translates its error.  The services ([Auth], [Account], [Totp],
    [OAuth], [Passkey], [Admin], [Webhook], [AuditExport]) run in the monad of
    [World]: state passing over the database, the key-value store, the mail sent
    and the operation bound to the request, with errors, where any call that
    leaves the process may fail.  They reach the tables through [Repos], whose
    methods are the statements of [Sql], scoped to the tenant of the context as the
    source scopes them.  Every mutating entry point of a service runs as one
    operation of the audit trail ([AuditTrail], [Common]): its changes and the
    evidence of them commit together or not at all.  Access tokens ([Jwt]) are
    judged by the access-state authority ([Identity]), which the bearer middleware
    and the introspection endpoint ask.  The processes of a cluster share the
    store ([Store]) and elect a leader for the jobs that purge ([Jobs], [Sql]).
    [Config] reads the environment, [Boot] is the start-up policy, [Wiring] builds
    the services and the router from what they accept.

    ** What is modelled where

    - data: [Models] (every table, the errors), [Store] (both stores, the class
      that is the Go interface), [World] (the context, the latch of an operation,
      the monad);
    - texts: [Codec], [Json], [NetIP] (hex, base64, durations, times, JSON,
      addresses and the keys of clients);
    - persistence: [Sql], [Repos], [AuditTrail], [AuditOps];
    - security: [Jwt], [Identity], [Totp], [Sealing], [Screening], [Logging];
    - services: [Common], [Auth], [Account], [OAuth], [Passkey], [Admin],
      [Webhook], [AuditExport], [Mail], [AuditBuffer];
    - the edge: [Http], [Handlers], [OAuthHandler], [PasskeyHandler], [Endpoints],
      [Routes], [Limits];
    - the process: [Config], [Boot], [Wiring], [Jobs];
    - [Demo]: the concrete deployment and worlds the witnesses run.

    The files whose names end in [Spec] hold the theorems of the component, with
    [Evolve], [Cleanup], [Frames] and [Lifetime] for what spans components.

    ** What the theorems show

    - Tokens and sessions ([SignInSpec], [JwtSpec], [IdentitySpec], [Lifetime],
      [IntrospectSpec]): a refresh token rotates once over any lifetime of the
      service and a reused one ends its family; a login is sound and lockouts are
      capped; what verifies was signed by a live key and what was issued verifies;
      [Check] is exactly its specification; logout, suspension and a change of
      credential are final.  [Lifetime.lifetime] is any sequence of requests and of
      clean-ups ([Cleanup.runOnce], which deletes revoked refresh tokens and the
      records of spent tokens past their expiry), with any faults, between which
      the store, the clock, the mail and the tables that hold no identity may change
      in any way; a theorem says which clean-ups it allows.  The one gap they open
      is [AccountSpec.reset_gap].
    - The database ([Lifetime], [Evolve], [PurgeSpec]): requests keep the tables
      well formed, undo nothing that is final, and touch no other tenant; the
      purges end.
    - Second factors and ceremonies ([TotpSpec], [PasskeySpec], [OAuthSpec],
      [AccountSpec]): a bounded number of guesses, no replay, challenges and tokens
      spent once, clones contained.
    - The audit trail ([AuditSpec], [AuditOps], [ExportSpec], [AuditBuffer]):
      operations are atomic with their evidence; each tenant's chain is gapless,
      linked and signed under any interleaving; the worker empties an outbox whose entries
      are due; an export loses nothing; what the buffered writer loses uncounted is
      only what a direct write or a panicking insert loses, and what it holds for
      ever only the entry of a straggler or of a worker that panicked.
    - The edge ([HttpSpec], [AnswersSpec], [NetIPSpec]): no request reaches a
      handler without what the endpoint demands; one answer of sign-in or recovery
      does not tell an anonymous caller which accounts exist (several can, through
      the counters of failed attempts).
    - What leaves the process ([MailSpec], [WebhookSpec], [Screening], [Logging],
      [Sealing]).
    - The process ([BootSpec], [JobsSpec], [StoreSpec], [Limits]): a server starts
      only under the policy, and what it serves of the metrics; one leader at a
      time; both stores refine one abstract map on the requests it speaks about.

    ** How the code is represented

    - Times and durations are nanoseconds in [Z]; ids are [Z]; [int64] wrap-around
      is written where it decides something ([int64] below, the lockout multiplier,
      offsets of pages).  Strings are byte strings; trimming and case are the ASCII
      ones.  One instant serves one request ([w_now]).
    - Errors are the sentinels at the root of what [%w] wraps, which is what
      [errors.Is] finds; messages are written out where an answer shows them.
    - Faults: [w_faults] is an oracle, one answer for each external call; the empty
      oracle has no faults.  Inside an operation a transaction is a savepoint.  A
      transaction that is rolled back gives back its row ids too, where MySQL leaves
      a gap: ids are only compared, and stay fresh either way.
    - SQL and the Lua scripts of Redis have their documented meaning; rows affected
      are rows changed; comparison is exact.  [BIGINT] overflow is not considered.
    - A token is its parsed header, claims and signature, or a text that is none;
      a JSON value staged in the store is its text, and reading it back is proved.
      Go maps read in document order are association lists.
    - Third-party code is a class of parameters, with documented laws where a
      theorem needs them: [Ext] (digests, random identifiers, bcrypt, password
      scoring), [JwtLib], [WebAuthnLib], [GoogleLib], [Otp], [Aead], [Network],
      [Local], [Floats], and the HTTP exchange of [Screening]; gin's resolution of
      the client address, the validator's rule for addresses, and the token bucket
      of one address are parameters too.  [Boot]'s [Surroundings] are what a start
      finds: key files, the database, Redis.
    - Mail and webhook requests are recorded as effects ([w_mail]); [Mail] models
      the dialogue with the relay.

    ** Bounds and fuel

    Every fuel is computed from the input and proved or evidently enough: a batched
    delete has one batch for each row and one more ([purge_terminates]); a JSON text
    of length n is parsed with 2n + 2 ([parse_text]); a dispatch ends within its
    limit of at most 1000 ([outbox_drains]); durations, runes and lines are read
    with the length of the text, an IPv6 address with its eight groups; a mail is
    received with its lines and eight more ([mail_sound]).

    ** Not modelled

    Migrations and the connection to MySQL, listeners, signals, graceful shutdown
    and the profiler's endpoints (input and output only; which listener mounts them
    is in [Boot]); metrics, tracing, log lines and
    the stub of geolocation (no decision reads them), but for the redaction of the
    log; the generated API documentation; the bookkeeping of [updated_at];
    deadlines of network calls; the goroutines that only wait for a ticker, and the
    coalescing of the durable worker's wake-ups.  The fractions of a configured
    duration are cut to whole nanoseconds exactly, where Go computes them in
    floating point. *)

From Stdlib Require Export ZArith Lia Ascii.
From stdpp Require Export base tactics list gmap strings numbers.

#[global] Set Default Goal Selector "!".

Declare Scope go_scope.
Delimit Scope go_scope with go.

(** ** Machine integers *)

(** [int64 z] is [z] wrapped to Go's two's complement [int64]. *)
Definition int64 (z : Z) : Z := ((z + 2 ^ 63) mod 2 ^ 64 - 2 ^ 63)%Z.

Lemma int64_id z : (- 2 ^ 63 <= z < 2 ^ 63)%Z -> int64 z = z.
Proof. intros H. unfold int64. rewrite Z.mod_small; lia. Qed.

Lemma int64_range z : (- 2 ^ 63 <= int64 z < 2 ^ 63)%Z.
Proof.
  unfold int64. pose proof (Z.mod_pos_bound (z + 2 ^ 63) (2 ^ 64)). lia.
Qed.

(** ** Tactics shared by the files *)

(** Opens conjunctions and existentials in the context. *)
Ltac open_ex :=
  repeat match goal with
  | H : _ /\ _ |- _ => destruct H
  | H : exists _, _ |- _ => destruct H
  end.

(** Turns boolean tests of the context into propositions. *)
Ltac bool_prop :=
  repeat match goal with
  | H : andb _ _ = true |- _ => apply andb_true_iff in H; destruct H
  | H : orb _ _ = false |- _ => apply orb_false_iff in H; destruct H
  | H : negb _ = true |- _ => apply negb_true_iff in H
  | H : negb _ = false |- _ => apply negb_false_iff in H
  | H : Z.eqb _ _ = true |- _ => apply Z.eqb_eq in H
  | H : Z.eqb _ _ = false |- _ => apply Z.eqb_neq in H
  | H : Z.leb _ _ = true |- _ => apply Z.leb_le in H
  | H : Z.leb _ _ = false |- _ => apply Z.leb_gt in H
  | H : Z.ltb _ _ = true |- _ => apply Z.ltb_lt in H
  | H : Z.ltb _ _ = false |- _ => apply Z.ltb_ge in H
  | H : bool_decide _ = true |- _ => apply bool_decide_eq_true in H
  | H : bool_decide _ = false |- _ => apply bool_decide_eq_false in H
  end.

(** Equality of closed terms, by the virtual machine in the kernel. *)
Ltac vm_reflexivity := match goal with |- _ = ?b => vm_cast_no_check (eq_refl b) end.

(** ** Relational tables: the meaning of the SQL statements the repositories
    issue.  A table is the list of its rows in primary-key order. *)

Section Tables.
Context {R : Type}.
Implicit Types (p : R -> bool) (f : R -> R) (l : list R).

(** [SELECT .. WHERE p ORDER BY pk LIMIT 1] *)
Fixpoint first_where p l : option R :=
  match l with
  | [] => None
  | r :: l => if p r then Some r else first_where p l
  end.

(** [SELECT .. WHERE p] *)
Definition rows_where p l : list R := List.filter p l.

(** [SELECT COUNT( * ) .. WHERE p] *)
Definition count_where p l : nat := length (rows_where p l).

(** [UPDATE .. SET f WHERE p] *)
Definition update_where p f l : list R := map (fun r => if p r then f r else r) l.

(** [DELETE .. WHERE p] *)
Definition delete_where p l : list R := List.filter (fun r => negb (p r)) l.

Lemma first_where_Some p l r :
  first_where p l = Some r -> In r l /\ p r = true.
Proof.
  induction l as [|x l IH]; simpl; [done|].
  destruct (p x) eqn:E; intros H; [simplify_eq; by split; [left|]|].
  destruct (IH H); auto.
Qed.

Lemma first_where_None p l :
  first_where p l = None <-> (forall r, In r l -> p r = false).
Proof.
  induction l as [|x l IH]; simpl; [by split|].
  destruct (p x) eqn:E; split.
  - done.
  - intros H. rewrite (H x) in E by (by left). done.
  - intros H r [<-|Hr]; [done|]. by apply IH.
  - intros H. apply IH. intros r Hr. apply H. by right.
Qed.

Lemma first_where_ext p q l :
  (forall r, In r l -> p r = q r) -> first_where p l = first_where q l.
Proof.
  induction l as [|x l IH]; intros H; simpl; [done|].
  rewrite (H x) by (by left). rewrite IH; [done|].
  intros r Hr. apply H. by right.
Qed.

Lemma update_where_In p f l r :
  In r (update_where p f l) <-> exists r0, In r0 l /\ r = (if p r0 then f r0 else r0).
Proof. unfold update_where. rewrite in_map_iff. split; intros (x & ? & ?); eauto. Qed.

Lemma update_where_id p f l :
  (forall r, In r l -> p r = true -> f r = r) -> update_where p f l = l.
Proof.
  intros H. unfold update_where. rewrite <- (map_id l) at 2.
  apply map_ext_in. intros r Hr. destruct (p r) eqn:E; [|done]. by apply H.
Qed.

Lemma update_where_length p f l : length (update_where p f l) = length l.
Proof. apply length_map. Qed.

(** An update leaves the rows outside a set of rows it does not touch. *)
Lemma filter_update_where p q f l :
  (forall r, q r = true -> p r = false) ->
  (forall r, q r = false -> q (f r) = false) ->
  List.filter q (update_where p f l) = List.filter q l.
Proof.
  intros Hd Hs. induction l as [|x l IH]; simpl; [done|].
  destruct (p x) eqn:Ep; simpl; rewrite IH; destruct (q x) eqn:Eq; try done.
  - rewrite (Hd x) in Ep; done.
  - by rewrite Hs.
Qed.

(** Lookup after an update that keeps the predicate of the lookup. *)
Lemma first_where_update p q f l :
  (forall r, q (f r) = q r) ->
  first_where q (update_where p f l) =
  (fun r => if p r then f r else r) <$> first_where q l.
Proof.
  intros Hq. induction l as [|x l IH]; simpl; [done|].
  destruct (p x) eqn:Ep.
  - rewrite Hq. destruct (q x); simpl; [by rewrite Ep|done].
  - destruct (q x); simpl; [by rewrite Ep|done].
Qed.

Lemma first_where_app p l k :
  first_where p (l ++ k) =
  match first_where p l with Some r => Some r | None => first_where p k end.
Proof. induction l as [|x l IH]; simpl; [done|]. by destruct (p x). Qed.

Lemma filter_app_nil q l k :
  (forall r, In r k -> q r = false) ->
  List.filter q (l ++ k) = List.filter q l.
Proof.
  intros H. rewrite List.filter_app.
  assert (List.filter q k = []) as ->; [|by rewrite app_nil_r].
  induction k as [|x k IH]; simpl; [done|].
  rewrite (H x) by (by left). apply IH. intros r Hr. apply H. by right.
Qed.

Lemma count_where_zero p l :
  count_where p l = 0%nat <-> (forall r, In r l -> p r = false).
Proof.
  unfold count_where, rows_where. induction l as [|x l IH]; simpl; [by split|].
  destruct (p x) eqn:E; simpl; split.
  - done.
  - intros H. rewrite (H x) in E by (by left). done.
  - intros H r [<-|Hr]; [done|]. by apply IH.
  - intros H. apply IH. intros r Hr. apply H. by right.
Qed.

Lemma count_where_snoc p l x :
  count_where p (l ++ [x]) = (count_where p l + if p x then 1 else 0)%nat.
Proof.
  unfold count_where, rows_where. rewrite List.filter_app, length_app. simpl.
  by destruct (p x).
Qed.

(** With a unique key, the first row of a key is the only one. *)
Lemma first_where_unique {K} (key : R -> K) p l r x :
  NoDup (map key l) -> (forall a b, p a = true -> p b = true -> key a = key b) ->
  first_where p l = Some r -> In x l -> p x = true -> x = r.
Proof.
  intros Hn Hk. induction l as [|y l IH]; simpl; [done|]. intros Hf Hin Hp.
  simpl in Hn. inversion Hn as [|? ? Hy Hn']; subst.
  destruct (p y) eqn:Ey.
  - injection Hf as <-. destruct Hin as [<-|Hin]; [done|]. exfalso. apply Hy, list_elem_of_In.
    apply in_map_iff. exists x. split; [by apply Hk|done].
  - destruct Hin as [<-|Hin]; [congruence|]. by apply IH.
Qed.

Lemma NoDup_map_inj {K} (key : R -> K) l a b :
  NoDup (map key l) -> In a l -> In b l -> key a = key b -> a = b.
Proof.
  induction l as [|x l IH]; [done|]. simpl. intros Hn Ha Hb Hk.
  inversion Hn as [|? ? Hx Hn']; subst. rewrite list_elem_of_In, in_map_iff in Hx.
  destruct Ha as [->|Ha], Hb as [->|Hb]; try done.
  - exfalso. apply Hx. by exists b.
  - exfalso. apply Hx. by exists a.
  - by apply IH.
Qed.

Lemma map_update_where {K} (key : R -> K) p f l :
  (forall r, key (f r) = key r) -> map key (update_where p f l) = map key l.
Proof.
  intros H. unfold update_where. rewrite map_map. apply map_ext. intros r. by destruct (p r).
Qed.

Lemma update_where_ext p f g l :
  (forall r, In r l -> p r = true -> f r = g r) -> update_where p f l = update_where p g l.
Proof.
  intros H. unfold update_where. apply map_ext_in. intros r Hin.
  destruct (p r) eqn:E; [by apply H|done].
Qed.

Lemma update_where_none p f l : (forall r, In r l -> p r = false) -> update_where p f l = l.
Proof. intros H. apply update_where_id. intros r Hin Hp. rewrite (H r Hin) in Hp. done. Qed.

(** Updating the one row of a key changes a count by that row only. *)
Lemma count_where_update {K} (key : R -> K) (q p : R -> bool) g l o :
  NoDup (map key l) -> In o l -> (forall x, q x = true <-> key x = key o) ->
  (count_where p (update_where q g l) + (if p o then 1 else 0) =
   count_where p l + (if p (g o) then 1 else 0))%nat.
Proof.
  intros Hn Hin Hq. induction l as [|x l IH]; [done|]. simpl in Hn.
  inversion Hn as [|? ? Hx Hn']; subst.
  assert (forall y l, count_where p (y :: l) = ((if p y then 1 else 0) + count_where p l)%nat) as Hc.
  { intros y k. unfold count_where, rows_where. simpl. by destruct (p y). }
  unfold update_where in *. simpl map. rewrite !Hc. destruct Hin as [->|Hin].
  - assert (q o = true) as -> by (by apply Hq).
    assert (map (fun r => if q r then g r else r) l = l) as ->; [|lia].
    rewrite <- (map_id l) at 2. apply map_ext_in. intros y Hy. destruct (q y) eqn:Ey; [|done].
    apply Hq in Ey. exfalso. apply Hx, list_elem_of_In, in_map_iff. eauto.
  - destruct (q x) eqn:Ex.
    + apply Hq in Ex. exfalso. apply Hx, list_elem_of_In, in_map_iff. exists o. by split.
    + specialize (IH Hn' Hin). lia.
Qed.

Lemma NoDup_snoc {K} (l : list K) x : NoDup l -> ~ In x l -> NoDup (l ++ [x]).
Proof.
  intros Hl Hx. apply list.NoDup_app. repeat split; [done| |].
  - intros y Hy Hy'. rewrite list_elem_of_In in Hy. rewrite elem_of_cons, elem_of_nil in Hy'.
    destruct Hy' as [->|[]]. done.
  - constructor; [by intros ?%elem_of_nil|constructor].
Qed.

(** [evolves r l l']: every row of [l] is still there, in order, changed only
    along [r]; new rows are appended. *)
Definition evolves (r : R -> R -> Prop) (l l' : list R) : Prop :=
  exists l1 l2, l' = l1 ++ l2 /\ Forall2 r l l1.

Lemma Forall2_same r l : Reflexive r -> Forall2 r l l.
Proof. intros Hr. induction l; by constructor. Qed.

Lemma Forall2_trans_same r : Transitive r -> forall l1 l2 l3,
  Forall2 r l1 l2 -> Forall2 r l2 l3 -> Forall2 r l1 l3.
Proof.
  intros Hr l1 l2 l3 H. revert l3. induction H; intros l3 H3; inversion H3; subst;
    constructor; eauto.
Qed.

Lemma evolves_refl r l : Reflexive r -> evolves r l l.
Proof.
  intros Hr. exists l, []. split; [by rewrite app_nil_r|].
  by apply Forall2_same.
Qed.

Lemma evolves_trans r l1 l2 l3 :
  Transitive r -> evolves r l1 l2 -> evolves r l2 l3 -> evolves r l1 l3.
Proof.
  intros Hr (a & b & -> & H1) (c & d & -> & H2).
  apply Forall2_app_inv_l in H2 as (c1 & c2 & Hc1 & Hc2 & ->).
  exists c1, (c2 ++ d). split; [by rewrite app_assoc|].
  exact (Forall2_trans_same r Hr _ _ _ H1 Hc1).
Qed.

Lemma evolves_update r p f l :
  Reflexive r -> (forall x, p x = true -> r x (f x)) -> evolves r l (update_where p f l).
Proof.
  intros Hr Hf. exists (update_where p f l), []. split; [by rewrite app_nil_r|].
  unfold update_where. induction l as [|x l IH]; simpl; constructor; [|done].
  destruct (p x) eqn:E; [by apply Hf|done].
Qed.

Lemma evolves_app r l k : Reflexive r -> evolves r l (l ++ k).
Proof.
  intros Hr. exists l, k. split; [done|]. by apply Forall2_same.
Qed.

Lemma evolves_In r l l' x :
  evolves r l l' -> In x l -> exists y, In y l' /\ r x y.
Proof.
  intros (l1 & l2 & -> & HF) Hx.
  cut (exists y, In y l1 /\ r x y).
  { intros (y & ? & ?). exists y. split; [|done]. apply in_or_app. by left. }
  induction HF as [|a b l l1 Hab HF IH]; [done|]. destruct Hx as [<-|Hx].
  - exists b. split; [by left|done].
  - destruct (IH Hx) as (y & ? & ?). exists y. split; [by right|done].
Qed.

(** What happens to a looked-up row when the table evolves along a relation
    that keeps the lookup predicate. *)
Lemma evolves_first r q l l' x :
  (forall a b, r a b -> q a = q b) ->
  evolves r l l' -> first_where q l = Some x ->
  exists y, first_where q l' = Some y /\ r x y.
Proof.
  intros Hq (l1 & l2 & -> & HF) Hx. rewrite first_where_app.
  cut (exists y, first_where q l1 = Some y /\ r x y).
  { intros (y & -> & Hy). eauto. }
  induction HF as [|a b l l1 Hab HF IH]; simpl in *; [done|].
  rewrite <- (Hq a b Hab). destruct (q a); [|by apply IH].
  simplify_eq. eauto.
Qed.
End Tables.

(** ** Strings: the byte-level functions of Go's [strings] package the code
    uses.  [to_lower] and [trim_space] act on ASCII; bytes from 128 on are left
    alone. *)

Definition byte_of (a : Ascii.ascii) : N := Ascii.N_of_ascii a.

Definition lower_ascii (a : Ascii.ascii) : Ascii.ascii :=
  let n := byte_of a in
  if (65 <=? n)%N && (n <=? 90)%N then Ascii.ascii_of_N (n + 32) else a.

Fixpoint to_lower (s : string) : string :=
  match s with
  | EmptyString => EmptyString
  | String a s => String (lower_ascii a) (to_lower s)
  end.

Definition is_space (a : Ascii.ascii) : bool :=
  let n := byte_of a in
  ((9 <=? n) && (n <=? 13))%N || (n =? 32)%N.

(** The white space of [unicode.IsSpace] beyond ASCII, as UTF-8 (U+0085, U+00A0,
    U+1680, U+2000 to U+200A, U+2028, U+2029, U+202F, U+205F, U+3000), written as
    plain blanks: what [strings.Fields] splits on. *)
Fixpoint blank_spaces (s : string) : string :=
  match s with
  | EmptyString => EmptyString
  | String a s1 =>
      match byte_of a, s1 with
      | 194%N, String b s2 =>
          if ((byte_of b =? 133) || (byte_of b =? 160))%N then String " "%char (blank_spaces s2)
          else String a (blank_spaces s1)
      | 225%N, String b (String c s3) =>
          if ((byte_of b =? 154) && (byte_of c =? 128))%N then String " "%char (blank_spaces s3)
          else String a (blank_spaces s1)
      | 226%N, String b (String c s3) =>
          if (((byte_of b =? 128) && (((128 <=? byte_of c) && (byte_of c <=? 138)) || (byte_of c =? 168) ||
                                      (byte_of c =? 169) || (byte_of c =? 175))) ||
              ((byte_of b =? 129) && (byte_of c =? 159)))%N
          then String " "%char (blank_spaces s3) else String a (blank_spaces s1)
      | 227%N, String b (String c s3) =>
          if ((byte_of b =? 128) && (byte_of c =? 128))%N then String " "%char (blank_spaces s3)
          else String a (blank_spaces s1)
      | _, _ => String a (blank_spaces s1)
      end
  end.

Fixpoint trim_left (s : string) : string :=
  match s with
  | EmptyString => EmptyString
  | String a s' => if is_space a then trim_left s' else s
  end.

Fixpoint str_rev_app (s acc : string) : string :=
  match s with
  | EmptyString => acc
  | String a s => str_rev_app s (String a acc)
  end.

Definition str_rev (s : string) : string := str_rev_app s "".

Definition trim_space (s : string) : string :=
  str_rev (trim_left (str_rev (trim_left s))).

(** [strings.Split(s, sep)] for a one-byte separator. *)
Fixpoint split_on (sep : Ascii.ascii) (s : string) : list string :=
  match s with
  | EmptyString => [""]
  | String a s =>
      if decide (a = sep) then "" :: split_on sep s
      else match split_on sep s with
           | [] => [String a ""]
           | w :: ws => String a w :: ws
           end
  end.

Fixpoint has_prefix (p s : string) : bool :=
  match p, s with
  | EmptyString, _ => true
  | String a p, String b s => if decide (a = b) then has_prefix p s else false
  | String _ _, EmptyString => false
  end.

(** [strings.Contains(s, sub)] *)
Fixpoint str_contains (sub s : string) : bool :=
  has_prefix sub s ||
  match s with
  | EmptyString => false
  | String _ s => str_contains sub s
  end.

Lemma substring_zero n s : (String.length s <= n)%nat -> String.substring 0 n s = s.
Proof. revert s. induction n as [|n IH]; intros [|a s]; simpl; try done; [lia|]. intros H. by rewrite IH by lia. Qed.

Lemma bearer_text a t :
  has_prefix "Bearer " a = true -> String.substring 7 (String.length a - 7) a = t -> a = "Bearer " +:+ t.
Proof.
  intros Hp <-. do 7 (destruct a as [|? a]; [done|]; simpl in Hp; case_decide; [|done]; subst).
  cbn [String.length String.substring Nat.sub]. by rewrite Nat.sub_0_r, substring_zero by lia.
Qed.

Lemma str_app_cons a s t : String a s +:+ t = String a (s +:+ t).
Proof. done. Qed.

Lemma str_app_assoc s t u : (s +:+ t) +:+ u = s +:+ (t +:+ u).
Proof. induction s as [|a s IH]; [done|]. by rewrite !str_app_cons, IH. Qed.

Lemma str_app_nil s : s +:+ "" = s.
Proof. induction s as [|a s IH]; [done|]. by rewrite str_app_cons, IH. Qed.

Fixpoint str_forall (p : Ascii.ascii -> bool) (s : string) : bool :=
  match s with
  | EmptyString => true
  | String a s => p a && str_forall p s
  end.

Definition str_exists (p : Ascii.ascii -> bool) (s : string) : bool :=
  negb (str_forall (fun a => negb (p a)) s).

Definition str_len (s : string) : Z := Z.of_nat (String.length s).

Definition no_byte (sep : Ascii.ascii) (s : string) : Prop :=
  str_forall (fun a => negb (bool_decide (a = sep))) s = true.

#[export] Instance no_byte_dec sep s : Decision (no_byte sep s).
Proof. unfold no_byte. typeclasses eauto. Defined.

Lemma split_on_no_byte sep s : no_byte sep s -> split_on sep s = [s].
Proof.
  unfold no_byte. induction s as [|a s IH]; simpl; [done|].
  intros H. bool_prop. rewrite decide_False by done. by rewrite IH.
Qed.

Lemma split_on_app sep s t :
  no_byte sep s -> split_on sep (s +:+ String sep t) = s :: split_on sep t.
Proof.
  unfold no_byte. induction s as [|a s IH]; simpl.
  - intros _. by rewrite decide_True.
  - intros H. bool_prop. rewrite decide_False by done. by rewrite IH.
Qed.
