(* ===== verification/Store.v ===== *)
(** * The key-value store ([internal/store])

    [Mem] is [store.go] (the in-memory store), [Redis] is [redis.go] over the
    documented meaning of the Redis commands its Lua scripts issue, [Security]
    is [security.go], and the class [Store] is the Go interface the rest of the
    program is written against, with the laws both implementations satisfy.
    Time and durations are nanoseconds ([Z]); the mutex of the Go store makes
    each operation atomic, so each is one function on the state. *)

From Stdlib Require Import DecimalString DecimalZ.
From S2P Require Import Prelude.

Open Scope Z_scope.

Definition millisecond : Z := 1000000.
Definition second : Z := 1000 * millisecond.
Definition minute : Z := 60 * second.
Definition hour : Z := 60 * minute.

(** [lia] with the time units unfolded. *)
Ltac time_lia := unfold hour, minute, second, millisecond in *; lia.

(** The dynamic values ([any]) the program stores. *)
Inductive Val :=
  | VInt64 (n : Z)
  | VInt (n : Z)
  | VStr (s : string)
  | VBytes (s : string).

#[export] Instance Val_eq_dec : EqDecision Val.
Proof. solve_decision. Defined.

(** [fmt.Sprintf("%d", z)] *)
Definition fmt_d (z : Z) : string := NilZero.string_of_int (Z.to_int z).

(** [strconv.ParseInt(s, 10, 64)]: the value Go returns (clamped on a range
    error, 0 on a syntax error) and whether [err == nil]. *)
Definition parse_sign (s : string) : option Decimal.int :=
  match s with
  | String a s' =>
      if Ascii.eqb a "+"%char then
        option_map Decimal.Pos (NilZero.uint_of_string s')
      else NilZero.int_of_string s
  | EmptyString => None
  end.

Definition parse_int64 (s : string) : Z * bool :=
  match parse_sign s with
  | None => (0, false)
  | Some d =>
      let z := Z.of_int d in
      if z <? - 2 ^ 63 then (- 2 ^ 63, false)
      else if 2 ^ 63 - 1 <? z then (2 ^ 63 - 1, false)
      else (z, true)
  end.

(** [toRedisValue]; [fmt.Sprint] renders the same values the same way, except
    a byte slice. *)
Definition toRedisValue (v : Val) : string :=
  match v with
  | VStr s => s
  | VInt64 n => fmt_d n
  | VInt n => fmt_d n
  | VBytes s => s
  end.

(** [fmt.Sprint(v)]; a byte slice prints as a list of numbers. *)
Fixpoint sprint_bytes (s : string) : string :=
  match s with
  | EmptyString => ""
  | String a EmptyString => fmt_d (Z.of_N (byte_of a))
  | String a s => fmt_d (Z.of_N (byte_of a)) +:+ " " +:+ sprint_bytes s
  end.

Definition fmt_sprint (v : Val) : string :=
  match v with
  | VStr s => s
  | VInt64 n => fmt_d n
  | VInt n => fmt_d n
  | VBytes s => "[" +:+ sprint_bytes s +:+ "]"
  end.

Lemma to_int_isi z : NilZero.int_of_string (NilZero.string_of_int (Z.to_int z)) = Some (Z.to_int z).
Proof.
  apply NilZero.isi; destruct z as [|p|p]; simpl; try done;
    intros [= H]; by apply DecimalPos.Unsigned.to_uint_nonnil in H.
Qed.

Lemma fmt_d_head z a s : fmt_d z = String a s -> a <> "+"%char.
Proof.
  unfold fmt_d. destruct z as [|p|p]; simpl; [by intros [= <- _]| |by intros [= <- _]].
  destruct (Pos.to_uint p); simpl; by intros [= <- _].
Qed.

Lemma fmt_d_nonempty z : fmt_d z <> "".
Proof.
  unfold fmt_d. destruct z as [|p|p]; simpl; [done| |done].
  by destruct (Pos.to_uint p).
Qed.

Lemma parse_sign_fmt_d z : parse_sign (fmt_d z) = Some (Z.to_int z).
Proof.
  destruct (fmt_d z) as [|a s] eqn:E; [by apply fmt_d_nonempty in E|].
  unfold parse_sign. apply fmt_d_head in E as Ha.
  destruct (Ascii.eqb_spec a "+") as [->|_]; [done|].
  rewrite <- E. apply to_int_isi.
Qed.

Lemma parse_fmt_d z : - 2 ^ 63 <= z < 2 ^ 63 -> parse_int64 (fmt_d z) = (z, true).
Proof.
  intros Hz. unfold parse_int64. rewrite parse_sign_fmt_d, of_to. cbv zeta.
  destruct (Z.ltb_spec z (- 2 ^ 63)); [lia|].
  destruct (Z.ltb_spec (2 ^ 63 - 1) z); [lia|done].
Qed.

(** Decimal numerals hold digits and a leading minus only. *)
Lemma uint_str_forall p d :
  (forall c, In c ["0";"1";"2";"3";"4";"5";"6";"7";"8";"9"]%char -> p c = true) ->
  str_forall p (NilEmpty.string_of_uint d) = true.
Proof.
  intros Hp. induction d; simpl; try done; rewrite IHd, Hp; simpl; tauto.
Qed.

Lemma fmt_d_forall p z :
  0 <= z ->
  (forall c, In c ["0";"1";"2";"3";"4";"5";"6";"7";"8";"9"]%char -> p c = true) ->
  str_forall p (fmt_d z) = true.
Proof.
  intros Hz Hp. unfold fmt_d. destruct z as [|n|n]; [|clear Hz|lia].
  - simpl. rewrite Hp by (simpl; tauto). done.
  - pose proof (uint_str_forall p (Pos.to_uint n) Hp) as H. simpl.
    destruct (Pos.to_uint n); simpl in *; auto.
    rewrite Hp by (simpl; tauto). done.
Qed.

(** ** The in-memory store *)

Module Mem.

(** [entry]: a value and the moment it expires; [None] is the zero time. *)
Record entry := mkEntry { value : Val; exp : option Z }.

Definition expired (e : entry) (now : Z) : bool :=
  match exp e with None => false | Some t => t <? now end.

(** The fields of [InMemoryStore] its operations read and write. *)
Record InMemoryStore := mkStore { data : gmap string entry; stopped : bool }.

Definition NewInMemoryStore : InMemoryStore := mkStore ∅ false.

Definition set_data (d : gmap string entry) (s : InMemoryStore) : InMemoryStore :=
  mkStore d (stopped s).

(** The expiry an operation at [now] gives a key: [ttl <= 0] means none. *)
Definition deadline (now ttl : Z) : option Z :=
  if 0 <? ttl then Some (now + ttl) else None.

Definition Get (now : Z) (key : string) (s : InMemoryStore) : option Val * InMemoryStore :=
  match data s !! key with
  | None => (None, s)
  | Some e =>
      if expired e now then (None, set_data (delete key (data s)) s)
      else (Some (value e), s)
  end.

Definition Take (now : Z) (key : string) (s : InMemoryStore) : option Val * InMemoryStore :=
  match data s !! key with
  | None => (None, s)
  | Some e =>
      let s' := set_data (delete key (data s)) s in
      if expired e now then (None, s') else (Some (value e), s')
  end.

Definition SetKey (now : Z) (key : string) (v : Val) (ttl : Z) (s : InMemoryStore) : InMemoryStore :=
  set_data (<[key := mkEntry v (deadline now ttl)]> (data s)) s.

Definition SetNX (now : Z) (key : string) (v : Val) (ttl : Z) (s : InMemoryStore) : bool * InMemoryStore :=
  let write := set_data (<[key := mkEntry v (deadline now ttl)]> (data s)) s in
  match data s !! key with
  | Some e => if expired e now then (true, write) else (false, s)
  | None => (true, write)
  end.

Definition IncrBy (now : Z) (key : string) (delta ttl : Z) (s : InMemoryStore) : Z * InMemoryStore :=
  let fresh := (delta, set_data (<[key := mkEntry (VInt64 delta) (deadline now ttl)]> (data s)) s) in
  match data s !! key with
  | Some e =>
      if expired e now then fresh
      else
        let current := match value e with VInt64 n => n | _ => 0 end in
        let n := int64 (current + delta) in
        (n, set_data (<[key := mkEntry (VInt64 n) (exp e)]> (data s)) s)
  | None => fresh
  end.

Definition Delete (key : string) (s : InMemoryStore) : InMemoryStore :=
  set_data (delete key (data s)) s.

Definition Renew (now : Z) (key : string) (ttl : Z) (s : InMemoryStore) : bool * InMemoryStore :=
  match data s !! key with
  | None => (false, s)
  | Some e =>
      if expired e now then (false, s)
      else (true, set_data (<[key := mkEntry (value e) (deadline now ttl)]> (data s)) s)
  end.

Definition RenewIfOwner (now : Z) (key owner : string) (ttl : Z) (s : InMemoryStore) : bool * InMemoryStore :=
  match data s !! key with
  | None => (false, s)
  | Some e =>
      if expired e now then (false, s)
      else if decide (fmt_sprint (value e) = owner) then
        (true, if 0 <? ttl
               then set_data (<[key := mkEntry (value e) (Some (now + ttl))]> (data s)) s
               else s)
      else (false, s)
  end.

Definition DeleteIfOwner (key owner : string) (s : InMemoryStore) : bool * InMemoryStore :=
  match data s !! key with
  | None => (false, s)
  | Some e =>
      if decide (fmt_sprint (value e) = owner)
      then (true, set_data (delete key (data s)) s)
      else (false, s)
  end.

Definition sweep_batch : nat := 1000.

(** The collecting loop of [sweep] over the keys in the order the map yields
    them: stop as soon as [sweep_batch] expired keys are collected. *)
Definition sweep_keep (now : Z) (s : InMemoryStore) (k : string) (acc : list string) : list string :=
  match data s !! k with
  | Some e => if expired e now then acc ++ [k] else acc
  | None => acc
  end.

Fixpoint sweep_collect (now : Z) (s : InMemoryStore) (order acc : list string) : list string :=
  match order with
  | [] => acc
  | k :: order =>
      let acc := sweep_keep now s k acc in
      if (sweep_batch <=? length acc)%nat then acc else sweep_collect now s order acc
  end.

Definition sweep (now : Z) (order : list string) (s : InMemoryStore) : InMemoryStore :=
  set_data (foldr delete (data s) (sweep_collect now s order [])) s.

Definition Close (s : InMemoryStore) : InMemoryStore :=
  if stopped s then s else mkStore (data s) true.

(** [Revoked] and [Admit] of [security.go]. *)
Definition Revoked (now : Z) (jti sid : string) (s : InMemoryStore) : bool * InMemoryStore :=
  let (j, s1) := Get now ("denylist:jti:" +:+ jti) s in
  let (f, s2) := Get now ("denylist:sid:" +:+ sid) s1 in
  (bool_decide (is_Some j) || bool_decide (is_Some f), s2).

Definition Admit (now : Z) (key : string) (limit window : Z) (s : InMemoryStore) : bool * InMemoryStore :=
  let (n, s') := IncrBy now key 1 window s in (n <=? limit, s').

(** *** What the store holds, and what a reader sees at a time *)

Definition live (now : Z) (s : InMemoryStore) (key : string) : option Val :=
  match data s !! key with
  | Some e => if expired e now then None else Some (value e)
  | None => None
  end.

End Mem.

(** ** The Redis-backed store.  The server is a map from keys to a string and
    an expiry; a Lua script runs atomically. *)

Module Redis.

Record rentry := mkR { rval : string; rexp : option Z }.

Abbreviation server := (gmap string rentry).

Definition rlive (now : Z) (k : string) (s : server) : option rentry :=
  match s !! k with
  | Some e => match rexp e with
              | Some t => if t <? now then None else Some e
              | None => Some e
              end
  | None => None
  end.

(** A relative TTL of [ms] milliseconds. *)
Definition pexpire_at (now ms : Z) : Z := now + ms * millisecond.

(** [ttl.Milliseconds()] *)
Definition ms_of (ttl : Z) : Z := Z.quot ttl millisecond.

(** The milliseconds the client sends with SET: a duration under one is rounded up
    ([formatMs]). *)
Definition px_of (ttl : Z) : Z := if (0 <? ttl) && (ttl <? millisecond) then 1 else ms_of ttl.

Definition deadline (now ttl : Z) : option Z :=
  if 0 <? ttl then Some (pexpire_at now (px_of ttl)) else None.

(** [redis.KeepTTL], one nanosecond less than nothing: the expiry stays. *)
Definition KeepTTL : Z := -1.

(** [incrWithExpireScript]; [None] is the server error of INCRBY on a value
    that is not an integer or would overflow. *)
Definition incrWithExpireScript (now : Z) (k : string) (delta ms : Z) (s : server)
    : option (Z * server) :=
  let cur := match rlive now k s with
             | None => Some (0, None)
             | Some e => let '(n, ok) := parse_int64 (rval e) in
                         if ok : bool then Some (n, rexp e) else None
             end in
  match cur with
  | None => None
  | Some (c, e) =>
      let n := c + delta in
      if (n <? - 2 ^ 63) || (2 ^ 63 - 1 <? n) then None
      else
        let e := if (0 <? ms) && (n =? delta) then Some (pexpire_at now ms) else e in
        Some (n, <[k := mkR (fmt_d n) e]> s)
  end.

Definition getDelScript (now : Z) (k : string) (s : server) : option string * server :=
  match rlive now k s with
  | Some e => (Some (rval e), delete k s)
  | None => (None, s)
  end.

Definition renewIfOwnerScript (now : Z) (k owner : string) (ms : Z) (s : server) : Z * server :=
  match rlive now k s with
  | Some e =>
      if decide (rval e = owner) then
        (1, if 0 <? ms then <[k := mkR (rval e) (Some (pexpire_at now ms))]> s else s)
      else (0, s)
  | None => (0, s)
  end.

Definition deleteIfOwnerScript (now : Z) (k owner : string) (s : server) : Z * server :=
  match rlive now k s with
  | Some e => if decide (rval e = owner) then (1, delete k s) else (0, s)
  | None => (0, s)
  end.

(** The methods of [RedisStore]; [up] tells whether the backend answers. *)
Definition Get (up : bool) (now : Z) (key : string) (s : server) : option Val * server :=
  if up then ((fun e => VStr (rval e)) <$> rlive now key s, s) else (None, s).

Definition Take (up : bool) (now : Z) (key : string) (s : server) : option Val * server :=
  if up then let (v, s') := getDelScript now key s in (VStr <$> v, s') else (None, s).

Definition SetKey (up : bool) (now : Z) (key : string) (v : Val) (ttl : Z) (s : server) : server :=
  if up then
    let e := if ttl =? KeepTTL
             then match rlive now key s with Some old => rexp old | None => None end else deadline now ttl in
    <[key := mkR (toRedisValue v) e]> s
  else s.

(** Any other negative expiry is refused by the server. *)
Definition SetNX (up : bool) (now : Z) (key : string) (v : Val) (ttl : Z) (s : server) : bool * server :=
  if up then
    if (ttl <? 0) && negb (ttl =? KeepTTL) then (false, s) else
    match rlive now key s with
    | Some _ => (false, s)
    | None => (true, <[key := mkR (toRedisValue v) (deadline now ttl)]> s)
    end
  else (false, s).

Definition IncrBy (up : bool) (now : Z) (key : string) (delta ttl : Z) (s : server) : Z * server :=
  if up then
    match incrWithExpireScript now key delta (ms_of ttl) s with
    | Some r => r
    | None => (0, s)
    end
  else (0, s).

Definition Delete (up : bool) (key : string) (s : server) : server :=
  if up then delete key s else s.

(** [s.client.Expire] sends EXPIRE, in whole seconds: a positive duration under
    a second is rounded up to one, a non-positive one deletes the key. *)
Definition expire_seconds (ttl : Z) : Z :=
  if (0 <? ttl) && (ttl <? second) then 1 else Z.quot ttl second.

Definition Renew (up : bool) (now : Z) (key : string) (ttl : Z) (s : server) : bool * server :=
  if up then
    match rlive now key s with
    | None => (false, s)
    | Some e =>
        (true, if 0 <? expire_seconds ttl
               then <[key := mkR (rval e) (Some (now + expire_seconds ttl * second))]> s
               else delete key s)
    end
  else (false, s).

Definition RenewIfOwner (up : bool) (now : Z) (key owner : string) (ttl : Z) (s : server) : bool * server :=
  if up then let (r, s') := renewIfOwnerScript now key owner (ms_of ttl) s in (r =? 1, s')
  else (false, s).

Definition DeleteIfOwner (up : bool) (now : Z) (key owner : string) (s : server) : bool * server :=
  if up then let (r, s') := deleteIfOwnerScript now key owner s in (r =? 1, s')
  else (false, s).

(** [Revoked] and [Admit] of [security.go]: [None] is a returned error. *)
Definition Revoked (up : bool) (now : Z) (jti sid : string) (s : server) : option bool :=
  if up then
    Some (bool_decide (is_Some (rlive now ("denylist:jti:" +:+ jti) s)) ||
          bool_decide (is_Some (rlive now ("denylist:sid:" +:+ sid) s)))
  else None.

Definition Admit (up : bool) (now : Z) (key : string) (limit window : Z) (s : server) : option bool * server :=
  if up then
    match incrWithExpireScript now key 1 (ms_of window) s with
    | Some (n, s') => (Some (n <=? limit), s')
    | None => (None, s)
    end
  else (None, s).

End Redis.

(** ** The [Store] interface *)

(** The Go interface [store.Store]: every operation happens at a time [now];
    the first argument says whether the backend answers. *)
Class Store := {
  kv : Type;
  kv_get : bool -> Z -> string -> kv -> option Val * kv;
  kv_take : bool -> Z -> string -> kv -> option Val * kv;
  kv_set : bool -> Z -> string -> Val -> Z -> kv -> kv;
  kv_setnx : bool -> Z -> string -> Val -> Z -> kv -> bool * kv;
  kv_incr : bool -> Z -> string -> Z -> Z -> kv -> Z * kv;
  kv_delete : bool -> string -> kv -> kv;
  (** [Revoked] of the error-aware security interface. *)
  kv_revoked : bool -> Z -> string -> string -> kv -> option bool * kv;
  (** [Admit]: key, limit, window. *)
  kv_admit : bool -> Z -> string -> Z -> Z -> kv -> option bool * kv;
  (** What a reader sees at a time (not an operation: the specification). *)
  kv_live : Z -> kv -> string -> option Val;
  (** The form in which a value is read back. *)
  kv_read : Val -> Val;
}.

(** [storeCounterValue] and [CurrentPwdVersion] read counters written as
    integers or read back as decimal strings. *)
Definition counter_of (v : Val) : Z :=
  match v with
  | VInt64 n => n
  | VInt n => n
  | VStr s => fst (parse_int64 s)
  | VBytes _ => 0
  end.

(** How long a value written at [now] with [ttl] is seen. *)
Definition seen (now ttl t : Z) : bool := negb (0 <? ttl) || (t <=? now + ttl).

(** The contract the services rely on.  [quiet]: an operation on one key does
    not change what is seen of the others from now on. *)
Definition quiet `{Store} (now : Z) (key : string) (s s' : kv) : Prop :=
  forall t k, now <= t -> k <> key -> kv_live t s' k = kv_live t s k.

Definition unchanged `{Store} (now : Z) (s s' : kv) : Prop :=
  forall t k, now <= t -> kv_live t s' k = kv_live t s k.

Class StoreLaws (S : Store) : Prop := {
  read_str : forall v, kv_read (VStr v) = VStr v;
  read_counter : forall n, - 2 ^ 63 <= n < 2 ^ 63 -> counter_of (kv_read (VInt64 n)) = n;
  get_value : forall now k s, fst (kv_get true now k s) = kv_live now s k;
  get_down : forall now k s, fst (kv_get false now k s) = None \/
                        fst (kv_get false now k s) = kv_live now s k;
  get_keeps : forall up now k s, unchanged now s (snd (kv_get up now k s));
  take_value : forall now k s, fst (kv_take true now k s) = kv_live now s k;
  take_gone : forall up now k s t v,
      now <= t -> fst (kv_take up now k s) = Some v ->
      kv_live t (snd (kv_take up now k s)) k = None;
  take_only_live : forall up now k s v,
      fst (kv_take up now k s) = Some v -> kv_live now s k = Some v;
  take_none : forall up now k s,
      fst (kv_take up now k s) = None -> unchanged now s (snd (kv_take up now k s));
  take_quiet : forall up now k s, quiet now k s (snd (kv_take up now k s));
  set_value : forall now k v ttl s t, ttl mod millisecond = 0 -> now <= t ->
      kv_live t (kv_set true now k v ttl s) k = if seen now ttl t then Some (kv_read v) else None;
  set_quiet : forall up now k v ttl s, quiet now k s (kv_set up now k v ttl s);
  setnx_wins : forall up now k v ttl s,
      fst (kv_setnx up now k v ttl s) = true -> kv_live now s k = None;
  setnx_value : forall up now k v ttl s t, ttl mod millisecond = 0 -> now <= t ->
      fst (kv_setnx up now k v ttl s) = true ->
      kv_live t (snd (kv_setnx up now k v ttl s)) k = if seen now ttl t then Some (kv_read v) else None;
  setnx_loses : forall up now k v ttl s,
      fst (kv_setnx up now k v ttl s) = false -> unchanged now s (snd (kv_setnx up now k v ttl s));
  setnx_free : forall now k v ttl s, 0 <= ttl ->
      kv_live now s k = None -> fst (kv_setnx true now k v ttl s) = true;
  setnx_quiet : forall up now k v ttl s, quiet now k s (snd (kv_setnx up now k v ttl s));
  incr_fresh : forall now k d ttl s t, ttl mod millisecond = 0 -> now <= t ->
      kv_live now s k = None -> - 2 ^ 63 <= d < 2 ^ 63 ->
      fst (kv_incr true now k d ttl s) = d /\
      kv_live t (snd (kv_incr true now k d ttl s)) k =
        if seen now ttl t then Some (kv_read (VInt64 d)) else None;
  incr_next : forall now k d ttl s n, n <> 0 ->
      kv_live now s k = Some (kv_read (VInt64 n)) ->
      - 2 ^ 63 <= n < 2 ^ 63 -> - 2 ^ 63 <= n + d < 2 ^ 63 ->
      fst (kv_incr true now k d ttl s) = n + d /\
      forall t, now <= t ->
        kv_live t (snd (kv_incr true now k d ttl s)) k =
        (fun _ => kv_read (VInt64 (n + d))) <$> kv_live t s k;
  incr_quiet : forall up now k d ttl s, quiet now k s (snd (kv_incr up now k d ttl s));
  delete_gone : forall k s t, kv_live t (kv_delete true k s) k = None;
  delete_shrinks : forall up k s t, kv_live t s k = None -> kv_live t (kv_delete up k s) k = None;
  delete_keeps : forall up k s t k', k' <> k -> kv_live t (kv_delete up k s) k' = kv_live t s k';
  revoked_value : forall now j f s,
      fst (kv_revoked true now j f s) =
      Some (bool_decide (is_Some (kv_live now s ("denylist:jti:" +:+ j))) ||
            bool_decide (is_Some (kv_live now s ("denylist:sid:" +:+ f))));
  revoked_down : forall now j f s, fst (kv_revoked false now j f s) = None \/
      fst (kv_revoked false now j f s) = fst (kv_revoked true now j f s);
  revoked_keeps : forall up now j f s, unchanged now s (snd (kv_revoked up now j f s));
  admit_counts : forall now k l d s b, fst (kv_admit true now k l d s) = Some b ->
      b = (fst (kv_incr true now k 1 d s) <=? l) /\
      snd (kv_admit true now k l d s) = snd (kv_incr true now k 1 d s);
  admit_quiet : forall up now k l d s, quiet now k s (snd (kv_admit up now k l d s));
}.

(** The in-memory store does not depend on a backend. *)
#[export] Instance mem_store : Store := {|
  kv := Mem.InMemoryStore;
  kv_get _ := Mem.Get;
  kv_take _ := Mem.Take;
  kv_set _ := Mem.SetKey;
  kv_setnx _ := Mem.SetNX;
  kv_incr _ := Mem.IncrBy;
  kv_delete _ := Mem.Delete;
  kv_revoked _ now j f s := let (b, s') := Mem.Revoked now j f s in (Some b, s');
  kv_admit _ now k l d s := let (b, s') := Mem.Admit now k l d s in (Some b, s');
  kv_live := Mem.live;
  kv_read v := v;
|}.

Definition redis_store : Store := {|
  kv := Redis.server;
  kv_get := Redis.Get;
  kv_take := Redis.Take;
  kv_set := Redis.SetKey;
  kv_setnx := Redis.SetNX;
  kv_incr := Redis.IncrBy;
  kv_delete := Redis.Delete;
  kv_revoked up now j f s := (Redis.Revoked up now j f s, s);
  kv_admit := Redis.Admit;
  kv_live now s k := (fun e => VStr (Redis.rval e)) <$> Redis.rlive now k s;
  kv_read v := VStr (toRedisValue v);
|}.

(** *** The in-memory store satisfies the contract *)

Module MemFacts.
Import Mem.

Lemma live_insert t key e s :
  live t (set_data (<[key := e]> (data s)) s) key = if expired e t then None else Some (value e).
Proof. unfold live. simpl. by rewrite lookup_insert_eq. Qed.

Lemma live_insert_ne t key k e s :
  k <> key -> live t (set_data (<[key := e]> (data s)) s) k = live t s k.
Proof. intros H. unfold live. simpl. by rewrite lookup_insert_ne. Qed.

Lemma live_delete t key s : live t (set_data (delete key (data s)) s) key = None.
Proof. unfold live. simpl. by rewrite lookup_delete_eq. Qed.

Lemma live_delete_ne t key k s :
  k <> key -> live t (set_data (delete key (data s)) s) k = live t s k.
Proof. intros H. unfold live. simpl. by rewrite lookup_delete_ne. Qed.

Lemma expired_mono e now t : now <= t -> expired e now = true -> expired e t = true.
Proof. unfold expired. destruct (exp e); [|done]. intros ? H. bool_prop. apply Z.ltb_lt. lia. Qed.

Lemma expired_deadline v now ttl t :
  now <= t -> expired (mkEntry v (deadline now ttl)) t = negb (seen now ttl t).
Proof.
  intros Ht. unfold expired, deadline, seen. simpl. destruct (0 <? ttl) eqn:E; simpl; [|done].
  destruct (Z.ltb_spec (now + ttl) t), (Z.leb_spec t (now + ttl)); try done; lia.
Qed.

(** Dropping an expired key is not observable. *)
Lemma live_drop t now key s e :
  now <= t -> data s !! key = Some e -> expired e now = true ->
  forall k, live t (set_data (delete key (data s)) s) k = live t s k.
Proof.
  intros Ht He Hx k. destruct (decide (k = key)) as [->|Hk].
  - rewrite live_delete. unfold live. rewrite He. by rewrite (expired_mono e now t).
  - by apply live_delete_ne.
Qed.

Lemma get_spec now k s :
  fst (Get now k s) = live now s k /\ unchanged now s (snd (Get now k s)).
Proof.
  unfold Get. destruct (data s !! k) as [e|] eqn:He.
  - destruct (expired e now) eqn:Hx; simpl; unfold live at 1; rewrite He, Hx; split; try done.
    intros t k' Ht. by apply (live_drop t now k s e).
  - unfold live at 1. rewrite He. done.
Qed.

Lemma take_spec now k s :
  fst (Take now k s) = live now s k /\
  (forall t v, now <= t -> fst (Take now k s) = Some v -> live t (snd (Take now k s)) k = None) /\
  quiet now k s (snd (Take now k s)).
Proof.
  unfold Take. destruct (data s !! k) as [e|] eqn:He.
  - assert (quiet now k s (set_data (delete k (data s)) s)) as Hq.
    { intros t k' _ Hk. by apply live_delete_ne. }
    unfold live at 1. rewrite He. destruct (expired e now); simpl; repeat split; try done.
    intros t v _ _. apply live_delete.
  - unfold live at 1. rewrite He. done.
Qed.

Lemma take_none_spec now k s : fst (Take now k s) = None -> unchanged now s (snd (Take now k s)).
Proof.
  unfold Take. destruct (data s !! k) as [e|] eqn:He; [|done].
  destruct (expired e now) eqn:Hx; [|done]. intros _ t k' Ht. by apply (live_drop t now k s e).
Qed.

Lemma write_spec now k v ttl s t :
  now <= t ->
  live t (set_data (<[k := mkEntry v (deadline now ttl)]> (data s)) s) k =
  if seen now ttl t then Some v else None.
Proof.
  intros Ht. rewrite live_insert, expired_deadline by done.
  by destruct (seen now ttl t).
Qed.

Lemma write_quiet now k e s :
  quiet now k s (set_data (<[k := e]> (data s)) s).
Proof. intros t k' _ Hk. by apply live_insert_ne. Qed.

Lemma setnx_cases now k v ttl s :
  (live now s k = None /\ SetNX now k v ttl s =
     (true, set_data (<[k := mkEntry v (deadline now ttl)]> (data s)) s)) \/
  (is_Some (live now s k) /\ SetNX now k v ttl s = (false, s)).
Proof.
  unfold SetNX, live. destruct (data s !! k) as [e|]; [|by left].
  destruct (expired e now); [by left|right]. by split; [eexists|].
Qed.

Lemma incr_cases now k d ttl s :
  (live now s k = None /\ IncrBy now k d ttl s =
     (d, set_data (<[k := mkEntry (VInt64 d) (deadline now ttl)]> (data s)) s)) \/
  (exists e, data s !! k = Some e /\ expired e now = false /\
     let n := int64 (match value e with VInt64 n => n | _ => 0 end + d) in
     IncrBy now k d ttl s = (n, set_data (<[k := mkEntry (VInt64 n) (exp e)]> (data s)) s)).
Proof.
  unfold IncrBy, live. destruct (data s !! k) as [e|]; [|by left].
  destruct (expired e now) eqn:Hx; [by left|right]. eauto.
Qed.

Lemma incr_next_spec now k d ttl s n :
  live now s k = Some (VInt64 n) -> - 2 ^ 63 <= n + d < 2 ^ 63 ->
  fst (IncrBy now k d ttl s) = n + d /\
  forall t, now <= t ->
    live t (snd (IncrBy now k d ttl s)) k = (fun _ => VInt64 (n + d)) <$> live t s k.
Proof.
  intros Hl Hr. destruct (incr_cases now k d ttl s) as [[Hn _]|(e & He & Hx & ->)]; [congruence|].
  unfold live in Hl. rewrite He, Hx in Hl. injection Hl as ->. rewrite int64_id by done.
  split; [done|]. intros t Ht. cbn [snd]. rewrite live_insert. unfold live. rewrite He.
  unfold expired. simpl. by destruct (exp e) as [x|]; [destruct (x <? t)|].
Qed.

Lemma mem_laws : StoreLaws mem_store.
Proof.
  split; simpl; try done.
  - intros now k s. apply get_spec.
  - intros now k s. right. apply get_spec.
  - intros _ now k s. apply get_spec.
  - intros now k s. apply take_spec.
  - intros _ now k s t v. apply take_spec.
  - intros _ now k s v <-. symmetry. apply take_spec.
  - intros _ now k s. apply take_none_spec.
  - intros _ now k s. apply take_spec.
  - intros now k v ttl s t _ Ht. by apply write_spec.
  - intros _ now k v ttl s. apply write_quiet.
  - intros _ now k v ttl s H. destruct (setnx_cases now k v ttl s) as [[? _]|[_ Hs]]; [done|].
    by rewrite Hs in H.
  - intros _ now k v ttl s t _ Ht H.
    destruct (setnx_cases now k v ttl s) as [[_ Hs]|[_ Hs]]; rewrite Hs in *; [|done].
    by apply write_spec.
  - intros _ now k v ttl s H.
    destruct (setnx_cases now k v ttl s) as [[_ Hs]|[_ Hs]]; by rewrite Hs in *.
  - intros now k v ttl s H.
    destruct (setnx_cases now k v ttl s) as [[_ ->]|[[? ?] _]]; [done|congruence].
  - intros _ now k v ttl s. destruct (setnx_cases now k v ttl s) as [[_ ->]|[_ ->]]; [|done].
    apply write_quiet.
  - intros now k d ttl s t _ Ht Hl _.
    destruct (incr_cases now k d ttl s) as [[_ ->]|(e & He & Hx & _)].
    + split; [done|]. by apply write_spec.
    + unfold live in Hl. rewrite He, Hx in Hl. done.
  - intros now k d ttl s n _ Hl _ Hr. by apply incr_next_spec.
  - intros _ now k d ttl s. destruct (incr_cases now k d ttl s) as [[_ ->]|(e & _ & _ & ->)];
      apply write_quiet.
  - intros k s t. apply live_delete.
  - intros _ k s t _. apply live_delete.
  - intros _ k s t k' Hk. by apply live_delete_ne.
  - intros now j f s. unfold Revoked. destruct (Get now _ s) as [a s1] eqn:E1.
    destruct (Get now ("denylist:sid:" +:+ f) s1) as [b s2] eqn:E2. simpl.
    pose proof (get_spec now ("denylist:jti:" +:+ j) s) as [H1 H2].
    pose proof (get_spec now ("denylist:sid:" +:+ f) s1) as [H3 _].
    rewrite E1 in *. rewrite E2 in *. simpl in *. subst. by rewrite (H2 now) by lia.
  - intros now j f s. by right.
  - intros _ now j f s. unfold Revoked. destruct (Get now _ s) as [a s1] eqn:E1.
    destruct (Get now ("denylist:sid:" +:+ f) s1) as [b s2] eqn:E2. simpl.
    pose proof (get_spec now ("denylist:jti:" +:+ j) s) as [_ H2].
    pose proof (get_spec now ("denylist:sid:" +:+ f) s1) as [_ H4].
    rewrite E1 in *. rewrite E2 in *. simpl in *.
    intros t k Ht. by rewrite (H4 t k Ht), (H2 t k Ht).
  - intros now k l d s b. unfold Admit. destruct (IncrBy _ _ _ _ _). by intros [= <-].
  - intros _ now k l d s. unfold Admit. destruct (incr_cases now k 1 d s) as [[_ ->]|(e & _ & _ & ->)];
      apply write_quiet.
Qed.

End MemFacts.

(** *** So does the Redis store, whatever the backend does *)

Module RedisFacts.
Import Redis.

Lemma rlive_insert t k e s :
  rlive t k (<[k := e]> s) =
  match rexp e with Some x => if x <? t then None else Some e | None => Some e end.
Proof. unfold rlive. by rewrite lookup_insert_eq. Qed.

Lemma rlive_insert_ne t k k' e s : k' <> k -> rlive t k' (<[k := e]> s) = rlive t k' s.
Proof. intros H. unfold rlive. by rewrite lookup_insert_ne. Qed.

Lemma rlive_delete t k s : rlive t k (delete k s) = None.
Proof. unfold rlive. by rewrite lookup_delete_eq. Qed.

Lemma rlive_delete_ne t k k' s : k' <> k -> rlive t k' (delete k s) = rlive t k' s.
Proof. intros H. unfold rlive. by rewrite lookup_delete_ne. Qed.

Lemma ms_whole ttl : 0 < ttl -> ttl mod millisecond = 0 -> ms_of ttl * millisecond = ttl.
Proof.
  intros Hp H. unfold ms_of. rewrite Z.quot_div_nonneg by (unfold millisecond; lia).
  pose proof (Z.div_mod ttl millisecond). unfold millisecond in *. lia.
Qed.

Lemma px_whole ttl : ttl mod millisecond = 0 -> px_of ttl = ms_of ttl.
Proof.
  intros H. unfold px_of. destruct (Z.ltb_spec 0 ttl), (Z.ltb_spec ttl millisecond); try done.
  rewrite Z.mod_small in H by lia. lia.
Qed.

Lemma not_keep ttl : ttl mod millisecond = 0 -> (ttl =? KeepTTL) = false.
Proof. intros H. apply Z.eqb_neq. by intros ->. Qed.

Lemma rlive_write now k str ttl s t :
  ttl mod millisecond = 0 ->
  rlive t k (<[k := mkR str (deadline now ttl)]> s) =
  if seen now ttl t then Some (mkR str (deadline now ttl)) else None.
Proof.
  intros Hm. rewrite rlive_insert. unfold deadline, seen, pexpire_at. simpl.
  destruct (0 <? ttl) eqn:E; simpl; [|done]. bool_prop. rewrite px_whole, ms_whole by done.
  destruct (Z.ltb_spec (now + ttl) t), (Z.leb_spec t (now + ttl)); try done; lia.
Qed.

Lemma getdel_cases now k s :
  (rlive now k s = None /\ getDelScript now k s = (None, s)) \/
  (exists e, rlive now k s = Some e /\ getDelScript now k s = (Some (rval e), delete k s)).
Proof. unfold getDelScript. destruct (rlive now k s); eauto. Qed.

Lemma incr_script_fresh now k d ms s :
  rlive now k s = None -> - 2 ^ 63 <= d < 2 ^ 63 ->
  incrWithExpireScript now k d ms s =
  Some (d, <[k := mkR (fmt_d d) (if 0 <? ms then Some (pexpire_at now ms) else None)]> s).
Proof.
  intros Hl Hd. unfold incrWithExpireScript. rewrite Hl, Z.add_0_l. cbv zeta.
  destruct (Z.ltb_spec d (- 2 ^ 63)); [lia|]. destruct (Z.ltb_spec (2 ^ 63 - 1) d); [lia|].
  rewrite Z.eqb_refl, andb_true_r. done.
Qed.

Lemma incr_script_next now k d ms s n e :
  n <> 0 -> rlive now k s = Some e -> rval e = fmt_d n ->
  - 2 ^ 63 <= n < 2 ^ 63 -> - 2 ^ 63 <= n + d < 2 ^ 63 ->
  incrWithExpireScript now k d ms s = Some (n + d, <[k := mkR (fmt_d (n + d)) (rexp e)]> s).
Proof.
  intros Hn Hl Hv Hr Hd. unfold incrWithExpireScript. rewrite Hl, Hv, parse_fmt_d by done.
  cbv zeta. destruct (Z.ltb_spec (n + d) (- 2 ^ 63)); [lia|].
  destruct (Z.ltb_spec (2 ^ 63 - 1) (n + d)); [lia|]. simpl.
  destruct (Z.eqb_spec (n + d) d); [lia|]. by rewrite andb_false_r.
Qed.

Lemma incr_quiet_raw up now k d ttl s t k' :
  k' <> k -> rlive t k' (snd (IncrBy up now k d ttl s)) = rlive t k' s.
Proof.
  intros Hk. unfold IncrBy. destruct up; [|done].
  destruct (incrWithExpireScript now k d (ms_of ttl) s) as [[n s']|] eqn:E; [|done].
  unfold incrWithExpireScript in E. repeat case_match; simplify_eq; by apply rlive_insert_ne.
Qed.

Lemma ms_of_pos ttl : ttl mod millisecond = 0 -> (0 <? ms_of ttl) = (0 <? ttl).
Proof.
  intros H. unfold ms_of. destruct (Z.ltb_spec 0 ttl) as [Hp|Hp].
  - apply Z.ltb_lt. pose proof (ms_whole ttl Hp H) as Hm. unfold ms_of in Hm.
    unfold millisecond in *. nia.
  - apply Z.ltb_ge. pose proof (Z.quot_opp_l ttl millisecond) as Ho.
    assert (0 <= Z.quot (- ttl) millisecond) by (apply Z.quot_pos; unfold millisecond; lia).
    unfold millisecond in *. lia.
Qed.

Lemma rsetnx_cases now k v ttl s :
  (rlive now k s = None /\ SetNX true now k v ttl s =
     (true, <[k := mkR (toRedisValue v) (deadline now ttl)]> s)) \/
  ((ttl < 0 \/ is_Some (rlive now k s)) /\ SetNX true now k v ttl s = (false, s)).
Proof.
  unfold SetNX. destruct (Z.ltb_spec ttl 0), (negb _); simpl; [by right; auto|..];
    destruct (rlive now k s) eqn:E; (right; by eauto) || (left; by eauto).
Qed.

Lemma redis_laws : StoreLaws redis_store.
Proof.
  split; simpl; try done.
  - intros n Hn. by rewrite parse_fmt_d.
  - intros now k s. by left.
  - by intros [] now k s.
  - intros now k s. unfold Take.
    destruct (getdel_cases now k s) as [[-> ->]|(e & -> & ->)]; done.
  - intros [] now k s t v _; unfold Take; [|done].
    destruct (getdel_cases now k s) as [[_ ->]|(e & _ & ->)]; [done|]. simpl. by rewrite rlive_delete.
  - intros [] now k s v; unfold Take; [|done].
    destruct (getdel_cases now k s) as [[_ ->]|(e & -> & ->)]; [done|]. done.
  - intros [] now k s; unfold Take; [|done].
    destruct (getdel_cases now k s) as [[_ ->]|(e & _ & ->)]; done.
  - intros [] now k s t k' _ Hk; unfold Take; [|done].
    destruct (getdel_cases now k s) as [[_ ->]|(e & _ & ->)]; [done|]. simpl.
    by rewrite rlive_delete_ne.
  - intros now k v ttl s t Hm Ht. unfold SetKey. rewrite not_keep, rlive_write by done. by destruct (seen now ttl t).
  - intros [] now k v ttl s t k' _ Hk; simpl; [|done]. by rewrite rlive_insert_ne.
  - intros [] now k v ttl s H; [|done].
    destruct (rsetnx_cases now k v ttl s) as [[-> _]|[_ Hs]]; [done|]. by rewrite Hs in H.
  - intros [] now k v ttl s t Hm Ht H; [|done].
    destruct (rsetnx_cases now k v ttl s) as [[_ Hs]|[_ Hs]]; rewrite Hs in *; [|done]. simpl.
    rewrite rlive_write by done. by destruct (seen now ttl t).
  - intros [] now k v ttl s H; [|done].
    destruct (rsetnx_cases now k v ttl s) as [[_ Hs]|[_ Hs]]; by rewrite Hs in *.
  - intros now k v ttl s H0 H. apply fmap_None in H. destruct (Z.ltb_spec ttl 0); [lia|]. simpl. by rewrite H.
  - intros [] now k v ttl s t k' _ Hk; [|done].
    destruct (rsetnx_cases now k v ttl s) as [[_ ->]|[_ ->]]; [|done]. simpl. by rewrite rlive_insert_ne.
  - intros now k d ttl s t Hm Ht Hl Hd. unfold IncrBy.
    apply fmap_None in Hl. rewrite incr_script_fresh by done. split; [done|]. simpl.
    rewrite ms_of_pos, <- (px_whole ttl) by done. fold (deadline now ttl). rewrite rlive_write by done.
    by destruct (seen now ttl t).
  - intros now k d ttl s n Hn Hl Hr Hd. apply fmap_Some in Hl as (e & Hl & Hv).
    injection Hv as Hv. unfold IncrBy. rewrite (incr_script_next _ _ _ _ _ n e) by done.
    split; [done|]. intros t Ht. simpl. rewrite rlive_insert. simpl.
    unfold rlive in *. destruct (s !! k) as [e'|]; [|done].
    destruct (rexp e') as [x|] eqn:Ex; [destruct (x <? now); [done|]|];
      simplify_eq; rewrite Ex; [by destruct (x <? t)|done].
  - intros up now k d ttl s t k' _ Hk. exact (f_equal _ (incr_quiet_raw up now k d ttl s t k' Hk)).
  - intros k s t. simpl. by rewrite rlive_delete.
  - intros [] k s t; simpl; [|done]. by rewrite rlive_delete.
  - intros [] k s t k' Hk; [|done]. simpl. by rewrite rlive_delete_ne.
  - intros now j f s. f_equal. f_equal; apply bool_decide_ext; by rewrite fmap_is_Some.
  - intros now j f s. by left.
  - intros now k l d s b. unfold Admit, IncrBy. by destruct (incrWithExpireScript _ _ _ _ _) as [[n s']|]; [intros [= <-]|].
  - intros up now k l d s t k' Ht Hk.
    replace (snd (Admit up now k l d s)) with (snd (IncrBy up now k 1 d s));
      [exact (f_equal _ (incr_quiet_raw up now k 1 d s t k' Hk))|].
    unfold Admit, IncrBy. destruct up; [|done]. by destruct (incrWithExpireScript _ _ _ _ _) as [[n s']|].
Qed.

End RedisFacts.

#[export] Existing Instance MemFacts.mem_laws.
#[export] Existing Instance RedisFacts.redis_laws.
