(* ===== verification/StoreSpec.v ===== *)
(** * What the key-value store promises

    The abstract specification of [store.Store] (a map from keys to a value and
    the moment it expires), traces of requests against an implementation, and
    the theorems: every lawful implementation refines the specification, the
    sweeper is not observable, a staged value is consumed once, a single-use
    marker is claimed once per window, and a counter counts a fixed window. *)

From S2P Require Import Prelude Store.

Open Scope Z_scope.

Inductive Req :=
  | RGet (key : string)
  | RTake (key : string)
  | RSet (key : string) (v : Val) (ttl : Z)
  | RSetNX (key : string) (v : Val) (ttl : Z)
  | RIncr (key : string) (delta ttl : Z)
  | RDelete (key : string).

Inductive Resp :=
  | AVal (v : option Val)
  | ABool (b : bool)
  | AInt (n : Z)
  | AUnit.

(** One request: whether the backend answers, when, and what. *)
Record Call := mkCall { c_up : bool; c_now : Z; c_req : Req }.

Definition exec `{Store} (c : Call) (s : kv) : Resp * kv :=
  match c_req c with
  | RGet k => let (v, s') := kv_get (c_up c) (c_now c) k s in (AVal v, s')
  | RTake k => let (v, s') := kv_take (c_up c) (c_now c) k s in (AVal v, s')
  | RSet k v ttl => (AUnit, kv_set (c_up c) (c_now c) k v ttl s)
  | RSetNX k v ttl => let (b, s') := kv_setnx (c_up c) (c_now c) k v ttl s in (ABool b, s')
  | RIncr k d ttl => let (n, s') := kv_incr (c_up c) (c_now c) k d ttl s in (AInt n, s')
  | RDelete k => (AUnit, kv_delete (c_up c) k s)
  end.

Fixpoint run `{Store} (cs : list Call) (s : kv) : list Resp * kv :=
  match cs with
  | [] => ([], s)
  | c :: cs => let (r, s1) := exec c s in let (rs, s2) := run cs s1 in (r :: rs, s2)
  end.

Definition req_key (r : Req) : string :=
  match r with
  | RGet k | RTake k | RSet k _ _ | RSetNX k _ _ | RIncr k _ _ | RDelete k => k
  end.

(** ** The specification *)

Definition spec := gmap string (Val * option Z).

Definition spec_live (t : Z) (m : gmap string (Val * option Z)) (k : string) : option Val :=
  match m !! k with
  | Some (v, Some x) => if x <? t then None else Some v
  | Some (v, None) => Some v
  | None => None
  end.

Definition spec_exp (now ttl : Z) : option Z := if 0 <? ttl then Some (now + ttl) else None.

Definition spec_exec (now : Z) (r : Req) (m : gmap string (Val * option Z))
    : Resp * gmap string (Val * option Z) :=
  match r with
  | RGet k => (AVal (spec_live now m k), m)
  | RTake k => (AVal (spec_live now m k), delete k m)
  | RSet k v ttl => (AUnit, <[k := (v, spec_exp now ttl)]> m)
  | RSetNX k v ttl =>
      match spec_live now m k with
      | Some _ => (ABool false, m)
      | None => (ABool true, <[k := (v, spec_exp now ttl)]> m)
      end
  | RIncr k d ttl =>
      match spec_live now m k, m !! k with
      | Some v, Some (_, x) => (AInt (counter_of v + d), <[k := (VInt64 (counter_of v + d), x)]> m)
      | _, _ => (AInt d, <[k := (VInt64 d, spec_exp now ttl)]> m)
      end
  | RDelete k => (AUnit, delete k m)
  end.

(** The requests the specification speaks about: durations are whole milliseconds,
    that of a [SetNX] is not negative, and a counter key holds a nonzero [int64] and
    stays in range. *)
Definition admissible (now : Z) (r : Req) (m : gmap string (Val * option Z)) : Prop :=
  match r with
  | RSet _ _ ttl => ttl mod millisecond = 0
  | RSetNX _ _ ttl => ttl mod millisecond = 0 /\ 0 <= ttl
  | RIncr k d ttl =>
      ttl mod millisecond = 0 /\
      match spec_live now m k with
      | None => - 2 ^ 63 <= d < 2 ^ 63
      | Some (VInt64 n) => n <> 0 /\ - 2 ^ 63 <= n < 2 ^ 63 /\ - 2 ^ 63 <= n + d < 2 ^ 63
      | Some _ => False
      end
  | _ => True
  end.

Fixpoint spec_run (cs : list Call) (m : gmap string (Val * option Z)) : list Resp :=
  match cs with
  | [] => []
  | c :: cs => let (r, m') := spec_exec (c_now c) (c_req c) m in r :: spec_run cs m'
  end.

(** Requests answered by a working backend, in time order from [t0] on. *)
Fixpoint admissible_run (t0 : Z) (cs : list Call) (m : gmap string (Val * option Z)) : Prop :=
  match cs with
  | [] => True
  | c :: cs =>
      t0 <= c_now c /\ c_up c = true /\ admissible (c_now c) (c_req c) m /\
      admissible_run (c_now c) cs (snd (spec_exec (c_now c) (c_req c) m))
  end.

(** A value is read back in the form of the implementation. *)
Definition read_resp `{Store} (r : Resp) : Resp :=
  match r with AVal v => AVal (kv_read <$> v) | r => r end.

(** ** Counting answers in a trace *)

Fixpoint in_order (t0 : Z) (cs : list Call) : Prop :=
  match cs with
  | [] => True
  | c :: cs => t0 <= c_now c /\ in_order (c_now c) cs
  end.

Definition writes (k : string) (r : Req) : Prop :=
  match r with
  | RSet k' _ _ | RSetNX k' _ _ | RIncr k' _ _ => k' = k
  | _ => False
  end.

(** A key used as a claim: it is only written by [SetNX], for at least [W]. *)
Definition only_claims (k : string) (W : Z) (r : Req) : Prop :=
  match r with
  | RSetNX k' _ ttl => k' = k -> ttl mod millisecond = 0 /\ (ttl <= 0 \/ W <= ttl)
  | RGet _ => True
  | RTake k' | RSet k' _ _ | RIncr k' _ _ | RDelete k' => k' <> k
  end.

(** Increments of a counter key at the given times. *)
Definition incrs (k : string) (ttl : Z) (ts : list Z) : list Call :=
  map (fun t => mkCall true t (RIncr k 1 ttl)) ts.

Definition taken (k : string) (c : Call) (a : Resp) : nat :=
  match c_req c, a with
  | RTake k', AVal (Some _) => if decide (k' = k) then 1 else 0
  | _, _ => 0
  end.

Definition claimed (k : string) (c : Call) (a : Resp) : nat :=
  match c_req c, a with
  | RSetNX k' _ _, ABool true => if decide (k' = k) then 1 else 0
  | _, _ => 0
  end.

Fixpoint tally (f : Call -> Resp -> nat) (cs : list Call) (rs : list Resp) : nat :=
  match cs, rs with
  | c :: cs, r :: rs => (f c r + tally f cs rs)%nat
  | _, _ => 0%nat
  end.

(** ** Refinement *)

Section Refinement.
Context {ST : Store} {L : StoreLaws ST}.

Definition sim (t0 : Z) (s : kv) (m : gmap string (Val * option Z)) : Prop :=
  forall t k, t0 <= t -> kv_live t s k = kv_read <$> spec_live t m k.

Lemma spec_live_insert t k v x m :
  spec_live t (<[k := (v, x)]> m) k =
  match x with Some y => if y <? t then None else Some v | None => Some v end.
Proof. unfold spec_live. by rewrite lookup_insert_eq. Qed.

Lemma spec_live_ne t k k' v m :
  k' <> k -> spec_live t (<[k := v]> m) k' = spec_live t m k'.
Proof. intros H. unfold spec_live. by rewrite lookup_insert_ne. Qed.

Lemma spec_live_delete t k m : spec_live t (delete k m) k = None.
Proof. unfold spec_live. by rewrite lookup_delete_eq. Qed.

Lemma spec_live_delete_ne t k k' m : k' <> k -> spec_live t (delete k m) k' = spec_live t m k'.
Proof. intros H. unfold spec_live. by rewrite lookup_delete_ne. Qed.

Lemma spec_live_written t now k v ttl m :
  spec_live t (<[k := (v, spec_exp now ttl)]> m) k = if seen now ttl t then Some v else None.
Proof.
  rewrite spec_live_insert. unfold spec_exp, seen. destruct (0 <? ttl); simpl; [|done].
  destruct (Z.ltb_spec (now + ttl) t), (Z.leb_spec t (now + ttl)); try done; lia.
Qed.

Lemma sim_later t0 t1 s m : t0 <= t1 -> sim t0 s m -> sim t1 s m.
Proof. intros H Hs t k Ht. apply Hs. lia. Qed.

(** One key written on both sides, the others untouched. *)
Lemma sim_write now k s s' m v x :
  sim now s m -> quiet now k s s' ->
  (forall t, now <= t -> kv_live t s' k = kv_read <$> spec_live t (<[k := (v, x)]> m) k) ->
  sim now s' (<[k := (v, x)]> m).
Proof.
  intros Hs Hq Hk t k' Ht. destruct (decide (k' = k)) as [->|Hne]; [by apply Hk|].
  rewrite (Hq t k') by done. rewrite spec_live_ne by done. by apply Hs.
Qed.

Lemma spec_live_Some_lookup now m k v :
  spec_live now m k = Some v -> exists x, m !! k = Some (v, x) /\
    forall t, now <= t -> forall v', spec_live t (<[k := (v', x)]> m) k = (fun _ => v') <$> spec_live t m k.
Proof.
  unfold spec_live. destruct (m !! k) as [[w [x|]]|] eqn:E; [|intros [= ->]|done].
  - destruct (x <? now) eqn:Ex; [done|]. intros [= ->]. exists (Some x). split; [done|].
    intros t Ht v'. rewrite lookup_insert_eq. by destruct (x <? t).
  - exists None. split; [done|]. intros t Ht v'. by rewrite lookup_insert_eq.
Qed.

Lemma exec_write now k v ttl s s' m :
  ttl mod millisecond = 0 -> sim now s m -> quiet now k s s' ->
  (forall t, now <= t -> kv_live t s' k = if seen now ttl t then Some (kv_read v) else None) ->
  sim now s' (<[k := (v, spec_exp now ttl)]> m).
Proof.
  intros Hm Hs Hq Hk. apply sim_write with s; [done..|]. intros t Ht.
  rewrite Hk, spec_live_written by done. by destruct (seen now ttl t).
Qed.

Lemma exec_delete now k s s' m :
  sim now s m -> quiet now k s s' -> (forall t, now <= t -> kv_live t s' k = None) ->
  sim now s' (delete k m).
Proof.
  intros Hs Hq Hk t k' Ht. destruct (decide (k' = k)) as [->|Hne].
  - by rewrite spec_live_delete, Hk.
  - rewrite (Hq t k'), spec_live_delete_ne by done. by apply Hs.
Qed.

Lemma spec_live_later now t m k : now <= t -> spec_live now m k = None -> spec_live t m k = None.
Proof.
  intros Ht. unfold spec_live. destruct (m !! k) as [[v [x|]]|]; [|done|done].
  destruct (Z.ltb_spec x now), (Z.ltb_spec x t); try done; lia.
Qed.

Lemma spec_incr_fresh now k d ttl m :
  spec_live now m k = None ->
  spec_exec now (RIncr k d ttl) m = (AInt d, <[k := (VInt64 d, spec_exp now ttl)]> m).
Proof. intros H. unfold spec_exec. by rewrite H. Qed.

Lemma spec_incr_next now k d ttl m v x :
  spec_live now m k = Some v -> m !! k = Some (v, x) ->
  spec_exec now (RIncr k d ttl) m =
  (AInt (counter_of v + d), <[k := (VInt64 (counter_of v + d), x)]> m).
Proof. intros H Hx. unfold spec_exec. by rewrite H, Hx. Qed.

Lemma exec_incr now k d ttl s m :
  sim now s m -> admissible now (RIncr k d ttl) m ->
  AInt (fst (kv_incr true now k d ttl s)) = fst (spec_exec now (RIncr k d ttl) m) /\
  sim now (snd (kv_incr true now k d ttl s)) (snd (spec_exec now (RIncr k d ttl) m)).
Proof.
  intros Hs [Hm Ha]. pose proof (Hs now k (Z.le_refl _)) as Hl.
  pose proof (incr_quiet true now k d ttl s) as Hq.
  destruct (spec_live now m k) as [v|] eqn:E.
  - destruct v as [n| | |]; try done. destruct Ha as (Hn & Hr & Hd).
    destruct (spec_live_Some_lookup _ _ _ _ E) as (x & Hx & Hup).
    rewrite (spec_incr_next _ _ _ _ _ _ _ E Hx). simpl in Hl.
    destruct (incr_next now k d ttl s n Hn Hl Hr Hd) as [-> Hv]. cbn [fst snd counter_of].
    split; [done|]. apply sim_write with s; [done..|]. intros t Ht.
    rewrite (Hv t Ht), (Hup t Ht), (Hs t k Ht). by destruct (spec_live t m k).
  - rewrite (spec_incr_fresh _ _ _ _ _ E).
    destruct (incr_fresh now k d ttl s now Hm (Z.le_refl _) Hl Ha) as [-> _].
    split; [done|]. apply exec_write with s; [done..|].
    intros t Ht. by apply (incr_fresh now k d ttl s t).
Qed.

Lemma exec_sim t0 c s m :
  sim t0 s m -> t0 <= c_now c -> c_up c = true -> admissible (c_now c) (c_req c) m ->
  fst (exec c s) = read_resp (fst (spec_exec (c_now c) (c_req c) m)) /\
  sim (c_now c) (snd (exec c s)) (snd (spec_exec (c_now c) (c_req c) m)).
Proof.
  intros Hs0 Ht Hu Ha. pose proof (sim_later _ _ _ _ Ht Hs0) as Hs. clear Hs0 Ht t0.
  destruct c as [up now r]. simpl in *. subst up.
  destruct r as [k|k|k v ttl|k v ttl|k d ttl|k]; unfold exec; cbn [c_req c_up c_now].
  - pose proof (get_value now k s) as Hv. pose proof (get_keeps true now k s) as Hk.
    destruct (kv_get true now k s) as [o s']. simpl in *. subst o. split.
    + by rewrite Hs.
    + intros t k' Ht. rewrite Hk by done. by apply Hs.
  - pose proof (take_value now k s) as Hv. pose proof (take_quiet true now k s) as Hq.
    pose proof (take_none true now k s) as Hn.
    pose proof (take_gone true now k s) as Hg.
    destruct (kv_take true now k s) as [o s']. simpl in *. subst o.
    split; [by rewrite Hs|]. destruct (spec_live now m k) as [v|] eqn:E.
    + apply exec_delete with s; [done..|]. intros t Ht. apply (Hg t (kv_read v) Ht).
      by rewrite Hs, E.
    + apply exec_delete with s; [done..|]. intros t Ht.
      rewrite Hn, Hs by (try done; by rewrite Hs, E). by rewrite (spec_live_later now t).
  - split; [done|]. apply exec_write with s; [done..|apply set_quiet|]. intros t Ht.
    by apply set_value.
  - pose proof (setnx_quiet true now k v ttl s) as Hq.
    pose proof (setnx_free now k v ttl s) as Hf. pose proof (setnx_wins true now k v ttl s) as Hw.
    pose proof (setnx_value true now k v ttl s) as Hv. pose proof (setnx_loses true now k v ttl s) as Hn.
    destruct (kv_setnx true now k v ttl s) as [b s']. simpl in *.
    rewrite (Hs now k (Z.le_refl _)) in Hf, Hw. destruct (spec_live now m k) as [w|] eqn:E; simpl in *.
    + destruct b; [by specialize (Hw eq_refl)|]. split; [done|]. intros t k' Ht.
      rewrite (Hn eq_refl) by done. by apply Hs.
    + destruct Ha as [Hm H0]. rewrite (Hf H0 eq_refl) in *. split; [done|]. apply exec_write with s; [done..|].
      intros t Ht. by apply Hv.
  - pose proof (exec_incr now k d ttl s m Hs Ha) as [Hn Hs'].
    destruct (kv_incr true now k d ttl s) as [n s']. split; [|done].
    cbn [fst] in Hn. rewrite <- Hn. done.
  - split; [done|]. apply exec_delete with s; [done| |].
    + intros t k' _ Hne. by apply delete_keeps.
    + intros t _. apply delete_gone.
Qed.

Lemma run_sim cs : forall t0 s m,
  sim t0 s m -> admissible_run t0 cs m ->
  fst (run cs s) = read_resp <$> spec_run cs m.
Proof.
  induction cs as [|c cs IH]; intros t0 s m Hs Ha; [done|].
  destruct Ha as (Ht & Hu & Ha & Hr). destruct (exec_sim t0 c s m Hs Ht Hu Ha) as [Hf Hs'].
  cbn [run spec_run]. destruct (exec c s) as [r s1], (spec_exec _ _ m) as [a m1].
  cbn [fst snd] in *. specialize (IH _ _ _ Hs' Hr). destruct (run cs s1) as [rs s2].
  cbn [fst] in *. by rewrite Hf, IH.
Qed.

(** *** Consuming a staged value *)

Definition gone (now : Z) (s : kv) (k : string) : Prop :=
  forall t, now <= t -> kv_live t s k = None.

Lemma gone_later now t s k : now <= t -> gone now s k -> gone t s k.
Proof. intros H Hg t' Ht. apply Hg. lia. Qed.

Lemma quiet_gone now k k' s s' : k' <> k -> quiet now k s s' -> gone now s k' -> gone now s' k'.
Proof. intros Hne Hq Hg t Ht. rewrite (Hq t k') by done. by apply Hg. Qed.

Lemma unchanged_gone now k s s' : unchanged now s s' -> gone now s k -> gone now s' k.
Proof. intros Hu Hg t Ht. rewrite (Hu t k) by done. by apply Hg. Qed.

(** A request that does not write the key does not bring it back. *)
Lemma exec_gone c s k :
  ~ writes k (c_req c) -> gone (c_now c) s k -> gone (c_now c) (snd (exec c s)) k.
Proof.
  destruct c as [up now r]. unfold exec. cbn [c_req c_up c_now]. intros Hw Hg.
  destruct r as [k'|k'|k' v ttl|k' v ttl|k' d ttl|k']; simpl in Hw.
  - pose proof (get_keeps up now k' s) as H. destruct (kv_get up now k' s).
    by apply unchanged_gone with s.
  - pose proof (take_quiet up now k' s) as H. pose proof (take_none up now k' s) as Hn.
    pose proof (take_gone up now k' s) as Ht.
    destruct (kv_take up now k' s) as [[v|] s']; cbn [fst snd] in *.
    + destruct (decide (k = k')) as [->|Hne]; [|by apply quiet_gone with k' s].
      intros t Hle. by apply (Ht t v).
    + apply unchanged_gone with s; [by apply Hn|done].
  - apply quiet_gone with k' s; [congruence|apply set_quiet|done].
  - pose proof (setnx_quiet up now k' v ttl s) as H. destruct (kv_setnx up now k' v ttl s).
    apply quiet_gone with k' s; [congruence|done..].
  - pose proof (incr_quiet up now k' d ttl s) as H. destruct (kv_incr up now k' d ttl s).
    apply quiet_gone with k' s; [congruence|done..].
  - intros t Ht. cbn [snd]. destruct (decide (k = k')) as [->|Hne].
    + apply delete_shrinks. by apply Hg.
    + rewrite delete_keeps by done. by apply Hg.
Qed.

Lemma exec_taken c s k : gone (c_now c) s k -> taken k c (fst (exec c s)) = 0%nat.
Proof.
  destruct c as [up now r]. unfold exec, taken. cbn [c_req c_up c_now]. intros Hg.
  destruct r as [k'|k'|k' v ttl|k' v ttl|k' d ttl|k']; try done.
  - pose proof (take_only_live up now k' s) as H.
    destruct (kv_take up now k' s) as [[v|] s']; cbn [fst] in *; [|done].
    destruct (decide (k' = k)) as [->|]; [|done].
    specialize (H v eq_refl). rewrite Hg in H by lia. done.
Qed.

Lemma exec_take_wins c s k :
  taken k c (fst (exec c s)) = 0%nat \/
  (taken k c (fst (exec c s)) = 1%nat /\ gone (c_now c) (snd (exec c s)) k).
Proof.
  destruct c as [up now r]. unfold exec, taken. cbn [c_req c_up c_now].
  destruct r as [k'|k'|k' v ttl|k' v ttl|k' d ttl|k']; try (by left).
  - pose proof (take_gone up now k' s) as H.
    destruct (kv_take up now k' s) as [[v|] s']; cbn [fst snd] in *; [|by left].
    destruct (decide (k' = k)) as [->|]; [right|by left]. split; [done|].
    intros t Ht. by apply (H t v).
Qed.

Lemma run_gone_taken k cs : forall t0 s,
  in_order t0 cs -> Forall (fun c => ~ writes k (c_req c)) cs -> gone t0 s k ->
  tally (taken k) cs (fst (run cs s)) = 0%nat.
Proof.
  induction cs as [|c cs IH]; intros t0 s Ho Hw Hg; [done|]. destruct Ho as [Ht Ho].
  apply Forall_cons_1 in Hw as [Hw Hws]. apply (gone_later _ _ _ _ Ht) in Hg.
  pose proof (exec_taken c s k Hg) as H0. pose proof (exec_gone c s k Hw Hg) as Hg'.
  cbn [run]. destruct (exec c s) as [r s1]. cbn [fst snd] in *.
  specialize (IH _ _ Ho Hws Hg'). destruct (run cs s1) as [rs s2]. cbn [fst tally] in *. lia.
Qed.

Lemma run_taken k cs : forall t0 s,
  in_order t0 cs -> Forall (fun c => ~ writes k (c_req c)) cs ->
  (tally (taken k) cs (fst (run cs s)) <= 1)%nat.
Proof.
  induction cs as [|c cs IH]; intros t0 s Ho Hw; [simpl; lia|]. destruct Ho as [_ Ho].
  apply Forall_cons_1 in Hw as [_ Hw]. pose proof (exec_take_wins c s k) as H.
  pose proof (run_gone_taken k cs (c_now c) (snd (exec c s)) Ho Hw) as Hg.
  specialize (IH (c_now c) (snd (exec c s)) Ho Hw).
  cbn [run]. destruct (exec c s) as [r s1]. cbn [fst snd] in *.
  destruct (run cs s1) as [rs s2]. cbn [fst tally] in *.
  destruct H as [H|[H Hg']]; [lia|]. rewrite (Hg Hg'). lia.
Qed.

(** *** Claiming a single-use marker *)

Definition held (now until : Z) (s : kv) (k : string) : Prop :=
  forall t, now <= t <= until -> is_Some (kv_live t s k).

Lemma quiet_held now until k k' s s' :
  k' <> k -> quiet now k s s' -> held now until s k' -> held now until s' k'.
Proof. intros Hne Hq Hg t Ht. rewrite (Hq t k') by (lia || done). by apply Hg. Qed.

Lemma unchanged_held now until k s s' :
  unchanged now s s' -> held now until s k -> held now until s' k.
Proof. intros Hu Hg t Ht. rewrite (Hu t k) by lia. by apply Hg. Qed.

(** Until a claim lapses, requests that only claim keep it. *)
Lemma exec_held W c s k until :
  only_claims k W (c_req c) -> c_now c <= until -> held (c_now c) until s k ->
  held (c_now c) until (snd (exec c s)) k /\ claimed k c (fst (exec c s)) = 0%nat.
Proof.
  destruct c as [up now r]. unfold exec, claimed. cbn [c_req c_up c_now]. intros Ho Hle Hh.
  destruct r as [k'|k'|k' v ttl|k' v ttl|k' d ttl|k']; simpl in Ho.
  - pose proof (get_keeps up now k' s) as H. destruct (kv_get up now k' s).
    split; [|done]. by apply unchanged_held with s.
  - pose proof (take_quiet up now k' s) as H. destruct (kv_take up now k' s).
    split; [|done]. apply quiet_held with k' s; [congruence|done..].
  - split; [|done]. apply quiet_held with k' s; [congruence|apply set_quiet|done].
  - pose proof (setnx_loses up now k' v ttl s) as Hl. pose proof (setnx_wins up now k' v ttl s) as Hw.
    pose proof (setnx_quiet up now k' v ttl s) as Hq.
    destruct (kv_setnx up now k' v ttl s) as [b s']; cbn [fst snd] in *.
    destruct (decide (k' = k)) as [->|Hne].
    + destruct b.
      * destruct (Hh now ltac:(lia)) as [w Hs]. rewrite (Hw eq_refl) in Hs. done.
      * split; [|done]. by apply unchanged_held with s; [apply Hl|].
    + split; [|by destruct b]. apply quiet_held with k' s; [congruence|done..].
  - pose proof (incr_quiet up now k' d ttl s) as H. destruct (kv_incr up now k' d ttl s).
    split; [|done]. apply quiet_held with k' s; [congruence|done..].
  - split; [|done]. intros t Ht. cbn [snd]. rewrite delete_keeps by congruence. by apply Hh.
Qed.

Lemma exec_claim_wins W c s k :
  only_claims k W (c_req c) ->
  claimed k c (fst (exec c s)) = 0%nat \/
  (claimed k c (fst (exec c s)) = 1%nat /\ held (c_now c) (c_now c + W) (snd (exec c s)) k).
Proof.
  destruct c as [up now r]. unfold exec, claimed. cbn [c_req c_up c_now]. intros Ho.
  destruct r as [k'|k'|k' v ttl|k' v ttl|k' d ttl|k']; simpl in Ho; try (by left).
  pose proof (setnx_value up now k' v ttl s) as Hv.
  destruct (kv_setnx up now k' v ttl s) as [[] s']; cbn [fst snd] in *; [|by left].
  destruct (decide (k' = k)) as [->|]; [right|by left]. split; [done|].
  destruct (Ho eq_refl) as [Hm Hw]. intros t Ht. rewrite Hv by (done || lia).
  unfold seen. destruct (Z.ltb_spec 0 ttl); simpl; [|by eexists].
  destruct (Z.leb_spec t (now + ttl)); [by eexists|lia].
Qed.

Lemma run_held_claimed W k until cs : forall t0 s,
  in_order t0 cs -> Forall (fun c => only_claims k W (c_req c) /\ c_now c <= until) cs ->
  held t0 until s k -> tally (claimed k) cs (fst (run cs s)) = 0%nat.
Proof.
  induction cs as [|c cs IH]; intros t0 s Ho Hw Hg; [done|]. destruct Ho as [Ht Ho].
  apply Forall_cons_1 in Hw as [[Hw Hu] Hws].
  assert (held (c_now c) until s k) as Hh by (intros t ?; apply Hg; lia).
  destruct (exec_held W c s k until Hw Hu Hh) as [Hg' H0].
  cbn [run]. destruct (exec c s) as [r s1]. cbn [fst snd] in *.
  specialize (IH _ _ Ho Hws Hg'). destruct (run cs s1) as [rs s2]. cbn [fst tally] in *. lia.
Qed.

Lemma run_claimed W k t1 cs : forall t0 s,
  in_order t0 cs -> t1 <= t0 ->
  Forall (fun c => only_claims k W (c_req c) /\ c_now c <= t1 + W) cs ->
  (tally (claimed k) cs (fst (run cs s)) <= 1)%nat.
Proof.
  induction cs as [|c cs IH]; intros t0 s Ho Hle Hw; [simpl; lia|]. destruct Ho as [Ht Ho].
  apply Forall_cons_1 in Hw as [[Hc Hu] Hw].
  destruct (exec_claim_wins W c s k Hc) as [H|[H Hh]].
  - specialize (IH (c_now c) (snd (exec c s)) Ho ltac:(lia) Hw).
    cbn [run]. destruct (exec c s) as [r s1]. cbn [fst snd] in *.
    destruct (run cs s1) as [rs s2]. cbn [fst tally] in *. lia.
  - pose proof (run_held_claimed W k (t1 + W) cs (c_now c) (snd (exec c s)) Ho Hw) as H0.
    cbn [run]. destruct (exec c s) as [r s1]. cbn [fst snd] in *.
    destruct (run cs s1) as [rs s2]. cbn [fst tally] in *. rewrite H, H0; [done|].
    intros t Ht'. apply Hh. lia.
Qed.

(** *** Counting a fixed window *)

(** The key counts [n] until [until] and nothing after. *)
Definition counts (k : string) (n now until : Z) (s : kv) : Prop :=
  forall t, now <= t -> kv_live t s k = if t <=? until then Some (kv_read (VInt64 n)) else None.

Lemma counts_later k n now now' until s : now <= now' -> counts k n now until s -> counts k n now' until s.
Proof. intros H Hc t Ht. apply Hc. lia. Qed.

Lemma incr_counts k n ttl until t s :
  0 < n < 2 ^ 63 - 1 -> t <= until -> counts k n t until s ->
  fst (kv_incr true t k 1 ttl s) = n + 1 /\ counts k (n + 1) t until (snd (kv_incr true t k 1 ttl s)).
Proof.
  intros Hn Hu Hc. destruct (incr_next t k 1 ttl s n) as [Hv Hk]; [lia| |lia|lia|].
  - rewrite Hc by lia. destruct (Z.leb_spec t until); [done|lia].
  - split; [done|]. intros t' Ht. rewrite Hk, Hc by done. by destruct (t' <=? until).
Qed.

Lemma incr_opens k ttl t s :
  ttl mod millisecond = 0 -> 0 < ttl -> kv_live t s k = None ->
  fst (kv_incr true t k 1 ttl s) = 1 /\ counts k 1 t (t + ttl) (snd (kv_incr true t k 1 ttl s)).
Proof.
  intros Hm Hp Hl.
  split; [by apply (incr_fresh t k 1 ttl s t); [..|lia]|]. intros t' Ht.
  destruct (incr_fresh t k 1 ttl s t') as [_ ->]; [done..|lia|].
  unfold seen. by destruct (Z.ltb_spec 0 ttl); [|lia].
Qed.

Lemma run_incrs k ttl t ts s n s1 :
  kv_incr true t k 1 ttl s = (n, s1) ->
  run (incrs k ttl (t :: ts)) s =
  (AInt n :: fst (run (incrs k ttl ts) s1), snd (run (incrs k ttl ts) s1)).
Proof.
  intros E. cbn [incrs map run]. unfold exec. cbn [c_req c_up c_now]. rewrite E.
  fold (incrs k ttl ts). by destruct (run (incrs k ttl ts) s1).
Qed.

Lemma run_counts k ttl until ts : forall t0 s n,
  0 < n -> n + Z.of_nat (length ts) < 2 ^ 63 -> t0 <= until ->
  in_order t0 (incrs k ttl ts) -> Forall (fun t => t <= until) ts -> counts k n t0 until s ->
  fst (run (incrs k ttl ts) s) = map (fun i => AInt (n + Z.of_nat i)) (seq 1 (length ts)) /\
  counts k (n + Z.of_nat (length ts)) until until (snd (run (incrs k ttl ts) s)).
Proof.
  induction ts as [|t ts IH]; intros t0 s n Hn Hlen Hle Ho Hts Hc.
  { split; [done|]. simpl. rewrite Z.add_0_r. by apply counts_later with t0. }
  destruct Ho as [Ht Ho]. apply Forall_cons_1 in Hts as [Hu Hts]. cbn [c_now length] in *.
  destruct (incr_counts k n ttl until t s) as [Hv Hk]; [lia|lia|by apply counts_later with t0|].
  destruct (kv_incr true t k 1 ttl s) as [m s1] eqn:E. cbn [fst snd] in *. subst m.
  rewrite (run_incrs _ _ _ _ _ _ _ E). cbn [fst snd].
  specialize (IH t s1 (n + 1) ltac:(lia) ltac:(lia) Hu Ho Hts Hk) as [IH1 IH2].
  cbn [seq map]. split.
  - f_equal. rewrite IH1, <- (seq_shift _ 1), map_map. apply map_ext.
    intros i. f_equal. lia.
  - replace (n + Z.of_nat (S (length ts))) with (n + 1 + Z.of_nat (length ts)) by lia. done.
Qed.

(** A window opened at [t1]: the [i]-th request is numbered [i]; the first one
    after it is numbered 1 again. *)
Lemma run_window k ttl t1 ts s :
  ttl mod millisecond = 0 -> 0 < ttl -> 1 + Z.of_nat (length ts) < 2 ^ 63 ->
  in_order t1 (incrs k ttl ts) -> Forall (fun t => t <= t1 + ttl) ts -> kv_live t1 s k = None ->
  fst (run (incrs k ttl (t1 :: ts)) s) = map (fun i => AInt (Z.of_nat i)) (seq 1 (S (length ts))) /\
  forall t, t1 + ttl < t ->
    fst (exec (mkCall true t (RIncr k 1 ttl)) (snd (run (incrs k ttl (t1 :: ts)) s))) = AInt 1.
Proof.
  intros Hm Hp Hlen Ho Hts Hl. destruct (incr_opens k ttl t1 s Hm Hp Hl) as [Hv Hk].
  destruct (kv_incr true t1 k 1 ttl s) as [m s1] eqn:E. cbn [fst snd] in *. subst m.
  rewrite (run_incrs _ _ _ _ _ _ _ E). cbn [fst snd].
  destruct (run_counts k ttl (t1 + ttl) ts t1 s1 1) as [H1 H2]; [lia|lia|lia|done..|].
  destruct (run (incrs k ttl ts) s1) as [rs s2]. cbn [fst snd] in *. split.
  - cbn [seq map]. f_equal. rewrite H1, <- (seq_shift _ 1), map_map. apply map_ext.
    intros i. f_equal. lia.
  - intros t Ht. unfold exec. cbn [c_req c_up c_now].
    assert (kv_live t s2 k = None) as Hn.
    { rewrite H2 by lia. by destruct (Z.leb_spec t (t1 + ttl)); [lia|]. }
    destruct (incr_opens k ttl t s2 Hm Hp Hn) as [Hv' _].
    destruct (kv_incr true t k 1 ttl s2). cbn [fst] in *. by f_equal.
Qed.
End Refinement.

Lemma sim_empty_mem : sim (ST := mem_store) 0 Mem.NewInMemoryStore ∅.
Proof. intros t k _. unfold spec_live. simpl. unfold Mem.live. simpl. by rewrite !lookup_empty. Qed.

Lemma sim_empty_redis : sim (ST := redis_store) 0 (∅ : Redis.server) ∅.
Proof.
  intros t k _. unfold spec_live. cbn [kv_live redis_store]. unfold Redis.rlive.
  by rewrite !lookup_empty.
Qed.

(** A short session against a store: a nonce consumed once, a single-use marker,
    a counter over its window and past it. *)
Definition demo : list Call :=
  [ mkCall true 0 (RSet "nonce" (VStr "v") (5 * minute));
    mkCall true 1 (RTake "nonce");
    mkCall true 2 (RTake "nonce");
    mkCall true 3 (RSetNX "jti" (VInt64 1) hour);
    mkCall true 4 (RSetNX "jti" (VInt64 1) hour);
    mkCall true 5 (RIncr "hits" 1 minute);
    mkCall true 6 (RIncr "hits" 1 minute);
    mkCall true (2 * minute) (RIncr "hits" 1 minute);
    mkCall true (2 * minute) (RGet "nonce") ].

Lemma demo_admissible : admissible_run 0 demo ∅.
Proof. repeat split; try (vm_compute; done); vm_compute; try done; by intros [=]. Qed.

(** C39: the in-memory store implements the specification of a key-value store
    with per-key expiry on the requests it speaks about: for any sequence of them in
    time order whose durations are whole milliseconds (not negative for [SetNX]) and
    which increment only keys that are free or hold a nonzero counter, within the
    [int64] range, each answer is the specification's. *)
Theorem mem_refines_spec (cs : list Call) :
  admissible_run 0 cs ∅ ->
  fst (run (H := mem_store) cs Mem.NewInMemoryStore) =
  read_resp (H := mem_store) <$> spec_run cs ∅.
Proof. intros H. exact (run_sim cs 0 Mem.NewInMemoryStore ∅ sim_empty_mem H). Qed.

Lemma mem_refines_spec_witness :
  fst (run (H := mem_store) demo Mem.NewInMemoryStore) =
  [AUnit; AVal (Some (VStr "v")); AVal None; ABool true; ABool false; AInt 1; AInt 2; AInt 1; AVal None].
Proof. exact (mem_refines_spec demo demo_admissible). Defined.

(** C40: on the same sequences, while the backend answers, the Redis store implements
    the same specification, a value being read back as the string Redis keeps. *)
Theorem redis_refines_spec (cs : list Call) :
  admissible_run 0 cs ∅ ->
  fst (run (H := redis_store) cs ∅) = read_resp (H := redis_store) <$> spec_run cs ∅.
Proof. intros H. exact (run_sim cs 0 ∅ ∅ sim_empty_redis H). Qed.

Lemma redis_refines_spec_witness :
  fst (run (H := redis_store) demo ∅) =
  [AUnit; AVal (Some (VStr "v")); AVal None; ABool true; ABool false; AInt 1; AInt 2; AInt 1; AVal None].
Proof. exact (redis_refines_spec demo demo_admissible). Defined.

(** An OAuth state, a passkey challenge or a pending-login marker is handed
    out once: from any state of either store, in any sequence of requests in
    time order that does not write the key again, with the backend failing at
    any point, at most one [Take] of the key returns a value. *)
Theorem take_once (k : string) (cs : list Call) (t0 : Z)
    (s : Mem.InMemoryStore) (r : gmap string Redis.rentry) :
  in_order t0 cs -> Forall (fun c => ~ writes k (c_req c)) cs ->
  (tally (taken k) cs (fst (run (H := mem_store) cs s)) <= 1)%nat /\
  (tally (taken k) cs (fst (run (H := redis_store) cs r)) <= 1)%nat.
Proof.
  intros Ho Hw. split.
  - exact (run_taken (ST := mem_store) k cs t0 s Ho Hw).
  - exact (run_taken (ST := redis_store) k cs t0 r Ho Hw).
Qed.

Lemma take_once_witness :
  let cs := [mkCall true 1 (RTake "n"); mkCall false 2 (RTake "n"); mkCall true 3 (RTake "n")] in
  let s := Mem.SetKey 0 "n" (VStr "v") hour Mem.NewInMemoryStore in
  let r := Redis.SetKey true 0 "n" (VStr "v") hour ∅ in
  tally (taken "n") cs (fst (run (H := mem_store) cs s)) = 1%nat /\
  (tally (taken "n") cs (fst (run (H := mem_store) cs s)) <= 1)%nat /\
  (tally (taken "n") cs (fst (run (H := redis_store) cs r)) <= 1)%nat.
Proof.
  split; [vm_compute; done|]. apply (take_once "n" _ 0).
  - repeat split; vm_compute; done.
  - repeat constructor; by intros [].
Defined.

(** A single-use marker (a used token, a TOTP step) is claimed by at most
    one [SetNX] within its window, whatever other requests interleave and
    whenever the backend fails. *)
Theorem setnx_once (k : string) (W t0 : Z) (cs : list Call)
    (s : Mem.InMemoryStore) (r : gmap string Redis.rentry) :
  in_order t0 cs -> Forall (fun c => only_claims k W (c_req c) /\ c_now c <= t0 + W) cs ->
  (tally (claimed k) cs (fst (run (H := mem_store) cs s)) <= 1)%nat /\
  (tally (claimed k) cs (fst (run (H := redis_store) cs r)) <= 1)%nat.
Proof.
  intros Ho Hw. split.
  - exact (run_claimed (ST := mem_store) W k t0 cs t0 s Ho (Z.le_refl _) Hw).
  - exact (run_claimed (ST := redis_store) W k t0 cs t0 r Ho (Z.le_refl _) Hw).
Qed.

Lemma setnx_once_witness :
  let cs := [mkCall true 1 (RSetNX "j" (VInt64 1) hour); mkCall true 2 (RSetNX "j" (VInt64 1) hour);
             mkCall false 3 (RSetNX "j" (VInt64 1) hour)] in
  tally (claimed "j") cs (fst (run (H := redis_store) cs ∅)) = 1%nat /\
  (tally (claimed "j") cs (fst (run (H := mem_store) cs Mem.NewInMemoryStore)) <= 1)%nat /\
  (tally (claimed "j") cs (fst (run (H := redis_store) cs ∅)) <= 1)%nat.
Proof.
  split; [vm_compute; done|]. apply (setnx_once "j" hour 0).
  - repeat split; vm_compute; done.
  - repeat constructor; vm_compute; try done; by right.
Defined.

(** A rate-limit counter counts a fixed window in either store: from the
    request that opens it, the [i]-th increment within [ttl] returns [i], and the
    first one after the window returns 1 again, so a limit of [n] admits exactly
    the first [n] requests of each window. *)
Theorem incr_counts_window (k : string) (ttl t1 : Z) (ts : list Z)
    (s : Mem.InMemoryStore) (r : gmap string Redis.rentry) :
  ttl mod millisecond = 0 -> 0 < ttl -> 1 + Z.of_nat (length ts) < 2 ^ 63 ->
  in_order t1 (incrs k ttl ts) -> Forall (fun t => t <= t1 + ttl) ts ->
  Mem.live t1 s k = None -> Redis.rlive t1 k r = None ->
  let answers := map (fun i => AInt (Z.of_nat i)) (seq 1 (S (length ts))) in
  let calls := incrs k ttl (t1 :: ts) in
  fst (run (H := mem_store) calls s) = answers /\
  fst (run (H := redis_store) calls r) = answers /\
  forall t, t1 + ttl < t ->
    fst (Mem.IncrBy t k 1 ttl (snd (run (H := mem_store) calls s))) = 1 /\
    fst (Redis.IncrBy true t k 1 ttl (snd (run (H := redis_store) calls r))) = 1.
Proof.
  intros Hm Hp Hlen Ho Hts Hl Hr answers calls.
  assert (kv_live (Store := redis_store) t1 r k = None) as Hr' by (simpl; by rewrite Hr).
  destruct (run_window (ST := mem_store) k ttl t1 ts s) as [A1 A2]; [done..|].
  destruct (run_window (ST := redis_store) k ttl t1 ts r) as [B1 B2]; [done..|].
  split; [done|]. split; [done|]. intros t Ht. specialize (A2 t Ht). specialize (B2 t Ht).
  unfold exec in A2, B2. cbn [c_req c_up c_now kv_incr mem_store redis_store] in A2, B2.
  fold calls in A2, B2. destruct (Mem.IncrBy _ _ _ _ _), (Redis.IncrBy _ _ _ _ _ _).
  simpl in *. by simplify_eq.
Qed.

Lemma incr_counts_window_witness :
  fst (run (H := redis_store) (incrs "rl" minute [10; 11; 12; 10 + minute]) ∅) =
  [AInt 1; AInt 2; AInt 3; AInt 4].
Proof.
  destruct (incr_counts_window "rl" minute 10 [11; 12; 10 + minute] Mem.NewInMemoryStore ∅)
    as (_ & H & _); [done|done|vm_compute; done| | |vm_compute; done..|exact H].
  - repeat split; vm_compute; done.
  - repeat constructor; vm_compute; done.
Defined.

(** ** The sweeper *)

Module Sweep.
Import Mem.

Definition dead (now : Z) (s : InMemoryStore) (k : string) : Prop :=
  exists e, data s !! k = Some e /\ expired e now = true.

Lemma keep_cases now s k acc :
  (sweep_keep now s k acc = acc /\ ~ dead now s k) \/
  (sweep_keep now s k acc = acc ++ [k] /\ dead now s k).
Proof.
  unfold sweep_keep, dead. destruct (data s !! k) as [e|] eqn:E.
  - destruct (expired e now) eqn:X; [right; eauto|left]. split; [done|].
    intros (e' & ? & ?). congruence.
  - left. split; [done|]. by intros (e' & ? & ?).
Qed.

Lemma collect_spec now s order : forall acc,
  (length acc < sweep_batch)%nat ->
  exists more, sweep_collect now s order acc = acc ++ more /\ Forall (dead now s) more /\
    (length (acc ++ more) <= sweep_batch)%nat /\
    ((length (acc ++ more) < sweep_batch)%nat -> forall k, In k order -> dead now s k -> In k more).
Proof.
  induction order as [|k order IH]; intros acc H; cbn [sweep_collect].
  { exists []. rewrite app_nil_r. repeat split; auto; lia. }
  destruct (keep_cases now s k acc) as [[-> Hk]|[-> Hk]].
  - destruct (Nat.leb_spec sweep_batch (length acc)); [lia|].
    destruct (IH acc H) as (more & -> & H1 & H2 & H3). exists more. repeat split; auto.
    intros Hl k' [<-|Hin] Hd; [done|]. by apply H3.
  - destruct (Nat.leb_spec sweep_batch (length (acc ++ [k]))) as [Hl|Hl].
    + exists [k]. rewrite length_app in *. cbn [length] in *. repeat split; auto; lia.
    + destruct (IH (acc ++ [k]) Hl) as (more & -> & H1 & H2 & H3).
      exists (k :: more). rewrite <- app_assoc in *. cbn [app] in *.
      repeat split; auto. intros Hlt k' [<-|Hin] Hd; [by left|right]. by apply H3.
Qed.

Lemma foldr_delete_data (ks : list string) (d : gmap string entry) k :
  foldr delete d ks !! k = if bool_decide (k ∈ ks) then None else d !! k.
Proof.
  induction ks as [|k' ks IH]; simpl; [done|].
  destruct (decide (k = k')) as [->|Hne].
  - rewrite lookup_delete_eq. rewrite bool_decide_true; [done|]. by left.
  - rewrite lookup_delete_ne, IH by done. destruct (decide (k ∈ ks)).
    + rewrite !bool_decide_true; [done| |done]. by right.
    + rewrite !bool_decide_false; [done| |done]. by rewrite elem_of_cons; intros [|].
Qed.

End Sweep.

(** The sweeper of the in-memory store is not observable: no read at the
    time of the sweep or later changes; it deletes nothing that is not expired,
    at most 1000 keys, and when it deletes fewer no expired key is left among
    those it visited. *)
Theorem sweep_unobservable (now : Z) (order : list string) (s : Mem.InMemoryStore) :
  (forall t k, now <= t -> Mem.live t (Mem.sweep now order s) k = Mem.live t s k) /\
  exists removed,
    (forall k, Mem.data (Mem.sweep now order s) !! k =
       if bool_decide (k ∈ removed) then None else Mem.data s !! k) /\
    Forall (fun k => Mem.live now s k = None) removed /\ (length removed <= 1000)%nat /\
    ((length removed < 1000)%nat ->
       forall k e, In k order -> Mem.data (Mem.sweep now order s) !! k = Some e ->
         Mem.expired e now = false).
Proof.
  destruct (Sweep.collect_spec now s order []) as (ks & E & Hd & Hb & Hall).
  { unfold Mem.sweep_batch. simpl. lia. }
  cbn [app] in *. unfold Mem.sweep. rewrite E.
  assert (forall k, foldr delete (Mem.data s) ks !! k =
                    if bool_decide (k ∈ ks) then None else Mem.data s !! k) as Hf
    by (intros k; apply Sweep.foldr_delete_data).
  rewrite Forall_forall in Hd. split.
  - intros t k Ht. unfold Mem.live. simpl. rewrite Hf. case_bool_decide as Hin; [|done].
    apply list_elem_of_In in Hin. destruct (Hd k Hin) as (e & -> & Hx). by rewrite (MemFacts.expired_mono e now t).
  - exists ks. repeat split; [done| |done|].
    + apply Forall_forall. intros k Hin. destruct (Hd k Hin) as (e & He & Hx).
      unfold Mem.live. by rewrite He, Hx.
    + intros Hl k e Hin He. simpl in He. rewrite Hf in He. case_bool_decide as Hn; [done|].
      destruct (Mem.expired e now) eqn:Hx; [|done]. exfalso. apply Hn, list_elem_of_In.
      apply Hall; [done..|]. by exists e.
Qed.
