(* ===== verification/Limits.v ===== *)
(** * The process-local limits ([middleware/semaphore.go], [rate_limit.go])

    The concurrency gate as the state machine of a buffered channel of tokens, and
    the visitor table of the address limiter with its sweeping.  The token bucket
    of one address (golang.org/x/time/rate) is a parameter. *)

From S2P Require Import Prelude Store.

Open Scope Z_scope.

(** ** [ConcurrencyLimiter] *)

Module Gate.

(** The channel: how many tokens are in it, and its capacity; [None] is the nil
    channel of a disabled gate. *)
Record ConcurrencyLimiter := mkGate { tokens : option (nat * nat) }.

Definition NewConcurrencyLimiter (max : Z) : ConcurrencyLimiter :=
  if max <=? 0 then mkGate None else mkGate (Some (Z.to_nat max, Z.to_nat max)).

Definition Available (cl : ConcurrencyLimiter) : Z :=
  match tokens cl with None => -1 | Some (n, _) => Z.of_nat n end.

Definition Capacity (cl : ConcurrencyLimiter) : Z :=
  match tokens cl with None => -1 | Some (_, c) => Z.of_nat c end.

(** The select of [Handler]: a token is taken, or the request is rejected. *)
Definition acquire (cl : ConcurrencyLimiter) : bool * ConcurrencyLimiter :=
  match tokens cl with
  | None => (true, cl)
  | Some (S n, c) => (true, mkGate (Some (n, c)))
  | Some (O, c) => (false, cl)
  end.

(** The deferred send: [None] when the channel is full, where it would block. *)
Definition release (cl : ConcurrencyLimiter) : option ConcurrencyLimiter :=
  match tokens cl with
  | None => Some cl
  | Some (n, c) => if (n <? c)%nat then Some (mkGate (Some (S n, c))) else None
  end.

(** The requests behind the gate; [Handler] of each, its handler returning or
    panicking at any time. *)
Inductive step : ConcurrencyLimiter * list nat -> ConcurrencyLimiter * list nat -> Prop :=
  | step_enter cl cl' inside id : ~ In id inside -> acquire cl = (true, cl') -> step (cl, inside) (cl', id :: inside)
  | step_reject cl cl' inside id : ~ In id inside -> acquire cl = (false, cl') -> step (cl, inside) (cl', inside)
  | step_leave cl cl' before id after :
      release cl = Some cl' -> step (cl, before ++ id :: after) (cl', before ++ after).

Inductive reach (max : Z) : ConcurrencyLimiter * list nat -> Prop :=
  | reach_start : reach max (NewConcurrencyLimiter max, [])
  | reach_step s s' : reach max s -> step s s' -> reach max s'.

(** Every token is in the channel or with a request behind the gate. *)
Lemma reach_tokens max cl inside : 0 < max -> reach max (cl, inside) ->
  exists n, tokens cl = Some (n, Z.to_nat max) /\ (n + length inside = Z.to_nat max)%nat.
Proof.
  intros Hmax H. remember (cl, inside) as s eqn:Hs. revert cl inside Hs.
  induction H as [|s s' _ IH Hstep]; intros cl inside Hs.
  - injection Hs as <- <-. unfold NewConcurrencyLimiter. destruct (Z.leb_spec max 0); [lia|].
    exists (Z.to_nat max). simpl. split; [done|lia].
  - subst s'. inversion Hstep as [cl0 cl' l id Hid Ha|cl0 cl' l id Hid Ha|cl0 cl' bf id af Hr]; subst;
      destruct (IH _ _ eq_refl) as (n & Hn & Hl); unfold acquire, release in *; rewrite Hn in *.
    + destruct n as [|n]; [done|]. injection Ha as <-. exists n. simpl. split; [done|lia].
    + destruct n as [|n]; [|done]. injection Ha as <-. exists 0%nat. split; [done|lia].
    + destruct (Nat.ltb_spec n (Z.to_nat max)); [|done]. injection Hr as <-. exists (S n). split; [done|].
      rewrite length_app in *. simpl in *. lia.
Qed.

(** In every reachable state of an enabled gate, at most [max] requests are
    behind it; a newcomer is turned away exactly when there are [max]; whoever
    leaves can give its token back without blocking; and once all have left, the
    gate is as new. *)
Theorem gate_exact (max : Z) (cl : ConcurrencyLimiter) (inside : list nat)
    (Hmax : 0 < max) (Hreach : reach max (cl, inside)) :
  Z.of_nat (length inside) <= max /\
  (fst (acquire cl) = false <-> Z.of_nat (length inside) = max) /\
  (inside <> [] -> is_Some (release cl)) /\
  (inside = [] -> cl = NewConcurrencyLimiter max).
Proof.
  destruct (reach_tokens max cl inside Hmax Hreach) as (n & Hn & Hl). destruct cl as [tk]. simpl in Hn. subst tk.
  split; [lia|]. split; [|split].
  - unfold acquire. simpl. destruct n; simpl; (split; [|]); intros; try done; lia.
  - intros Hne. unfold release. simpl. destruct inside; [done|]. simpl in Hl.
    destruct (Nat.ltb_spec n (Z.to_nat max)); [done|lia].
  - intros ->. unfold NewConcurrencyLimiter. destruct (Z.leb_spec max 0); [lia|]. simpl in Hl.
    do 2 f_equal. f_equal. lia.
Qed.

Definition full_gate : ConcurrencyLimiter := mkGate (Some (0%nat, 2%nat)).

Lemma gate_exact_witness : fst (acquire full_gate) = false.
Proof.
  assert (reach 2 (full_gate, [2; 1]%nat)) as H.
  { eapply reach_step; [eapply reach_step; [apply reach_start|]|]; (eapply step_enter; [|reflexivity]); simpl; lia. }
  destruct (gate_exact 2 full_gate [2; 1]%nat (ltac:(done)) H) as (_ & [_ Hr] & _). exact (Hr eq_refl).
Defined.

End Gate.

(** ** The visitor table of [RateLimiter] *)

(** The token bucket of an address: new, and [Allow] at a time. *)
Class Bucket := {
  bucket : Type;
  new_bucket : Z -> Z -> bucket;
  bucket_take : Z -> bucket -> bool * bucket
}.

Module Visitors.
Section S.
Context {B : Bucket}.

Record visitor := mkVisitor { limiter : bucket; lastSeen : Z }.

Record RateLimiter := mkLimiter {
  visitors : gmap string visitor; rps : Z; burst : Z; entryTTL : Z; stopped : bool
}.

Definition with_visitors (m : gmap string visitor) (rl : RateLimiter) : RateLimiter :=
  mkLimiter m (rps rl) (burst rl) (entryTTL rl) (stopped rl).

Definition get (now : Z) (ip : string) (rl : RateLimiter) : bucket * RateLimiter :=
  let l := match visitors rl !! ip with Some v => limiter v | None => new_bucket (rps rl) (burst rl) end in
  (l, with_visitors (<[ip := mkVisitor l now]> (visitors rl)) rl).

(** [rl.get(ip).Allow()]: the bucket is shared, so the table sees it drained. *)
Definition allow (now : Z) (ip : string) (rl : RateLimiter) : bool * RateLimiter :=
  let (l, rl) := get now ip rl in
  let (ok, l) := bucket_take now l in
  (ok, with_visitors (<[ip := mkVisitor l now]> (visitors rl)) rl).

Definition sweep (now : Z) (rl : RateLimiter) : RateLimiter :=
  let cutoff := now - entryTTL rl in
  with_visitors (filter (fun kv => negb (lastSeen (snd kv) <? cutoff) = true) (visitors rl)) rl.

Definition Close (rl : RateLimiter) : RateLimiter :=
  mkLimiter (visitors rl) (rps rl) (burst rl) (entryTTL rl) true.

(** A sweep drops exactly the addresses not seen for the entry's lifetime: their
    next request starts a full bucket, everyone else's bucket is untouched. *)
Lemma sweep_exact now ip rl :
  visitors (sweep now rl) !! ip =
  match visitors rl !! ip with
  | Some v => if lastSeen v <? now - entryTTL rl then None else Some v
  | None => None
  end.
Proof.
  simpl. rewrite map_lookup_filter. destruct (visitors rl !! ip) as [v|]; [|done]. simpl.
  by destruct (lastSeen v <? now - entryTTL rl); simpl; repeat case_guard.
Qed.

Lemma sweep_recent now ip rl rl1 b :
  0 <= entryTTL rl -> allow now ip rl = (b, rl1) -> visitors (sweep now rl1) !! ip = visitors rl1 !! ip.
Proof.
  intros Ht. unfold allow, get. destruct (bucket_take _ _) as [ok l]. intros [= <- <-].
  rewrite sweep_exact. simpl. rewrite lookup_insert_eq. simpl. by destruct (Z.ltb_spec now (now - entryTTL rl)); [lia|].
Qed.

End S.
End Visitors.
