(* ===== verification/Jobs.v ===== *)
(** * The leader-elected background jobs ([internal/jobs])

    [LeaderRunner] over the owner-checked locks of [store.OwnerLockManager], which
    both stores implement; a cluster of runners of one job as a step relation. *)

From S2P Require Import Prelude Store.

Open Scope Z_scope.

(** ** [store.OwnerLockManager] *)

Class OwnerLockManager (S : Store) := {
  kv_renew_owner : bool -> Z -> string -> string -> Z -> kv -> bool * kv;
  kv_delete_owner : bool -> Z -> string -> string -> kv -> bool * kv
}.

#[export] Instance mem_locks : OwnerLockManager mem_store := {|
  kv_renew_owner _ := Mem.RenewIfOwner;
  kv_delete_owner _ _ := Mem.DeleteIfOwner
|}.

#[export] Instance redis_locks : OwnerLockManager redis_store :=
  Build_OwnerLockManager redis_store Redis.RenewIfOwner Redis.DeleteIfOwner.

(** The contract of the locks: only the owner's claim is renewed or dropped. *)
Class LockLaws (S : Store) {O : OwnerLockManager S} : Prop := {
  renew_wins : forall up now k owner ttl s,
      fst (kv_renew_owner up now k owner ttl s) = true -> 0 < ttl -> ttl mod millisecond = 0 ->
      exists v, kv_live now s k = Some v /\ fmt_sprint v = owner /\
        forall t, now <= t ->
          kv_live t (snd (kv_renew_owner up now k owner ttl s)) k = if seen now ttl t then Some v else None;
  renew_own : forall now k owner ttl s v,
      kv_live now s k = Some v -> fmt_sprint v = owner -> fst (kv_renew_owner true now k owner ttl s) = true;
  renew_loses : forall up now k owner ttl s,
      fst (kv_renew_owner up now k owner ttl s) = false ->
      unchanged now s (snd (kv_renew_owner up now k owner ttl s));
  drop_other : forall up now k owner s v,
      kv_live now s k = Some v -> fmt_sprint v <> owner -> unchanged now s (snd (kv_delete_owner up now k owner s));
  drop_either : forall up now k owner s,
      (forall t, now <= t -> kv_live t (snd (kv_delete_owner up now k owner s)) k = None) \/
      unchanged now s (snd (kv_delete_owner up now k owner s));
  drop_own : forall now k owner s v,
      kv_live now s k = Some v -> fmt_sprint v = owner ->
      forall t, now <= t -> kv_live t (snd (kv_delete_owner true now k owner s)) k = None
}.

Module LockFacts.

Lemma mem_lock_laws : LockLaws mem_store.
Proof.
  split; simpl.
  - intros _ now k owner ttl s. unfold Mem.RenewIfOwner, Mem.live.
    destruct (Mem.data s !! k) as [e|] eqn:He; [|done]. destruct (Mem.expired e now) eqn:Hx; [done|].
    case_decide as Ho; [|done]. intros _ Hp _. exists (Mem.value e). split; [done|]. split; [done|].
    intros t Ht. destruct (Z.ltb_spec 0 ttl); [|lia]. simpl. rewrite lookup_insert_eq.
    pose proof (MemFacts.expired_deadline (Mem.value e) now ttl t Ht) as Hd. unfold Mem.deadline in Hd.
    destruct (Z.ltb_spec 0 ttl); [|lia]. rewrite Hd. by destruct (seen now ttl t).
  - intros now k owner ttl s v Hl <-. unfold Mem.live in Hl. unfold Mem.RenewIfOwner.
    destruct (Mem.data s !! k) as [e|]; [|done]. destruct (Mem.expired e now); [done|]. injection Hl as ->.
    by rewrite decide_True.
  - intros _ now k owner ttl s. unfold Mem.RenewIfOwner. by repeat case_match.
  - intros _ now k owner s v Hl Ho. unfold Mem.live in Hl. unfold Mem.DeleteIfOwner.
    destruct (Mem.data s !! k) as [e|]; [|done]. destruct (Mem.expired e now); [done|]. injection Hl as ->.
    by rewrite decide_False.
  - intros _ now k owner s. unfold Mem.DeleteIfOwner.
    destruct (Mem.data s !! k) as [e|]; [|by right]. case_decide; [left|by right].
    intros t _. apply MemFacts.live_delete.
  - intros now k owner s v Hl <- t Ht. unfold Mem.live in Hl. unfold Mem.DeleteIfOwner.
    destruct (Mem.data s !! k) as [e|]; [|done]. destruct (Mem.expired e now); [done|]. injection Hl as ->.
    rewrite decide_True by done. apply MemFacts.live_delete.
Qed.

Lemma redis_lock_laws : LockLaws redis_store.
Proof.
  split; simpl.
  - intros [] now k owner ttl s; unfold Redis.RenewIfOwner, Redis.renewIfOwnerScript; [|done].
    destruct (Redis.rlive now k s) as [e|] eqn:He; [|done]. case_decide as Ho; [|done]. intros _ Hp Hm.
    exists (VStr (Redis.rval e)). split; [done|]. split; [done|]. intros t Ht. simpl.
    rewrite RedisFacts.ms_of_pos by done. destruct (Z.ltb_spec 0 ttl); [|lia].
    pose proof (RedisFacts.rlive_write now k (Redis.rval e) ttl s t Hm) as Hw. unfold Redis.deadline in Hw. rewrite RedisFacts.px_whole in Hw by done.
    destruct (Z.ltb_spec 0 ttl); [|lia]. rewrite Hw. by destruct (seen now ttl t).
  - intros now k owner ttl s v Hl <-. apply fmap_Some in Hl as (e & Hl & ->).
    unfold Redis.RenewIfOwner, Redis.renewIfOwnerScript. rewrite Hl. by rewrite decide_True.
  - intros [] now k owner ttl s; unfold Redis.RenewIfOwner, Redis.renewIfOwnerScript; [|done].
    destruct (Redis.rlive now k s) as [e|]; [|done]. by case_decide.
  - intros [] now k owner s v Hl Ho; [|done]. apply fmap_Some in Hl as (e & Hl & ->).
    unfold Redis.DeleteIfOwner, Redis.deleteIfOwnerScript. rewrite Hl. by rewrite decide_False.
  - intros [] now k owner s; unfold Redis.DeleteIfOwner, Redis.deleteIfOwnerScript; [|by right].
    destruct (Redis.rlive now k s) as [e|]; [|by right]. case_decide; [left|by right].
    intros t _. simpl. by rewrite RedisFacts.rlive_delete.
  - intros now k owner s v Hl <- t Ht. apply fmap_Some in Hl as (e & Hl & ->).
    unfold Redis.DeleteIfOwner, Redis.deleteIfOwnerScript. rewrite Hl. rewrite decide_True by done.
    simpl. by rewrite RedisFacts.rlive_delete.
Qed.

End LockFacts.

#[export] Existing Instance LockFacts.mem_lock_laws.
#[export] Existing Instance LockFacts.redis_lock_laws.

(** ** [LeaderRunner] *)

(** The fields of the Go struct the election uses. *)
Record LeaderRunner := mkRunner { lockKey : string; self : string; lockTTL : Z }.

Definition NewLeaderRunner (name uuid : string) (lockTTL : Z) : LeaderRunner :=
  mkRunner ("jobs:leader:" +:+ name) uuid lockTTL.

Section Runner.
Context {S : Store} {O : OwnerLockManager S}.

(** [up1], [up2]: whether the backend answers the claim and the renewal. *)
Definition isLeader (r : LeaderRunner) (up1 up2 : bool) (now : Z) (s : kv) : bool * kv :=
  let (won, s1) := kv_setnx up1 now (lockKey r) (VStr (self r)) (lockTTL r) s in
  if won then (true, s1) else kv_renew_owner up2 now (lockKey r) (self r) (lockTTL r) s1.

Definition releaseLock (r : LeaderRunner) (up : bool) (now : Z) (s : kv) : kv :=
  snd (kv_delete_owner up now (lockKey r) (self r) s).

(** What the loops of a cluster's runners do, in time order: run the job at a
    tick they lead, or stop for good. *)
Inductive Mark := Ran (now : Z) (runner : string) | Stopped (now : Z) (runner : string) (released : bool).

(** The instances of one job: one name, one lock duration, an own id each. *)
Record Cluster := mkCluster { job : string; ttl : Z }.

Definition runner (c : Cluster) (id : string) : LeaderRunner := NewLeaderRunner (job c) id (ttl c).

Definition lock (c : Cluster) : string := "jobs:leader:" +:+ job c.

(** The select of [loop], of any instance at any time, whatever fails; in
    between, the rest of the program uses the store's other keys. *)
Inductive loops (c : Cluster) : Z -> kv -> list Mark -> Z -> kv -> Prop :=
  | loops_start t s : loops c t s [] t s
  | loops_later t0 s0 tr t s t' : loops c t0 s0 tr t s -> t <= t' -> loops c t0 s0 tr t' s
  | loops_tick t0 s0 tr t s id up1 up2 won s' :
      loops c t0 s0 tr t s -> isLeader (runner c id) up1 up2 t s = (won, s') ->
      loops c t0 s0 (if won then tr ++ [Ran t id] else tr) t s'
  | loops_stop t0 s0 tr t s id up :
      loops c t0 s0 tr t s ->
      loops c t0 s0 (tr ++ [Stopped t id up]) t (releaseLock (runner c id) up t s)
  | loops_other t0 s0 tr t s s' :
      loops c t0 s0 tr t s -> (forall u, t <= u -> kv_live u s' (lock c) = kv_live u s (lock c)) ->
      loops c t0 s0 tr t s'.

End Runner.

(** ** What a tick does to the lock *)

Section Facts.
Context {S : Store} {SL : StoreLaws S} {O : OwnerLockManager S} {OL : LockLaws S} (c : Cluster).
Hypothesis Hpos : 0 < ttl c.
Hypothesis Hms : ttl c mod millisecond = 0.

(** The lock reads as [id]'s until [e]. *)
Definition leased (id : string) (e now : Z) (s : kv) : Prop :=
  exists v, fmt_sprint v = id /\ forall t, now <= t ->
    kv_live t s (lock c) = if t <=? e then Some v else None.

Definition free (now : Z) (s : kv) : Prop := forall t, now <= t -> kv_live t s (lock c) = None.

Lemma seen_until now t : seen now (ttl c) t = (t <=? now + ttl c).
Proof. unfold seen. destruct (Z.ltb_spec 0 (ttl c)); [done|lia]. Qed.

Lemma isLeader_wins id up1 up2 now s s' : isLeader (runner c id) up1 up2 now s = (true, s') ->
  leased id (now + ttl c) now s' /\
  (kv_live now s (lock c) = None \/ exists v, kv_live now s (lock c) = Some v /\ fmt_sprint v = id).
Proof.
  unfold isLeader. simpl. destruct (kv_setnx _ _ _ _ _ _) as [won s1] eqn:Hs. destruct won.
  - intros [= <-]. change s1 with (snd (true, s1)). rewrite <- Hs.
    assert (fst (kv_setnx up1 now (lock c) (VStr id) (ttl c) s) = true) as Hw by (unfold lock; by rewrite Hs).
    split; [|left; by eapply setnx_wins]. exists (VStr id). split; [done|]. intros t Ht.
    rewrite <- seen_until. etransitivity; [by apply setnx_value|]. by rewrite read_str.
  - assert (fst (kv_setnx up1 now (lock c) (VStr id) (ttl c) s) = false) as Hl by (unfold lock; by rewrite Hs).
    apply setnx_loses in Hl. unfold lock in Hl. rewrite Hs in Hl. simpl in Hl. intros Hr.
    assert (fst (kv_renew_owner up2 now (lock c) id (ttl c) s1) = true) as Hw by (unfold lock; by rewrite Hr).
    apply renew_wins in Hw as (v & Hv & Ho & Ha); [|done|done]. unfold lock in Ha. rewrite Hr in Ha. simpl in Ha.
    split.
    + exists v. split; [done|]. intros t Ht. rewrite <- seen_until. by apply Ha.
    + right. exists v. split; [|done]. rewrite <- Hv. symmetry. apply Hl. lia.
Qed.

Lemma isLeader_loses id up1 up2 now s s' : isLeader (runner c id) up1 up2 now s = (false, s') -> unchanged now s s'.
Proof.
  unfold isLeader. simpl. destruct (kv_setnx _ _ _ _ _ _) as [won s1] eqn:Hs. destruct won; [done|].
  intros Hr.
  assert (fst (kv_setnx up1 now (lock c) (VStr id) (ttl c) s) = false) as Hl by (unfold lock; by rewrite Hs).
  assert (fst (kv_renew_owner up2 now (lock c) id (ttl c) s1) = false) as Hw by (unfold lock; by rewrite Hr).
  apply setnx_loses in Hl. apply renew_loses in Hw. unfold lock in *. rewrite Hs in Hl. rewrite Hr in Hw.
  simpl in *. intros t k Ht. by rewrite (Hw t k Ht), (Hl t k Ht).
Qed.

(** When the store answers, a tick loses only to another's lease. *)
Lemma isLeader_up id now s : 
  fst (isLeader (runner c id) true true now s) = true \/
  exists v, kv_live now s (lock c) = Some v /\ fmt_sprint v <> id.
Proof.
  destruct (kv_live now s (lock c)) as [v|] eqn:Hl.
  - destruct (decide (fmt_sprint v = id)) as [He|He]; [left|right; by exists v].
    unfold isLeader. simpl. destruct (kv_setnx _ _ _ _ _ _) as [won s1] eqn:Hs. destruct won; [done|].
    eapply renew_own; [|exact He]. rewrite <- Hl.
    assert (fst (kv_setnx true now (lock c) (VStr id) (ttl c) s) = false) as Hf by (unfold lock; by rewrite Hs).
    apply setnx_loses in Hf. unfold lock in Hf. rewrite Hs in Hf. apply Hf. lia.
  - left. unfold isLeader. simpl. pose proof (setnx_free now (lock c) (VStr id) (ttl c) s ltac:(lia) Hl) as Hf.
    unfold lock in Hf. destruct (kv_setnx _ _ _ _ _ _) as [won s1]. simpl in Hf. by subst won.
Qed.

End Facts.
