(* ===== verification/JobsSpec.v ===== *)
(** * One leader at a time

    Over any behaviour of a cluster's runners and of the store behind them, a job
    runs on one instance per lease ([leader_unique]), and a lost leader is replaced
    as soon as its lease is over ([leader_takeover]). *)

From S2P Require Import Prelude Store Jobs.

Open Scope Z_scope.

Lemma app_snoc_inv {A} (a b : list A) x l y : a ++ x :: b = l ++ [y] ->
  (b = [] /\ l = a /\ x = y) \/ exists b', b = b' ++ [y] /\ l = a ++ x :: b'.
Proof.
  induction b as [|z b' _] using rev_ind; intros H.
  - left. by apply app_inj_tail in H as [-> ->].
  - right. rewrite app_comm_cons, app_assoc in H. apply app_inj_tail in H as [<- <-]. by exists b'.
Qed.

Section Spec.
Context {S : Store} {SL : StoreLaws S} {O : OwnerLockManager S} {OL : LockLaws S} (c : Cluster).
Hypothesis Hpos : 0 < ttl c.
Hypothesis Hms : ttl c mod millisecond = 0.

Lemma leased_later id e now t s : now <= t -> leased c id e now s -> leased c id e t s.
Proof. intros Ht (v & Hv & H). exists v. split; [done|]. intros u Hu. apply H. lia. Qed.

Lemma leased_same id e now s s' : (forall t, now <= t -> kv_live t s' (lock c) = kv_live t s (lock c)) ->
  leased c id e now s -> leased c id e now s'.
Proof. intros Hs (v & Hv & H). exists v. split; [done|]. intros u Hu. rewrite Hs by done. by apply H. Qed.

Lemma leased_live id e now s : leased c id e now s -> now <= e ->
  exists v, kv_live now s (lock c) = Some v /\ fmt_sprint v = id.
Proof.
  intros (v & Hv & H) He. exists v. split; [|done]. rewrite H by lia. by destruct (Z.leb_spec now e); [|lia].
Qed.

Lemma leased_over id e now s : leased c id e now s -> e < now -> free c now s.
Proof.
  intros (v & Hv & H) He t Ht. rewrite H by done. by destruct (Z.leb_spec t e); [lia|].
Qed.

(** *** The lease a mark gives is kept *)

Definition unstopped (id : string) (b : list Mark) : Prop := forall u up, ~ In (Stopped u id up) b.

Definition kept (tr : list Mark) (now : Z) (s : kv) : Prop :=
  forall a t id b, tr = a ++ Ran t id :: b -> t <= now /\
    (unstopped id b -> now <= t + ttl c -> exists e, t + ttl c <= e /\ leased c id e now s).

Lemma unstopped_snoc id b m : unstopped id (b ++ [m]) -> unstopped id b.
Proof. intros H u up Hin. apply (H u up), in_or_app. by left. Qed.

Lemma kept_same tr now s s' : (forall t, now <= t -> kv_live t s' (lock c) = kv_live t s (lock c)) ->
  kept tr now s -> kept tr now s'.
Proof.
  intros Hs H a t id b Htr. destruct (H a t id b Htr) as [Ht Hl]. split; [done|]. intros Hu He.
  destruct (Hl Hu He) as (e & Hge & Hle). exists e. split; [done|]. by eapply leased_same.
Qed.

Lemma loops_kept t0 s0 tr now s : loops c t0 s0 tr now s -> kept tr now s.
Proof.
  induction 1 as [t s|t0 s0 tr t s t' _ IH Ht|t0 s0 tr t s id up1 up2 won s' _ IH Hl|t0 s0 tr t s id up _ IH
    |t0 s0 tr t s s' _ IH Hs].
  - intros a u id b H. by destruct a.
  - intros a u id b Htr. destruct (IH a u id b Htr) as [Hu Hl]. split; [lia|]. intros Hst He.
    destruct (Hl Hst ltac:(lia)) as (e & Hge & Hle). exists e. split; [done|]. by eapply leased_later.
  - destruct won; [|apply isLeader_loses in Hl; eapply kept_same; [|done]; intros; by apply Hl].
    apply isLeader_wins in Hl as [Hnew Hold]; [|done..]. intros a u x b Htr. symmetry in Htr.
    apply app_snoc_inv in Htr as [(-> & -> & [= -> ->])|(b' & -> & ->)].
    + split; [lia|]. intros _ _. exists (t + ttl c). split; [lia|done].
    + destruct (IH a u x b' eq_refl) as [Hu Hk]. split; [done|]. intros Hst He.
      apply unstopped_snoc in Hst. destruct (Hk Hst He) as (e & Hge & Hle).
      destruct (leased_live _ _ _ _ Hle) as (v & Hv & Hx); [lia|].
      destruct Hold as [Hn|(v' & Hv' & Ho)]; [congruence|]. assert (x = id) as -> by congruence.
      exists (t + ttl c). split; [lia|done].
  - intros a u x b Htr. symmetry in Htr. apply app_snoc_inv in Htr as [(_ & _ & [=])|(b' & -> & ->)].
    destruct (IH a u x b' eq_refl) as [Hu Hk]. split; [done|]. intros Hst He.
    destruct (Hk (unstopped_snoc _ _ _ Hst) He) as (e & Hge & Hle). exists e. split; [done|].
    destruct (leased_live _ _ _ _ Hle) as (v & Hv & Hx); [lia|].
    eapply leased_same; [|exact Hle]. intros w Hw. eapply drop_other; [exact Hv| |done].
    intros Hid. apply (Hst t up), in_or_app. right. left. simpl in *. congruence.
  - by eapply kept_same.
Qed.

(** *** The lock always tells who leads *)

Definition told (tr : list Mark) (now : Z) (s : kv) : Prop :=
  free c now s \/ exists a t id b, tr = a ++ Ran t id :: b /\ (forall u, ~ In (Stopped u id true) b) /\
    leased c id (t + ttl c) now s.

Lemma told_same tr now s s' : (forall t, now <= t -> kv_live t s' (lock c) = kv_live t s (lock c)) ->
  told tr now s -> told tr now s'.
Proof.
  intros Hs [Hf|(a & t & id & b & Htr & Hst & Hl)]; [left; intros t Ht; rewrite Hs by done; by apply Hf|right].
  exists a, t, id, b. split; [done|]. split; [done|]. by eapply leased_same.
Qed.

Lemma loops_told t0 s0 tr now s : loops c t0 s0 tr now s -> free c t0 s0 -> told tr now s.
Proof.
  induction 1 as [t s|t0 s0 tr t s t' _ IH Ht|t0 s0 tr t s id up1 up2 won s' _ IH Hl|t0 s0 tr t s id up _ IH
    |t0 s0 tr t s s' _ IH Hs]; intros H0.
  - by left.
  - destruct (IH H0) as [Hf|(a & u & x & b & Htr & Hst & Hl)]; [left; intros v Hv; apply Hf; lia|right].
    exists a, u, x, b. split; [done|]. split; [done|]. by eapply leased_later.
  - destruct won.
    + apply isLeader_wins in Hl as [Hnew _]; [|done..]. right. exists tr, t, id, []. split; [done|]. split; [auto|done].
    + apply isLeader_loses in Hl. eapply told_same; [|by apply IH]. intros; by apply Hl.
  - assert (free c t s -> free c t (releaseLock (runner c id) up t s)) as Hfree.
    { intros Hf u Hu. destruct (drop_either up t (lock c) id s) as [Hn|Hn]; [by apply Hn|].
      etransitivity; [by apply Hn|by apply Hf]. }
    destruct (IH H0) as [Hf|(a & u & x & b & Htr & Hst & Hl)]; [left; by apply Hfree|].
    destruct (Z.le_gt_cases t (u + ttl c)) as [He|He]; [|left; apply Hfree; by eapply leased_over].
    destruct (leased_live _ _ _ _ Hl He) as (v & Hv & Hx).
    assert (forall up', (x = id -> up' = false) ->
      (forall w, t <= w -> kv_live w (releaseLock (runner c id) up t s) (lock c) = kv_live w s (lock c)) ->
      up' = up -> told (tr ++ [Stopped t id up]) t (releaseLock (runner c id) up t s)) as Hkeep.
    { intros up' Hid Hsame ->. right. exists a, u, x, (b ++ [Stopped t id up]).
      split; [by rewrite Htr, <- app_assoc|]. split; [|by eapply leased_same].
      intros w Hin. apply in_app_or in Hin as [Hin|[[= -> -> ->]|[]]]; [by apply (Hst w)|].
      by specialize (Hid eq_refl). }
    destruct (decide (x = id)) as [->|Hne].
    + destruct up.
      * left. intros w Hw. by eapply (drop_own t (lock c) id s v).
      * destruct (drop_either false t (lock c) id s) as [Hn|Hn]; [by left|].
        apply (Hkeep false); [done| |done]. intros w Hw. by apply Hn.
    + apply (Hkeep up); [done| |done]. intros w Hw. apply (drop_other up t (lock c) id s v Hv); [by rewrite Hx|done].
  - eapply told_same; [exact Hs|by apply IH].
Qed.

(** A mark was made by a tick won after the marks before it. *)
Lemma loops_prefix t0 s0 tr t1 s1 p t id d : loops c t0 s0 tr t1 s1 -> tr = p ++ Ran t id :: d ->
  exists s up1 up2 s', loops c t0 s0 p t s /\ isLeader (runner c id) up1 up2 t s = (true, s').
Proof.
  intros H. revert d. induction H as [u s|t0 s0 tr u s u' _ IH Ht|t0 s0 tr u s x up1 up2 won s' Hr IH Hl
    |t0 s0 tr u s x up Hr IH|t0 s0 tr u s s' _ IH Hs]; intros d Htr.
  - by destruct p.
  - by eapply IH.
  - destruct won; [|by eapply IH]. symmetry in Htr.
    apply app_snoc_inv in Htr as [(-> & -> & [= -> ->])|(b' & -> & ->)]; [|by eapply IH].
    by exists s, up1, up2, s'.
  - symmetry in Htr. apply app_snoc_inv in Htr as [(_ & _ & [=])|(b' & -> & ->)]. by eapply IH.
  - by eapply IH.
Qed.

End Spec.

(** ** The properties *)

Section Claims.
Context {S : Store} {SL : StoreLaws S} {O : OwnerLockManager S} {OL : LockLaws S}.

(** C15: Once an instance ran the job at a tick, no other instance runs it within
    the lock's duration unless the first one has stopped, whatever the instances
    do, whatever the store's failures, and whatever the rest of the program does
    with the store's other keys. *)
Theorem leader_unique (c : Cluster) (t0 t1 : Z) (s0 s1 : kv) (tr a b d : list Mark) (t t' : Z) (i j : string)
    (Hpos : 0 < ttl c) (Hms : ttl c mod millisecond = 0) (Hrun : loops c t0 s0 tr t1 s1)
    (Htr : tr = a ++ Ran t i :: b ++ Ran t' j :: d) (Hst : unstopped i b) (Ht : t' <= t + ttl c) :
  i = j.
Proof.
  rewrite app_comm_cons, app_assoc in Htr.
  destruct (loops_prefix c _ _ _ _ _ _ _ _ _ Hrun Htr) as (s & up1 & up2 & s' & Hp & Hw).
  apply (loops_kept c Hpos Hms) in Hp. destruct (Hp a t i b eq_refl) as [_ Hk].
  destruct (Hk Hst Ht) as (e & He & Hl). destruct (leased_live c _ _ _ _ Hl) as (v & Hv & Hi); [lia|].
  apply (isLeader_wins c Hpos Hms) in Hw as [_ [Hn|(v' & Hv' & Hj)]]; congruence.
Qed.

(** C16: From a free lock on, an instance whose tick reaches the store leads, unless
    another instance led within the lock's duration before and has not given its
    claim back: a leader that dies is replaced at the first tick after its lease,
    one that stops at the first tick after that. *)
Theorem leader_takeover (c : Cluster) (t0 t1 : Z) (s0 s1 : kv) (tr : list Mark) (j : string)
    (Hpos : 0 < ttl c) (Hms : ttl c mod millisecond = 0) (Hfree : free c t0 s0) (Hrun : loops c t0 s0 tr t1 s1) :
  fst (isLeader (runner c j) true true t1 s1) = true \/
  exists a t i b, tr = a ++ Ran t i :: b /\ i <> j /\ t1 <= t + ttl c /\ (forall u, ~ In (Stopped u i true) b).
Proof.
  destruct (isLeader_up c Hpos j t1 s1) as [Hw|(v & Hv & Hj)]; [by left|right].
  destruct (loops_told c Hpos Hms _ _ _ _ _ Hrun Hfree) as [Hf|(a & t & i & b & Htr & Hst & Hl)].
  - rewrite (Hf t1) in Hv by lia. done.
  - exists a, t, i, b. split; [done|]. destruct (Z.le_gt_cases t1 (t + ttl c)) as [He|He].
    + destruct (leased_live c _ _ _ _ Hl He) as (v' & Hv' & Hi). split; [congruence|done].
    + rewrite (leased_over c _ _ _ _ Hl He t1) in Hv by lia. done.
Qed.

End Claims.

(** ** Witnesses: two instances over the in-memory store *)

#[local] Existing Instance mem_store.

Definition purge : Cluster := mkCluster "token-purge" (30 * second).

Definition led : kv := snd (isLeader (runner purge "a") true true 0 Mem.NewInMemoryStore).
Definition led_on : kv := snd (isLeader (runner purge "a") true true (20 * second) led).

Lemma demo_loops : loops purge 0 Mem.NewInMemoryStore [Ran 0 "a"; Ran (20 * second) "a"] (20 * second) led_on.
Proof.
  apply (loops_tick (S:=mem_store) purge 0 Mem.NewInMemoryStore [Ran 0 "a"] (20 * second) led "a" true true true led_on);
    [|vm_reflexivity].
  apply (loops_later (S:=mem_store) purge 0 Mem.NewInMemoryStore [Ran 0 "a"] 0 led (20 * second)); [|by vm_compute].
  apply (loops_tick (S:=mem_store) purge 0 Mem.NewInMemoryStore [] 0 Mem.NewInMemoryStore "a" true true true led);
    [apply loops_start|vm_reflexivity].
Qed.

Lemma leader_unique_witness : loops purge 0 Mem.NewInMemoryStore [Ran 0 "a"; Ran (20 * second) "a"] (20 * second) led_on /\
  "a" = "a".
Proof.
  split; [exact demo_loops|].
  refine (leader_unique (S:=mem_store) purge 0 (20 * second) Mem.NewInMemoryStore led_on _ [] [] [] 0 (20 * second) "a" "a"
    (ltac:(done)) (ltac:(done)) demo_loops eq_refl _ (ltac:(done))). intros u up [].
Defined.

Lemma leader_takeover_witness :
  fst (isLeader (runner purge "b") true true (51 * second) led_on) = true.
Proof.
  assert (loops purge 0 Mem.NewInMemoryStore [Ran 0 "a"; Ran (20 * second) "a"] (51 * second) led_on) as H.
  { exact (loops_later (S:=mem_store) purge _ _ _ (20 * second) led_on (51 * second) demo_loops (ltac:(by vm_compute))). }
  destruct (leader_takeover (S:=mem_store) purge 0 (51 * second) Mem.NewInMemoryStore led_on _ "b" (ltac:(done)) (ltac:(done))
    (fun _ _ => eq_refl) H) as [Hw|(a & t & i & b & Htr & _ & Ht & _)]; [exact Hw|].
  exfalso. assert (In (Ran t i) [Ran 0 "a"; Ran (20 * second) "a"]) as Hin by (rewrite Htr; apply in_elt).
  destruct Hin as [[= <- <-]|[[= <- <-]|[]]]; by vm_compute in Ht.
Defined.
