(* ===== verification/Models.v ===== *)
(** * The data model ([internal/models]) and the errors

    Every table's row is a record in a Module of the model's name, its fields
    the Go struct's; the database is one list of rows per table.  Columns no
    code reads ([updated_at], display metadata) are left out, times are
    nanoseconds, ids are integers, and a nullable column is an [option]. *)

From S2P Require Import Prelude.

Open Scope Z_scope.

(** ** Errors.  Wrapping with [%w] keeps the sentinel ([errors.Is]), so an error
    is the sentinel at its root; [EInfra] is any error with none of these. *)

Inductive Err :=
  (* services/errors.go *)
  | ErrIdentityUnavailable | ErrInvalidInput | ErrPasswordTooWeak | ErrInvalidCredentials
  | ErrInvalidToken | ErrInvalidCode | ErrAccountLocked | ErrAccountDisabled
  | ErrEmailNotVerified | ErrSudoRequired | ErrCaptchaRequired | ErrUserNotFound
  | ErrTOTPUnrecoverable | ErrSessionNotFound | ErrEmailExists | ErrUsernameExists
  | ErrPasswordAlreadySet | ErrDisposableEmail | ErrPasswordBreached | ErrRateLimited
  | ErrOAuthStateInvalid | ErrOAuthEmailNotVerified | ErrOAuthCodeExchangeFailed
  | ErrOAuthTokenVerificationFailed | ErrOAuthNotConfigured | ErrOAuthEmailTaken
  | ErrCannotUnlinkOnlyMethod | ErrCannotLockSelf
  (* services/passkey_service.go, webhook_service.go *)
  | ErrPasskeyChallenge | ErrPasskeyCredentialRevoked | ErrPasskeyNotConfigured
  | ErrWebhookSSRFBlocked | ErrInvalidWebhookURL
  (* repositories/errors.go *)
  | ErrTokenAlreadyRevoked | ErrRecoveryCodeUsed
  (* audit/audit.go *)
  | ErrUnavailable | ErrIntegrity | ErrLegacy | ErrPolicy
  (* identity/state.go, jwt *)
  | ErrInactive | ErrJwtInvalid | ErrUnknownKeyID
  (* hash *)
  | ErrPasswordTooLong
  (* gorm and the MySQL driver *)
  | ErrRecordNotFound | ErrDuplicateKey
  | EInfra.

#[export] Instance Err_eq_dec : EqDecision Err.
Proof. solve_decision. Defined.

(** ** Rows *)

(** [models.User]: a row of users. *)
Module User.

Record row := mk {
  ID : Z; TenantID : string; Username : string; Email : string; Password : string;
  FullName : string; Role : string; IsActive : bool; IsEmailVerified : bool;
  FailedLoginAttempts : Z; LockedUntil : option Z; AuthEpoch : Z;
  AdminSuspended : bool; PwdVersion : Z; CreatedAt : Z
}.

#[global] Instance row_eq_dec : EqDecision row.
Proof. solve_decision. Defined.

Definition set_Username (v : string) (r : row) : row :=
  mk (ID r) (TenantID r) v (Email r) (Password r) (FullName r) (Role r) (IsActive r)
     (IsEmailVerified r) (FailedLoginAttempts r) (LockedUntil r) (AuthEpoch r)
     (AdminSuspended r) (PwdVersion r) (CreatedAt r).

Definition set_Email (v : string) (r : row) : row :=
  mk (ID r) (TenantID r) (Username r) v (Password r) (FullName r) (Role r) (IsActive r)
     (IsEmailVerified r) (FailedLoginAttempts r) (LockedUntil r) (AuthEpoch r)
     (AdminSuspended r) (PwdVersion r) (CreatedAt r).

Definition set_Password (v : string) (r : row) : row :=
  mk (ID r) (TenantID r) (Username r) (Email r) v (FullName r) (Role r) (IsActive r)
     (IsEmailVerified r) (FailedLoginAttempts r) (LockedUntil r) (AuthEpoch r)
     (AdminSuspended r) (PwdVersion r) (CreatedAt r).

Definition set_FullName (v : string) (r : row) : row :=
  mk (ID r) (TenantID r) (Username r) (Email r) (Password r) v (Role r) (IsActive r)
     (IsEmailVerified r) (FailedLoginAttempts r) (LockedUntil r) (AuthEpoch r)
     (AdminSuspended r) (PwdVersion r) (CreatedAt r).

Definition set_IsActive (v : bool) (r : row) : row :=
  mk (ID r) (TenantID r) (Username r) (Email r) (Password r) (FullName r) (Role r) v
     (IsEmailVerified r) (FailedLoginAttempts r) (LockedUntil r) (AuthEpoch r)
     (AdminSuspended r) (PwdVersion r) (CreatedAt r).

Definition set_IsEmailVerified (v : bool) (r : row) : row :=
  mk (ID r) (TenantID r) (Username r) (Email r) (Password r) (FullName r) (Role r)
     (IsActive r) v (FailedLoginAttempts r) (LockedUntil r) (AuthEpoch r)
     (AdminSuspended r) (PwdVersion r) (CreatedAt r).

Definition set_FailedLoginAttempts (v : Z) (r : row) : row :=
  mk (ID r) (TenantID r) (Username r) (Email r) (Password r) (FullName r) (Role r)
     (IsActive r) (IsEmailVerified r) v (LockedUntil r) (AuthEpoch r) (AdminSuspended r)
     (PwdVersion r) (CreatedAt r).

Definition set_LockedUntil (v : option Z) (r : row) : row :=
  mk (ID r) (TenantID r) (Username r) (Email r) (Password r) (FullName r) (Role r)
     (IsActive r) (IsEmailVerified r) (FailedLoginAttempts r) v (AuthEpoch r)
     (AdminSuspended r) (PwdVersion r) (CreatedAt r).

Definition set_AuthEpoch (v : Z) (r : row) : row :=
  mk (ID r) (TenantID r) (Username r) (Email r) (Password r) (FullName r) (Role r)
     (IsActive r) (IsEmailVerified r) (FailedLoginAttempts r) (LockedUntil r) v
     (AdminSuspended r) (PwdVersion r) (CreatedAt r).

Definition set_AdminSuspended (v : bool) (r : row) : row :=
  mk (ID r) (TenantID r) (Username r) (Email r) (Password r) (FullName r) (Role r)
     (IsActive r) (IsEmailVerified r) (FailedLoginAttempts r) (LockedUntil r)
     (AuthEpoch r) v (PwdVersion r) (CreatedAt r).

Definition set_PwdVersion (v : Z) (r : row) : row :=
  mk (ID r) (TenantID r) (Username r) (Email r) (Password r) (FullName r) (Role r)
     (IsActive r) (IsEmailVerified r) (FailedLoginAttempts r) (LockedUntil r)
     (AuthEpoch r) (AdminSuspended r) v (CreatedAt r).

End User.

(** [models.RefreshToken]: a row of refresh_tokens; [TokenHash] is the SHA-256 of the opaque token. *)
Module RefreshToken.

Record row := mk {
  ID : Z; UserID : Z; TokenHash : string; ExpiresAt : Z; Revoked : bool;
  IPAddress : string; UserAgent : string; DeviceName : string;
  LocationEstimate : string; LastActiveAt : Z; SessionID : string; CreatedAt : Z
}.

#[global] Instance row_eq_dec : EqDecision row.
Proof. solve_decision. Defined.

Definition set_Revoked (v : bool) (r : row) : row :=
  mk (ID r) (UserID r) (TokenHash r) (ExpiresAt r) v (IPAddress r) (UserAgent r)
     (DeviceName r) (LocationEstimate r) (LastActiveAt r) (SessionID r) (CreatedAt r).

End RefreshToken.

(** [models.Session]: a row of sessions. *)
Module Session.

Record row := mk {
  ID : string; TenantID : string; UserID : Z; IPAddress : string; UserAgent : string;
  DeviceName : string; LocationEstimate : string; Revoked : bool; LastActiveAt : Z;
  ExpiresAt : Z; CreatedAt : Z
}.

#[global] Instance row_eq_dec : EqDecision row.
Proof. solve_decision. Defined.

Definition set_IPAddress (v : string) (r : row) : row :=
  mk (ID r) (TenantID r) (UserID r) v (UserAgent r) (DeviceName r) (LocationEstimate r)
     (Revoked r) (LastActiveAt r) (ExpiresAt r) (CreatedAt r).

Definition set_UserAgent (v : string) (r : row) : row :=
  mk (ID r) (TenantID r) (UserID r) (IPAddress r) v (DeviceName r) (LocationEstimate r)
     (Revoked r) (LastActiveAt r) (ExpiresAt r) (CreatedAt r).

Definition set_DeviceName (v : string) (r : row) : row :=
  mk (ID r) (TenantID r) (UserID r) (IPAddress r) (UserAgent r) v (LocationEstimate r)
     (Revoked r) (LastActiveAt r) (ExpiresAt r) (CreatedAt r).

Definition set_LocationEstimate (v : string) (r : row) : row :=
  mk (ID r) (TenantID r) (UserID r) (IPAddress r) (UserAgent r) (DeviceName r) v
     (Revoked r) (LastActiveAt r) (ExpiresAt r) (CreatedAt r).

Definition set_Revoked (v : bool) (r : row) : row :=
  mk (ID r) (TenantID r) (UserID r) (IPAddress r) (UserAgent r) (DeviceName r)
     (LocationEstimate r) v (LastActiveAt r) (ExpiresAt r) (CreatedAt r).

Definition set_LastActiveAt (v : Z) (r : row) : row :=
  mk (ID r) (TenantID r) (UserID r) (IPAddress r) (UserAgent r) (DeviceName r)
     (LocationEstimate r) (Revoked r) v (ExpiresAt r) (CreatedAt r).

End Session.

(** [models.TOTPDevice]: a row of totp_devices. *)
Module TOTPDevice.

Record row := mk {
  ID : Z; UserID : Z; Secret : string; SecretEncrypted : string;
  PendingSecretEncrypted : string; Enabled : bool
}.

#[global] Instance row_eq_dec : EqDecision row.
Proof. solve_decision. Defined.

Definition set_Secret (v : string) (r : row) : row :=
  mk (ID r) (UserID r) v (SecretEncrypted r) (PendingSecretEncrypted r) (Enabled r).

Definition set_SecretEncrypted (v : string) (r : row) : row :=
  mk (ID r) (UserID r) (Secret r) v (PendingSecretEncrypted r) (Enabled r).

Definition set_PendingSecretEncrypted (v : string) (r : row) : row :=
  mk (ID r) (UserID r) (Secret r) (SecretEncrypted r) v (Enabled r).

Definition set_Enabled (v : bool) (r : row) : row :=
  mk (ID r) (UserID r) (Secret r) (SecretEncrypted r) (PendingSecretEncrypted r) v.

End TOTPDevice.

(** [models.RecoveryCode]: a row of recovery_codes. *)
Module RecoveryCode.

Record row := mk {
  ID : Z; UserID : Z; CodeHash : string; CodeEncrypted : string; UsedAt : option Z
}.

#[global] Instance row_eq_dec : EqDecision row.
Proof. solve_decision. Defined.

Definition set_UsedAt (v : option Z) (r : row) : row :=
  mk (ID r) (UserID r) (CodeHash r) (CodeEncrypted r) v.

End RecoveryCode.

(** [models.UsedToken]: a row of used_tokens (unique JTI). *)
Module UsedToken.

Record row := mk {
  ID : Z; JTI : string; TokenType : string; UserID : Z; ExpiresAt : Z
}.

#[global] Instance row_eq_dec : EqDecision row.
Proof. solve_decision. Defined.

End UsedToken.

(** [models.AccessRevocation]: a row of access_revocations, keyed by tenant and JTI. *)
Module AccessRevocation.

Record row := mk {
  TenantID : string; JTI : string; ExpiresAt : Z
}.

#[global] Instance row_eq_dec : EqDecision row.
Proof. solve_decision. Defined.

Definition set_ExpiresAt (v : Z) (r : row) : row :=
  mk (TenantID r) (JTI r) v.

End AccessRevocation.

(** [models.OAuthIdentity]: a row of oauth_identities. *)
Module OAuthIdentity.

Record row := mk {
  ID : Z; UserID : Z; Provider : string; ProviderUserID : string
}.

#[global] Instance row_eq_dec : EqDecision row.
Proof. solve_decision. Defined.

End OAuthIdentity.

(** [models.PasskeyCredential]: a row of passkey_credentials. *)
Module PasskeyCredential.

Record row := mk {
  ID : Z; UserID : Z; CredentialID : string; PublicKey : string; SignCount : Z;
  DisplayName : string; Transports : string; AttestationType : string; LastUsedAt : option Z; Revoked : bool
}.

#[global] Instance row_eq_dec : EqDecision row.
Proof. solve_decision. Defined.

Definition set_SignCount (v : Z) (r : row) : row :=
  mk (ID r) (UserID r) (CredentialID r) (PublicKey r) v (DisplayName r) (Transports r)
     (AttestationType r) (LastUsedAt r) (Revoked r).

Definition set_LastUsedAt (v : option Z) (r : row) : row :=
  mk (ID r) (UserID r) (CredentialID r) (PublicKey r) (SignCount r) (DisplayName r) (Transports r)
     (AttestationType r) v (Revoked r).

Definition set_Revoked (v : bool) (r : row) : row :=
  mk (ID r) (UserID r) (CredentialID r) (PublicKey r) (SignCount r) (DisplayName r) (Transports r)
     (AttestationType r) (LastUsedAt r) v.

End PasskeyCredential.

(** [models.TrustedDevice]: a row of trusted_devices. *)
Module TrustedDevice.

Record row := mk {
  ID : Z; UserID : Z; DeviceHash : string; DeviceName : string; IPAddress : string;
  LastUsedAt : option Z; ExpiresAt : Z; Revoked : bool; CreatedAt : Z
}.

#[global] Instance row_eq_dec : EqDecision row.
Proof. solve_decision. Defined.

Definition set_LastUsedAt (v : option Z) (r : row) : row :=
  mk (ID r) (UserID r) (DeviceHash r) (DeviceName r) (IPAddress r) v (ExpiresAt r)
     (Revoked r) (CreatedAt r).

Definition set_Revoked (v : bool) (r : row) : row :=
  mk (ID r) (UserID r) (DeviceHash r) (DeviceName r) (IPAddress r) (LastUsedAt r)
     (ExpiresAt r) v (CreatedAt r).

End TrustedDevice.

(** [models.Tenant]: a row of tenants. *)
Module Tenant.

Record row := mk {
  ID : string; Slug : string; IsActive : bool
}.

#[global] Instance row_eq_dec : EqDecision row.
Proof. solve_decision. Defined.

End Tenant.

(** [models.Role]: a row of roles. *)
Module Role.

Record row := mk {
  ID : Z; TenantID : string; Name : string
}.

#[global] Instance row_eq_dec : EqDecision row.
Proof. solve_decision. Defined.

End Role.

(** [models.Permission]: a row of permissions. *)
Module Permission.

Record row := mk {
  ID : Z; Name : string
}.

#[global] Instance row_eq_dec : EqDecision row.
Proof. solve_decision. Defined.

End Permission.

(** [models.RolePermission]: a row of role_permissions. *)
Module RolePermission.

Record row := mk {
  RoleID : Z; PermissionID : Z
}.

#[global] Instance row_eq_dec : EqDecision row.
Proof. solve_decision. Defined.

End RolePermission.

(** [models.UserRole]: a row of user_roles. *)
Module UserRole.

Record row := mk {
  UserID : Z; RoleID : Z
}.

#[global] Instance row_eq_dec : EqDecision row.
Proof. solve_decision. Defined.

End UserRole.

(** [models.AuditLog]: a row of audit_logs: a security event. *)
Module AuditLog.

Record row := mk {
  ID : Z; TenantID : string; UserID : option Z; Email : string; Event : string;
  IPAddress : string; Success : bool; Detail : string; PrevHash : string;
  RecordHash : string; CreatedAt : Z; Version : Z; EventID : string;
  Sequence : option Z; KeyID : string; ActorKind : string; ActorID : Z;
  RequestID : string; Action : string
}.

#[global] Instance row_eq_dec : EqDecision row.
Proof. solve_decision. Defined.

Definition set_ID (v : Z) (r : row) : row :=
  mk v (TenantID r) (UserID r) (Email r) (Event r) (IPAddress r) (Success r) (Detail r)
     (PrevHash r) (RecordHash r) (CreatedAt r) (Version r) (EventID r) (Sequence r)
     (KeyID r) (ActorKind r) (ActorID r) (RequestID r) (Action r).

Definition set_Email (v : string) (r : row) : row :=
  mk (ID r) (TenantID r) (UserID r) v (Event r) (IPAddress r) (Success r) (Detail r)
     (PrevHash r) (RecordHash r) (CreatedAt r) (Version r) (EventID r) (Sequence r)
     (KeyID r) (ActorKind r) (ActorID r) (RequestID r) (Action r).

Definition set_IPAddress (v : string) (r : row) : row :=
  mk (ID r) (TenantID r) (UserID r) (Email r) (Event r) v (Success r) (Detail r)
     (PrevHash r) (RecordHash r) (CreatedAt r) (Version r) (EventID r) (Sequence r)
     (KeyID r) (ActorKind r) (ActorID r) (RequestID r) (Action r).

Definition set_Detail (v : string) (r : row) : row :=
  mk (ID r) (TenantID r) (UserID r) (Email r) (Event r) (IPAddress r) (Success r) v
     (PrevHash r) (RecordHash r) (CreatedAt r) (Version r) (EventID r) (Sequence r)
     (KeyID r) (ActorKind r) (ActorID r) (RequestID r) (Action r).

Definition set_PrevHash (v : string) (r : row) : row :=
  mk (ID r) (TenantID r) (UserID r) (Email r) (Event r) (IPAddress r) (Success r)
     (Detail r) v (RecordHash r) (CreatedAt r) (Version r) (EventID r) (Sequence r)
     (KeyID r) (ActorKind r) (ActorID r) (RequestID r) (Action r).

Definition set_RecordHash (v : string) (r : row) : row :=
  mk (ID r) (TenantID r) (UserID r) (Email r) (Event r) (IPAddress r) (Success r)
     (Detail r) (PrevHash r) v (CreatedAt r) (Version r) (EventID r) (Sequence r)
     (KeyID r) (ActorKind r) (ActorID r) (RequestID r) (Action r).

Definition set_Sequence (v : option Z) (r : row) : row :=
  mk (ID r) (TenantID r) (UserID r) (Email r) (Event r) (IPAddress r) (Success r)
     (Detail r) (PrevHash r) (RecordHash r) (CreatedAt r) (Version r) (EventID r) v
     (KeyID r) (ActorKind r) (ActorID r) (RequestID r) (Action r).

Definition set_KeyID (v : string) (r : row) : row :=
  mk (ID r) (TenantID r) (UserID r) (Email r) (Event r) (IPAddress r) (Success r)
     (Detail r) (PrevHash r) (RecordHash r) (CreatedAt r) (Version r) (EventID r)
     (Sequence r) v (ActorKind r) (ActorID r) (RequestID r) (Action r).

End AuditLog.

(** [models.AuditHead]: a row of audit_heads: the end of a tenant's chain and its undelivered count. *)
Module AuditHead.

Record row := mk {
  TenantID : string; Sequence : Z; Hash : string; Pending : Z
}.

#[global] Instance row_eq_dec : EqDecision row.
Proof. solve_decision. Defined.

Definition set_Sequence (v : Z) (r : row) : row :=
  mk (TenantID r) v (Hash r) (Pending r).

Definition set_Hash (v : string) (r : row) : row :=
  mk (TenantID r) (Sequence r) v (Pending r).

Definition set_Pending (v : Z) (r : row) : row :=
  mk (TenantID r) (Sequence r) (Hash r) v.

End AuditHead.

(** The JSON text of an event, by what it decodes to. *)
Inductive Json :=
  | JEmpty
  | JEvent (e : AuditLog.row)
  | JGarbage (text : string).

#[export] Instance Json_eq_dec : EqDecision Json.
Proof. solve_decision. Defined.

(** [models.AuditOutbox]: a row of audit_outboxes; [Payload] is the JSON text of the event. *)
Module AuditOutbox.

Record row := mk {
  EventID : string; TenantID : string; Sequence : Z; Hash : string; KeyID : string;
  Payload : Json; State : string; Attempts : Z; AvailableAt : Z; LeaseUntil : option Z;
  LeaseToken : string; LastError : string; CreatedAt : Z
}.

#[global] Instance row_eq_dec : EqDecision row.
Proof. solve_decision. Defined.

Definition set_Payload (v : Json) (r : row) : row :=
  mk (EventID r) (TenantID r) (Sequence r) (Hash r) (KeyID r) v (State r) (Attempts r)
     (AvailableAt r) (LeaseUntil r) (LeaseToken r) (LastError r) (CreatedAt r).

Definition set_State (v : string) (r : row) : row :=
  mk (EventID r) (TenantID r) (Sequence r) (Hash r) (KeyID r) (Payload r) v (Attempts r)
     (AvailableAt r) (LeaseUntil r) (LeaseToken r) (LastError r) (CreatedAt r).

Definition set_Attempts (v : Z) (r : row) : row :=
  mk (EventID r) (TenantID r) (Sequence r) (Hash r) (KeyID r) (Payload r) (State r) v
     (AvailableAt r) (LeaseUntil r) (LeaseToken r) (LastError r) (CreatedAt r).

Definition set_AvailableAt (v : Z) (r : row) : row :=
  mk (EventID r) (TenantID r) (Sequence r) (Hash r) (KeyID r) (Payload r) (State r)
     (Attempts r) v (LeaseUntil r) (LeaseToken r) (LastError r) (CreatedAt r).

Definition set_LeaseUntil (v : option Z) (r : row) : row :=
  mk (EventID r) (TenantID r) (Sequence r) (Hash r) (KeyID r) (Payload r) (State r)
     (Attempts r) (AvailableAt r) v (LeaseToken r) (LastError r) (CreatedAt r).

Definition set_LeaseToken (v : string) (r : row) : row :=
  mk (EventID r) (TenantID r) (Sequence r) (Hash r) (KeyID r) (Payload r) (State r)
     (Attempts r) (AvailableAt r) (LeaseUntil r) v (LastError r) (CreatedAt r).

Definition set_LastError (v : string) (r : row) : row :=
  mk (EventID r) (TenantID r) (Sequence r) (Hash r) (KeyID r) (Payload r) (State r)
     (Attempts r) (AvailableAt r) (LeaseUntil r) (LeaseToken r) v (CreatedAt r).

End AuditOutbox.

(** [models.AuditBoundary]: a row of audit_boundaries: where the archived prefix of a chain ends. *)
Module AuditBoundary.

Record row := mk {
  TenantID : string; Sequence : Z; Hash : string
}.

#[global] Instance row_eq_dec : EqDecision row.
Proof. solve_decision. Defined.

End AuditBoundary.

(** [models.WebhookEndpoint]: a subscription of a tenant. *)
Module WebhookEndpoint.

Record row := mk {
  ID : string; TenantID : string; URL : string; Secret : string; Events : string; IsActive : bool; CreatedAt : Z
}.

#[global] Instance row_eq_dec : EqDecision row.
Proof. solve_decision. Defined.

End WebhookEndpoint.

(** [models.WebhookDelivery]: an event queued for one subscription. *)
Module WebhookDelivery.

Record row := mk {
  ID : string; EndpointID : string; Event : string; Payload : string; Status : string; Attempts : Z;
  NextRetryAt : option Z; ResponseStatus : option Z; ErrorMsg : string; CreatedAt : Z
}.

#[global] Instance row_eq_dec : EqDecision row.
Proof. solve_decision. Defined.

(** The columns [UpdateDeliveryStatus] writes. *)
Definition set_outcome (status : string) (attempts : Z) (next : option Z) (resp : option Z) (msg : string) (r : row) : row :=
  mk (ID r) (EndpointID r) (Event r) (Payload r) status attempts next resp msg (CreatedAt r).

End WebhookDelivery.

(** ** The database: one list of rows per table, and the counter that numbers
    new rows (MySQL's [AUTO_INCREMENT]; one counter serves every table). *)

Record DB := mkDB {
  users : list User.row;
  refresh_tokens : list RefreshToken.row;
  sessions : list Session.row;
  totp_devices : list TOTPDevice.row;
  recovery_codes : list RecoveryCode.row;
  used_tokens : list UsedToken.row;
  access_revocations : list AccessRevocation.row;
  oauth_identities : list OAuthIdentity.row;
  passkey_credentials : list PasskeyCredential.row;
  trusted_devices : list TrustedDevice.row;
  tenants : list Tenant.row;
  roles : list Role.row;
  permissions : list Permission.row;
  role_permissions : list RolePermission.row;
  user_roles : list UserRole.row;
  audit_logs : list AuditLog.row;
  audit_heads : list AuditHead.row;
  audit_outbox : list AuditOutbox.row;
  audit_boundaries : list AuditBoundary.row;
  webhook_endpoints : list WebhookEndpoint.row;
  webhook_deliveries : list WebhookDelivery.row;
  next_id : Z
}.

(** A row type and the table it lives in. *)
Class TableOf (R : Type) := {
  rows_of : DB -> list R;
  set_rows : list R -> DB -> DB;
  row_dec : EqDecision R;
}.

#[export] Instance users_table : TableOf User.row := {|
  rows_of := users;
  set_rows l d :=
    mkDB l (refresh_tokens d) (sessions d) (totp_devices d) (recovery_codes d)
      (used_tokens d) (access_revocations d) (oauth_identities d) (passkey_credentials d)
      (trusted_devices d) (tenants d) (roles d) (permissions d) (role_permissions d)
      (user_roles d) (audit_logs d) (audit_heads d) (audit_outbox d) (audit_boundaries d) (webhook_endpoints d) (webhook_deliveries d)
      (next_id d);
  row_dec := _
|}.

#[export] Instance refresh_tokens_table : TableOf RefreshToken.row := {|
  rows_of := refresh_tokens;
  set_rows l d :=
    mkDB (users d) l (sessions d) (totp_devices d) (recovery_codes d) (used_tokens d)
      (access_revocations d) (oauth_identities d) (passkey_credentials d)
      (trusted_devices d) (tenants d) (roles d) (permissions d) (role_permissions d)
      (user_roles d) (audit_logs d) (audit_heads d) (audit_outbox d) (audit_boundaries d) (webhook_endpoints d) (webhook_deliveries d)
      (next_id d);
  row_dec := _
|}.

#[export] Instance sessions_table : TableOf Session.row := {|
  rows_of := sessions;
  set_rows l d :=
    mkDB (users d) (refresh_tokens d) l (totp_devices d) (recovery_codes d)
      (used_tokens d) (access_revocations d) (oauth_identities d) (passkey_credentials d)
      (trusted_devices d) (tenants d) (roles d) (permissions d) (role_permissions d)
      (user_roles d) (audit_logs d) (audit_heads d) (audit_outbox d) (audit_boundaries d) (webhook_endpoints d) (webhook_deliveries d)
      (next_id d);
  row_dec := _
|}.

#[export] Instance totp_devices_table : TableOf TOTPDevice.row := {|
  rows_of := totp_devices;
  set_rows l d :=
    mkDB (users d) (refresh_tokens d) (sessions d) l (recovery_codes d) (used_tokens d)
      (access_revocations d) (oauth_identities d) (passkey_credentials d)
      (trusted_devices d) (tenants d) (roles d) (permissions d) (role_permissions d)
      (user_roles d) (audit_logs d) (audit_heads d) (audit_outbox d) (audit_boundaries d) (webhook_endpoints d) (webhook_deliveries d)
      (next_id d);
  row_dec := _
|}.

#[export] Instance recovery_codes_table : TableOf RecoveryCode.row := {|
  rows_of := recovery_codes;
  set_rows l d :=
    mkDB (users d) (refresh_tokens d) (sessions d) (totp_devices d) l (used_tokens d)
      (access_revocations d) (oauth_identities d) (passkey_credentials d)
      (trusted_devices d) (tenants d) (roles d) (permissions d) (role_permissions d)
      (user_roles d) (audit_logs d) (audit_heads d) (audit_outbox d) (audit_boundaries d) (webhook_endpoints d) (webhook_deliveries d)
      (next_id d);
  row_dec := _
|}.

#[export] Instance used_tokens_table : TableOf UsedToken.row := {|
  rows_of := used_tokens;
  set_rows l d :=
    mkDB (users d) (refresh_tokens d) (sessions d) (totp_devices d) (recovery_codes d) l
      (access_revocations d) (oauth_identities d) (passkey_credentials d)
      (trusted_devices d) (tenants d) (roles d) (permissions d) (role_permissions d)
      (user_roles d) (audit_logs d) (audit_heads d) (audit_outbox d) (audit_boundaries d) (webhook_endpoints d) (webhook_deliveries d)
      (next_id d);
  row_dec := _
|}.

#[export] Instance access_revocations_table : TableOf AccessRevocation.row := {|
  rows_of := access_revocations;
  set_rows l d :=
    mkDB (users d) (refresh_tokens d) (sessions d) (totp_devices d) (recovery_codes d)
      (used_tokens d) l (oauth_identities d) (passkey_credentials d) (trusted_devices d)
      (tenants d) (roles d) (permissions d) (role_permissions d) (user_roles d)
      (audit_logs d) (audit_heads d) (audit_outbox d) (audit_boundaries d) (webhook_endpoints d) (webhook_deliveries d) (next_id d);
  row_dec := _
|}.

#[export] Instance oauth_identities_table : TableOf OAuthIdentity.row := {|
  rows_of := oauth_identities;
  set_rows l d :=
    mkDB (users d) (refresh_tokens d) (sessions d) (totp_devices d) (recovery_codes d)
      (used_tokens d) (access_revocations d) l (passkey_credentials d) (trusted_devices d)
      (tenants d) (roles d) (permissions d) (role_permissions d) (user_roles d)
      (audit_logs d) (audit_heads d) (audit_outbox d) (audit_boundaries d) (webhook_endpoints d) (webhook_deliveries d) (next_id d);
  row_dec := _
|}.

#[export] Instance passkey_credentials_table : TableOf PasskeyCredential.row := {|
  rows_of := passkey_credentials;
  set_rows l d :=
    mkDB (users d) (refresh_tokens d) (sessions d) (totp_devices d) (recovery_codes d)
      (used_tokens d) (access_revocations d) (oauth_identities d) l (trusted_devices d)
      (tenants d) (roles d) (permissions d) (role_permissions d) (user_roles d)
      (audit_logs d) (audit_heads d) (audit_outbox d) (audit_boundaries d) (webhook_endpoints d) (webhook_deliveries d) (next_id d);
  row_dec := _
|}.

#[export] Instance trusted_devices_table : TableOf TrustedDevice.row := {|
  rows_of := trusted_devices;
  set_rows l d :=
    mkDB (users d) (refresh_tokens d) (sessions d) (totp_devices d) (recovery_codes d)
      (used_tokens d) (access_revocations d) (oauth_identities d) (passkey_credentials d)
      l (tenants d) (roles d) (permissions d) (role_permissions d) (user_roles d)
      (audit_logs d) (audit_heads d) (audit_outbox d) (audit_boundaries d) (webhook_endpoints d) (webhook_deliveries d) (next_id d);
  row_dec := _
|}.

#[export] Instance tenants_table : TableOf Tenant.row := {|
  rows_of := tenants;
  set_rows l d :=
    mkDB (users d) (refresh_tokens d) (sessions d) (totp_devices d) (recovery_codes d)
      (used_tokens d) (access_revocations d) (oauth_identities d) (passkey_credentials d)
      (trusted_devices d) l (roles d) (permissions d) (role_permissions d) (user_roles d)
      (audit_logs d) (audit_heads d) (audit_outbox d) (audit_boundaries d) (webhook_endpoints d) (webhook_deliveries d) (next_id d);
  row_dec := _
|}.

#[export] Instance roles_table : TableOf Role.row := {|
  rows_of := roles;
  set_rows l d :=
    mkDB (users d) (refresh_tokens d) (sessions d) (totp_devices d) (recovery_codes d)
      (used_tokens d) (access_revocations d) (oauth_identities d) (passkey_credentials d)
      (trusted_devices d) (tenants d) l (permissions d) (role_permissions d)
      (user_roles d) (audit_logs d) (audit_heads d) (audit_outbox d) (audit_boundaries d) (webhook_endpoints d) (webhook_deliveries d)
      (next_id d);
  row_dec := _
|}.

#[export] Instance permissions_table : TableOf Permission.row := {|
  rows_of := permissions;
  set_rows l d :=
    mkDB (users d) (refresh_tokens d) (sessions d) (totp_devices d) (recovery_codes d)
      (used_tokens d) (access_revocations d) (oauth_identities d) (passkey_credentials d)
      (trusted_devices d) (tenants d) (roles d) l (role_permissions d) (user_roles d)
      (audit_logs d) (audit_heads d) (audit_outbox d) (audit_boundaries d) (webhook_endpoints d) (webhook_deliveries d) (next_id d);
  row_dec := _
|}.

#[export] Instance role_permissions_table : TableOf RolePermission.row := {|
  rows_of := role_permissions;
  set_rows l d :=
    mkDB (users d) (refresh_tokens d) (sessions d) (totp_devices d) (recovery_codes d)
      (used_tokens d) (access_revocations d) (oauth_identities d) (passkey_credentials d)
      (trusted_devices d) (tenants d) (roles d) (permissions d) l (user_roles d)
      (audit_logs d) (audit_heads d) (audit_outbox d) (audit_boundaries d) (webhook_endpoints d) (webhook_deliveries d) (next_id d);
  row_dec := _
|}.

#[export] Instance user_roles_table : TableOf UserRole.row := {|
  rows_of := user_roles;
  set_rows l d :=
    mkDB (users d) (refresh_tokens d) (sessions d) (totp_devices d) (recovery_codes d)
      (used_tokens d) (access_revocations d) (oauth_identities d) (passkey_credentials d)
      (trusted_devices d) (tenants d) (roles d) (permissions d) (role_permissions d) l
      (audit_logs d) (audit_heads d) (audit_outbox d) (audit_boundaries d) (webhook_endpoints d) (webhook_deliveries d) (next_id d);
  row_dec := _
|}.

#[export] Instance audit_logs_table : TableOf AuditLog.row := {|
  rows_of := audit_logs;
  set_rows l d :=
    mkDB (users d) (refresh_tokens d) (sessions d) (totp_devices d) (recovery_codes d)
      (used_tokens d) (access_revocations d) (oauth_identities d) (passkey_credentials d)
      (trusted_devices d) (tenants d) (roles d) (permissions d) (role_permissions d)
      (user_roles d) l (audit_heads d) (audit_outbox d) (audit_boundaries d) (webhook_endpoints d) (webhook_deliveries d) (next_id d);
  row_dec := _
|}.

#[export] Instance audit_heads_table : TableOf AuditHead.row := {|
  rows_of := audit_heads;
  set_rows l d :=
    mkDB (users d) (refresh_tokens d) (sessions d) (totp_devices d) (recovery_codes d)
      (used_tokens d) (access_revocations d) (oauth_identities d) (passkey_credentials d)
      (trusted_devices d) (tenants d) (roles d) (permissions d) (role_permissions d)
      (user_roles d) (audit_logs d) l (audit_outbox d) (audit_boundaries d) (webhook_endpoints d) (webhook_deliveries d) (next_id d);
  row_dec := _
|}.

#[export] Instance audit_outbox_table : TableOf AuditOutbox.row := {|
  rows_of := audit_outbox;
  set_rows l d :=
    mkDB (users d) (refresh_tokens d) (sessions d) (totp_devices d) (recovery_codes d)
      (used_tokens d) (access_revocations d) (oauth_identities d) (passkey_credentials d)
      (trusted_devices d) (tenants d) (roles d) (permissions d) (role_permissions d)
      (user_roles d) (audit_logs d) (audit_heads d) l (audit_boundaries d) (webhook_endpoints d) (webhook_deliveries d) (next_id d);
  row_dec := _
|}.

#[export] Instance audit_boundaries_table : TableOf AuditBoundary.row := {|
  rows_of := audit_boundaries;
  set_rows l d :=
    mkDB (users d) (refresh_tokens d) (sessions d) (totp_devices d) (recovery_codes d)
      (used_tokens d) (access_revocations d) (oauth_identities d) (passkey_credentials d)
      (trusted_devices d) (tenants d) (roles d) (permissions d) (role_permissions d)
      (user_roles d) (audit_logs d) (audit_heads d) (audit_outbox d) l (webhook_endpoints d) (webhook_deliveries d) (next_id d);
  row_dec := _
|}.

#[export] Instance webhook_endpoints_table : TableOf WebhookEndpoint.row := {|
  rows_of := webhook_endpoints;
  set_rows l d :=
    mkDB (users d) (refresh_tokens d) (sessions d) (totp_devices d) (recovery_codes d)
      (used_tokens d) (access_revocations d) (oauth_identities d) (passkey_credentials d)
      (trusted_devices d) (tenants d) (roles d) (permissions d) (role_permissions d)
      (user_roles d) (audit_logs d) (audit_heads d) (audit_outbox d) (audit_boundaries d) l (webhook_deliveries d)
      (next_id d);
  row_dec := _
|}.

#[export] Instance webhook_deliveries_table : TableOf WebhookDelivery.row := {|
  rows_of := webhook_deliveries;
  set_rows l d :=
    mkDB (users d) (refresh_tokens d) (sessions d) (totp_devices d) (recovery_codes d)
      (used_tokens d) (access_revocations d) (oauth_identities d) (passkey_credentials d)
      (trusted_devices d) (tenants d) (roles d) (permissions d) (role_permissions d)
      (user_roles d) (audit_logs d) (audit_heads d) (audit_outbox d) (audit_boundaries d) (webhook_endpoints d) l
      (next_id d);
  row_dec := _
|}.

Definition set_next_id (n : Z) (d : DB) : DB :=
  mkDB (users d) (refresh_tokens d) (sessions d) (totp_devices d) (recovery_codes d)
    (used_tokens d) (access_revocations d) (oauth_identities d) (passkey_credentials d)
    (trusted_devices d) (tenants d) (roles d) (permissions d) (role_permissions d)
    (user_roles d) (audit_logs d) (audit_heads d) (audit_outbox d) (audit_boundaries d) (webhook_endpoints d) (webhook_deliveries d) n.

Definition empty_db : DB :=
  mkDB [] [] [] [] [] [] [] [] [] [] [] [] [] [] [] [] [] [] [] [] [] 1.
