(* ===== verification/Codec.v ===== *)
(** * Text encodings and numerals of the standard library

    [encoding/hex], [encoding/base64] (standard alphabet, padded), [time.ParseDuration],
    [strconv.ParseBool] and RFC 3339 timestamps, as configuration and key handling use
    them; decoding what was encoded gives the bytes back. *)

From S2P Require Import Prelude Store.

Open Scope Z_scope.

Module Codec.
Import Ascii.

Definition chr (n : N) : ascii := ascii_of_N n.

(** ** Hexadecimal *)

Definition hex_digit (n : N) : ascii := if (n <? 10)%N then chr (48 + n) else chr (87 + n).

Definition hex_value (a : ascii) : option N :=
  let n := byte_of a in
  if ((48 <=? n) && (n <=? 57))%N then Some (n - 48)%N
  else if ((97 <=? n) && (n <=? 102))%N then Some (n - 87)%N
  else if ((65 <=? n) && (n <=? 70))%N then Some (n - 55)%N
  else None.

(** [hex.EncodeToString] *)
Fixpoint hex_encode (s : string) : string :=
  match s with
  | EmptyString => ""
  | String a s => String (hex_digit (byte_of a / 16)) (String (hex_digit (byte_of a mod 16)) (hex_encode s))
  end.

(** [hex.DecodeString] *)
Fixpoint hex_decode (s : string) : option string :=
  match s with
  | EmptyString => Some ""
  | String a (String b s) =>
      match hex_value a, hex_value b, hex_decode s with
      | Some x, Some y, Some r => Some (String (chr (x * 16 + y)) r)
      | _, _, _ => None
      end
  | _ => None
  end.

(** ** Base64 *)

Definition b64_char (n : N) : ascii :=
  (if n <? 26 then chr (65 + n) else if n <? 52 then chr (71 + n) else if n <? 62 then chr (n - 4)
   else if n =? 62 then "+"%char else "/"%char)%N.

Definition b64_value (a : ascii) : option N :=
  let n := byte_of a in
  (if (65 <=? n) && (n <=? 90) then Some (n - 65)
   else if (97 <=? n) && (n <=? 122) then Some (n - 71)
   else if (48 <=? n) && (n <=? 57) then Some (n + 4)
   else if n =? 43 then Some 62 else if n =? 47 then Some 63 else None)%N.

(** [base64.StdEncoding.EncodeToString] *)
Fixpoint b64_encode (s : string) : string :=
  match s with
  | EmptyString => ""
  | String a EmptyString =>
      let x := byte_of a in
      String (b64_char (x / 4)) (String (b64_char (x mod 4 * 16)) "==")
  | String a (String b EmptyString) =>
      let x := byte_of a in let y := byte_of b in
      String (b64_char (x / 4)) (String (b64_char (x mod 4 * 16 + y / 16)) (String (b64_char (y mod 16 * 4)) "="))
  | String a (String b (String c s)) =>
      let x := byte_of a in let y := byte_of b in let z := byte_of c in
      String (b64_char (x / 4)) (String (b64_char (x mod 4 * 16 + y / 16))
        (String (b64_char (y mod 16 * 4 + z / 64)) (String (b64_char (z mod 64)) (b64_encode s))))
  end.

(** Line ends are skipped. *)
Fixpoint no_newlines (s : string) : string :=
  match s with
  | EmptyString => ""
  | String a s => if ((byte_of a =? 10) || (byte_of a =? 13))%N then no_newlines s else String a (no_newlines s)
  end.

Definition pad : ascii := "="%char.

(** Quanta of four; [strict] wants the unused bits of the last one zero. *)
Fixpoint b64_quanta (strict : bool) (s : string) : option string :=
  match s with
  | EmptyString => Some ""
  | String a (String b (String c (String d s))) =>
      match b64_value a, b64_value b with
      | Some x, Some y =>
          if Ascii.eqb c pad then
            if Ascii.eqb d pad && bool_decide (s = "") && (negb strict || (y mod 16 =? 0)%N)
            then Some (String (chr (x * 4 + y / 16)) "") else None
          else match b64_value c with
          | None => None
          | Some z =>
              if Ascii.eqb d pad then
                if bool_decide (s = "") && (negb strict || (z mod 4 =? 0)%N)
                then Some (String (chr (x * 4 + y / 16)) (String (chr (y mod 16 * 16 + z / 4)) "")) else None
              else match b64_value d, b64_quanta strict s with
              | Some u, Some r =>
                  Some (String (chr (x * 4 + y / 16)) (String (chr (y mod 16 * 16 + z / 4))
                         (String (chr (z mod 4 * 64 + u)) r)))
              | _, _ => None
              end
          end
      | _, _ => None
      end
  | _ => None
  end.

(** [base64.StdEncoding.DecodeString], and of its [Strict()]. *)
Definition b64_decode (strict : bool) (s : string) : option string := b64_quanta strict (no_newlines s).

(** ** Durations *)

Definition is_digit (a : ascii) : bool := let n := byte_of a in ((48 <=? n) && (n <=? 57))%N.

Fixpoint span_digits (s : string) : string * string :=
  match s with
  | String a s' => if is_digit a then let (d, r) := span_digits s' in (String a d, r) else ("", s)
  | EmptyString => ("", "")
  end.

(** The unit: up to a digit or a point. *)
Fixpoint span_unit (s : string) : string * string :=
  match s with
  | String a s' =>
      if is_digit a || Ascii.eqb a "."%char then ("", s) else let (u, r) := span_unit s' in (String a u, r)
  | EmptyString => ("", "")
  end.

Fixpoint digits_value (s : string) (acc : Z) : Z :=
  match s with
  | EmptyString => acc
  | String a s => digits_value s (acc * 10 + Z.of_N (byte_of a - 48))
  end.

(** The micro sign and the Greek mu have a unit each. *)
Definition unit_of (u : string) : option Z :=
  let mu (c d : N) := String (chr c) (String (chr d) "s") in
  if bool_decide (u = "ns") then Some 1
  else if bool_decide (u = "us") || bool_decide (u = mu 194%N 181%N) || bool_decide (u = mu 206%N 188%N) then Some 1000
  else if bool_decide (u = "ms") then Some millisecond
  else if bool_decide (u = "s") then Some second
  else if bool_decide (u = "m") then Some minute
  else if bool_decide (u = "h") then Some hour
  else None.

(** One number with its unit; a fraction is cut to whole nanoseconds.  Every step
    takes at least one byte off the text, whose length is the fuel. *)
Fixpoint duration_parts (fuel : nat) (s : string) (acc : Z) : option Z :=
  match fuel, s with
  | _, EmptyString => Some acc
  | O, _ => None
  | S fuel, _ =>
      let (whole, s1) := span_digits s in
      let (frac, s2) := match s1 with String "."%char s2 => span_digits s2 | _ => ("", s1) end in
      if bool_decide (whole = "") && bool_decide (frac = "") then None else
      let (u, s3) := span_unit s2 in
      match unit_of u with
      | None => None
      | Some unit_ =>
          let v := digits_value whole 0 in
          if 2 ^ 63 / unit_ <? v then None else
          let v := v * unit_ + digits_value frac 0 * unit_ / 10 ^ str_len frac in
          if 2 ^ 63 <? v then None else
          let acc := acc + v in
          if 2 ^ 63 <? acc then None else duration_parts fuel s3 acc
      end
  end.

(** [time.ParseDuration] *)
Definition ParseDuration (s : string) : option Z :=
  let (neg, s) := match s with
                  | String "-"%char s => (true, s)
                  | String "+"%char s => (false, s)
                  | _ => (false, s)
                  end in
  if bool_decide (s = "0") then Some 0 else
  if bool_decide (s = "") then None else
  match duration_parts (String.length s) s 0 with
  | None => None
  | Some d => if neg : bool then Some (- d) else if 2 ^ 63 - 1 <? d then None else Some d
  end.

(** [strconv.ParseBool] *)
Definition ParseBool (s : string) : option bool :=
  if bool_decide (s ∈ ["1"; "t"; "T"; "TRUE"; "true"; "True"]) then Some true
  else if bool_decide (s ∈ ["0"; "f"; "F"; "FALSE"; "false"; "False"]) then Some false
  else None.

(** ** Round trips *)

Lemma byte_chr n : (n < 256)%N -> byte_of (chr n) = n.
Proof. apply N_ascii_embedding. Qed.

Lemma chr_byte a : chr (byte_of a) = a.
Proof. apply ascii_N_embedding. Qed.

Lemma byte_bound a : (byte_of a < 256)%N.
Proof. apply N_ascii_bounded. Qed.

Lemma hex_round_trip s : hex_decode (hex_encode s) = Some s.
Proof.
  induction s as [|a s IH]; [done|]. cbn [hex_encode hex_decode]. rewrite IH.
  assert (hex_value (hex_digit (byte_of a / 16)) = Some (byte_of a / 16)%N /\
          hex_value (hex_digit (byte_of a mod 16)) = Some (byte_of a mod 16)%N) as [-> ->]
    by (destruct a as [[][][][][][][][]]; by vm_compute).
  replace (byte_of a / 16 * 16 + byte_of a mod 16)%N with (byte_of a); [by rewrite chr_byte|].
  pose proof (N.div_mod (byte_of a) 16). lia.
Qed.

(** A six-bit digit reads back, and is neither padding nor a line end. *)
Lemma b64_back n : (n < 64)%N ->
  b64_value (b64_char n) = Some n /\ Ascii.eqb (b64_char n) pad = false /\
  ((byte_of (b64_char n) =? 10) || (byte_of (b64_char n) =? 13))%N = false.
Proof.
  intros H.
  assert (forallb (fun n => bool_decide (b64_value (b64_char n) = Some n) && negb (Ascii.eqb (b64_char n) pad) &&
    negb ((byte_of (b64_char n) =? 10) || (byte_of (b64_char n) =? 13))%N) (map N.of_nat (seq 0 64)) = true) as Hall
    by vm_reflexivity.
  rewrite forallb_forall in Hall. assert (In n (map N.of_nat (seq 0 64))) as Hin.
  { apply in_map_iff. exists (N.to_nat n). rewrite N2Nat.id. split; [done|]. apply in_seq. lia. }
  apply Hall in Hin. bool_prop. split; [done|]. by split; [|apply orb_false_iff].
Qed.

(** Induction over quanta of three bytes. *)
Lemma by_three (P : string -> Prop) :
  P "" -> (forall a, P (String a "")) -> (forall a b, P (String a (String b ""))) ->
  (forall a b c s, P s -> P (String a (String b (String c s)))) -> forall s, P s.
Proof.
  intros H0 H1 H2 H3. enough (forall s, P s /\ (forall a, P (String a s)) /\ (forall a b, P (String a (String b s)))) as H
    by (intros s; apply H).
  induction s as [|c s (I1 & I2 & I3)]; [done|]. split; [apply I2|]. split; [intros a; apply I3|]. intros a b. by apply H3.
Qed.

(** [lia] with quotients and remainders. *)
Ltac nlia := zify; Z.to_euclidean_division_equations; lia.

Lemma encode_lines s : no_newlines (b64_encode s) = b64_encode s.
Proof.
  induction s as [|a|a b|a b c s IH] using by_three; [done| | |].
  all: assert (forall x n, (x < 64)%N -> no_newlines (String (b64_char x) n) = String (b64_char x) (no_newlines n)) as Hc
    by (intros x n Hx; cbn [no_newlines]; by rewrite (proj2 (proj2 (b64_back x Hx)))).
  all: pose proof (byte_bound a).
  - cbn [b64_encode]. rewrite !Hc; [done|nlia|nlia].
  - pose proof (byte_bound b). cbn [b64_encode]. rewrite !Hc; [done|nlia..].
  - pose proof (byte_bound b). pose proof (byte_bound c). cbn [b64_encode]. rewrite !Hc; [by rewrite IH|nlia..].
Qed.

Lemma quanta_back strict s : b64_quanta strict (b64_encode s) = Some s.
Proof.
  induction s as [|a|a b|a b c s IH] using by_three; [done| | |]; pose proof (byte_bound a) as Ha.
  - cbn [b64_encode b64_quanta].
    destruct (b64_back (byte_of a / 4)) as (-> & _); [nlia|]. destruct (b64_back (byte_of a mod 4 * 16)) as (-> & _); [nlia|].
    change (Ascii.eqb "=" pad) with true. cbn [andb]. rewrite bool_decide_true by done.
    replace (byte_of a mod 4 * 16 mod 16)%N with 0%N by nlia. rewrite orb_true_r. cbn [andb].
    replace (byte_of a / 4 * 4 + byte_of a mod 4 * 16 / 16)%N with (byte_of a) by nlia. by rewrite chr_byte.
  - pose proof (byte_bound b) as Hb. cbn [b64_encode b64_quanta].
    destruct (b64_back (byte_of a / 4)) as (-> & _); [nlia|].
    destruct (b64_back (byte_of a mod 4 * 16 + byte_of b / 16)) as (-> & _); [nlia|].
    destruct (b64_back (byte_of b mod 16 * 4)) as (-> & -> & _); [nlia|].
    change (Ascii.eqb "=" pad) with true. cbv iota. rewrite bool_decide_true by done.
    replace (byte_of b mod 16 * 4 mod 4)%N with 0%N by nlia. rewrite orb_true_r. cbn [andb].
    replace (byte_of a / 4 * 4 + (byte_of a mod 4 * 16 + byte_of b / 16) / 16)%N with (byte_of a) by nlia.
    replace ((byte_of a mod 4 * 16 + byte_of b / 16) mod 16 * 16 + byte_of b mod 16 * 4 / 4)%N with (byte_of b) by nlia.
    by rewrite !chr_byte.
  - pose proof (byte_bound b) as Hb. pose proof (byte_bound c) as Hc. cbn [b64_encode b64_quanta].
    destruct (b64_back (byte_of a / 4)) as (-> & _); [nlia|].
    destruct (b64_back (byte_of a mod 4 * 16 + byte_of b / 16)) as (-> & _); [nlia|].
    destruct (b64_back (byte_of b mod 16 * 4 + byte_of c / 64)) as (-> & -> & _); [nlia|].
    destruct (b64_back (byte_of c mod 64)) as (-> & -> & _); [nlia|]. rewrite IH.
    replace (byte_of a / 4 * 4 + (byte_of a mod 4 * 16 + byte_of b / 16) / 16)%N with (byte_of a) by nlia.
    replace ((byte_of a mod 4 * 16 + byte_of b / 16) mod 16 * 16 + (byte_of b mod 16 * 4 + byte_of c / 64) / 4)%N
      with (byte_of b) by nlia.
    replace ((byte_of b mod 16 * 4 + byte_of c / 64) mod 4 * 64 + byte_of c mod 64)%N with (byte_of c) by nlia.
    by rewrite !chr_byte.
Qed.

Lemma b64_round_trip strict s : b64_decode strict (b64_encode s) = Some s.
Proof. unfold b64_decode. rewrite encode_lines. apply quanta_back. Qed.

End Codec.

(** ** RFC 3339 timestamps *)

Module Rfc3339.
Import Ascii.

(** [time.Time{}], the first instant of the year 1, in nanoseconds. *)
Definition zero_time : Z := -62135596800 * second.

Definition is_leap (y : Z) : bool := (y mod 4 =? 0) && (negb (y mod 100 =? 0) || (y mod 400 =? 0)).

Definition daysIn (m y : Z) : Z :=
  if m =? 2 then (if is_leap y then 29 else 28)
  else if bool_decide (m ∈ [4; 6; 9; 11]) then 30 else 31.

(** Days from 1970-01-01 to the first of January of [y]. *)
Definition year_days (y : Z) : Z :=
  let p := y - 1 in 365 * (y - 1970) + (p / 4 - p / 100 + p / 400) - 477.

(** Days of the months of [y] before [m]. *)
Definition month_days (m y : Z) : Z :=
  default 0 ([0; 31; 59; 90; 120; 151; 181; 212; 243; 273; 304; 334] !! Z.to_nat (m - 1)) +
  (if (2 <? m) && is_leap y then 1 else 0).

Definition date (y m d hh mm ss ns : Z) : Z :=
  (((year_days y + month_days m y + (d - 1)) * 24 + hh) * 3600 + mm * 60 + ss) * second + ns.

Definition digit (a : ascii) : option Z :=
  if Codec.is_digit a then Some (Z.of_N (byte_of a) - 48) else None.

(** [n] digits. *)
Fixpoint fixed (n : nat) (s : string) (acc : Z) : option (Z * string) :=
  match n, s with
  | O, _ => Some (acc, s)
  | S n, String a s => match digit a with Some v => fixed n s (acc * 10 + v) | None => None end
  | S _, EmptyString => None
  end.

(** The hour: one digit or two. *)
Definition one_or_two (s : string) : option (Z * string) :=
  match fixed 2 s 0 with Some r => Some r | None => fixed 1 s 0 end.

Definition lit (c : ascii) (s : string) : option string :=
  match s with String a s => if Ascii.eqb a c then Some s else None | EmptyString => None end.

(** An optional fraction of a second, after a point or a comma, cut to nanoseconds. *)
Definition fraction (s : string) : Z * string :=
  match s with
  | String a s' =>
      if Ascii.eqb a "."%char || Ascii.eqb a ","%char then
        let (d, r) := Codec.span_digits s' in
        if bool_decide (d = "") then (0, s)
        else let d := String.substring 0 9 d in (Codec.digits_value d 0 * 10 ^ (9 - str_len d), r)
      else (0, s)
  | EmptyString => (0, "")
  end.

Notation "'let?' ' p := l 'in' f" := (match l with Some p => f | None => None end)
  (at level 10, p pattern, l at level 100, f at level 200).

(** [time.Parse(time.RFC3339, s)] of a text that ends in [Z]; the offsets the format
    also allows never give the location [optionalUTC] asks for. *)
Definition parse_utc (s : string) : option Z :=
  let? '(y, s) := fixed 4 s 0 in
  let? 's := lit "-" s in
  let? '(m, s) := fixed 2 s 0 in
  let? 's := lit "-" s in
  let? '(d, s) := fixed 2 s 0 in
  let? 's := lit "T" s in
  let? '(hh, s) := one_or_two s in
  let? 's := lit ":" s in
  let? '(mm, s) := fixed 2 s 0 in
  let? 's := lit ":" s in
  let? '(ss, s) := fixed 2 s 0 in
  let (ns, s) := fraction s in
  if bool_decide (s = "Z") && (1 <=? m) && (m <=? 12) && (1 <=? d) && (d <=? daysIn m y) &&
     (hh <? 24) && (mm <? 60) && (ss <? 60)
  then Some (date y m d hh mm ss ns) else None.

(** The civil date of a day counted from 1970-01-01. *)
Definition civil (days : Z) : Z * Z * Z :=
  let z := days + 719468 in
  let doe := z mod 146097 in
  let yoe := (doe - doe / 1460 + doe / 36524 - doe / 146096) / 365 in
  let doy := doe - (365 * yoe + yoe / 4 - yoe / 100) in
  let mp := (5 * doy + 2) / 153 in
  let m := if mp <? 10 then mp + 3 else mp - 9 in
  (yoe + z / 146097 * 400 + (if m <=? 2 then 1 else 0), m, doy - (153 * mp + 2) / 5 + 1).

(** [n] digits of a number, padded with zeros. *)
Fixpoint padded (n : nat) (v : Z) (rest : string) : string :=
  match n with
  | O => rest
  | S n => padded n (v / 10) (String (Codec.chr (Z.to_N (48 + v mod 10))) rest)
  end.

(** [t.UTC().Format(time.RFC3339)], of the years 0 to 9999. *)
Definition format_utc (t : Z) : string :=
  let s := t / second in
  let '(y, m, d) := civil (s / 86400) in
  let r := s mod 86400 in
  padded 4 y (String "-" (padded 2 m (String "-" (padded 2 d (String "T" (padded 2 (r / 3600) (String ":"
    (padded 2 (r / 60 mod 60) (String ":" (padded 2 (r mod 60) "Z")))))))))).

Example format_epoch : format_utc (1700000000 * second) = "2023-11-14T22:13:20Z".
Proof. vm_compute. reflexivity. Qed.

Example parse_format : parse_utc (format_utc (951782400 * second)) = Some (951782400 * second).
Proof. vm_compute. reflexivity. Qed.

End Rfc3339.
