(* ===== verification/NetIP.v ===== *)
(** * Internet addresses ([net.IP], [netutil/ip.go], [services/webhook_service.go])

    Reading and writing an address as the standard library does, the key a client
    address is counted under, and the classes of addresses a webhook may not reach. *)

From S2P Require Import Prelude Store Codec.

Open Scope Z_scope.

(** [net.IP]: four bytes, or sixteen. *)
Definition IP : Type := list Z.

Definition byte_ok (b : Z) : Prop := 0 <= b < 256.

Module Net.

Definition byte_at (ip : IP) (i : nat) : Z := nth i ip 0.

Definition To4 (ip : IP) : option IP :=
  if (length ip =? 4)%nat then Some ip else
  if (length ip =? 16)%nat && forallb (fun i => byte_at ip i =? 0) (seq 0 10) && (byte_at ip 10 =? 255) &&
     (byte_at ip 11 =? 255)
  then Some (drop 12 ip) else None.

(** ** Reading ([netip.ParseAddr]) *)

(** A decimal octet: no leading zero, at most 255. *)
Definition octet (s : string) : option Z :=
  match s with
  | EmptyString => None
  | String a rest =>
      if str_forall Codec.is_digit s && (bool_decide (rest = "") || negb (Ascii.eqb a "0"%char)) then
        let n := Codec.digits_value s 0 in if n <=? 255 then Some n else None
      else None
  end.

Definition parse_v4 (s : string) : option IP :=
  match map octet (split_on "." s) with
  | [Some a; Some b; Some c; Some d] => Some [a; b; c; d]
  | _ => None
  end.

(** A group: its digits, at most four, its value and the text after it. *)
Fixpoint hex_group (digits : nat) (acc : Z) (s : string) : option (nat * Z * string) :=
  match s with
  | EmptyString => Some (digits, acc, "")
  | String a s' =>
      match Codec.hex_value a with
      | Some v => if (3 <? digits)%nat then None else hex_group (S digits) (acc * 16 + Z.of_N v) s'
      | None => Some (digits, acc, s)
      end
  end.

(** The groups read, where the ellipsis was, the text left.  [room]: the groups
    that still fit. *)
Fixpoint v6_groups (room : nat) (groups : list Z) (ellipsis : option nat) (s : string)
    : option (list Z * option nat * string) :=
  match room with
  | O => Some (groups, ellipsis, s)
  | S room =>
      match hex_group 0 0 s with
      | None | Some (O, _, _) => None
      | Some (_, v, rest) =>
          match rest with
          | EmptyString => Some (groups ++ [v], ellipsis, "")
          | String c rest =>
              if Ascii.eqb c "."%char then
                if (bool_decide (ellipsis = None) && negb (length groups =? 6)%nat) || (6 <? length groups)%nat then None else
                match parse_v4 s with
                | Some [a; b; c; d] => Some (groups ++ [a * 256 + b; c * 256 + d], ellipsis, "")
                | _ => None
                end
              else if Ascii.eqb c ":"%char then
                match rest with
                | EmptyString => None
                | String c' after =>
                    if Ascii.eqb c' ":"%char then
                      if bool_decide (ellipsis = None) then
                        let groups := groups ++ [v] in
                        if bool_decide (after = "") then Some (groups, Some (length groups), "")
                        else v6_groups room groups (Some (length groups)) after
                      else None
                    else v6_groups room (groups ++ [v]) ellipsis rest
                end
              else None
          end
      end
  end.

(** The ellipsis stands for at least one group. *)
Definition expand (groups : list Z) (ellipsis : option nat) : option (list Z) :=
  let n := length groups in
  if (n <? 8)%nat then
    match ellipsis with
    | Some e => Some (take e groups ++ repeat 0 (8 - n) ++ drop e groups)
    | None => None
    end
  else if bool_decide (ellipsis = None) then Some groups else None.

Definition bytes_of (groups : list Z) : IP := flat_map (fun g => [g / 256; g mod 256]) groups.

Definition parse_v6 (s : string) : option IP :=
  let read (s : string) (ellipsis : option nat) :=
    match v6_groups 8 [] ellipsis s with
    | Some (groups, ellipsis, EmptyString) => bytes_of <$> expand groups ellipsis
    | _ => None
    end in
  if has_prefix "::" s then
    let s := String.substring 2 (String.length s - 2) s in
    if bool_decide (s = "") then Some (repeat 0 16) else read s (Some 0%nat)
  else read s None.

(** The first of the characters that tell the kinds apart; an address with a zone
    is not a [net.IP]. *)
Fixpoint kind (s : string) : option Ascii.ascii :=
  match s with
  | EmptyString => None
  | String a s =>
      if Ascii.eqb a "."%char || Ascii.eqb a ":"%char || Ascii.eqb a "%"%char then Some a else kind s
  end.

(** [net.ParseIP]: sixteen bytes. *)
Definition ParseIP (s : string) : option IP :=
  match kind s with
  | Some c =>
      if Ascii.eqb c "."%char then (fun v4 => repeat 0 10 ++ [255; 255] ++ v4) <$> parse_v4 s
      else if Ascii.eqb c ":"%char then parse_v6 s
      else None
  | None => None
  end.

(** ** Writing ([IP.String]) *)

Definition dotted (v4 : IP) : string := String.concat "." (map fmt_d v4).

(** A group without leading zeros. *)
Definition hex_text (g : Z) : string :=
  let digit (n : Z) := Codec.hex_digit (Z.to_N (n mod 16)) in
  if g <? 16 then String (digit g) ""
  else if g <? 256 then String (digit (g / 16)) (String (digit g) "")
  else if g <? 4096 then String (digit (g / 256)) (String (digit (g / 16)) (String (digit g) ""))
  else String (digit (g / 4096)) (String (digit (g / 256)) (String (digit (g / 16)) (String (digit g) ""))).

Fixpoint groups_of (ip : IP) : list Z :=
  match ip with a :: b :: ip => a * 256 + b :: groups_of ip | _ => [] end.

Fixpoint zeros (groups : list Z) : nat :=
  match groups with 0 :: groups => S (zeros groups) | _ => O end.

(** Start and length of the first of the longest runs of zero groups. *)
Fixpoint longest (i : nat) (groups : list Z) (start len : nat) : nat * nat :=
  match groups with
  | [] => (start, len)
  | g :: groups' =>
      let l := zeros groups in
      if ((2 <=? l) && (len <? l))%nat then longest (S i) groups' i l else longest (S i) groups' start len
  end.

Definition colons (groups : list Z) : string := String.concat ":" (map hex_text groups).

Definition v6_text (groups : list Z) : string :=
  match longest 0 groups 0 0 with
  | (_, O) => colons groups
  | (start, len) => colons (take start groups) +:+ "::" +:+ colons (drop (start + len) groups)
  end.

Definition ip_text (ip : IP) : string :=
  match To4 ip with Some v4 => dotted v4 | None => v6_text (groups_of ip) end.

(** ** The key of a client ([netutil.CanonicalIP]) *)

Definition mask64 (ip : IP) : IP := take 8 ip ++ repeat 0 8.

(** An IPv6 source is collapsed to its /64 prefix. *)
Definition CanonicalIP (ip : string) : string :=
  if bool_decide (ip = "") then ip else
  match ParseIP ip with
  | None => ip
  | Some p => match To4 p with Some v4 => dotted v4 | None => ip_text (mask64 p) end
  end.

Example canonical_runs : map CanonicalIP
  ["203.0.113.7"; "::ffff:203.0.113.7"; "2001:db8:1:2:3:4:5:6"; "2001:db8:1:2:aaaa::1"; "2001:db8:1:3::1"; "not-an-ip";
   "::1"; "1.2.3.04"; "fe80::1%eth0"; "1:2:3:4:5:6:7:8:9"; "1::2::3"; "::ffff:c0a8:101"] =
  ["203.0.113.7"; "203.0.113.7"; "2001:db8:1:2::"; "2001:db8:1:2::"; "2001:db8:1:3::"; "not-an-ip";
   "::"; "1.2.3.04"; "fe80::1%eth0"; "1:2:3:4:5:6:7:8:9"; "1::2::3"; "192.168.1.1"].
Proof. vm_reflexivity. Qed.

(** ** Classes of addresses *)

Definition v6 (ip : IP) : bool := (length ip =? 16)%nat.

Definition IPv6loopback : IP := repeat 0 15 ++ [1].
Definition IPv6unspecified : IP := repeat 0 16.

Definition IsUnspecified (ip : IP) : bool :=
  match To4 ip with
  | Some v4 => bool_decide (v4 = [0; 0; 0; 0])
  | None => bool_decide (ip = IPv6unspecified)
  end.

Definition IsLoopback (ip : IP) : bool :=
  match To4 ip with
  | Some v4 => byte_at v4 0 =? 127
  | None => bool_decide (ip = IPv6loopback)
  end.

Definition IsPrivate (ip : IP) : bool :=
  match To4 ip with
  | Some v4 =>
      (byte_at v4 0 =? 10) || ((byte_at v4 0 =? 172) && (Z.land (byte_at v4 1) 240 =? 16)) ||
      ((byte_at v4 0 =? 192) && (byte_at v4 1 =? 168))
  | None => v6 ip && (Z.land (byte_at ip 0) 254 =? 252)
  end.

Definition IsMulticast (ip : IP) : bool :=
  match To4 ip with
  | Some v4 => Z.land (byte_at v4 0) 240 =? 224
  | None => v6 ip && (byte_at ip 0 =? 255)
  end.

Definition IsLinkLocalMulticast (ip : IP) : bool :=
  match To4 ip with
  | Some v4 => (byte_at v4 0 =? 224) && (byte_at v4 1 =? 0) && (byte_at v4 2 =? 0)
  | None => v6 ip && (byte_at ip 0 =? 255) && (Z.land (byte_at ip 1) 15 =? 2)
  end.

Definition IsLinkLocalUnicast (ip : IP) : bool :=
  match To4 ip with
  | Some v4 => (byte_at v4 0 =? 169) && (byte_at v4 1 =? 254)
  | None => v6 ip && (byte_at ip 0 =? 254) && (Z.land (byte_at ip 1) 192 =? 128)
  end.

(** [blockedIP] *)
Definition blockedIP (ip : IP) : bool :=
  let ip := match To4 ip with Some v4 => v4 | None => ip end in
  IsLoopback ip || IsPrivate ip || IsLinkLocalUnicast ip || IsLinkLocalMulticast ip || IsMulticast ip ||
  IsUnspecified ip.

End Net.
