(* ===== verification/NetIPSpec.v ===== *)
(** * Addresses and the keys of clients

    The text of an address reads back; [CanonicalIP] gives two clients the same key
    exactly when they are the same IPv4 address, the same IPv6 /64 or the same text
    that is no address. *)

From S2P Require Import Prelude Store Codec NetIP.

Open Scope Z_scope.
Import Net.

Definition group_ok (g : Z) : Prop := 0 <= g < 65536.

(** ** Groups *)

Definition no_hex (s : string) : Prop := match s with String a _ => Codec.hex_value a = None | EmptyString => True end.

Lemma hex_back n : Codec.hex_value (Codec.hex_digit (Z.to_N (n mod 16))) = Some (Z.to_N (n mod 16)).
Proof.
  assert (forallb (fun n => bool_decide (Codec.hex_value (Codec.hex_digit n) = Some n)) (map N.of_nat (seq 0 16)) = true)
    as Hall by vm_reflexivity.
  rewrite forallb_forall in Hall. apply (bool_decide_eq_true_1 _), Hall, in_map_iff.
  pose proof (Z.mod_pos_bound n 16 ltac:(lia)). exists (Z.to_nat (n mod 16)). split; [lia|]. apply in_seq. lia.
Qed.

Ltac euclid := Z.to_euclidean_division_equations; lia.

Lemma digit_of n : Z.of_N (Z.to_N (n mod 16)) = n mod 16.
Proof. pose proof (Z.mod_pos_bound n 16 ltac:(lia)). lia. Qed.

Lemma group_stop digits acc rest : no_hex rest -> hex_group digits acc rest = Some (digits, acc, rest).
Proof. destruct rest as [|a rest]; [done|]. simpl. by intros ->. Qed.

Lemma hex_group_text g rest : group_ok g -> no_hex rest ->
  exists n, hex_group 0 0 (hex_text g +:+ rest) = Some (S n, g, rest).
Proof.
  unfold group_ok. intros Hg Hr. unfold hex_text. cbv zeta.
  assert (forall d s acc k, (k <= 3)%nat -> hex_group k acc (String (Codec.hex_digit (Z.to_N (d mod 16))) s) =
    hex_group (S k) (acc * 16 + d mod 16) s) as Hd.
  { intros d s acc k Hk. cbn [hex_group]. rewrite hex_back, digit_of. by destruct (Nat.ltb_spec 3 k); [lia|]. }
  destruct (Z.ltb_spec g 16); [|destruct (Z.ltb_spec g 256); [|destruct (Z.ltb_spec g 4096)]];
    rewrite !str_app_cons, !Hd by lia; change ("" +:+ rest) with rest; rewrite group_stop by done; eexists; do 3 f_equal; euclid.
Qed.

Lemma hex_text_head g : exists c t, hex_text g = String c t /\ is_Some (Codec.hex_value c).
Proof.
  unfold hex_text. repeat case_match; eexists _, _; (split; [reflexivity|rewrite hex_back; eauto]).
Qed.

(** A hexadecimal digit is none of the separators. *)
Lemma hex_not_special c : is_Some (Codec.hex_value c) ->
  Ascii.eqb c "."%char = false /\ Ascii.eqb c ":"%char = false /\ Ascii.eqb c "%"%char = false.
Proof. intros [v Hv]. split_and!; apply Ascii.eqb_neq; intros ->; done. Qed.

Lemma colons_cons g g' gs : colons (g :: g' :: gs) = hex_text g +:+ String ":" (colons (g' :: gs)).
Proof. done. Qed.

Lemma colons_head g gs : exists c t, colons (g :: gs) = String c t /\ is_Some (Codec.hex_value c).
Proof.
  destruct (hex_text_head g) as (c & t & H & Hc). destruct gs as [|g' gs].
  - exists c, t. change (colons [g]) with (hex_text g). done.
  - rewrite colons_cons, H. eexists c, _. split; [reflexivity|done].
Qed.

(** ** The loop *)

Lemma groups_step room acc ell g c rest : group_ok g ->
  v6_groups (S room) acc ell (hex_text g +:+ String ":" (String c rest)) =
  if Ascii.eqb c ":"%char then
    if bool_decide (ell = None) then
      if bool_decide (rest = "") then Some (acc ++ [g], Some (length (acc ++ [g])), "")
      else v6_groups room (acc ++ [g]) (Some (length (acc ++ [g]))) rest
    else None
  else v6_groups room (acc ++ [g]) ell (String c rest).
Proof.
  intros Hg. cbn [v6_groups]. destruct (hex_group_text g (String ":" (String c rest)) Hg) as [n ->]; [done|].
  change (Ascii.eqb ":" ".") with false. change (Ascii.eqb ":" ":") with true. by destruct (Ascii.eqb c ":").
Qed.

Lemma colons_tail gs room acc ell :
  gs <> [] -> Forall group_ok gs -> (length gs <= room)%nat ->
  v6_groups room acc ell (colons gs) = Some (acc ++ gs, ell, "").
Proof.
  revert room acc. induction gs as [|g gs IH]; intros room acc Hne Hok Hlen; [done|]. simpl in Hlen.
  destruct room as [|room]; [lia|]. apply Forall_cons_1 in Hok as [Hg Hok]. destruct gs as [|g' gs].
  - change (colons [g]) with (hex_text g). cbn [v6_groups]. destruct (hex_group_text g "" Hg) as [n Hn]; [done|].
    assert (hex_text g +:+ "" = hex_text g) as Happ by apply str_app_nil. by rewrite Happ in Hn; rewrite Hn.
  - rewrite colons_cons. destruct (colons_head g' gs) as (c & t & Hc & Hhex). rewrite Hc, groups_step by done.
    destruct (hex_not_special c Hhex) as (_ & -> & _). rewrite <- Hc, IH by (done || lia). by rewrite <- app_assoc.
Qed.

Lemma colons_before gs room acc s :
  gs <> [] -> Forall group_ok gs -> (length gs <= room)%nat ->
  v6_groups room acc None (colons gs +:+ "::" +:+ s) =
  if bool_decide (s = "") then Some (acc ++ gs, Some (length (acc ++ gs)), "")
  else v6_groups (room - length gs) (acc ++ gs) (Some (length (acc ++ gs))) s.
Proof.
  revert room acc. induction gs as [|g gs IH]; intros room acc Hne Hok Hlen; [done|]. simpl in Hlen.
  destruct room as [|room]; [lia|]. apply Forall_cons_1 in Hok as [Hg Hok]. destruct gs as [|g' gs].
  - change (colons [g]) with (hex_text g). change ("::" +:+ s) with (String ":" (String ":" s)).
    rewrite groups_step by done. change (Ascii.eqb ":" ":") with true. rewrite bool_decide_true by done.
    by replace (S room - length [g])%nat with room by (simpl; lia).
  - rewrite colons_cons. destruct (colons_head g' gs) as (c & t & Hc & Hhex).
    rewrite str_app_assoc, str_app_cons, Hc, str_app_cons, groups_step by done.
    destruct (hex_not_special c Hhex) as (_ & -> & _).
    rewrite <- (str_app_cons c t), <- Hc, IH by (done || (simpl in *; lia)). rewrite <- app_assoc. done.
Qed.

(** ** The longest run *)

Lemma zeros_run gs : gs = repeat 0 (zeros gs) ++ drop (zeros gs) gs.
Proof.
  induction gs as [|g gs IH]; [done|]. destruct g as [|p|p]; simpl; [by rewrite <- IH|done|done].
Qed.

(** A run of at least two zero groups, or none. *)
Definition run_of (whole : list Z) (r : nat * nat) : Prop :=
  snd r = O \/ ((2 <= snd r)%nat /\ (fst r + snd r <= length whole)%nat /\
    whole = take (fst r) whole ++ repeat 0 (snd r) ++ drop (fst r + snd r) whole).

Lemma zeros_length gs : (zeros gs <= length gs)%nat.
Proof. induction gs as [|[|p|p] gs IH]; simpl; lia. Qed.

Lemma longest_run whole : forall post pre s l, whole = pre ++ post -> run_of whole (s, l) ->
  run_of whole (longest (length pre) post s l).
Proof.
  induction post as [|g post IH]; intros pre s l Hw Hr; [done|]. cbn [longest].
  assert (forall s l, run_of whole (s, l) -> run_of whole (longest (S (length pre)) post s l)) as Hnext.
  { intros s' l' H'. replace (S (length pre)) with (length (pre ++ [g])) by (rewrite length_app; simpl; lia).
    apply IH; [|done]. by rewrite <- app_assoc. }
  destruct ((2 <=? zeros (g :: post)) && (l <? zeros (g :: post)))%nat eqn:Hl; apply Hnext; [|done].
  apply andb_prop in Hl as [Hl _]. apply Nat.leb_le in Hl. right. cbn [fst snd].
  pose proof (zeros_length (g :: post)) as Hz. split; [done|]. split; [rewrite Hw, length_app; lia|].
  subst whole. rewrite take_app_length, drop_app_add. f_equal. apply zeros_run.
Qed.

(** ** Sixteen bytes *)

Lemma two_bytes a b : byte_ok b -> (a * 256 + b) / 256 = a /\ (a * 256 + b) mod 256 = b.
Proof. unfold byte_ok. intros H. split; euclid. Qed.

Lemma bytes_groups ip : Forall byte_ok ip -> length ip = 16%nat -> bytes_of (groups_of ip) = ip.
Proof.
  intros Hok Hlen. do 16 (destruct ip as [|? ip]; [done|]). destruct ip; [|done].
  repeat (apply Forall_cons_1 in Hok as [? Hok]). cbn [groups_of bytes_of flat_map app].
  repeat match goal with |- context [(?a * 256 + ?b) / 256] =>
    let H1 := fresh in let H2 := fresh in destruct (two_bytes a b) as [H1 H2]; [assumption|]; rewrite H1, H2; clear H1 H2 end.
  reflexivity.
Qed.

Lemma groups_ok ip : Forall byte_ok ip -> length ip = 16%nat -> Forall group_ok (groups_of ip) /\ length (groups_of ip) = 8%nat.
Proof.
  intros Hok Hlen. do 16 (destruct ip as [|? ip]; [done|]). destruct ip; [|done].
  repeat (apply Forall_cons_1 in Hok as [? Hok]). unfold byte_ok, group_ok in *. cbn [groups_of].
  split; [repeat constructor; lia|done].
Qed.

(** ** Texts *)

Definition plain (a : Ascii.ascii) : bool :=
  negb (Ascii.eqb a "."%char || Ascii.eqb a ":"%char || Ascii.eqb a "%"%char).

Lemma kind_app s rest : str_forall plain s = true -> kind (s +:+ rest) = kind rest.
Proof.
  induction s as [|a s IH]; [done|]. rewrite str_app_cons. simpl. intros [Ha Hs]%andb_prop.
  unfold plain in Ha. apply negb_true_iff in Ha. rewrite Ha. by apply IH.
Qed.

Lemma hex_plain n : plain (Codec.hex_digit (Z.to_N (n mod 16))) = true.
Proof.
  destruct (hex_not_special (Codec.hex_digit (Z.to_N (n mod 16)))) as (H1 & H2 & H3); [rewrite hex_back; eauto|].
  unfold plain. by rewrite H1, H2, H3.
Qed.

Lemma hex_text_plain g : str_forall plain (hex_text g) = true.
Proof. unfold hex_text. cbv zeta. repeat case_match; cbn [str_forall]; by rewrite ?hex_plain. Qed.

Lemma parse_colons groups : kind (v6_text groups) = Some ":"%char -> ParseIP (v6_text groups) = parse_v6 (v6_text groups).
Proof. unfold ParseIP. by intros ->. Qed.

Lemma v6_kind gs : length gs = 8%nat -> run_of gs (longest 0 gs 0 0) -> kind (v6_text gs) = Some ":"%char.
Proof.
  intros Hlen Hr. unfold v6_text. destruct (longest 0 gs 0 0) as [start [|len]].
  - destruct gs as [|g [|g' gs]]; [done|done|]. rewrite colons_cons, kind_app by apply hex_text_plain. done.
  - destruct (take start gs) as [|g [|g' pre]]; [done| |].
    + change (colons [g]) with (hex_text g). rewrite kind_app by apply hex_text_plain. done.
    + rewrite colons_cons, str_app_assoc, kind_app by apply hex_text_plain. done.
Qed.

Lemma not_double gs s : gs <> [] -> has_prefix "::" (colons gs +:+ s) = false.
Proof.
  destruct gs as [|g gs]; [done|]. intros _. destruct (colons_head g gs) as (c & t & -> & Hc).
  rewrite str_app_cons. cbn [has_prefix]. rewrite decide_False; [done|]. intros <-. by destruct Hc.
Qed.

Lemma double_rest s : String.substring 2 (String.length ("::" +:+ s) - 2) ("::" +:+ s) = s.
Proof.
  change ("::" +:+ s) with (String ":" (String ":" s)). cbn [String.length String.substring Nat.sub].
  by apply substring_zero; rewrite Nat.sub_0_r.
Qed.

Lemma colons_nonempty gs : gs <> [] -> colons gs <> "".
Proof. destruct gs as [|g gs]; [done|]. destruct (colons_head g gs) as (c & t & -> & _). done. Qed.

Lemma expand_run gs start len : length gs = 8%nat -> (2 <= len)%nat -> (start + len <= 8)%nat ->
  gs = take start gs ++ repeat 0 len ++ drop (start + len) gs ->
  expand (take start gs ++ drop (start + len) gs) (Some start) = Some gs.
Proof.
  intros Hlen Hl Hs Hgs. unfold expand. rewrite length_app, length_take, length_drop, Hlen.
  replace (start `min` 8 + (8 - (start + len)))%nat with (8 - len)%nat by lia.
  destruct (Nat.ltb_spec (8 - len) 8); [|lia]. replace (8 - (8 - len))%nat with len by lia.
  rewrite take_app_length', drop_app_length' by (rewrite length_take; lia). by rewrite <- Hgs.
Qed.

Lemma v6_back gs : length gs = 8%nat -> Forall group_ok gs -> ParseIP (v6_text gs) = Some (bytes_of gs).
Proof.
  intros Hlen Hok. assert (run_of gs (longest 0 gs 0 0)) as Hr by (by apply (longest_run gs gs []); [|left]).
  rewrite parse_colons by (by apply v6_kind). unfold v6_text, parse_v6.
  destruct (longest 0 gs 0 0) as [start [|len]].
  { rewrite <- (str_app_nil (colons gs)), not_double by (by intros ->). rewrite str_app_nil.
    rewrite colons_tail by (done || lia || by intros ->). simpl. unfold expand. by rewrite Hlen. }
  destruct Hr as [Hr|(Hl & Hs & Hgs)]; [done|]. cbn [fst snd] in *. rewrite Hlen in Hs.
  pose proof (expand_run gs start (S len) Hlen Hl Hs Hgs) as Hexp.
  assert (Forall group_ok (take start gs) /\ Forall group_ok (drop (start + S len) gs)) as [Hp Hd]
    by (split; [by apply Forall_take|by apply Forall_drop]).
  assert (length (take start gs) = start) as Hlp by (rewrite length_take; lia).
  assert (length (drop (start + S len) gs) = 8 - (start + S len))%nat as Hld by (rewrite length_drop; lia).
  revert Hexp Hp Hd Hlp Hld. set (pre := take start gs). set (post := drop (start + S len) gs). clearbody pre post.
  intros Hexp Hp Hd Hlp Hld. destruct pre as [|g pre].
  - simpl in Hlp. subst start. change (colons [] +:+ "::" +:+ colons post) with ("::" +:+ colons post).
    change (has_prefix "::" ("::" +:+ colons post)) with true. rewrite double_rest. cbn [app] in Hexp.
    destruct post as [|g post].
    + simpl. unfold expand in Hexp. simpl in Hexp. by injection Hexp as <-.
    + rewrite bool_decide_false by (by apply colons_nonempty). rewrite colons_tail by (done || lia).
      cbn [app]. by rewrite Hexp.
  - rewrite not_double by done. rewrite colons_before by (done || lia). cbn [app] in *.
    change (length (g :: pre)) with (S (length pre)) in *. rewrite Hlp. case_bool_decide as Hpost.
    + assert (post = []) as -> by (by destruct post; [|destruct (colons_nonempty (z :: post))]).
      rewrite app_nil_r in Hexp. by rewrite Hexp.
    + assert (post <> []) as Hne by (by intros ->). rewrite colons_tail by (done || lia). cbn [app]. by rewrite Hexp.
Qed.

(** ** IPv4 *)

Definition octet_good (n : Z) : bool :=
  let s := fmt_d n in
  bool_decide (octet s = Some n) && bool_decide (no_byte "." s) && str_forall plain s.

Lemma octets n : byte_ok n -> octet (fmt_d n) = Some n /\ no_byte "." (fmt_d n) /\ str_forall plain (fmt_d n) = true.
Proof.
  intros Hn. assert (forallb octet_good (map Z.of_nat (seq 0 256)) = true) as Hall by vm_reflexivity.
  rewrite forallb_forall in Hall. assert (octet_good n = true) as H.
  { apply Hall, in_map_iff. unfold byte_ok in Hn. exists (Z.to_nat n). split; [lia|]. apply in_seq. lia. }
  unfold octet_good in H. cbv zeta in H. apply andb_prop in H as [[H1 H2]%andb_prop H3].
  apply bool_decide_eq_true in H1, H2. done.
Qed.

Lemma dotted_four a b c d : dotted [a; b; c; d] = fmt_d a +:+ "." +:+ fmt_d b +:+ "." +:+ fmt_d c +:+ "." +:+ fmt_d d.
Proof. done. Qed.

Lemma dotted_back v4 : length v4 = 4%nat -> Forall byte_ok v4 ->
  parse_v4 (dotted v4) = Some v4 /\ kind (dotted v4) = Some "."%char.
Proof.
  intros Hlen Hok. destruct v4 as [|a [|b [|c [|d [|]]]]]; try done.
  repeat (apply Forall_cons_1 in Hok as [? Hok]). rewrite dotted_four.
  destruct (octets a) as (A1 & A2 & A3); [done|]. destruct (octets b) as (B1 & B2 & B3); [done|].
  destruct (octets c) as (C1 & C2 & C3); [done|]. destruct (octets d) as (D1 & D2 & D3); [done|].
  split; [|by rewrite kind_app].
  assert (forall s, "." +:+ s = String "." s) as Hdot by done.
  unfold parse_v4. rewrite !Hdot, !split_on_app, split_on_no_byte by done.
  cbn [map]. by rewrite A1, B1, C1, D1.
Qed.

(** ** What is read is an address *)

Lemma digits_pos s acc : 0 <= acc -> 0 <= Codec.digits_value s acc.
Proof. revert acc. induction s as [|a s IH]; intros acc H; [done|]. cbn [Codec.digits_value]. apply IH. lia. Qed.

Lemma octet_ok s n : octet s = Some n -> byte_ok n.
Proof.
  unfold octet. destruct s as [|a s]; [done|]. destruct (_ && _); [|done]. cbv zeta.
  pose proof (digits_pos (String a s) 0 ltac:(lia)) as Hp. revert Hp. generalize (Codec.digits_value (String a s) 0).
  intros v Hv. destruct (Z.leb_spec v 255); [|done]. intros [= <-]. unfold byte_ok. lia.
Qed.

Lemma parse_v4_ok s v4 : parse_v4 s = Some v4 -> length v4 = 4%nat /\ Forall byte_ok v4.
Proof.
  unfold parse_v4. destruct (split_on "." s) as [|x1 [|x2 [|x3 [|x4 [|]]]]]; cbn [map]; try (by repeat case_match).
  destruct (octet x1) eqn:E1, (octet x2) eqn:E2, (octet x3) eqn:E3, (octet x4) eqn:E4; try done.
  intros [= <-]. split; [done|]. repeat constructor; by eapply octet_ok.
Qed.

Lemma hex_group_ok s : forall digits acc n v rest, (digits <= 4)%nat -> 0 <= acc < 16 ^ Z.of_nat digits ->
  hex_group digits acc s = Some (n, v, rest) -> group_ok v.
Proof.
  assert (forall digits acc, (digits <= 4)%nat -> 0 <= acc < 16 ^ Z.of_nat digits -> group_ok acc) as Hstop.
  { intros digits acc Hd Ha. unfold group_ok. pose proof (Z.pow_le_mono_r 16 (Z.of_nat digits) 4 ltac:(lia) ltac:(lia)).
    change (16 ^ 4) with 65536 in *. lia. }
  induction s as [|a s IH]; intros digits acc n v rest Hd Ha; cbn [hex_group].
  - intros [= _ <- _]. by eapply Hstop.
  - destruct (Codec.hex_value a) as [x|] eqn:Hx; [|intros [= _ <- _]; by eapply Hstop].
    destruct (Nat.ltb_spec 3 digits); [done|]. apply IH; [lia|].
    assert (Z.of_N x < 16) by (unfold Codec.hex_value in Hx; repeat case_match; simplify_eq; rewrite ?andb_true_iff, ?N.leb_le in *; lia).
    rewrite Nat2Z.inj_succ, Z.pow_succ_r by lia. lia.
Qed.

Lemma groups_read room : forall groups ell s groups' ell' s', Forall group_ok groups ->
  v6_groups room groups ell s = Some (groups', ell', s') ->
  Forall group_ok groups' /\ (length groups' <= length groups + room \/ length groups' <= 8)%nat.
Proof.
  induction room as [|room IH]; intros groups ell s groups' ell' s' Hok; cbn [v6_groups].
  { intros [= <- _ _]. split; [done|lia]. }
  destruct (hex_group 0 0 s) as [[[[|n] v] rest]|] eqn:Hg; [done| |done].
  apply hex_group_ok in Hg; [|lia|simpl; lia].
  assert (Forall group_ok (groups ++ [v])) as Hv by (apply Forall_app; split; [done|by constructor]).
  assert (length (groups ++ [v]) = length groups + 1)%nat as Hl by (rewrite length_app; simpl; lia).
  destruct rest as [|c rest]; [intros [= <- _ _]; split; [done|lia]|].
  destruct (Ascii.eqb c "."); [|destruct (Ascii.eqb c ":"); [|done]].
  - destruct (_ || _) eqn:Hbad; [done|]. apply orb_false_iff in Hbad as [_ Hbad]. apply Nat.ltb_ge in Hbad.
    destruct (parse_v4 s) as [v4|] eqn:H4; [|done].
    apply parse_v4_ok in H4 as [Hlen H4]. destruct v4 as [|x [|y [|z [|t [|]]]]]; try done. intros [= <- _ _].
    repeat (apply Forall_cons_1 in H4 as [? H4]). unfold byte_ok in *.
    split; [|rewrite length_app; simpl; lia]. apply Forall_app. split; [done|]. unfold group_ok. repeat constructor; lia.
  - destruct rest as [|c' after]; [done|]. destruct (Ascii.eqb c' ":").
    + destruct (bool_decide (ell = None)); [|done]. destruct (bool_decide (after = "")).
      * intros [= <- _ _]. split; [done|lia].
      * intros H. apply IH in H as [? ?]; [|done]. split; [done|lia].
    + intros H. apply IH in H as [? ?]; [|done]. split; [done|lia].
Qed.

Lemma expand_ok groups ell gs : Forall group_ok groups -> (length groups <= 8)%nat -> expand groups ell = Some gs ->
  Forall group_ok gs /\ length gs = 8%nat.
Proof.
  intros Hok Hlen. unfold expand. destruct (Nat.ltb_spec (length groups) 8).
  - destruct ell as [e|]; [|done]. intros [= <-]. split.
    + rewrite !Forall_app. split; [by apply Forall_take|]. split; [|by apply Forall_drop].
      apply Forall_forall. intros x Hx. apply repeat_spec in Hx. subst. unfold group_ok. lia.
    + rewrite !length_app, repeat_length, length_take, length_drop. lia.
  - case_bool_decide; [|done]. intros [= <-]. split; [done|lia].
Qed.

Lemma bytes_ok gs : Forall group_ok gs -> length gs = 8%nat -> Forall byte_ok (bytes_of gs) /\ length (bytes_of gs) = 16%nat.
Proof.
  intros Hok Hlen. split.
  - clear Hlen. induction Hok as [|g gs Hg _ IH]; [done|]. unfold bytes_of in *. cbn [flat_map app].
    unfold group_ok in Hg. repeat constructor; [euclid..|done].
  - do 8 (destruct gs as [|? gs]; [done|]). by destruct gs.
Qed.

Lemma ParseIP_ok s p : ParseIP s = Some p -> length p = 16%nat /\ Forall byte_ok p.
Proof.
  assert (length (repeat 0 16) = 16%nat /\ Forall byte_ok (repeat 0 16)) as Hz.
  { split; [done|]. unfold byte_ok. repeat constructor; lia. }
  unfold ParseIP. destruct (kind s) as [c|]; [|done]. destruct (Ascii.eqb c ".").
  - destruct (parse_v4 s) as [v4|] eqn:H4; [|done]. intros [= <-]. apply parse_v4_ok in H4 as [H1 H2].
    split; [by simpl; rewrite H1|]. unfold byte_ok in *. repeat (constructor; [lia|]). done.
  - destruct (Ascii.eqb c ":"); [|done]. unfold parse_v6.
    assert (forall s ell, match v6_groups 8 [] ell s with
        | Some (groups, ell, EmptyString) => bytes_of <$> expand groups ell | _ => None end = Some p ->
      length p = 16%nat /\ Forall byte_ok p) as Hread.
    { intros s0 ell. destruct (v6_groups 8 [] ell s0) as [[[groups ell'] [|]]|] eqn:Hg; [|done|done].
      apply groups_read in Hg as [Hok Hlen]; [|done]. destruct (expand groups ell') as [gs|] eqn:He; [|done].
      intros [= <-]. apply expand_ok in He as [He1 He2]; [|done|simpl in Hlen; lia].
      split; by apply bytes_ok. }
    cbv zeta. destruct (has_prefix "::" s); [case_bool_decide; [by intros [= <-]|]|]; apply Hread.
Qed.

(** ** The properties *)

Lemma To4_mapped p v4 : length p = 16%nat -> To4 p = Some v4 -> p = repeat 0 10 ++ [255; 255] ++ v4 /\ length v4 = 4%nat.
Proof.
  intros Hlen. unfold To4. rewrite Hlen. cbn [Nat.eqb andb]. do 16 (destruct p as [|? p]; [done|]). destruct p; [|done].
  cbn [seq forallb byte_at nth drop]. destruct (_ && _) eqn:H; [|done]. intros [= <-]. bool_prop. by subst.
Qed.

Lemma mapped_To4 v4 : length v4 = 4%nat -> To4 (repeat 0 10 ++ [255; 255] ++ v4) = Some v4.
Proof. intros Hlen. do 4 (destruct v4 as [|? v4]; [done|]). by destruct v4. Qed.

Lemma dotted_parses v4 : length v4 = 4%nat -> Forall byte_ok v4 ->
  ParseIP (dotted v4) = Some (repeat 0 10 ++ [255; 255] ++ v4).
Proof. intros H1 H2. destruct (dotted_back v4 H1 H2) as [Hp Hk]. unfold ParseIP. rewrite Hk. simpl Ascii.eqb. by rewrite Hp. Qed.

(** The text of an address is read back as that address. *)
Lemma ip_text_back ip : length ip = 16%nat -> Forall byte_ok ip -> ParseIP (ip_text ip) = Some ip.
Proof.
  intros Hlen Hok. unfold ip_text. destruct (To4 ip) as [v4|] eqn:H4.
  - apply To4_mapped in H4 as [-> H4]; [|done]. apply dotted_parses; [done|].
    by apply Forall_app in Hok as [_ [_ Hok]%Forall_app].
  - destruct (groups_ok ip Hok Hlen). by rewrite v6_back, bytes_groups.
Qed.

(** What is told apart of a client: the address of IPv4, the /64 of IPv6. *)
Inductive Source := SText (s : string) | SV4 (v4 : IP) | SV6 (prefix : IP).

Definition source (s : string) : Source :=
  match ParseIP s with
  | None => SText s
  | Some p => match To4 p with Some v4 => SV4 v4 | None => SV6 (take 8 p) end
  end.

Lemma mask_not_v4 p : length p = 16%nat -> To4 (mask64 p) = None /\ length (mask64 p) = 16%nat /\ take 8 (mask64 p) = take 8 p.
Proof.
  intros Hlen. do 16 (destruct p as [|? p]; [done|]). destruct p; [|done]. unfold mask64. cbn [take repeat app].
  split; [|done]. unfold To4. cbn [length Nat.eqb byte_at nth]. change (0 =? 255) with false. by rewrite !andb_false_r.
Qed.

Lemma mask_ok p : Forall byte_ok p -> Forall byte_ok (mask64 p).
Proof.
  intros H. apply Forall_app. split; [by apply Forall_take|]. unfold byte_ok. repeat constructor; lia.
Qed.

(** The key of a client is its source, written as an address. *)
Lemma source_key s : source (CanonicalIP s) = source s.
Proof.
  unfold CanonicalIP. case_bool_decide; [done|]. destruct (ParseIP s) as [p|] eqn:Hp; [|done].
  destruct (ParseIP_ok s p Hp) as [Hlen Hok]. unfold source at 2. rewrite Hp. destruct (To4 p) as [v4|] eqn:H4.
  - apply To4_mapped in H4 as [-> H4]; [|done]. apply Forall_app in Hok as [_ [_ Hok]%Forall_app].
    unfold source. rewrite dotted_parses by done. by rewrite mapped_To4.
  - destruct (mask_not_v4 p Hlen) as (M4 & Ml & Mt). unfold source.
    rewrite ip_text_back by (try apply mask_ok; done). by rewrite M4, Mt.
Qed.

Lemma key_of_source s : CanonicalIP s =
  match source s with SText s => s | SV4 v4 => dotted v4 | SV6 prefix => ip_text (prefix ++ repeat 0 8) end.
Proof.
  unfold CanonicalIP, source. case_bool_decide as Hs; [by subst|]. destruct (ParseIP s) as [p|]; [|done].
  by destruct (To4 p).
Qed.

(** C36: two texts name the same client exactly when they are the same IPv4
    address, written in either family, addresses of the same IPv6 /64, or the same
    text that is no address; so every address of a /64 counts on one key, no two
    /64s and no two IPv4 addresses share one, and the key of a key is itself. *)
Theorem canonical_source (s t : string) :
  (CanonicalIP s = CanonicalIP t <-> source s = source t) /\ CanonicalIP (CanonicalIP s) = CanonicalIP s /\
  (forall p, ParseIP s = Some p -> ParseIP (ip_text p) = Some p).
Proof.
  split; [|split].
  - split; [|intros H; by rewrite !key_of_source, H].
    intros H. by rewrite <- (source_key s), H, source_key.
  - by rewrite (key_of_source (CanonicalIP s)), source_key, <- key_of_source.
  - intros p [Hlen Hok]%ParseIP_ok. by apply ip_text_back.
Qed.

(** ** Witness *)

Lemma canonical_source_witness :
  CanonicalIP "2001:db8:1:2:aaaa::1" = CanonicalIP "2001:DB8:1:2::9" /\
  CanonicalIP "2001:db8:1:2::1" <> CanonicalIP "2001:db8:1:3::1" /\
  CanonicalIP "::ffff:cb00:7107" = CanonicalIP "203.0.113.7".
Proof.
  split; [|split].
  - apply (proj1 (canonical_source _ _)). vm_reflexivity.
  - intros H. apply (proj1 (canonical_source _ _)) in H. revert H. vm_compute. discriminate.
  - apply (proj1 (canonical_source _ _)). vm_reflexivity.
Defined.
