(* ===== verification/Config.v ===== *)
(** * Configuration ([internal/config])

    The environment, read variable by variable into the configuration: a variable
    that is set and does not parse is an error, kept and reported at the end; the
    enumerated values are checked. *)

From S2P Require Import Prelude Store Codec.

Open Scope Z_scope.

(** [os.LookupEnv], after the [.env] file was read. *)
Definition Env : Type := string -> option string.

(** Floating point: [strconv.ParseFloat], the only float of the configuration's
    defaults, its sign, and the time [burst] requests take at a rate, in whole
    nanoseconds. *)
Class Floats := {
  float64 : Type; ParseFloat : string -> option float64; default_rps : float64; is_positive : float64 -> bool;
  time_of : Z -> float64 -> Z
}.

Module Config.

Record ServerConfig := mkServerConfig {
  TLSCertFile : string; TLSKeyFile : string; Port : string; GinMode : string; TrustedProxies : list string;
  PProfAddr : string; MetricsAddr : string; MetricsToken : string; CORSAllowedOrigins : list string;
  HSTSSeconds : Z; RunJobs : option bool; SwaggerEnabled : bool
}.

Record DBConfig := mkDBConfig {
  db_Host : string; db_Port : string; db_User : string; db_Password : string; db_Name : string;
  db_MaxIdleConns : Z; db_MaxOpenConns : Z; db_TLS : string; db_MigrateAuto : bool
}.

Record JWTConfig := mkJWTConfig {
  jwt_Algorithm : string; jwt_KeyID : string; jwt_PreviousKeyID : string; jwt_PreviousLastIssued : string;
  jwt_StateSecret : string; jwt_StateKeyID : string; jwt_StatePreviousSecret : string;
  jwt_StatePreviousKeyID : string; jwt_StatePreviousUntil : string; jwt_Secret : string;
  jwt_PreviousSecret : string; jwt_Issuer : string; jwt_AccessTTL : Z; jwt_RefreshTTL : Z; jwt_ResetTTL : Z;
  jwt_VerifyTTL : Z; jwt_MFAPendingTTL : Z; jwt_SudoTTL : Z
}.

Record AuthConfig := mkAuthConfig {
  auth_MaxLoginAttempts : Z; auth_LoginLockoutDuration : Z; auth_MaxLockoutMultiplier : Z;
  auth_RequireEmailVerified : bool; auth_TOTPMaxAttempts : Z; auth_TOTPAttemptWindow : Z;
  auth_RecoveryCodeCount : Z; auth_RecoveryCodeBytes : Z; auth_RecoveryCodeKey : string;
  auth_NotifyNewIPLogin : bool; auth_BcryptCost : Z
}.

Record RateLimitConfig (F : Type) := mkRateLimitConfig {
  rl_RPS : F; rl_Burst : Z; rl_LoginPerAccountMax : Z; rl_LoginWindow : Z; rl_RegisterPerIPMax : Z;
  rl_RegisterWindow : Z; rl_VerifyResendPerEmailMax : Z; rl_VerifyResendWindow : Z; rl_VerifyResendGlobalMax : Z;
  rl_VerifyResendGlobalWindow : Z; rl_VerifyResendPerIPMax : Z; rl_VerifyResendPerIPWindow : Z;
  rl_LoginCaptchaAfterFails : Z
}.



Record SMTPConfig := mkSMTPConfig {
  smtp_Host : string; smtp_Port : string; smtp_User : string; smtp_Password : string; smtp_From : string
}.

Record RedisConfig := mkRedisConfig {
  redis_URL : string
}.

Record SecurityConfig := mkSecurityConfig {
  sec_MaxRequestBodyBytes : Z; sec_MaxPasswordLength : Z; sec_RateLimiterEntryTTL : Z; sec_TOTPMaxConcurrent : Z;
  sec_KeyProvider : string; sec_KeyDir : string; sec_BreachedPasswordCheck : bool; sec_BreachedPasswordTimeout : Z;
  sec_MinPasswordScore : Z
}.

Record CaptchaConfig := mkCaptchaConfig {
  captcha_Provider : string; captcha_Secret : string; captcha_SiteKey : string
}.

Record GoogleOAuthConfig := mkGoogleOAuthConfig {
  google_ClientID : string; google_ClientSecret : string; google_RedirectURL : string
}.

Record WebAuthnConfig := mkWebAuthnConfig {
  wa_RPDisplayName : string; wa_RPID : string; wa_RPOrigins : list string; wa_AttestationPreference : string
}.

Record AuditConfig := mkAuditConfig {
  au_CheckpointKeyID : string; au_CheckpointKeys : string; au_KeyID : string; au_SigningKeys : string;
  au_CheckpointKey : string; au_MaxPending : Z; au_BufferSize : Z; au_FlushBatch : Z; au_RetentionDays : Z
}.

Record Config (F : Type) := mkConfig {
  Server : ServerConfig; DB : DBConfig; JWT : JWTConfig; Auth : AuthConfig; RateLimit : RateLimitConfig F;
  SMTP : SMTPConfig; Redis : RedisConfig; Security : SecurityConfig; Captcha : CaptchaConfig;
  GoogleOAuth : GoogleOAuthConfig; WebAuthn : WebAuthnConfig; Audit : AuditConfig
}.

Arguments Server {F}.
Arguments DB {F}.
Arguments JWT {F}.
Arguments Auth {F}.
Arguments RateLimit {F}.
Arguments SMTP {F}.
Arguments Redis {F}.
Arguments Security {F}.
Arguments Captcha {F}.
Arguments GoogleOAuth {F}.
Arguments WebAuthn {F}.
Arguments Audit {F}.


(** What [Load] refuses. *)
Inductive LoadError :=
  | JWTSecretMissing | InvalidDBTLS (v : string) | InvalidKeyProvider (v : string) | KeyDirRequired
  | InvalidAttestation (v : string) | OriginsRequired | Unparsed (l : list (string * string * string)).

(** *** The loader: the value and what it could not parse, as key, value, kind *)

Definition Loader (A : Type) : Type := Env -> A * list (string * string * string).

Definition pure {A} (a : A) : Loader A := fun _ => (a, []).

Definition load_bind {A B} (l : Loader A) (f : A -> Loader B) : Loader B := fun e =>
  let rest := f (fst (l e)) e in (fst rest, snd (l e) ++ snd rest).

Notation "'let?' x := l 'in' f" := (load_bind l (fun x => f))
  (at level 10, x name, l at level 100, f at level 200) : go_scope.
Local Open Scope go_scope.

Definition set_value (key : string) (e : Env) : option string :=
  match e key with Some v => if bool_decide (v = "") then None else Some v | None => None end.

Definition env (key fallback : string) : Loader string := fun e => (default fallback (set_value key e), []).

(** A variable that is set must parse; what it falls back to is of no use then. *)
Definition parsed {A} (parse : string -> option A) (want key : string) (fallback : A) : Loader A := fun e =>
  match set_value key e with
  | None => (fallback, [])
  | Some v => match parse v with Some a => (a, []) | None => (fallback, [(key, v, want)]) end
  end.

(** [strconv.Atoi], and [strconv.ParseInt] of 64 bits. *)
Definition Atoi (v : string) : option Z := let (n, ok) := parse_int64 v in if ok : bool then Some n else None.

Definition envInt : string -> Z -> Loader Z := parsed Atoi "integer".
Definition envInt64 : string -> Z -> Loader Z := parsed Atoi "integer".
Definition envBool : string -> bool -> Loader bool := parsed Codec.ParseBool "boolean".
Definition envDuration : string -> Z -> Loader Z := parsed Codec.ParseDuration "duration (e.g. 15m)".
Definition envFloat `{Floats} : string -> float64 -> Loader float64 := parsed ParseFloat "number".

(** A blank value counts as unset here. *)
Definition envOptionalBool (key : string) : Loader (option bool) := fun e =>
  match e key with
  | None => (None, [])
  | Some v =>
      if bool_decide (trim_space v = "") then (None, []) else
      match Codec.ParseBool v with Some b => (Some b, []) | None => (None, [(key, v, "boolean")]) end
  end.

Definition envCSV (key : string) : Loader (list string) := fun e =>
  match e key with
  | None => ([], [])
  | Some v =>
      if bool_decide (trim_space v = "") then ([], []) else
      (filter (fun t => t <> "") (map trim_space (split_on "," v)), [])
  end.

(** *** The variables *)

Section Load.
Context {FL : Floats}.

Definition load_Server : Loader ServerConfig :=
  let? tlscertfile := env "SERVER_TLS_CERT_FILE" "" in
  let? tlskeyfile := env "SERVER_TLS_KEY_FILE" "" in
  let? port := env "SERVER_PORT" "8080" in
  let? ginmode := env "GIN_MODE" "debug" in
  let? trustedproxies := envCSV "TRUSTED_PROXIES" in
  let? pprofaddr := env "PPROF_ADDR" "" in
  let? metricsaddr := env "METRICS_ADDR" "" in
  let? metricstoken := env "METRICS_TOKEN" "" in
  let? corsallowedorigins := envCSV "CORS_ALLOWED_ORIGINS" in
  let? hstsseconds := envInt "HSTS_SECONDS" 0 in
  let? runjobs := envOptionalBool "RUN_JOBS" in
  let? swaggerenabled := envBool "SWAGGER_ENABLED" false in
  pure (mkServerConfig tlscertfile tlskeyfile port ginmode trustedproxies pprofaddr metricsaddr metricstoken corsallowedorigins hstsseconds runjobs swaggerenabled).

Definition load_DB : Loader DBConfig :=
  let? host := env "DB_HOST" "127.0.0.1" in
  let? port := env "DB_PORT" "3306" in
  let? user := env "DB_USER" "finnapigo" in
  let? password := env "DB_PASSWORD" "" in
  let? name := env "DB_NAME" "finnapigo" in
  let? maxidleconns := envInt "DB_MAX_IDLE_CONNS" 10 in
  let? maxopenconns := envInt "DB_MAX_OPEN_CONNS" 100 in
  let? tls := env "DB_TLS" "" in
  let? migrateauto := envBool "MIGRATE_AUTO" false in
  pure (mkDBConfig host port user password name maxidleconns maxopenconns tls migrateauto).

Definition load_JWT : Loader JWTConfig :=
  let? algorithm := env "JWT_ALGORITHM" "HS256" in
  let? keyid := env "JWT_KEY_ID" "" in
  let? previouskeyid := env "JWT_PREVIOUS_KEY_ID" "" in
  let? previouslastissued := env "JWT_PREVIOUS_LAST_ISSUED_AT" "" in
  let? statesecret := env "IDENTITY_STATE_SECRET" "" in
  let? statekeyid := env "IDENTITY_STATE_KEY_ID" "" in
  let? stateprevioussecret := env "IDENTITY_STATE_PREVIOUS_SECRET" "" in
  let? statepreviouskeyid := env "IDENTITY_STATE_PREVIOUS_KEY_ID" "" in
  let? statepreviousuntil := env "IDENTITY_STATE_PREVIOUS_UNTIL" "" in
  let? secret := env "JWT_SECRET" "" in
  let? previoussecret := env "JWT_SECRET_PREVIOUS" "" in
  let? issuer := env "JWT_ISSUER" "finnapigo" in
  let? accessttl := envDuration "ACCESS_TOKEN_TTL" (15 * minute) in
  let? refreshttl := envDuration "REFRESH_TOKEN_TTL" (7 * 24 * hour) in
  let? resetttl := envDuration "RESET_TOKEN_TTL" (15 * minute) in
  let? verifyttl := envDuration "EMAIL_VERIFY_TOKEN_TTL" (24 * hour) in
  let? mfapendingttl := envDuration "MFA_PENDING_TOKEN_TTL" (5 * minute) in
  let? sudottl := envDuration "SUDO_TOKEN_TTL" (15 * minute) in
  pure (mkJWTConfig algorithm keyid previouskeyid previouslastissued statesecret statekeyid stateprevioussecret statepreviouskeyid statepreviousuntil secret previoussecret issuer accessttl refreshttl resetttl verifyttl mfapendingttl sudottl).

Definition load_Auth : Loader AuthConfig :=
  let? maxloginattempts := envInt "MAX_LOGIN_ATTEMPTS" 5 in
  let? loginlockoutduration := envDuration "LOGIN_LOCKOUT_DURATION" (15 * minute) in
  let? maxlockoutmultiplier := envInt "MAX_LOCKOUT_MULTIPLIER" 4 in
  let? requireemailverified := envBool "REQUIRE_EMAIL_VERIFIED" false in
  let? totpmaxattempts := envInt "TOTP_MAX_ATTEMPTS" 5 in
  let? totpattemptwindow := envDuration "TOTP_ATTEMPT_WINDOW" (5 * minute) in
  let? recoverycodecount := envInt "RECOVERY_CODE_COUNT" 10 in
  let? recoverycodebytes := envInt "RECOVERY_CODE_BYTES" 16 in
  let? recoverycodekey := env "RECOVERY_CODE_KEY" "" in
  let? notifynewiplogin := envBool "LOGIN_NOTIFY_NEW_IP" true in
  let? bcryptcost := envInt "BCRYPT_COST" 0 in
  pure (mkAuthConfig maxloginattempts loginlockoutduration maxlockoutmultiplier requireemailverified totpmaxattempts totpattemptwindow recoverycodecount recoverycodebytes recoverycodekey notifynewiplogin bcryptcost).

Definition load_RateLimit : Loader (RateLimitConfig float64) :=
  let? rps := envFloat "RATE_LIMIT_RPS" default_rps in
  let? burst := envInt "RATE_LIMIT_BURST" 10 in
  let? loginperaccountmax := envInt "LOGIN_PER_ACCOUNT_MAX" 10 in
  let? loginwindow := envDuration "LOGIN_WINDOW" minute in
  let? registerperipmax := envInt "REGISTER_PER_IP_MAX" 5 in
  let? registerwindow := envDuration "REGISTER_WINDOW" hour in
  let? verifyresendperemailmax := envInt "VERIFY_RESEND_PER_EMAIL_MAX" 3 in
  let? verifyresendwindow := envDuration "VERIFY_RESEND_WINDOW" hour in
  let? verifyresendglobalmax := envInt "VERIFY_RESEND_GLOBAL_MAX" 100 in
  let? verifyresendglobalwindow := envDuration "VERIFY_RESEND_GLOBAL_WINDOW" hour in
  let? verifyresendperipmax := envInt "VERIFY_RESEND_PER_IP_MAX" 5 in
  let? verifyresendperipwindow := envDuration "VERIFY_RESEND_PER_IP_WINDOW" hour in
  let? logincaptchaafterfails := envInt "LOGIN_CAPTCHA_AFTER_FAILS" 5 in
  pure (mkRateLimitConfig _ rps burst loginperaccountmax loginwindow registerperipmax registerwindow verifyresendperemailmax verifyresendwindow verifyresendglobalmax verifyresendglobalwindow verifyresendperipmax verifyresendperipwindow logincaptchaafterfails).

Definition load_SMTP : Loader SMTPConfig :=
  let? host := env "SMTP_HOST" "" in
  let? port := env "SMTP_PORT" "587" in
  let? user := env "SMTP_USER" "" in
  let? password := env "SMTP_PASSWORD" "" in
  let? from := env "SMTP_FROM" "no-reply@finnapigo.local" in
  pure (mkSMTPConfig host port user password from).

Definition load_Redis : Loader RedisConfig :=
  let? url := env "REDIS_URL" "" in
  pure (mkRedisConfig url).

Definition load_Security : Loader SecurityConfig :=
  let? maxrequestbodybytes := envInt64 "MAX_REQUEST_BODY_BYTES" (2 ^ 20) in
  let? maxpasswordlength := envInt "MAX_PASSWORD_LENGTH" 72 in
  let? ratelimiterentryttl := envDuration "RATE_LIMITER_ENTRY_TTL" (5 * minute) in
  let? totpmaxconcurrent := envInt "TOTP_MAX_CONCURRENT" 64 in
  let? keyprovider := env "KEY_PROVIDER" "env" in
  let? keydir := env "KEY_DIR" "" in
  let? breachedpasswordcheck := envBool "BREACHED_PASSWORD_CHECK" true in
  let? breachedpasswordtimeout := envDuration "BREACHED_PASSWORD_TIMEOUT" (5 * second) in
  let? minpasswordscore := envInt "MIN_PASSWORD_SCORE" 3 in
  pure (mkSecurityConfig maxrequestbodybytes maxpasswordlength ratelimiterentryttl totpmaxconcurrent keyprovider keydir breachedpasswordcheck breachedpasswordtimeout minpasswordscore).

Definition load_Captcha : Loader CaptchaConfig :=
  let? provider := env "CAPTCHA_PROVIDER" "" in
  let? secret := env "CAPTCHA_SECRET" "" in
  let? sitekey := env "CAPTCHA_SITE_KEY" "" in
  pure (mkCaptchaConfig provider secret sitekey).

Definition load_GoogleOAuth : Loader GoogleOAuthConfig :=
  let? clientid := env "GOOGLE_CLIENT_ID" "" in
  let? clientsecret := env "GOOGLE_CLIENT_SECRET" "" in
  let? redirecturl := env "GOOGLE_REDIRECT_URL" "" in
  pure (mkGoogleOAuthConfig clientid clientsecret redirecturl).

Definition load_WebAuthn : Loader WebAuthnConfig :=
  let? rpdisplayname := env "WEBAUTHN_RP_DISPLAY_NAME" "FinnApiGo" in
  let? rpid := env "WEBAUTHN_RP_ID" "" in
  let? rporigins := envCSV "WEBAUTHN_RP_ORIGINS" in
  let? attestationpreference := env "WEBAUTHN_ATTESTATION" "none" in
  pure (mkWebAuthnConfig rpdisplayname rpid rporigins attestationpreference).

Definition load_Audit : Loader AuditConfig :=
  let? checkpointkeyid := env "AUDIT_CHECKPOINT_KEY_ID" "checkpoint-v1" in
  let? checkpointkeys := env "AUDIT_CHECKPOINT_KEYS" "" in
  let? keyid := env "AUDIT_KEY_ID" "" in
  let? signingkeys := env "AUDIT_SIGNING_KEYS" "" in
  let? checkpointkey := env "AUDIT_CHECKPOINT_KEY" "" in
  let? maxpending := envInt "AUDIT_MAX_PENDING" 10000 in
  let? buffersize := envInt "AUDIT_BUFFER_SIZE" 1024 in
  let? flushbatch := envInt "AUDIT_FLUSH_BATCH" 64 in
  let? retentiondays := envInt "AUDIT_RETENTION_DAYS" 0 in
  pure (mkAuditConfig checkpointkeyid checkpointkeys keyid signingkeys checkpointkey maxpending buffersize flushbatch retentiondays).

Definition load : Loader (Config float64) :=
  let? server := load_Server in
  let? db := load_DB in
  let? jwt := load_JWT in
  let? auth := load_Auth in
  let? ratelimit := load_RateLimit in
  let? smtp := load_SMTP in
  let? redis := load_Redis in
  let? security := load_Security in
  let? captcha := load_Captcha in
  let? google := load_GoogleOAuth in
  let? webauthn := load_WebAuthn in
  let? audit := load_Audit in
  pure (mkConfig _ server db jwt auth ratelimit smtp redis security captcha google webauthn audit).

(** The checks of the values, in their order. *)
Definition refuse (c : Config float64) : option LoadError :=
  let tls := db_TLS (DB c) in
  let kp := sec_KeyProvider (Security c) in
  let att := wa_AttestationPreference (WebAuthn c) in
  if bool_decide (jwt_Secret (JWT c) = "") then Some JWTSecretMissing else
  if negb (bool_decide (tls ∈ [""; "true"; "skip-verify"; "preferred"])) then Some (InvalidDBTLS tls) else
  if negb (bool_decide (kp ∈ ["env"; "file"])) then Some (InvalidKeyProvider kp) else
  if bool_decide (kp = "file") && bool_decide (sec_KeyDir (Security c) = "") then Some KeyDirRequired else
  if negb (bool_decide (att ∈ [""; "none"; "indirect"; "direct"])) then Some (InvalidAttestation att) else
  if negb (bool_decide (wa_RPID (WebAuthn c) = "")) && bool_decide (wa_RPOrigins (WebAuthn c) = [])
  then Some OriginsRequired else None.

Definition Load (e : Env) : LoadError + Config float64 :=
  let (c, errs) := load e in
  match refuse c with
  | Some err => inl err
  | None => match errs with [] => inr c | _ => inl (Unparsed errs) end
  end.

End Load.

(** [DBConfig.DSN] *)
Definition DSN (d : DBConfig) : string :=
  db_User d +:+ ":" +:+ db_Password d +:+ "@tcp(" +:+ db_Host d +:+ ":" +:+ db_Port d +:+ ")/" +:+ db_Name d +:+
  "?charset=utf8mb4&parseTime=True&loc=UTC" +:+ (if bool_decide (db_TLS d = "") then "" else "&tls=" +:+ db_TLS d).

End Config.
