(* ===== verification/World.v ===== *)
(** * The world a request runs in

    The state the services share (database, key-value store, outgoing mail),
    the operation bound to a request's context ([database/transaction.go]), the
    tenant it is bound to ([tenant/tenant.go]), and the state-and-error monad
    the handlers and services are written in.  Every call that leaves the
    process first asks the fault oracle whether it fails. *)

From S2P Require Import Prelude Store Models.

Open Scope Z_scope.

(** ** Code outside the repository: cryptography, randomness, the network *)

(** A JSON value of the arrays the audit trail signs. *)
Inductive JVal := JStr (s : string) | JNum (n : Z) | JBool (b : bool).

#[export] Instance JVal_eq_dec : EqDecision JVal.
Proof. solve_decision. Defined.

(** A JSON value, and a JSON object as its members in the order of the text
    (names may repeat).  [JFrac] is a number that is not an integer. *)
Inductive JV :=
  | JText (s : string) | JInt (n : Z) | JFrac (text : string) | JTrue | JFalse | JNull
  | JList (l : list JV) | JMembers (o : list (string * JV)).

Abbreviation Obj := (list (string * JV)).

(** The text of a token: three dot-separated parts, of which the first two
    decode to JSON objects ([None] when one does not); or any other text. *)
Inductive Token :=
  | Compact (header payload : option Obj) (signature : string)
  | Text (s : string).

Definition is_empty_token (t : Token) : bool :=
  match t with Text EmptyString => true | _ => false end.

Class Ext := {
  new_uuid : nat -> string;                   (* uuid.NewString, the n-th drawn *)
  is_uuid : string -> bool;                   (* uuid.Parse succeeds *)
  rand_hex : nat -> string;                   (* hex of random bytes, the n-th drawn *)
  sha256_hex : string -> string;
  bcrypt_gen : nat -> Z -> string -> string;  (* salt, cost, password *)
  bcrypt_cmp : string -> string -> bool;      (* hash, password *)
  hmac_hex : string -> list JVal -> string;   (* key, message *)
  zxcvbn_score : string -> list string -> Z;
  geo_resolve : string -> string;
  captcha_ok : string -> bool;
  hibp_listed : string -> bool
}.

(** The documented behaviour the theorems that need it assume. *)
Class ExtLaws (E : Ext) : Prop := {
  new_uuid_inj : forall m n, new_uuid m = new_uuid n -> m = n;
  new_uuid_valid : forall n, is_uuid (new_uuid n) = true;
  new_uuid_nonempty : forall n, new_uuid n <> "";
  rand_hex_inj : forall m n, rand_hex m = rand_hex n -> m = n;
  sha256_inj : forall a b, sha256_hex a = sha256_hex b -> a = b;
  bcrypt_correct : forall s c p q, bcrypt_cmp (bcrypt_gen s c p) q = true <-> p = q;
  bcrypt_nonempty : forall s c p, bcrypt_gen s c p <> "";
  hmac_collision_free : forall k k' m m', hmac_hex k m = hmac_hex k' m' -> m = m'
}.

(** A concrete choice, to evaluate the model on examples.  Its message
    encoding is self-delimiting: a tag, a length in unary, the text. *)
Fixpoint unary (n : nat) (rest : string) : string :=
  match n with O => ":" +:+ rest | S n => "I" +:+ unary n rest end.

Definition tagged (tag : Ascii.ascii) (s rest : string) : string :=
  String tag (unary (String.length s) (s +:+ rest)).

Definition jval_text (v : JVal) (rest : string) : string :=
  match v with
  | JStr s => tagged "s" s rest
  | JNum n => tagged "n" (fmt_d n) rest
  | JBool b => tagged "b" (if b then "t" else "f") rest
  end.

Fixpoint jvals_text (l : list JVal) (rest : string) : string :=
  match l with [] => "|" +:+ rest | v :: l => jval_text v (jvals_text l rest) end.

Definition toy_ext : Ext := {|
  new_uuid n := "uuid-" +:+ fmt_d (Z.of_nat n);
  is_uuid := has_prefix "uuid-";
  rand_hex n := fmt_d (Z.of_nat n);
  sha256_hex s := s;
  bcrypt_gen _ _ p := "$2a$" +:+ p;
  bcrypt_cmp h p := bool_decide (h = "$2a$" +:+ p);
  hmac_hex k m := jvals_text m k;
  zxcvbn_score _ _ := 4;
  geo_resolve _ := "";
  captcha_ok t := bool_decide (t = "human");
  hibp_listed p := bool_decide (p = "password1")
|}.

Lemma fmt_d_inj a b : fmt_d a = fmt_d b -> a = b.
Proof.
  intros H. pose proof (parse_sign_fmt_d a) as Ha. rewrite H, parse_sign_fmt_d in Ha.
  injection Ha as Ha. apply (f_equal Z.of_int) in Ha. by rewrite !DecimalZ.of_to in Ha.
Qed.

Lemma unary_inj m n s t : unary m s = unary n t -> m = n /\ s = t.
Proof.
  revert n. induction m as [|m IH]; intros [|n] H; simpl in H; try done; injection H as H; [done|].
  destruct (IH n H). by subst.
Qed.

Lemma append_length_inj (s s' t t' : string) :
  String.length s = String.length s' -> s +:+ t = s' +:+ t' -> s = s' /\ t = t'.
Proof.
  revert s'. induction s as [|c s IH]; intros [|c' s'] Hl H; try done. simpl in *.
  injection Hl as Hl. injection H as -> H. by destruct (IH s' Hl H) as [-> ->].
Qed.

Lemma tagged_inj a b s s' t t' : tagged a s t = tagged b s' t' -> a = b /\ s = s' /\ t = t'.
Proof.
  intros [= -> H]. apply unary_inj in H as [Hl H]. by destruct (append_length_inj _ _ _ _ Hl H).
Qed.

Lemma jval_text_inj v v' t t' : jval_text v t = jval_text v' t' -> v = v' /\ t = t'.
Proof.
  destruct v as [s|n|b], v' as [s'|n'|b']; simpl; intros (Hc & Hs & ->)%tagged_inj; try done; subst; try done.
  - by apply fmt_d_inj in Hs as ->.
  - by destruct b, b'.
Qed.

Lemma jvals_text_inj l l' t t' : jvals_text l t = jvals_text l' t' -> l = l'.
Proof.
  revert l'. induction l as [|v l IH]; intros [|v' l'] H; try done.
  - by destruct v'.
  - by destruct v.
  - simpl in H. apply jval_text_inj in H as [-> H]. f_equal. by apply IH.
Qed.

Lemma toy_laws : ExtLaws toy_ext.
Proof.
  split; simpl; try done.
  - intros m n [= H]. apply fmt_d_inj in H. lia.
  - intros m n H. apply fmt_d_inj in H. lia.
  - intros _ _ p q. rewrite bool_decide_eq_true. split; [intros H|by intros ->].
    injection H as H. exact H.
  - intros k k' m m'. apply jvals_text_inj.
Qed.

(** ** The request's context *)

(** [Ctx]: the values bound to a [context.Context]: tenant, authenticated
    actor, system flag, correlation id, asynchronous delivery. *)
Record Ctx := mkCtx {
  c_tenant : string; c_actor : option Z; c_system : bool; c_corr : string; c_async : bool
}.

Definition Background : Ctx := mkCtx "" None false "" false.

Definition DefaultTenantID : string := "default".

(** [tenant.FromContext] *)
Definition FromContext (ctx : Ctx) : string :=
  if decide (c_tenant ctx = "") then DefaultTenantID else c_tenant ctx.

Definition WithTenant (tid : string) (ctx : Ctx) : Ctx :=
  mkCtx (if decide (tid = "") then DefaultTenantID else tid)
        (c_actor ctx) (c_system ctx) (c_corr ctx) (c_async ctx).

Definition PasswordVersionKey (ctx : Ctx) (userID : Z) : string :=
  "pwdver:" +:+ FromContext ctx +:+ ":" +:+ fmt_d userID.

(** [audit.WithActor], [WithSystem], [WithCorrelation]; [database.WithAsyncDelivery] *)
Definition WithActor (id : Z) (ctx : Ctx) : Ctx :=
  mkCtx (c_tenant ctx) (Some id) (c_system ctx) (c_corr ctx) (c_async ctx).

Definition WithSystem (ctx : Ctx) : Ctx :=
  mkCtx (c_tenant ctx) (c_actor ctx) true (c_corr ctx) (c_async ctx).

Definition WithCorrelation (id : string) (ctx : Ctx) : Ctx :=
  mkCtx (c_tenant ctx) (c_actor ctx) (c_system ctx) id (c_async ctx).

Definition WithAsyncDelivery (ctx : Ctx) : Ctx :=
  mkCtx (c_tenant ctx) (c_actor ctx) (c_system ctx) (c_corr ctx) true.

(** ** The operation latch ([database.Operation]) *)

Record Op := mkOp { failure : option Err; admissions : Z; successful : bool }.

Definition BindOperation : Op := mkOp None 0 false.

Definition op_admitted (success : bool) (o : Op) : Op :=
  mkOp (failure o) (admissions o + 1) (successful o || success).

Definition DenialMayCommit (o : Op) : bool := (0 <? admissions o) && negb (successful o).

Definition op_fail (e : Err) (o : Op) : Op :=
  match failure o with None => mkOp (Some e) (admissions o) (successful o) | Some _ => o end.

(** ** The world *)

(** An outgoing webhook request: where it was told to go, its headers, its body. *)
Record HookRequest := mkHook {
  h_url : string; h_signature : string; h_event : string; h_delivery : string; h_body : string
}.

(** What leaves the process: mail through the notifier, and webhook requests with
    the address they are dialled to ([None] where no address was screened). *)
Inductive Mail :=
  | Posted (address : option (list Z)) (r : HookRequest)
  | PasswordReset (to : string) (token : Token)
  | EmailVerification (to : string) (token : Token)
  | NewLoginAlert (to ip device : string)
  | DuplicateRegisterAlert (to : string)
  | SecurityAlert (to event detail : string).

Section World.
Context {ST : Store}.

Record World := mkWorld {
  w_now : Z; w_faults : list bool; w_uuid : nat; w_rand : nat;
  w_db : DB; w_kv : kv; w_op : option Op; w_mail : list Mail
}.

Definition set_db (d : DB) (w : World) : World :=
  mkWorld (w_now w) (w_faults w) (w_uuid w) (w_rand w) d (w_kv w) (w_op w) (w_mail w).

Definition set_kv (k : kv) (w : World) : World :=
  mkWorld (w_now w) (w_faults w) (w_uuid w) (w_rand w) (w_db w) k (w_op w) (w_mail w).

Definition set_op (o : option Op) (w : World) : World :=
  mkWorld (w_now w) (w_faults w) (w_uuid w) (w_rand w) (w_db w) (w_kv w) o (w_mail w).

(** *** Results and the monad *)

Inductive Res (A : Type) :=
  | Ok (a : A)
  | Error (e : Err).

Definition M (A : Type) : Type := World -> Res A * World.

End World.

Arguments Ok {A} a.
Arguments Error {A} e.

Section Monad.
Context {ST : Store}.

Definition ret {A} (a : A) : M A := fun w => (Ok a, w).

Definition fail {A} (e : Err) : M A := fun w => (Error e, w).

Definition bind {A B} (m : M A) (f : A -> M B) : M B := fun w =>
  match m w with
  | (Ok a, w1) => f a w1
  | (Error e, w1) => (Error e, w1)
  end.

(** The result of a call whose error the caller looks at. *)
Definition try_ {A} (m : M A) : M (Res A) := fun w =>
  let (r, w1) := m w in (Ok r, w1).

Definition now : M Z := fun w => (Ok (w_now w), w).

Definition current_op : M (option Op) := fun w => (Ok (w_op w), w).

Definition update_op (f : Op -> Op) : M unit := fun w =>
  (Ok tt, match w_op w with Some o => set_op (Some (f o)) w | None => w end).

(** Whether the next external call fails; the empty oracle has no faults. *)
Definition fault : M bool := fun w =>
  match w_faults w with
  | [] => (Ok false, w)
  | b :: bs => (Ok b, mkWorld (w_now w) bs (w_uuid w) (w_rand w) (w_db w) (w_kv w) (w_op w) (w_mail w))
  end.

Definition NewUUID `{Ext} : M string := fun w =>
  (Ok (new_uuid (w_uuid w)),
   mkWorld (w_now w) (w_faults w) (S (w_uuid w)) (w_rand w) (w_db w) (w_kv w) (w_op w) (w_mail w)).

(** The count of random draws so far: a fresh seed. *)
Definition draw : M nat := fun w =>
  (Ok (w_rand w),
   mkWorld (w_now w) (w_faults w) (w_uuid w) (S (w_rand w)) (w_db w) (w_kv w) (w_op w) (w_mail w)).

(** Mail handed to the notifier; a failed delivery is [EInfra]. *)
Definition send (m : Mail) : M unit :=
  bind fault (fun b w =>
    if b : bool then (Error EInfra, w)
    else (Ok tt, mkWorld (w_now w) (w_faults w) (w_uuid w) (w_rand w) (w_db w) (w_kv w) (w_op w)
                         (w_mail w ++ [m]))).

End Monad.

Declare Scope monad_scope.
Delimit Scope monad_scope with monad.
Notation "'let!' x ':=' m 'in' k" := (bind m (fun x => k))
  (at level 10, x pattern, m at level 100, k at level 200) : monad_scope.
Notation "m ';;;' k" := (bind m (fun _ => k)) (at level 199, right associativity) : monad_scope.
Open Scope monad_scope.
