(* ===== verification/Mail.v ===== *)
(** * Mail ([services/smtp_notifier.go], [services/notifier.go])

    The two notifiers: the SMTP dialogue as the commands sent, each accepted or
    refused by the relay, with the message as [net/smtp] puts it on the wire; and
    the console notifier.  Deadlines are not modelled; the text of a token is a
    parameter. *)

From S2P Require Import Prelude Store Codec NetIP Models World.

Open Scope Z_scope.

Definition cr : Ascii.ascii := Codec.chr 13.
Definition lf : Ascii.ascii := Codec.chr 10.
Definition crlf : string := String cr (String lf "").
Definition newline : string := String lf "".

(** ** Values in a message *)

Module MailText.

Definition is_break (a : Ascii.ascii) : bool := Ascii.eqb a cr || Ascii.eqb a lf.

Definition count_at (s : string) : nat := length (split_on "@" s) - 1.

(** [validEnvelopeAddr] *)
Definition validEnvelopeAddr (addr : string) : bool :=
  negb (bool_decide (addr = "")) && (str_len addr <=? 254) && (count_at addr =? 1)%nat &&
  str_forall (fun a => negb ((byte_of a <=? 32)%N || (byte_of a =? 127)%N)) addr.

(** [validHeaderValue] *)
Definition validHeaderValue (value : string) : bool := str_forall (fun a => negb (is_break a)) value.

Fixpoint replace_break (s : string) : string :=
  match s with
  | EmptyString => ""
  | String a s => String (if is_break a then " "%char else a) (replace_break s)
  end.

(** The runs of characters that are not ASCII white space. *)
Fixpoint words (s : string) : list string :=
  match s with
  | EmptyString => []
  | String a s' =>
      if is_space a then words s' else
      match s' with
      | EmptyString => [String a ""]
      | String b _ =>
          if is_space b then String a "" :: words s' else
          match words s' with
          | w :: ws => String a w :: ws
          | [] => [String a ""]
          end
      end
  end.

(** [strings.Fields] *)
Definition Fields (s : string) : list string := words (blank_spaces s).

Definition safeMailDisplayValue (value : string) : string := String.concat " " (Fields (replace_break value)).

Definition safeMailIP (ip : string) : string :=
  match Net.ParseIP (trim_space ip) with None => "Unknown" | Some p => Net.ip_text p end.

End MailText.

(** ** The SMTP notifier *)

Record SMTPNotifier := mkSMTP {
  host : string; port : string; user : string; password : string; from : string; implicitTLS : bool
}.

(** What is sent to the relay; a command is answered before the next. *)
Inductive Command :=
  | Dial (address : string)
  | Handshake (server : string)
  | Greeting
  | AskStartTLS
  | StartTLS (server : string)
  | AuthPlain (user password : string)
  | MailFrom (address : string)
  | RcptTo (address : string)
  | DataStart
  | Wire (bytes : string)
  | Quit.

#[global] Instance Command_eq_dec : EqDecision Command.
Proof. solve_decision. Defined.

Inductive MailError := NotConfigured | BadRecipient | BadSender | BadSubject | Refused (c : Command).

Module Smtp.
Import MailText.

Definition NewSMTPNotifier (host port user password from : string) : SMTPNotifier :=
  mkSMTP host port user password from (bool_decide (port = "465")).

Definition Enabled (n : SMTPNotifier) : bool := negb (bool_decide (host n = "")) && negb (bool_decide (from n = "")).

(** [net.JoinHostPort] *)
Definition JoinHostPort (h p : string) : string :=
  if str_exists (fun a => Ascii.eqb a ":") h then "[" +:+ h +:+ "]:" +:+ p else h +:+ ":" +:+ p.

(** [textproto.DotWriter]: lines end in CRLF, a leading dot is doubled; closed by
    a line of one dot. *)
Inductive Dot := Begin | BeginLine | InData | AfterCR.

Fixpoint dot_writer (st : Dot) (s : string) : string :=
  match s with
  | EmptyString =>
      match st with
      | BeginLine => ""
      | AfterCR => newline
      | Begin | InData => crlf
      end +:+ "." +:+ crlf
  | String c s =>
      match st with
      | AfterCR => String c (dot_writer (if Ascii.eqb c lf then BeginLine else InData) s)
      | _ =>
          let dot := match st with InData => false | _ => Ascii.eqb c "."%char end in
          let rest :=
            if Ascii.eqb c cr then String c (dot_writer AfterCR s)
            else if Ascii.eqb c lf then String cr (String c (dot_writer BeginLine s))
            else String c (dot_writer InData s) in
          if dot then String c rest else rest
      end
  end.

Definition message (n : SMTPNotifier) (to subject body : string) : string :=
  String.concat crlf
    [ "From: " +:+ from n; "To: " +:+ to; "Subject: " +:+ subject; "MIME-Version: 1.0";
      "Content-Type: text/plain; charset=UTF-8"; ""; body ].

(** The commands of a delivery, in order. *)
Definition dialogue (n : SMTPNotifier) (to subject body : string) : list Command :=
  [Dial (JoinHostPort (host n) (port n))] ++
  (if implicitTLS n then [Handshake (host n)] else []) ++
  [Greeting] ++
  (if implicitTLS n then [] else [AskStartTLS; StartTLS (host n)]) ++
  (if bool_decide (user n = "") then [] else [AuthPlain (user n) (password n)]) ++
  [MailFrom (from n); RcptTo to; DataStart; Wire (dot_writer Begin (message n to subject body)); Quit].

(** The dialogue goes on until the relay, or the network, refuses a command. *)
Fixpoint play (relay : list bool) (cs : list Command) : list (Command * bool) * option MailError :=
  match cs with
  | [] => ([], None)
  | c :: cs =>
      if hd true relay then let (log, err) := play (tl relay) cs in ((c, true) :: log, err)
      else ([(c, false)], Some (Refused c))
  end.

(** [SMTPNotifier.send] *)
Definition send (n : SMTPNotifier) (relay : list bool) (to subject body : string)
    : list (Command * bool) * option MailError :=
  if negb (Enabled n) then ([], Some NotConfigured) else
  if negb (validEnvelopeAddr to) then ([], Some BadRecipient) else
  if negb (validEnvelopeAddr (from n)) then ([], Some BadSender) else
  if negb (validHeaderValue subject) then ([], Some BadSubject) else
  play relay (dialogue n to subject body).

Section Notices.
Variable token_text : Token -> string.

Definition nn : string := newline +:+ newline.

(** Recipient, subject and body of a notice ([SendPasswordReset] and the others). *)
Definition notice (t : Z) (m : Mail) : option (string * string * string) :=
  let time := Rfc3339.format_utc t in
  match m with
  | PasswordReset to token => Some (to, "Password reset",
      "Use this token to reset your password: " +:+ token_text token +:+ nn +:+
      "If you did not request a reset, ignore this email.")
  | EmailVerification to token => Some (to, "Verify your email",
      "Use this token to verify your email: " +:+ token_text token +:+ nn +:+
      "If you did not create an account, ignore this email.")
  | NewLoginAlert to ip device => Some (to, "New sign-in to your account",
      "A new sign-in to your account was detected." +:+ nn +:+
      "IP address: " +:+ safeMailIP ip +:+ newline +:+
      "Device:     " +:+ safeMailDisplayValue device +:+ newline +:+
      "Time (UTC): " +:+ time +:+ nn +:+
      "If this was you, no action is needed. If you do not recognize this " +:+
      "sign-in, change your password immediately and revoke unknown sessions.")
  | DuplicateRegisterAlert to => Some (to, "Security alert: Attempted registration with your account",
      "An attempt was made to register a new account using your email address or username." +:+ nn +:+
      "Time (UTC): " +:+ time +:+ nn +:+
      "If this was you, you can log in or reset your password. If you did not attempt this, no action is needed; your account remains secure.")
  | SecurityAlert to event detail => Some (to, event,
      "A security event occurred on your account." +:+ nn +:+
      "Event:  " +:+ safeMailDisplayValue event +:+ newline +:+
      "Detail: " +:+ safeMailDisplayValue detail +:+ newline +:+
      "Time:   " +:+ time +:+ nn +:+
      "If you did not authorize this action, change your password immediately and revoke active sessions.")
  | Posted _ _ => None
  end.

Definition deliver (n : SMTPNotifier) (relay : list bool) (t : Z) (m : Mail)
    : list (Command * bool) * option MailError :=
  match notice t m with Some (to, subject, body) => send n relay to subject body | None => ([], None) end.

End Notices.
End Smtp.

(** ** The console notifier *)

Module Console.

Record ConsoleNotifier := mkConsole { From : string; refuse : bool }.

(** [strings.EqualFold] on ASCII text. *)
Definition NewConsoleNotifier (GIN_MODE ALLOW_TOKEN_CONSOLE from : string) : ConsoleNotifier :=
  let release := bool_decide (to_lower GIN_MODE = "release") in
  let allowed := bool_decide (to_lower ALLOW_TOKEN_CONSOLE = "true") in
  mkConsole from (release && negb allowed).

Section Notices.
Variable token_text : Token -> string.

(** The attributes of the log line, or none where live tokens are suppressed. *)
Definition line (n : ConsoleNotifier) (m : Mail) : option (list (string * string)) :=
  let mail to subject rest := [("to", to); ("from", From n); ("subject", subject)] ++ rest in
  match m with
  | PasswordReset to token =>
      if refuse n then None else Some (mail to "Password reset" [("reset_token", token_text token)])
  | EmailVerification to token =>
      if refuse n then None else Some (mail to "Verify your email" [("verify_token", token_text token)])
  | NewLoginAlert to ip device => Some (mail to "New sign-in to your account" [("ip", ip); ("device", device)])
  | DuplicateRegisterAlert to => Some (mail to "Security alert: duplicate registration attempt" [])
  | SecurityAlert to event detail => Some (mail to event [("detail", detail)])
  | Posted _ _ => None
  end.

End Notices.
End Console.
