(* ===== verification/Json.v ===== *)
(** * JSON texts ([encoding/json])

    What the services use of [json.Marshal] and [json.Unmarshal]: the text of a
    value, the value of a text, and the string fields of a decoded object.  Bytes
    from 128 up are passed as they are, so texts are valid UTF-8 when the strings
    are. *)

From Stdlib Require Import DecimalString.
From S2P Require Import Prelude Store Models World.

Open Scope Z_scope.

Module Json.
Import Ascii.

Definition chr (n : N) : ascii := ascii_of_N n.
Definition dq : ascii := chr 34.
Definition bslash : ascii := chr 92.

(** ** Writing *)

Definition hex_digit (n : N) : ascii := if (n <? 10)%N then chr (48 + n) else chr (87 + n).

(** The two-character escapes. *)
Definition short_escape (n : N) : option ascii :=
  match n with
  | 34%N => Some dq
  | 92%N => Some bslash
  | 8%N => Some "b"%char
  | 12%N => Some "f"%char
  | 10%N => Some "n"%char
  | 13%N => Some "r"%char
  | 9%N => Some "t"%char
  | _ => None
  end.

(** Control characters and the three HTML characters are written as [\u00xx]. *)
Definition hex_escaped (n : N) : bool := (n <? 32)%N || (n =? 60)%N || (n =? 62)%N || (n =? 38)%N.

Definition escape_char (a : ascii) (rest : string) : string :=
  let n := byte_of a in
  match short_escape n with
  | Some e => String bslash (String e rest)
  | None =>
      if hex_escaped n then
        String bslash ("u00" +:+ String (hex_digit (n / 16)) (String (hex_digit (n mod 16)) rest))
      else String a rest
  end.

Fixpoint escape (s rest : string) : string :=
  match s with
  | EmptyString => rest
  | String a s => escape_char a (escape s rest)
  end.

Definition quoted (s rest : string) : string := String dq (escape s (String dq rest)).

Fixpoint put (v : JV) (rest : string) : string :=
  match v with
  | JText s => quoted s rest
  | JInt n => fmt_d n +:+ rest
  | JFrac t => t +:+ rest
  | JTrue => "true" +:+ rest
  | JFalse => "false" +:+ rest
  | JNull => "null" +:+ rest
  | JList [] => "[]" +:+ rest
  | JList (v :: l) =>
      "[" +:+ put v ((fix elements l := match l with
                                        | [] => "]" +:+ rest
                                        | v :: l => "," +:+ put v (elements l)
                                        end) l)
  | JMembers [] => "{}" +:+ rest
  | JMembers ((k, v) :: o) =>
      "{" +:+ quoted k (":" +:+ put v ((fix members o := match o with
                                        | [] => "}" +:+ rest
                                        | (k, v) :: o => "," +:+ quoted k (":" +:+ put v (members o))
                                        end) o))
  end.

(** [json.Marshal] *)
Definition text (v : JV) : string := put v "".

(** No number is a fraction or carries an exponent. *)
Fixpoint whole (v : JV) : bool :=
  match v with
  | JFrac _ => false
  | JList l => forallb whole l
  | JMembers o => forallb (fun m => whole (snd m)) o
  | _ => true
  end.

(** ** Reading *)

Definition is_ws (a : ascii) : bool := let n := byte_of a in ((n =? 32) || (n =? 9) || (n =? 10) || (n =? 13))%N.

Fixpoint skip (s : string) : string :=
  match s with
  | String a s' => if is_ws a then skip s' else s
  | EmptyString => s
  end.

Definition hex_value (a : ascii) : option N :=
  let n := byte_of a in
  if ((48 <=? n) && (n <=? 57))%N then Some (n - 48)%N
  else if ((97 <=? n) && (n <=? 102))%N then Some (n - 87)%N
  else if ((65 <=? n) && (n <=? 70))%N then Some (n - 55)%N
  else None.

Definition hex4 (a b c d : ascii) : option N :=
  match hex_value a, hex_value b, hex_value c, hex_value d with
  | Some a, Some b, Some c, Some d => Some (((a * 16 + b) * 16 + c) * 16 + d)%N
  | _, _, _, _ => None
  end.

(** The UTF-8 encoding of a code point. *)
Definition utf8 (n : N) (rest : string) : string :=
  (if n <? 128 then String (chr n) rest
   else if n <? 2048 then String (chr (192 + n / 64)) (String (chr (128 + n mod 64)) rest)
   else if n <? 65536 then
     String (chr (224 + n / 4096)) (String (chr (128 + n / 64 mod 64)) (String (chr (128 + n mod 64)) rest))
   else String (chr (240 + n / 262144)) (String (chr (128 + n / 4096 mod 64))
          (String (chr (128 + n / 64 mod 64)) (String (chr (128 + n mod 64)) rest))))%N.

Definition unescape (a : ascii) : option ascii :=
  match byte_of a with
  | 34%N => Some dq
  | 92%N => Some bslash
  | 47%N => Some "/"%char
  | 98%N => Some (chr 8)
  | 102%N => Some (chr 12)
  | 110%N => Some (chr 10)
  | 114%N => Some (chr 13)
  | 116%N => Some (chr 9)
  | _ => None
  end.

Definition high_surrogate (n : N) : bool := ((55296 <=? n) && (n <? 56320))%N.
Definition low_surrogate (n : N) : bool := ((56320 <=? n) && (n <? 57344))%N.

(** What follows an opening quote: the string and the rest after the closing one.
    A surrogate without its pair stands for U+FFFD. *)
Fixpoint read_string (s : string) : option (string * string) :=
  match s with
  | EmptyString => None
  | String a s1 =>
      let n := byte_of a in
      if (n =? 34)%N then Some ("", s1) else
      if (n <? 32)%N then None else
      if negb (n =? 92)%N then
        match read_string s1 with Some (t, rest) => Some (String a t, rest) | None => None end
      else
      match s1 with
      | String "u"%char (String a (String b (String c (String d s2)))) =>
          match hex4 a b c d with
          | None => None
          | Some n =>
              if high_surrogate n then
                match s2 with
                | String x (String "u"%char (String a (String b (String c (String d s3))))) =>
                    match (if (byte_of x =? 92)%N then hex4 a b c d else None) with
                    | Some m =>
                        if low_surrogate m then
                          match read_string s3 with
                          | Some (t, rest) => Some (utf8 (65536 + (n - 55296) * 1024 + (m - 56320)) t, rest)
                          | None => None
                          end
                        else match read_string s2 with Some (t, rest) => Some (utf8 65533 t, rest) | None => None end
                    | None => match read_string s2 with Some (t, rest) => Some (utf8 65533 t, rest) | None => None end
                    end
                | _ => match read_string s2 with Some (t, rest) => Some (utf8 65533 t, rest) | None => None end
                end
              else
                match read_string s2 with
                | Some (t, rest) => Some (utf8 (if low_surrogate n then 65533 else n) t, rest)
                | None => None
                end
          end
      | String e s2 =>
          match unescape e, read_string s2 with
          | Some x, Some (t, rest) => Some (String x t, rest)
          | _, _ => None
          end
      | EmptyString => None
      end
  end.

(** The longest prefix of digits. *)
Fixpoint digits (s : string) : string * string :=
  match s with
  | String a s' =>
      let n := byte_of a in
      if ((48 <=? n) && (n <=? 57))%N then let (d, rest) := digits s' in (String a d, rest) else ("", s)
  | EmptyString => ("", s)
  end.

(** A number: the sign, an integer without leading zeros, a fraction, an exponent. *)
Definition read_fraction (s : string) : option (string * string) :=
  match s with
  | String "."%char s' =>
      let (d, rest) := digits s' in if bool_decide (d = "") then None else Some ("." +:+ d, rest)
  | _ => Some ("", s)
  end.

Definition read_exponent (s : string) : option (string * string) :=
  match s with
  | String e s' =>
      if ((byte_of e =? 101) || (byte_of e =? 69))%N then
        let (sign, s') := match s' with
                          | String "+"%char s2 => ("+", s2)
                          | String "-"%char s2 => ("-", s2)
                          | _ => ("", s')
                          end in
        let (d, rest) := digits s' in
        if bool_decide (d = "") then None else Some (String e (sign +:+ d), rest)
      else Some ("", s)
  | EmptyString => Some ("", s)
  end.

Definition read_unsigned (sign s1 : string) : option (JV * string) :=
  let (d, s2) := digits s1 in
  if bool_decide (d = "") || (has_prefix "0" d && negb (bool_decide (d = "0"))) then None else
  match read_fraction s2 with
  | None => None
  | Some (f, s3) =>
      match read_exponent s3 with
      | None => None
      | Some (e, rest) =>
          if bool_decide (f = "") && bool_decide (e = "") then
            match NilZero.uint_of_string d with
            | Some u => Some (JInt (if bool_decide (sign = "") then Z.of_uint u else - Z.of_uint u), rest)
            | None => None
            end
          else Some (JFrac (sign +:+ d +:+ f +:+ e), rest)
      end
  end.

Definition read_number (s : string) : option (JV * string) :=
  match s with
  | String "-"%char s1 => read_unsigned "-" s1
  | _ => read_unsigned "" s
  end.

(** The rest of a text that starts with [w]. *)
Fixpoint strip (w s : string) : option string :=
  match w, s with
  | EmptyString, _ => Some s
  | String a w, String b s => if decide (a = b) then strip w s else None
  | String _ _, EmptyString => None
  end.

Definition word (w : string) (v : JV) (s : string) : option (JV * string) :=
  match strip w s with Some rest => Some (v, rest) | None => None end.

(** Fuel bounds the nesting and the number of elements; [parse] gives more than a
    text can need. *)
Fixpoint value (fuel : nat) (s : string) : option (JV * string) :=
  match fuel with
  | O => None
  | S fuel =>
      match skip s with
      | EmptyString => None
      | String a s1 =>
          let n := byte_of a in
          if (n =? 34)%N then
            match read_string s1 with Some (t, rest) => Some (JText t, rest) | None => None end
          else if (n =? 91)%N then
            match skip s1 with
            | String "]"%char rest => Some (JList [], rest)
            | _ => match elements fuel s1 with Some (l, rest) => Some (JList l, rest) | None => None end
            end
          else if (n =? 123)%N then
            match skip s1 with
            | String "}"%char rest => Some (JMembers [], rest)
            | _ => match members fuel s1 with Some (o, rest) => Some (JMembers o, rest) | None => None end
            end
          else if (n =? 116)%N then word "true" JTrue (String a s1)
          else if (n =? 102)%N then word "false" JFalse (String a s1)
          else if (n =? 110)%N then word "null" JNull (String a s1)
          else read_number (String a s1)
      end
  end
with elements (fuel : nat) (s : string) : option (list JV * string) :=
  match fuel with
  | O => None
  | S fuel =>
      match value fuel s with
      | None => None
      | Some (v, s1) =>
          match skip s1 with
          | String ","%char s2 =>
              match elements fuel s2 with Some (l, rest) => Some (v :: l, rest) | None => None end
          | String "]"%char rest => Some ([v], rest)
          | _ => None
          end
      end
  end
with members (fuel : nat) (s : string) : option (Obj * string) :=
  match fuel with
  | O => None
  | S fuel =>
      match skip s with
      | String q s1 =>
          if negb (byte_of q =? 34)%N then None else
          match read_string s1 with
          | None => None
          | Some (k, s2) =>
              match skip s2 with
              | String ":"%char s3 =>
                  match value fuel s3 with
                  | None => None
                  | Some (v, s4) =>
                      match skip s4 with
                      | String ","%char s5 =>
                          match members fuel s5 with Some (o, rest) => Some ((k, v) :: o, rest) | None => None end
                      | String "}"%char rest => Some ([(k, v)], rest)
                      | _ => None
                      end
                  end
              | _ => None
              end
          end
      | EmptyString => None
      end
  end.

(** The value of a text that holds one value and nothing else. *)
Definition parse (s : string) : option JV :=
  match value (2 * String.length s + 2) s with
  | Some (v, rest) => if bool_decide (skip rest = "") then Some v else None
  | None => None
  end.

(** ** Decoding into a struct *)

(** The members a struct is decoded from; [null] has none. *)
Definition object (s : string) : option Obj :=
  match parse s with
  | Some (JMembers o) => Some o
  | Some JNull => Some []
  | _ => None
  end.

(** The value decoded into a field: the last member of that name. *)
Definition field (name : string) (o : Obj) : option JV :=
  fold_left (fun acc m => if bool_decide (to_lower (fst m) = to_lower name) then Some (snd m) else acc) o None.

(** A string field: the members of that name, in order, each overwriting; [null]
    leaves the field; anything else is a type error. *)
Fixpoint string_field (name : string) (o : Obj) (acc : string) : string * bool :=
  match o with
  | [] => (acc, true)
  | (k, v) :: o =>
      if bool_decide (to_lower k = to_lower name) then
        match v with
        | JText s => string_field name o s
        | JNull => string_field name o acc
        | _ => let (s, _) := string_field name o acc in (s, false)
        end
      else string_field name o acc
  end.

End Json.
