(* ===== verification/JsonSpec.v ===== *)
(** * Reading back what was written

    The value of the text of a value is that value: [parse_text], for values whose
    numbers are integers.  Strings come back through every escape, integers through
    their decimal text, arrays and objects by induction on the fuel, and a text is
    longer than its value is deep, so that the fuel [parse] gives is enough. *)

From Stdlib Require Import DecimalString DecimalFacts DecimalN DecimalZ.
From S2P Require Import Prelude Store Models World Json.

Import Json Ascii.

(** ** Strings *)

Lemma unescape_short a e : short_escape (byte_of a) = Some e -> unescape e = Some a /\ byte_of e <> 117%N.
Proof. destruct a as [[][][][][][][][]]; cbn; intros [= <-]; by split. Qed.

Lemma hex_escape a : hex_escaped (byte_of a) = true ->
  hex4 "0" "0" (hex_digit (byte_of a / 16)) (hex_digit (byte_of a mod 16)) = Some (byte_of a) /\ (byte_of a < 128)%N.
Proof. destruct a as [[][][][][][][][]]; vm_compute; intros; try discriminate; done. Qed.
Lemma read_raw a X : (byte_of a <> 34)%N -> (32 <= byte_of a)%N -> (byte_of a <> 92)%N ->
  read_string (String a X) = match read_string X with Some (t, r) => Some (String a t, r) | None => None end.
Proof.
  intros H1 H2 H3. cbn [read_string]. cbv zeta. rewrite (proj2 (N.eqb_neq _ _) H1), (proj2 (N.ltb_ge _ _) H2), (proj2 (N.eqb_neq _ _) H3).
  done.
Qed.
Lemma read_short e x X : unescape e = Some x -> byte_of e <> 117%N ->
  read_string (String bslash (String e X)) = match read_string X with Some (t, r) => Some (String x t, r) | None => None end.
Proof.
  intros He Hu. cbn [read_string]. change (byte_of bslash) with 92%N. cbv zeta. cbn [N.eqb N.ltb N.compare negb Pos.eqb Pos.compare Pos.compare_cont].
  assert (Ascii.eqb e "u" = false) as Hc by (apply Ascii.eqb_neq; intros ->; by apply Hu).
  destruct e as [[][][][][][][][]]; try discriminate; by rewrite He.
Qed.
Lemma read_hex a b c d n X : hex4 a b c d = Some n -> (n < 128)%N ->
  read_string (String bslash (String "u" (String a (String b (String c (String d X)))))) =
    match read_string X with Some (t, r) => Some (String (chr n) t, r) | None => None end.
Proof.
  intros He Hn. cbn [read_string]. change (byte_of bslash) with 92%N. cbv zeta. cbn [N.eqb N.ltb N.compare negb Pos.eqb Pos.compare Pos.compare_cont].
  rewrite He. unfold high_surrogate, low_surrogate, utf8.
  destruct (N.leb_spec 55296 n); [lia|]. destruct (N.leb_spec 56320 n); [lia|]. cbn [andb].
  rewrite (proj2 (N.ltb_lt n 128)) by done. done.
Qed.
Lemma read_escape_char a X :
  read_string (escape_char a X) = match read_string X with Some (t, r) => Some (String a t, r) | None => None end.
Proof.
  unfold escape_char. destruct (short_escape (byte_of a)) as [e|] eqn:He.
  - apply unescape_short in He as [He Hu]. by apply read_short.
  - destruct (hex_escaped (byte_of a)) eqn:Hh.
    + apply hex_escape in Hh as [Hh Hn]. etransitivity; [exact (read_hex "0" "0" _ _ _ X Hh Hn)|].
      unfold chr, byte_of. by rewrite ascii_N_embedding.
    + apply read_raw.
      * intros Hn. by rewrite Hn in He.
      * unfold hex_escaped in Hh. destruct (N.ltb_spec (byte_of a) 32); [done|lia].
      * intros Hn. by rewrite Hn in He.
Qed.
Lemma read_escape s rest : read_string (escape s (String dq rest)) = Some (s, rest).
Proof.
  induction s as [|a s IH]; [done|]. simpl. by rewrite read_escape_char, IH.
Qed.
(** ** Numbers *)
Fixpoint all_digits (s : string) : bool :=
  match s with String a s => (48 <=? byte_of a)%N && (byte_of a <=? 57)%N && all_digits s | EmptyString => true end.
Definition no_number (s : string) : bool :=
  match s with
  | String a _ => negb ((48 <=? byte_of a)%N && (byte_of a <=? 57)%N) && negb (byte_of a =? 46)%N && negb (byte_of a =? 101)%N && negb (byte_of a =? 69)%N
  | EmptyString => true
  end.
Lemma digits_app d rest : all_digits d = true -> no_number rest = true -> digits (d +:+ rest) = (d, rest).
Proof.
  intros Hd Hr. induction d as [|a d IH].
  - destruct rest as [|a rest]; [done|]. simpl in *.
    destruct ((48 <=? byte_of a) && (byte_of a <=? 57))%N; done.
  - simpl in *. 
    destruct ((48 <=? byte_of a) && (byte_of a <=? 57))%N; [|done]. by rewrite IH.
Qed.

Lemma uint_digits u : all_digits (NilZero.string_of_uint u) = true.
Proof. destruct u; [done|..]; unfold NilZero.string_of_uint; simpl; induction u; simpl; auto. Qed.

Lemma to_uint_norm n : N.to_uint n = Decimal.unorm (N.to_uint n).
Proof. by rewrite <- DecimalN.Unsigned.to_of, DecimalN.Unsigned.of_to. Qed.

(** Decimal text has no leading zero. *)
Lemma to_uint_lead n v : N.to_uint n = Decimal.D0 v -> v = Decimal.Nil.
Proof.
  intros H. pose proof (to_uint_norm n) as Hn. rewrite H in Hn. unfold Decimal.unorm in Hn.
  destruct (Decimal.nzhead (Decimal.D0 v)) eqn:Hz; try congruence. by apply nzhead_nonzero in Hz.
Qed.

Lemma fmt_d_parts n : fmt_d n = (if n <? 0 then "-" else "")%Z +:+ NilZero.string_of_uint (N.to_uint (Z.abs_N n)).
Proof. by destruct n. Qed.

Lemma uint_text n : let d := NilZero.string_of_uint (N.to_uint n) in
  d <> "" /\ has_prefix "-" d = false /\ (has_prefix "0" d = true -> d = "0") /\ NilZero.uint_of_string d = Some (N.to_uint n).
Proof.
  assert (N.to_uint n <> Decimal.Nil) as Hn.
  { rewrite to_uint_norm. apply unorm_nonnil. }
  intros d. split_and!.
  - unfold d. destruct (N.to_uint n); try done.
  - unfold d. destruct (N.to_uint n); try done.
  - unfold d. destruct (N.to_uint n) eqn:H; try done. intros _. by rewrite (to_uint_lead _ _ H).
  - unfold d. apply NilZero.usu, Hn.
Qed.

Lemma no_fraction rest : no_number rest = true -> read_fraction rest = Some ("", rest) /\ read_exponent rest = Some ("", rest).
Proof.
  destruct rest as [|a rest]; [done|]. intros H. simpl in H. bool_prop. split.
  - destruct a as [[][][][][][][][]]; try done.
  - simpl. destruct a as [[][][][][][][][]]; try done.
Qed.

Lemma read_number_fmt_d n rest : no_number rest = true -> read_number (fmt_d n +:+ rest) = Some (JInt n, rest).
Proof.
  intros Hr. rewrite fmt_d_parts. destruct (uint_text (Z.abs_N n)) as (H1 & H2 & H3 & H4).
  set (d := NilZero.string_of_uint _) in *.
  assert (digits (d +:+ rest) = (d, rest)) as Hd by (apply digits_app; [apply uint_digits|done]).
  destruct (no_fraction rest Hr) as [Hf He].
  assert (forall sign, read_unsigned sign (d +:+ rest) =
    Some (JInt (if bool_decide (sign = "") then Z.of_uint (N.to_uint (Z.abs_N n)) else - Z.of_uint (N.to_uint (Z.abs_N n))), rest)) as Hu.
  { intros sign. unfold read_unsigned. rewrite Hd, Hf, He, H4. rewrite bool_decide_eq_false_2 by done.
    destruct (has_prefix "0" d); [|done]. by rewrite H3. }
  assert (Z.of_uint (N.to_uint (Z.abs_N n)) = Z.abs n) as Hz.
  { unfold Z.of_uint. change (Pos.of_uint ?x) with (N.of_uint x). rewrite DecimalN.Unsigned.of_to. by destruct n. }
  rewrite Hz in Hu. destruct (Z.ltb_spec n 0).
  - etransitivity; [exact (Hu "-")|]. simpl. do 3 f_equal. lia.
  - change (read_number (d +:+ rest) = Some (JInt n, rest)).
    assert (read_number (d +:+ rest) = read_unsigned "" (d +:+ rest)) as ->.
    { destruct d as [|a d']; [done|]. simpl in H2. destruct a as [[][][][][][][][]]; try done. }
    rewrite Hu. simpl. do 3 f_equal. lia.
Qed.

(** ** Values *)

Fixpoint size (v : JV) : nat :=
  match v with
  | JList l => S (fold_right (fun v n => S (size v + n)) 0%nat l)
  | JMembers o => S (fold_right (fun m n => S (size (snd m) + n)) 0%nat o)
  | _ => 1
  end.

(** What can follow a value in a text. *)
Definition stops (s : string) : Prop := s = "" \/ exists a r, s = String a r /\ In a [","; "]"; "}"]%char.

Lemma stops_number s : stops s -> no_number s = true.
Proof. intros [->|(a & r & -> & [<-|[<-|[<-|[]]]])]; done. Qed.

Definition put_elements (rest : string) : list JV -> string :=
  fix elements l := match l with [] => "]" +:+ rest | v :: l => "," +:+ put v (elements l) end.
Definition put_members (rest : string) : Obj -> string :=
  fix members o := match o with [] => "}" +:+ rest | (k, v) :: o => "," +:+ quoted k (":" +:+ put v (members o)) end.

Lemma put_list v l rest : put (JList (v :: l)) rest = "[" +:+ put v (put_elements rest l).
Proof. done. Qed.
Lemma put_obj k v o rest : put (JMembers ((k, v) :: o)) rest = "{" +:+ quoted k (":" +:+ put v (put_members rest o)).
Proof. done. Qed.


Lemma word_app w v rest : word w v (w +:+ rest) = Some (v, rest).
Proof.
  unfold word. replace (strip w (w +:+ rest)) with (Some rest); [done|].
  induction w as [|a w IH]; [done|]. simpl. by rewrite decide_True.
Qed.

Lemma put_head v rest : whole v = true -> exists a r, put v rest = String a r /\ is_ws a = false /\ a <> "]"%char.
Proof.
  destruct v as [s|n|t| | | |[|v l]|[|[k v] o]]; intros Hw; try (eexists _, _; split; [reflexivity|done]).
  - simpl put. rewrite fmt_d_parts. destruct (n <? 0)%Z; [eexists _, _; split; [reflexivity|done]|].
    pose proof (uint_text (Z.abs_N n)) as (H1 & _). pose proof (uint_digits (N.to_uint (Z.abs_N n))) as H2.
    destruct (NilZero.string_of_uint _) as [|a d]; [done|].
    exists a, (d +:+ rest). split; [done|]. simpl in H2. bool_prop.
    destruct a as [[][][][][][][][]]; done.
  - done.
Qed.

Lemma skip_put v rest : whole v = true -> skip (put v rest) = put v rest.
Proof. intros H. destruct (put_head v rest H) as (a & r & -> & Hs & _). simpl. by rewrite Hs. Qed.

Lemma value_int fuel n rest : no_number rest = true -> value (S fuel) (put (JInt n) rest) = Some (JInt n, rest).
Proof.
  intros Hr. cbn [value]. rewrite skip_put by done. destruct (put_head (JInt n) rest eq_refl) as (a & r & Hp & Hs & _).
  pose proof (read_number_fmt_d n rest Hr) as Hn. change (fmt_d n +:+ rest) with (put (JInt n) rest) in Hn.
  rewrite Hp in *. rewrite Hn. cbv zeta.
  destruct a as [[][][][][][][][]]; first [reflexivity | discriminate Hn].
Qed.

Definition weigh (l : list nat) : nat := fold_right (fun a n => S (a + n)) 0%nat l.

Lemma size_list l : size (JList l) = S (weigh (map size l)).
Proof. simpl. f_equal. induction l as [|v l IH]; simpl; [done|]. by rewrite IH. Qed.

Lemma size_obj o : size (JMembers o) = S (weigh (map (fun m => size (snd m)) o)).
Proof. simpl. f_equal. induction o as [|m o IH]; simpl; [done|]. by rewrite IH. Qed.

Definition reads_values (fuel : nat) : Prop := forall v rest,
  (size v <= fuel)%nat -> whole v = true -> stops rest -> value fuel (put v rest) = Some (v, rest).
Definition reads_elements (fuel : nat) : Prop := forall v l rest,
  (weigh (map size (v :: l)) <= fuel)%nat -> forallb whole (v :: l) = true ->
  elements fuel (put v (put_elements rest l)) = Some (v :: l, rest).
Definition reads_members (fuel : nat) : Prop := forall k v o rest,
  (weigh (map (fun m => size (snd m)) ((k, v) :: o)) <= fuel)%nat ->
  forallb (fun m => whole (snd m)) ((k, v) :: o) = true ->
  members fuel (quoted k (":" +:+ put v (put_members rest o))) = Some ((k, v) :: o, rest).

Lemma stops_elements rest l : stops (put_elements rest l).
Proof. right. destruct l; eexists _, _; (split; [reflexivity|simpl; auto]). Qed.
Lemma stops_members rest o : stops (put_members rest o).
Proof. right. destruct o as [|[]]; eexists _, _; (split; [reflexivity|simpl; auto]). Qed.

(** The equations of the reader. *)
Lemma value_list fuel s1 : value (S fuel) (String "[" s1) =
  match skip s1 with
  | String "]"%char rest => Some (JList [], rest)
  | _ => match elements fuel s1 with Some (l, rest) => Some (JList l, rest) | None => None end
  end.
Proof. reflexivity. Qed.

Lemma value_obj fuel s1 : value (S fuel) (String "{" s1) =
  match skip s1 with
  | String "}"%char rest => Some (JMembers [], rest)
  | _ => match members fuel s1 with Some (o, rest) => Some (JMembers o, rest) | None => None end
  end.
Proof. reflexivity. Qed.

Lemma elements_eq fuel s : elements (S fuel) s =
  match value fuel s with
  | None => None
  | Some (v, s1) =>
      match skip s1 with
      | String ","%char s2 => match elements fuel s2 with Some (l, rest) => Some (v :: l, rest) | None => None end
      | String "]"%char rest => Some ([v], rest)
      | _ => None
      end
  end.
Proof. reflexivity. Qed.

Lemma members_eq fuel k s : members (S fuel) (quoted k (":" +:+ s)) =
  match value fuel s with
  | None => None
  | Some (v, s4) =>
      match skip s4 with
      | String ","%char s5 => match members fuel s5 with Some (o, rest) => Some ((k, v) :: o, rest) | None => None end
      | String "}"%char rest => Some ([(k, v)], rest)
      | _ => None
      end
  end.
Proof.
  transitivity (match read_string (escape k (String dq (":" +:+ s))) with
    | None => None
    | Some (k, s2) =>
        match skip s2 with
        | String ":"%char s3 =>
            match value fuel s3 with
            | None => None
            | Some (v, s4) =>
                match skip s4 with
                | String ","%char s5 => match members fuel s5 with Some (o, rest) => Some ((k, v) :: o, rest) | None => None end
                | String "}"%char rest => Some ([(k, v)], rest)
                | _ => None
                end
            end
        | _ => None
        end
    end); [reflexivity|]. by rewrite read_escape.
Qed.

Lemma value_step fuel : reads_elements fuel -> reads_members fuel -> reads_values (S fuel).
Proof.
  intros He Hm v rest Hs Hw Hr. destruct v as [s|n|t| | | |[|v l]|[|[k v] o]]; try done.
  - cbn [value put]. change (skip (quoted s rest)) with (quoted s rest). unfold quoted. by rewrite read_escape.
  - apply value_int, stops_number, Hr.
  - rewrite put_list, size_list in *. simpl in Hw. simpl in Hs.
    destruct (put_head v (put_elements rest l)) as (a & r & Hp & Hws & Ha); [by bool_prop|].
    specialize (He v l rest ltac:(simpl; lia) Hw). change (value (S fuel) (String "[" (put v (put_elements rest l))) = Some (JList (v :: l), rest)).
    rewrite value_list, He, Hp. simpl (skip _). rewrite Hws. destruct a as [[][][][][][][][]]; done.
  - rewrite put_obj, size_obj in *. simpl in Hw. simpl in Hs.
    specialize (Hm k v o rest ltac:(simpl; lia) Hw).
    change (value (S fuel) (String "{" (quoted k (":" +:+ put v (put_members rest o)))) = Some (JMembers ((k, v) :: o), rest)).
    by rewrite value_obj, Hm.
Qed.

Lemma elements_step fuel : reads_values fuel -> reads_elements fuel -> reads_elements (S fuel).
Proof.
  intros Hv He v l rest Hs Hw. rewrite elements_eq. simpl in Hs, Hw. bool_prop.
  rewrite Hv; [|lia|done|apply stops_elements].
  destruct l as [|v2 l]; [done|]. change (skip (put_elements rest (v2 :: l))) with (String "," (put v2 (put_elements rest l))).
  cbv iota beta. rewrite He; [done| |done]. simpl in *. lia.
Qed.

Lemma members_step fuel : reads_values fuel -> reads_members fuel -> reads_members (S fuel).
Proof.
  intros Hv Hm k v o rest Hs Hw. rewrite members_eq. simpl in Hs, Hw. bool_prop.
  rewrite Hv; [|lia|done|apply stops_members].
  destruct o as [|[k2 v2] o]; [done|].
  change (skip (put_members rest ((k2, v2) :: o))) with (String "," (quoted k2 (":" +:+ put v2 (put_members rest o)))).
  cbv iota beta. rewrite Hm; [done| |done]. simpl in *. lia.
Qed.

Lemma reads fuel : reads_values fuel /\ reads_elements fuel /\ reads_members fuel.
Proof.
  induction fuel as [|fuel (Hv & He & Hm)].
  - split_and!; intros ?; intros; [destruct v|..]; simpl in *; lia.
  - split_and!; [by apply value_step|by apply elements_step|by apply members_step].
Qed.

(** ** Texts are long enough *)

Lemma escape_length s rest : (String.length rest <= String.length (escape s rest))%nat.
Proof.
  induction s as [|a s IH]; [done|]. simpl. unfold escape_char. destruct (short_escape _); [simpl; lia|].
  destruct (hex_escaped _); simpl; lia.
Qed.

Lemma quoted_length s rest : (2 + String.length rest <= String.length (quoted s rest))%nat.
Proof. unfold quoted. simpl. pose proof (escape_length s (String dq rest)). simpl in *. lia. Qed.

Lemma str_length_app s t : String.length (s +:+ t) = (String.length s + String.length t)%nat.
Proof. induction s as [|a s IH]; [done|]. simpl. by rewrite IH. Qed.

Lemma fmt_d_length n : (1 <= String.length (fmt_d n))%nat.
Proof.
  rewrite fmt_d_parts, str_length_app. destruct (uint_text (Z.abs_N n)) as [H _].
  destruct (NilZero.string_of_uint _); [done|simpl; lia].
Qed.

Definition long (v : JV) : Prop := forall rest, (size v + String.length rest <= String.length (put v rest))%nat.

(** Arithmetic of lengths. *)
Ltac lens := simpl in *; rewrite ?str_length_app in *; simpl in *; lia.

Lemma elements_length rest l : Forall long l ->
  (1 + weigh (map size l) + String.length rest <= String.length (put_elements rest l))%nat.
Proof.
  induction 1 as [|v l Hv Hl IH]; [lens|].
  change (put_elements rest (v :: l)) with (String "," (put v (put_elements rest l))).
  specialize (Hv (put_elements rest l)). lens.
Qed.

Lemma members_length rest o : Forall (fun m => long (snd m)) o ->
  (1 + weigh (map (fun m => size (snd m)) o) + String.length rest <= String.length (put_members rest o))%nat.
Proof.
  induction 1 as [|[k v] o Hv Ho IH]; [lens|].
  change (put_members rest ((k, v) :: o)) with (String "," (quoted k (":" +:+ put v (put_members rest o)))).
  specialize (Hv (put_members rest o)). pose proof (quoted_length k (":" +:+ put v (put_members rest o))). lens.
Qed.

Lemma size_In v l : In v l -> (size v < size (JList l))%nat.
Proof. rewrite size_list. induction l as [|x l IH]; simpl; [done|]. intros [->|H]; [lia|]. apply IH in H. lia. Qed.

Lemma size_In_member m o : In m o -> (size (snd m) < size (JMembers o))%nat.
Proof. rewrite size_obj. induction o as [|x o IH]; simpl; [done|]. intros [->|H]; [lia|]. apply IH in H. lia. Qed.

Lemma put_long n v : (size v <= n)%nat -> whole v = true -> long v.
Proof.
  revert v. induction n as [|n IH]; intros v Hn Hw; [destruct v; simpl in Hn; lia|].
  destruct v as [s|k|t| | | |l|o]; intros rest; try lens.
  - pose proof (quoted_length s rest). lens.
  - simpl. rewrite str_length_app. pose proof (fmt_d_length k). lens.
  - assert (Forall long l) as Hl.
    { apply Forall_forall. intros v Hv. pose proof (size_In v l Hv). apply IH; [lia|].
      simpl in Hw. by eapply forallb_forall in Hw. }
    rewrite size_list. destruct l as [|v l]; [lens|]. inversion_clear Hl as [|? ? Hv Hl'].
    rewrite put_list. pose proof (elements_length rest l Hl'). specialize (Hv (put_elements rest l)). lens.
  - assert (Forall (fun m => long (snd m)) o) as Ho.
    { apply Forall_forall. intros m Hm. pose proof (size_In_member m o Hm). apply IH; [lia|].
      simpl in Hw. by apply (proj1 (forallb_forall _ _) Hw m Hm). }
    rewrite size_obj. destruct o as [|[k v] o]; [lens|]. inversion_clear Ho as [|? ? Hv Ho'].
    rewrite put_obj. pose proof (members_length rest o Ho'). specialize (Hv (put_members rest o)).
    pose proof (quoted_length k (":" +:+ put v (put_members rest o))). lens.
Qed.

(** ** The round trip *)

Lemma parse_text v : whole v = true -> parse (text v) = Some v.
Proof.
  intros Hw. unfold parse, text. destruct (reads (2 * String.length (put v "") + 2)) as (Hv & _ & _).
  rewrite Hv; [done| |done|by left]. pose proof (put_long _ v (le_n _) Hw "") as Hl. lens.
Qed.
