(* ===== verification/Sql.v ===== *)
(** * SQL statements and transactions

    What the statements gorm issues do to the tables ([database.FromContext],
    [Transaction], [First], [Find], [Count], [Updates], [Create], [Delete]),
    the helpers of [repositories/scope.go] and [batched_delete.go], and how a
    property of the world passes from statements to whole operations. *)

From S2P Require Import Prelude Store Models World.

Open Scope Z_scope.
Open Scope monad_scope.

Section Sql.
Context {ST : Store}.

(** *** Statements.  Each may fail with a driver error and change nothing. *)

Definition stmt {A} (f : World -> Res A * World) : M A :=
  let! b := fault in fun w => if b : bool then (Error EInfra, w) else f w.

Definition get_rows {R} `{TableOf R} (w : World) : list R := rows_of (w_db w).

Definition put_rows {R} `{TableOf R} (l : list R) (w : World) : World :=
  set_db (set_rows l (w_db w)) w.

(** [SELECT .. WHERE p ORDER BY pk LIMIT 1]: [gorm.First]. *)
Definition First {R} `{TableOf R} (p : DB -> R -> bool) : M R :=
  stmt (fun w =>
    match first_where (p (w_db w)) (get_rows w) with
    | Some r => (Ok r, w)
    | None => (Error ErrRecordNotFound, w)
    end).

(** [Find]: every matching row. *)
Definition Find {R} `{TableOf R} (p : DB -> R -> bool) : M (list R) :=
  stmt (fun w => (Ok (rows_where (p (w_db w)) (get_rows w)), w)).

Definition Count {R} `{TableOf R} (p : DB -> R -> bool) : M Z :=
  stmt (fun w => (Ok (Z.of_nat (count_where (p (w_db w)) (get_rows w))), w)).

(** [UPDATE]; the answer is MySQL's count of rows actually changed. *)
Definition changed {R} `{TableOf R} (p : R -> bool) (f : R -> R) (l : list R) : Z :=
  Z.of_nat (count_where (fun r => p r && negb (if row_dec (f r) r then true else false)) l).

Definition Updates {R} `{TableOf R} (p : DB -> R -> bool) (f : R -> R) : M Z :=
  stmt (fun w =>
    let q := p (w_db w) in
    (Ok (changed q f (get_rows w)), put_rows (update_where q f (get_rows w)) w)).

(** [DELETE]; the answer is the count of rows removed. *)
Definition Delete {R} `{TableOf R} (p : DB -> R -> bool) : M Z :=
  stmt (fun w =>
    let q := p (w_db w) in
    (Ok (Z.of_nat (count_where q (get_rows w))), put_rows (delete_where q (get_rows w)) w)).

(** [INSERT] of the row made from a fresh id, refused with the duplicate-key
    error when [clash] holds of it and a row of the table. *)
Definition Create {R} `{TableOf R} (clash : R -> R -> bool) (mk : Z -> R) : M R :=
  stmt (fun w =>
    let r := mk (next_id (w_db w)) in
    if existsb (clash r) (get_rows w) then (Error ErrDuplicateKey, w)
    else (Ok r, set_db (set_next_id (next_id (w_db w) + 1)
                          (set_rows (get_rows w ++ [r]) (w_db w))) w)).

Definition no_clash {R} : R -> R -> bool := fun _ _ => false.

(** [errors.Is(err, gorm.ErrRecordNotFound)] mapped to [nil, nil]. *)
Definition optional {A} (m : M A) : M (option A) :=
  let! r := try_ m in
  match r with
  | Ok a => ret (Some a)
  | Error e => if decide (e = ErrRecordNotFound) then ret None else fail e
  end.

(** [db.Transaction(fn)]: [fn] runs against the database, and an error of [fn]
    or of COMMIT restores it.  Inside a bound operation the transaction is a
    savepoint of the operation's, which has no COMMIT of its own. *)
Definition restore (w0 w : World) : World := set_db (w_db w0) w.

Definition transaction {A} (m : M A) : M A := fun w0 =>
  let nested := bool_decide (is_Some (w_op w0)) in
  match fault w0 with
  | (Ok true, w) => (Error EInfra, w)
  | (_, w) =>
      match m w with
      | (Error e, w1) => (Error e, restore w0 w1)
      | (Ok a, w1) =>
          if nested then (Ok a, w1)
          else match fault w1 with
               | (Ok true, w2) => (Error EInfra, restore w0 w2)
               | (_, w2) => (Ok a, w2)
               end
      end
  end.

(** *** [repositories/scope.go] *)

Definition user_in (tid : string) (id : Z) (d : DB) : bool :=
  existsb (fun u => (User.ID u =? id) && bool_decide (User.TenantID u = tid)) (users d).

(** [ownedRows]: the row's owner is a user of the context's tenant. *)
Definition ownedRows {R} (ctx : Ctx) (owner : R -> Z) (p : R -> bool) : DB -> R -> bool :=
  fun d r => user_in (FromContext ctx) (owner r) d && p r.

Definition requireOwner (ctx : Ctx) (userID : Z) : M unit :=
  let! n := Count (fun _ u => (User.ID u =? userID) &&
                              bool_decide (User.TenantID u = FromContext ctx)) in
  if n =? 1 then ret tt else fail ErrRecordNotFound.

Definition scopeTenant (ctx : Ctx) (requested : string) : M string :=
  let tid := FromContext ctx in
  if negb (bool_decide (requested = "")) && negb (bool_decide (requested = tid))
  then fail ErrRecordNotFound else ret tid.

(** [updateScoped]: zero changed rows is not an error when a row matches. *)
Definition updateScoped {R} `{TableOf R} (p : DB -> R -> bool) (f : R -> R) : M unit :=
  let! n := Updates p f in
  if n =? 0 then
    let! c := Count p in
    if c =? 0 then fail ErrRecordNotFound else ret tt
  else ret tt.

(** An update of columns under a unique index is refused when the index would
    hold a value twice. *)
Definition UpdatesUnique {R} `{TableOf R} (unique : list R -> bool) (p : DB -> R -> bool) (f : R -> R) : M Z :=
  stmt (fun w =>
    let q := p (w_db w) in
    let l := update_where q f (get_rows w) in
    if unique l then (Ok (changed q f (get_rows w)), put_rows l w) else (Error ErrDuplicateKey, w)).

Definition updateScopedUnique {R} `{TableOf R} (unique : list R -> bool) (p : DB -> R -> bool) (f : R -> R) : M unit :=
  let! n := UpdatesUnique unique p f in
  if n =? 0 then
    let! c := Count p in
    if c =? 0 then fail ErrRecordNotFound else ret tt
  else ret tt.

(** *** [repositories/batched_delete.go] *)

Definition purgeBatchSize : nat := 1000.

(** [DELETE .. WHERE p LIMIT n]: the first [n] matching rows go. *)
Fixpoint delete_limit {R} (p : R -> bool) (n : nat) (l : list R) : list R * nat :=
  match l with
  | [] => ([], 0%nat)
  | r :: l =>
      match n with
      | O => (r :: l, 0%nat)
      | S n' =>
          if p r then let (l', k) := delete_limit p n' l in (l', S k)
          else let (l', k) := delete_limit p n l in (r :: l', k)
      end
  end.

Definition DeleteLimit {R} `{TableOf R} (p : R -> bool) : M nat :=
  stmt (fun w => let (l, k) := delete_limit p purgeBatchSize (get_rows w) in
                 (Ok k, put_rows l w)).

(** The loop deletes one batch at a time until a batch is short; the fuel is one
    more than the number of rows, which each full batch decreases.  An error
    returns what was removed with it. *)
Fixpoint batches {R} `{TableOf R} (fuel : nat) (p : R -> bool) (total : nat) : M (nat * option Err) :=
  match fuel with
  | O => ret (total, None)
  | S fuel =>
      let! r := try_ (DeleteLimit p) in
      match r with
      | Error e => ret (total, Some e)
      | Ok k => if (k <? purgeBatchSize)%nat then ret ((total + k)%nat, None)
                else batches fuel p (total + k)
      end
  end.

Definition batchedDelete {R} `{TableOf R} (p : R -> bool) : M (nat * option Err) :=
  fun w => batches (S (length (get_rows (R := R) w))) p 0 w.

End Sql.

(** ** How a relation between databases passes through the monad *)

Section Keeps.
Context {ST : Store} (R : DB -> DB -> Prop) {RP : PreOrder R}.

(** [keeps R m]: whatever the oracle, [m] moves the database along [R]. *)
Definition keeps {A} (m : M A) : Prop := forall w, R (w_db w) (w_db (snd (m w))).

Lemma keeps_same {A} (m : M A) : (forall w, w_db (snd (m w)) = w_db w) -> keeps m.
Proof. intros H w. by rewrite H. Qed.

Lemma keeps_ret {A} (a : A) : keeps (ret a).
Proof. by apply keeps_same. Qed.

Lemma keeps_fail {A} e : keeps (fail (A := A) e).
Proof. by apply keeps_same. Qed.

Lemma keeps_bind {A B} (m : M A) (f : A -> M B) :
  keeps m -> (forall a, keeps (f a)) -> keeps (bind m f).
Proof.
  intros Hm Hf w. unfold bind. specialize (Hm w). destruct (m w) as [[a|e] w1]; [|done].
  simpl in Hm. transitivity (w_db w1); [done|apply Hf].
Qed.

(** The continuation may rely on how the first call answered. *)
Lemma keeps_bind_Ok {A B} (m : M A) (f : A -> M B) :
  keeps m -> (forall w a w', m w = (Ok a, w') -> keeps (f a)) -> keeps (bind m f).
Proof.
  intros Hm Hf w. unfold bind. specialize (Hm w). destruct (m w) as [[a|e] w1] eqn:Hrun; [|done].
  simpl in Hm. transitivity (w_db w1); [done|]. by apply (Hf w a w1).
Qed.

Lemma keeps_try {A} (m : M A) : keeps m -> keeps (try_ m).
Proof. intros Hm w. unfold try_. specialize (Hm w). by destruct (m w). Qed.

Lemma keeps_now : keeps now.
Proof. by apply keeps_same. Qed.

Lemma keeps_current_op : keeps current_op.
Proof. by apply keeps_same. Qed.

Lemma keeps_update_op f : keeps (update_op f).
Proof. apply keeps_same. intros w. unfold update_op. simpl. by destruct (w_op w). Qed.

Lemma fault_db w : w_db (snd (fault w)) = w_db w.
Proof. unfold fault. by destruct (w_faults w). Qed.

Lemma keeps_fault : keeps fault.
Proof. apply keeps_same, fault_db. Qed.

Lemma keeps_uuid `{Ext} : keeps NewUUID.
Proof. by apply keeps_same. Qed.

Lemma keeps_draw : keeps draw.
Proof. by apply keeps_same. Qed.

Lemma keeps_send m : keeps (send m).
Proof.
  apply keeps_bind; [apply keeps_fault|]. intros b. apply keeps_same. by intros w; destruct b.
Qed.

Lemma keeps_stmt {A} (f : World -> Res A * World) :
  (forall w, R (w_db w) (w_db (snd (f w)))) -> keeps (stmt f).
Proof.
  intros Hf. apply keeps_bind; [apply keeps_fault|]. intros b w. by destruct b.
Qed.

Lemma keeps_First {T} `{TableOf T} p : keeps (First (R := T) p).
Proof. apply keeps_stmt. intros w. by destruct (first_where _ _). Qed.

Lemma keeps_Find {T} `{TableOf T} p : keeps (Find (R := T) p).
Proof. by apply keeps_stmt. Qed.

Lemma keeps_Count {T} `{TableOf T} p : keeps (Count (R := T) p).
Proof. by apply keeps_stmt. Qed.

Lemma keeps_Updates {T} `{TableOf T} (p : DB -> T -> bool) f :
  (forall d, R d (set_rows (update_where (p d) f (rows_of d)) d)) -> keeps (Updates p f).
Proof. intros Hf. apply keeps_stmt. intros w. apply Hf. Qed.

Lemma keeps_Delete {T} `{TableOf T} (p : DB -> T -> bool) :
  (forall d, R d (set_rows (delete_where (p d) (rows_of d)) d)) -> keeps (Delete p).
Proof. intros Hf. apply keeps_stmt. intros w. apply Hf. Qed.

Lemma keeps_Create {T} `{TableOf T} clash (mk : Z -> T) :
  (forall d, existsb (clash (mk (next_id d))) (rows_of d) = false ->
     R d (set_next_id (next_id d + 1) (set_rows (rows_of d ++ [mk (next_id d)]) d))) ->
  keeps (Create clash mk).
Proof. intros Hf. apply keeps_stmt. intros w. cbv zeta. case_match; [done|by apply Hf]. Qed.

Lemma keeps_optional {A} (m : M A) : keeps m -> keeps (optional m).
Proof.
  intros Hm. apply keeps_bind; [by apply keeps_try|]. intros [a|e]; [apply keeps_ret|].
  destruct (decide _); [apply keeps_ret|apply keeps_fail].
Qed.

Lemma keeps_transaction {A} (m : M A) : keeps m -> keeps (transaction m).
Proof.
  intros Hm w. unfold transaction. pose proof (fault_db w) as Hf.
  destruct (fault w) as [[b|e] w1]; simpl in Hf; [destruct b|]; simpl; rewrite ?Hf; try done;
    specialize (Hm w1); destruct (m w1) as [[a|e'] w2]; simpl in *; rewrite ?Hf in Hm; try done;
    destruct (bool_decide _); try done;
    pose proof (fault_db w2) as Hf2; destruct (fault w2) as [[[]|] w3]; simpl in *; congruence || done.
Qed.

Lemma keeps_requireOwner ctx id : keeps (requireOwner ctx id).
Proof.
  apply keeps_bind; [apply keeps_Count|]. intros n.
  destruct (n =? 1); [apply keeps_ret|apply keeps_fail].
Qed.

Lemma keeps_scopeTenant ctx t : keeps (scopeTenant ctx t).
Proof. unfold scopeTenant. destruct (_ && _); [apply keeps_fail|apply keeps_ret]. Qed.

Lemma keeps_updateScoped {T} `{TableOf T} (p : DB -> T -> bool) f :
  (forall d, R d (set_rows (update_where (p d) f (rows_of d)) d)) -> keeps (updateScoped p f).
Proof.
  intros Hf. apply keeps_bind; [by apply keeps_Updates|]. intros n.
  destruct (n =? 0); [|apply keeps_ret]. apply keeps_bind; [apply keeps_Count|]. intros c.
  destruct (c =? 0); [apply keeps_fail|apply keeps_ret].
Qed.

Lemma keeps_updateScopedUnique {T} `{TableOf T} u (p : DB -> T -> bool) f :
  (forall d, u (update_where (p d) f (rows_of d)) = true -> R d (set_rows (update_where (p d) f (rows_of d)) d)) ->
  keeps (updateScopedUnique u p f).
Proof.
  intros Hf. apply keeps_bind.
  - apply keeps_stmt. intros w. cbv zeta. destruct (u _) eqn:Hu; [by apply Hf|done].
  - intros n. destruct (n =? 0); [|apply keeps_ret]. apply keeps_bind; [apply keeps_Count|]. intros c.
    destruct (c =? 0); [apply keeps_fail|apply keeps_ret].
Qed.

End Keeps.

Create HintDb keeps discriminated.
#[export] Hint Resolve keeps_ret keeps_fail keeps_try keeps_now keeps_current_op keeps_update_op
  keeps_fault keeps_uuid keeps_draw keeps_send keeps_First keeps_Find keeps_Count keeps_optional
  keeps_transaction keeps_requireOwner keeps_scopeTenant : keeps.

(** Walks through a program: binds, tests, and the calls the database knows. *)
Ltac keeps_step :=
  match goal with
  | |- keeps _ (bind _ _) => apply keeps_bind; [typeclasses eauto| |intros ?]
  | |- keeps _ (try_ _) => apply keeps_try
  | |- keeps _ (optional _) => apply keeps_optional; [typeclasses eauto|]
  | |- keeps _ (transaction _) => apply keeps_transaction; [typeclasses eauto|]
  | |- keeps _ (match ?x with _ => _ end) => destruct x
  | |- keeps _ (let _ := _ in _) => cbv zeta
  | _ => solve [eauto with keeps typeclass_instances]
  end.

Ltac keeps_tac := repeat keeps_step.

(** Preserving an invariant of the database. *)
Definition preserves (P : DB -> Prop) (d d' : DB) : Prop := P d -> P d'.

#[export] Instance preserves_preorder P : PreOrder (preserves P).
Proof. split; [by intros d ?|intros a b c Hab Hbc Ha; auto]. Qed.

(** ** Inverting a run that succeeded *)

Section Invert.
Context {ST : Store}.

Definition is_Ok {A} (r : Res A) : bool := match r with Ok _ => true | Error _ => false end.

Lemma bind_Ok {A B} (m : M A) (f : A -> M B) w b w' :
  bind m f w = (Ok b, w') -> exists a w1, m w = (Ok a, w1) /\ f a w1 = (Ok b, w').
Proof. unfold bind. destruct (m w) as [[a|e] w1]; [eauto|done]. Qed.

(** A run is its answer and the world after it. *)
Lemma run_snd {A} (m : M A) w r : fst (m w) = r -> m w = (r, snd (m w)).
Proof. intros <-. apply surjective_pairing. Qed.

Lemma bind_Error {A B} (m : M A) (f : A -> M B) w e w' :
  bind m f w = (Error e, w') ->
  m w = (Error e, w') \/ exists a w1, m w = (Ok a, w1) /\ f a w1 = (Error e, w').
Proof. unfold bind. destruct (m w) as [[a|e'] w1]; [eauto|]. intros [= <- <-]. by left. Qed.

(** A run seen to succeed. *)
Lemma ran {A} (m : M A) w : is_Ok (fst (m w)) = true -> exists a w', m w = (Ok a, w').
Proof. destruct (m w) as [[a|e] w']; [eauto|done]. Qed.

Lemma bind_run {A B} (m : M A) (f : A -> M B) w a w1 :
  m w = (Ok a, w1) -> bind m f w = f a w1.
Proof. unfold bind. by intros ->. Qed.

Lemma bind_err {A B} (m : M A) (f : A -> M B) w e w1 :
  m w = (Error e, w1) -> bind m f w = (Error e, w1).
Proof. unfold bind. by intros ->. Qed.

Lemma try_Ok {A} (m : M A) w r w' :
  try_ m w = (Ok r, w') -> m w = (r, w').
Proof. unfold try_. destruct (m w). by intros [= -> ->]. Qed.

(** Two worlds that agree on everything but the oracle and the counters. *)
Definition same_state (w w' : World) : Prop :=
  w_db w' = w_db w /\ w_kv w' = w_kv w /\ w_op w' = w_op w /\ w_now w' = w_now w /\ w_mail w' = w_mail w.

Lemma fault_same w b w' : fault w = (b, w') -> same_state w w'.
Proof. unfold fault. destruct (w_faults w); intros [= <- <-]; by repeat split. Qed.

Lemma fault_cases w :
  exists w0, same_state w w0 /\ (fault w = (Ok true, w0) \/ fault w = (Ok false, w0)).
Proof.
  unfold fault. destruct (w_faults w) as [|[] bs].
  - exists w. split; [by repeat split|by right].
  - eexists. split; [|by left]. by repeat split.
  - eexists. split; [|by right]. by repeat split.
Qed.

Lemma stmt_cases {A} (f : World -> Res A * World) w r w' :
  stmt f w = (r, w') ->
  exists w1, same_state w w1 /\ ((r = Error EInfra /\ w' = w1) \/ f w1 = (r, w')).
Proof.
  unfold stmt, bind. destruct (fault w) as [b w1] eqn:Ef. apply fault_same in Ef as Hw.
  unfold fault in Ef. intros H. exists w1. split; [done|].
  destruct (w_faults w) as [|b' bs]; injection Ef as <- <-; [by right|].
  destruct b'; [injection H as <- <-; by left|by right].
Qed.

Lemma stmt_Ok {A} (f : World -> Res A * World) w a w' :
  stmt f w = (Ok a, w') -> exists w1, same_state w w1 /\ f w1 = (Ok a, w').
Proof.
  intros H. apply bind_Ok in H as (b & w1 & Hf & H). apply fault_same in Hf.
  destruct b; [done|]. eauto.
Qed.

Lemma same_refl w : same_state w w.
Proof. by repeat split. Qed.

Lemma same_trans w1 w2 w3 : same_state w1 w2 -> same_state w2 w3 -> same_state w1 w3.
Proof. unfold same_state. intros (?&?&?&?&?) (?&?&?&?&?). repeat split; congruence. Qed.

Lemma now_Ok w t w' : now w = (Ok t, w') -> t = w_now w /\ same_state w w'.
Proof. intros [= <- <-]. split; [done|apply same_refl]. Qed.

Lemma uuid_Ok `{Ext} w u w' : NewUUID w = (Ok u, w') -> u = new_uuid (w_uuid w) /\ same_state w w'.
Proof. intros [= <- <-]. by repeat split. Qed.

Lemma draw_Ok w n w' : draw w = (Ok n, w') -> same_state w w'.
Proof. intros [= <- <-]. by repeat split. Qed.

Lemma op_Ok w o w' : current_op w = (Ok o, w') -> o = w_op w /\ same_state w w'.
Proof. intros [= <- <-]. split; [done|apply same_refl]. Qed.

(** Only the database differs. *)
Definition db_step (d : DB) (w w' : World) : Prop :=
  w_db w' = d /\ w_kv w' = w_kv w /\ w_op w' = w_op w /\ w_now w' = w_now w /\ w_mail w' = w_mail w.

Section Statements.
Context {R : Type} `{TableOf R}.

Lemma First_Ok (p : DB -> R -> bool) w r w' :
  First p w = (Ok r, w') -> same_state w w' /\ first_where (p (w_db w)) (rows_of (w_db w)) = Some r.
Proof.
  intros Hs. apply stmt_Ok in Hs as (w1 & Hw & Hs). unfold get_rows in Hs.
  destruct Hw as (Hd & Hr). rewrite Hd in Hs.
  destruct (first_where _ _) eqn:E; [|done]. injection Hs as -> ->. by split.
Qed.

Lemma First_NotFound (p : DB -> R -> bool) w w' :
  First p w = (Error ErrRecordNotFound, w') ->
  same_state w w' /\ first_where (p (w_db w)) (rows_of (w_db w)) = None.
Proof.
  unfold First. intros Hs. apply stmt_cases in Hs as (w1 & Hw & [[? _]|Hs]); [done|].
  unfold get_rows in Hs. destruct Hw as (Hd & Hr). rewrite Hd in Hs.
  destruct (first_where _ _) eqn:E; [done|]. injection Hs as <-. by split.
Qed.

Lemma optional_First_Ok (p : DB -> R -> bool) w o w' :
  optional (First p) w = (Ok o, w') ->
  same_state w w' /\ first_where (p (w_db w)) (rows_of (w_db w)) = o.
Proof.
  unfold optional. intros Hs. apply bind_Ok in Hs as (r & w1 & Hr & Hs). apply try_Ok in Hr.
  destruct r as [a|e].
  - injection Hs as <- <-. by apply First_Ok.
  - destruct (decide _) as [->|]; [|done]. injection Hs as <- <-. by apply First_NotFound.
Qed.

Lemma Find_Ok (p : DB -> R -> bool) w l w' :
  Find p w = (Ok l, w') -> same_state w w' /\ l = rows_where (p (w_db w)) (rows_of (w_db w)).
Proof.
  intros Hs. apply stmt_Ok in Hs as (w1 & Hw & Hs). unfold get_rows in Hs.
  injection Hs as <- <-. destruct Hw as (Hd & Hr). rewrite Hd. by split.
Qed.

Lemma Count_Ok (p : DB -> R -> bool) w n w' :
  Count p w = (Ok n, w') ->
  same_state w w' /\ n = Z.of_nat (count_where (p (w_db w)) (rows_of (w_db w))).
Proof.
  intros Hs. apply stmt_Ok in Hs as (w1 & Hw & Hs). unfold get_rows in Hs.
  injection Hs as <- <-. destruct Hw as (Hd & Hr). rewrite Hd. by split.
Qed.

Lemma Updates_Ok (p : DB -> R -> bool) f w n w' :
  Updates p f w = (Ok n, w') ->
  db_step (set_rows (update_where (p (w_db w)) f (rows_of (w_db w))) (w_db w)) w w' /\
  n = changed (p (w_db w)) f (rows_of (w_db w)).
Proof.
  intros Hs. apply stmt_Ok in Hs as (w1 & Hw & Hs). unfold get_rows, put_rows in Hs.
  injection Hs as <- <-. destruct Hw as (Hd & Hr). rewrite Hd. by split.
Qed.

Lemma Delete_Ok (p : DB -> R -> bool) w n w' :
  Delete p w = (Ok n, w') ->
  db_step (set_rows (delete_where (p (w_db w)) (rows_of (w_db w))) (w_db w)) w w' /\
  n = Z.of_nat (count_where (p (w_db w)) (rows_of (w_db w))).
Proof.
  intros Hs. apply stmt_Ok in Hs as (w1 & Hw & Hs). unfold get_rows, put_rows in Hs.
  injection Hs as <- <-. destruct Hw as (Hd & Hr). rewrite Hd. by split.
Qed.

Lemma Create_Ok clash (mk : Z -> R) w r w' :
  Create clash mk w = (Ok r, w') ->
  r = mk (next_id (w_db w)) /\ existsb (clash r) (rows_of (w_db w)) = false /\
  db_step (set_next_id (next_id (w_db w) + 1) (set_rows (rows_of (w_db w) ++ [r]) (w_db w))) w w'.
Proof.
  intros Hs. apply stmt_Ok in Hs as (w1 & Hw & Hs). unfold get_rows in Hs.
  destruct Hw as (Hd & Hr). rewrite Hd in Hs. cbv zeta in Hs.
  destruct (existsb (clash (mk (next_id (w_db w)))) (rows_of (w_db w))) eqn:E; [done|].
  injection Hs as <- <-. split; [done|]. split; [done|]. by split.
Qed.

Lemma Create_dup clash (mk : Z -> R) w w' :
  Create clash mk w = (Error ErrDuplicateKey, w') -> same_state w w' /\
  existsb (clash (mk (next_id (w_db w)))) (rows_of (w_db w)) = true.
Proof.
  unfold Create. intros Hs. apply stmt_cases in Hs as (w1 & Hw & [[? _]|Hs]); [done|].
  unfold get_rows in Hs. destruct Hw as (Hd & Hr). rewrite Hd in Hs. cbv zeta in Hs.
  destruct (existsb (clash _) _) eqn:E; [|done]. injection Hs as <-. split; [by split|done].
Qed.

Lemma Create_Error clash (mk : Z -> R) w e w' : Create clash mk w = (Error e, w') -> w_db w' = w_db w.
Proof.
  unfold Create. intros Hs. apply stmt_cases in Hs as (w1 & [Hd _] & [[_ ->]|Hs]); [done|].
  cbv zeta in Hs. destruct (existsb _ _); [|done]. by injection Hs as _ <-.
Qed.

Lemma updateScopedUnique_Ok u (p : DB -> R -> bool) f w w' :
  updateScopedUnique u p f w = (Ok tt, w') ->
  db_step (set_rows (update_where (p (w_db w)) f (rows_of (w_db w))) (w_db w)) w w' /\
  u (update_where (p (w_db w)) f (rows_of (w_db w))) = true.
Proof.
  intros Hs. apply bind_Ok in Hs as (n & w1 & Hu & Hs). apply stmt_Ok in Hu as (w0 & H0 & Hu). cbv zeta in Hu.
  assert (w_db w0 = w_db w) as D0 by (by destruct H0). unfold get_rows in Hu. rewrite D0 in Hu.
  destruct (u _) eqn:He in Hu; [|done]. split; [|exact He]. injection Hu as _ <-.
  destruct (n =? 0); [|injection Hs as <-; destruct H0 as (?&?&?&?&?); by repeat split; simpl; rewrite ?D0].
  apply bind_Ok in Hs as (c & w2 & Hc & Hs). apply Count_Ok in Hc as [Hc _].
  destruct (c =? 0); [done|]. injection Hs as <-.
  unfold db_step, same_state in *. destruct H0 as (?&?&?&?&?), Hc as (?&?&?&?&?). simpl in *.
  repeat split; rewrite ?D0 in *; congruence.
Qed.

Lemma updateScoped_Ok (p : DB -> R -> bool) f w w' :
  updateScoped p f w = (Ok tt, w') ->
  db_step (set_rows (update_where (p (w_db w)) f (rows_of (w_db w))) (w_db w)) w w'.
Proof.
  intros Hs. apply bind_Ok in Hs as (n & w1 & Hu & Hs). apply Updates_Ok in Hu as [Hu _].
  destruct (n =? 0); [|by injection Hs as <-].
  apply bind_Ok in Hs as (c & w2 & Hc & Hs). apply Count_Ok in Hc as [Hc _].
  destruct (c =? 0); [done|]. injection Hs as <-.
  unfold db_step, same_state in *. destruct Hu as (?&?&?&?&?), Hc as (?&?&?&?&?).
  repeat split; congruence.
Qed.

End Statements.

(** A transaction either has the effect of its body or none on the database. *)
Lemma transaction_cases {A} (m : M A) w r w' :
  transaction m w = (r, w') ->
  exists w0, same_state w w0 /\
    ((r = Error EInfra /\ w' = w0) \/
     exists r1 w1, m w0 = (r1, w1) /\
       ((r = r1 /\ is_Ok r = true /\ same_state w1 w') \/
        (is_Ok r = false /\ (forall e, r1 = Error e -> r = Error e) /\ exists w2, same_state w1 w2 /\ w' = restore w0 w2))).
Proof.
  unfold transaction. destruct (fault w) as [b w0] eqn:Ef. apply fault_same in Ef as Hw.
  intros H. exists w0. split; [done|].
  assert (b = Ok true \/ exists b', b = Ok b' /\ b' = false) as [->|(b' & -> & ->)].
  { unfold fault in Ef. destruct (w_faults w) as [|[] ?]; injection Ef as <- <-; eauto. }
  - injection H as <- <-. by left.
  - right. destruct (m w0) as [r1 w1] eqn:Em. exists r1, w1. split; [done|].
    assert (restore w w1 = restore w0 w1) as Hres.
    { unfold restore. by rewrite (proj1 Hw). }
    destruct r1 as [a|e]; [destruct (bool_decide _)|].
    + injection H as <- <-. left. split; [done|]. split; [done|apply same_refl].
    + destruct (fault w1) as [b w2] eqn:Ef2. apply fault_same in Ef2 as Hw2.
      destruct b as [[]|].
      * injection H as <- <-. right. split; [done|]. split; [done|]. exists w2.
        unfold restore. by rewrite (proj1 Hw).
      * injection H as <- <-. left. split; [done|]. by split.
      * injection H as <- <-. left. split; [done|]. by split.
    + injection H as <- <-. right. split; [done|]. split; [by intros ? [= ->]|].
      exists w1. split; [apply same_refl|done].
Qed.

Lemma transaction_Ok {A} (m : M A) w a w' :
  transaction m w = (Ok a, w') ->
  exists w0 w1, same_state w w0 /\ m w0 = (Ok a, w1) /\ same_state w1 w'.
Proof.
  intros H. apply transaction_cases in H as (w0 & Hw & [[? _]|(r1 & w1 & Hm & [H|[? _]])]); try done.
  destruct H as (<- & _ & H). eauto.
Qed.

Lemma transaction_Error {A} (m : M A) w e w' :
  transaction m w = (Error e, w') -> w_db w' = w_db w.
Proof.
  intros H. apply transaction_cases in H as (w0 & (Hd & _) & [[_ ->]|(r1 & w1 & Hm & [H|H])]).
  - done.
  - by destruct H as (_ & ? & _).
  - destruct H as (_ & _ & w2 & _ & ->). done.
Qed.

(** What every successful run of the body does, the transaction does. *)
Lemma keeps_transaction_Ok (P : DB -> DB -> Prop) `{!PreOrder P} {A} (m : M A) :
  (forall w a w', m w = (Ok a, w') -> P (w_db w) (w_db w')) -> keeps P (transaction m).
Proof.
  intros Hm w. destruct (transaction m w) as [[a|e] w'] eqn:H; simpl.
  - apply transaction_Ok in H as (w0 & w1 & (Hd & _) & H & (Hd' & _)). rewrite Hd', <- Hd. by eapply Hm.
  - by rewrite (transaction_Error _ _ _ _ H).
Qed.

End Invert.
