(* ===== verification/Repos.v ===== *)
(** * The repositories ([internal/repositories])

    One Module per repository, one definition per method.  Each method is the
    statements it issues, scoped to the tenant of its context as the source
    scopes them; a struct the method also updates in memory is returned. *)

From S2P Require Import Prelude Store Models World Sql.

Open Scope Z_scope.
Open Scope monad_scope.

(** [ORDER BY]: stable insertion by a comparison. *)
Fixpoint insert_by {R} (before : R -> R -> bool) (r : R) (l : list R) : list R :=
  match l with
  | [] => [r]
  | x :: l' => if before r x then r :: l else x :: insert_by before r l'
  end.

Fixpoint order_by {R} (before : R -> R -> bool) (l : list R) : list R :=
  match l with
  | [] => []
  | r :: l => insert_by before r (order_by before l)
  end.

Definition newest {R} (key : R -> Z) (a b : R) : bool := key b <=? key a.

Section Repos.
Context {ST : Store}.

(** [WHERE id = ? AND tenant_id = ?] on users. *)
Definition user_scope (ctx : Ctx) (id : Z) : DB -> User.row -> bool :=
  fun _ u => (User.ID u =? id) && bool_decide (User.TenantID u = FromContext ctx).

End Repos.

Module UserRepository.
Section S.
Context {ST : Store}.
Import User.

(** The unique indexes on (tenant, username) and (tenant, email). *)
Definition clash (a b : row) : bool :=
  bool_decide (TenantID a = TenantID b) &&
  (bool_decide (Username a = Username b) || bool_decide (Email a = Email b)).

Definition username_key (u : row) : string * string := (TenantID u, Username u).
Definition email_key (u : row) : string * string := (TenantID u, Email u).

Definition unique (l : list row) : bool :=
  bool_decide (NoDup (map username_key l)) && bool_decide (NoDup (map email_key l)).

(** The row inserted has the database's id and the scoped tenant. *)
Definition Create (ctx : Ctx) (user : row) : M row :=
  let! tid := scopeTenant ctx (TenantID user) in
  let! t := now in
  Create clash (fun id =>
    mk id tid (Username user) (Email user) (Password user) (FullName user) (Role user)
       (IsActive user) (IsEmailVerified user) (FailedLoginAttempts user) (LockedUntil user)
       (AuthEpoch user) (AdminSuspended user) (PwdVersion user) t).

Definition FindByID (ctx : Ctx) (id : Z) : M (option row) :=
  optional (First (user_scope ctx id)).

Definition FindByEmail (ctx : Ctx) (email : string) : M (option row) :=
  optional (First (fun _ u => bool_decide (Email u = email) &&
                              bool_decide (TenantID u = FromContext ctx))).

Definition FindByUsername (ctx : Ctx) (username : string) : M (option row) :=
  optional (First (fun _ u => bool_decide (Username u = username) &&
                              bool_decide (TenantID u = FromContext ctx))).

Definition Update (ctx : Ctx) (user : row) : M unit :=
  scopeTenant ctx (TenantID user) ;;;
  updateScopedUnique unique (user_scope ctx (ID user))
    (fun u => set_FullName (FullName user) (set_Username (Username user) u)).

Definition UpdateEmail (ctx : Ctx) (user : row) : M unit :=
  scopeTenant ctx (TenantID user) ;;;
  updateScopedUnique unique (user_scope ctx (ID user))
    (fun u => set_IsEmailVerified (IsEmailVerified user) (set_Email (Email user) u)).

Definition Deactivate (ctx : Ctx) (userID : Z) : M unit :=
  updateScoped (user_scope ctx userID) (set_IsActive false).

Definition Erase (ctx : Ctx) (user : row) : M unit :=
  scopeTenant ctx (TenantID user) ;;;
  updateScopedUnique unique (user_scope ctx (ID user))
    (fun u => set_IsEmailVerified false (set_IsActive false (set_FullName ""
      (set_Password "" (set_Username (Username user) (set_Email (Email user) u)))))).

Definition UpdatePassword (ctx : Ctx) (user : row) (hashedPassword : string) : M unit :=
  updateScoped (user_scope ctx (ID user)) (set_Password hashedPassword).

Definition IncrementFailedAttempts (ctx : Ctx) (user : row) (lockUntil : option Z) : M unit :=
  updateScoped (user_scope ctx (ID user))
    (fun u => let u := set_FailedLoginAttempts (FailedLoginAttempts u + 1) u in
              match lockUntil with Some _ => set_LockedUntil lockUntil u | None => u end).

Definition ResetFailedAttempts (ctx : Ctx) (user : row) : M row :=
  updateScoped (user_scope ctx (ID user))
    (fun u => set_LockedUntil None (set_FailedLoginAttempts 0 u)) ;;;
  ret (set_LockedUntil None (set_FailedLoginAttempts 0 user)).

Definition BumpPwdVersion (ctx : Ctx) (userID : Z) : M unit :=
  updateScoped (user_scope ctx userID) (fun u => set_PwdVersion (PwdVersion u + 1) u).

Definition CredentialChangeTx (ctx : Ctx) (userID : Z) (hashedPassword : string)
    (revokeRefresh : M unit) : M unit :=
  transaction (
    updateScoped (user_scope ctx userID)
      (fun u => set_PwdVersion (PwdVersion u + 1) (set_LockedUntil None
        (set_FailedLoginAttempts 0 (set_Password hashedPassword u)))) ;;;
    revokeRefresh).

(** gorm writes [updated_at] too, so every row the condition selects changes. *)
Definition SetFirstPassword (ctx : Ctx) (userID : Z) (hashedPassword : string) : M bool :=
  let q : DB -> row -> bool := fun d u => user_scope ctx userID d u && bool_decide (Password u = "") in
  stmt (fun w =>
    let l := get_rows w in
    (Ok (0 <? Z.of_nat (count_where (q (w_db w)) l)),
     put_rows (update_where (q (w_db w)) (set_Password hashedPassword) l) w)).

Definition SetEmailVerified (ctx : Ctx) (user : row) (verified : bool) : M unit :=
  updateScoped (user_scope ctx (ID user)) (set_IsEmailVerified verified).

Definition SetLock (ctx : Ctx) (userID : Z) (lockedUntil : option Z) : M unit :=
  updateScoped (user_scope ctx userID)
    (fun u => let u := set_LockedUntil lockedUntil u in
              match lockedUntil with None => set_FailedLoginAttempts 0 u | Some _ => u end).

End S.
End UserRepository.

Module RefreshTokenRepository.
Section S.
Context {ST : Store}.
Import RefreshToken.

Definition clash (a b : row) : bool := bool_decide (TokenHash a = TokenHash b).

Definition Create (ctx : Ctx) (rt : row) : M row :=
  requireOwner ctx (UserID rt) ;;;
  let! t := now in
  Create clash (fun id =>
    mk id (UserID rt) (TokenHash rt) (ExpiresAt rt) (Revoked rt) (IPAddress rt) (UserAgent rt)
       (DeviceName rt) (LocationEstimate rt) (LastActiveAt rt) (SessionID rt) t).

Definition FindByHash (ctx : Ctx) (hash : string) : M (option row) :=
  optional (First (ownedRows ctx UserID (fun r => bool_decide (TokenHash r = hash)))).

Definition FindActiveByUser (ctx : Ctx) (userID : Z) : M (list row) :=
  let! t := now in
  let! rows := Find (ownedRows ctx UserID
    (fun r => (UserID r =? userID) && negb (Revoked r) && (t <? ExpiresAt r))) in
  ret (order_by (newest LastActiveAt) (order_by (newest ID) rows)).

Definition RevokeByID (ctx : Ctx) (id userID : Z) : M unit :=
  let! n := Updates (ownedRows ctx UserID (fun r => (ID r =? id) && (UserID r =? userID)))
                    (set_Revoked true) in
  if n =? 0 then fail ErrRecordNotFound else ret tt.

(** The compare-and-set: only a row still unrevoked matches. *)
Definition Revoke (ctx : Ctx) (rt : row) : M unit :=
  let! n := Updates (ownedRows ctx UserID (fun r => (ID r =? ID rt) && negb (Revoked r)))
                    (set_Revoked true) in
  if n =? 0 then fail ErrTokenAlreadyRevoked else ret tt.

Definition RevokeAllForUserTx (ctx : Ctx) (userID : Z) : M unit :=
  Updates (ownedRows ctx UserID (fun r => (UserID r =? userID) && negb (Revoked r)))
          (set_Revoked true) ;;; ret tt.

Definition RevokeAllForUser (ctx : Ctx) (userID : Z) : M unit :=
  requireOwner ctx userID ;;;
  Updates (ownedRows ctx UserID (fun r => (UserID r =? userID) && negb (Revoked r)))
          (set_Revoked true) ;;; ret tt.

Definition RevokeBySession (ctx : Ctx) (sessionID : string) : M unit :=
  Updates (ownedRows ctx UserID (fun r => bool_decide (SessionID r = sessionID) && negb (Revoked r)))
          (set_Revoked true) ;;; ret tt.

(** Two delete streams, the second also when the first removed nothing; an error
    comes with the count removed before it. *)
Definition PurgeExpired (before : Z) : M (nat * option Err) :=
  let! (expired, err) := batchedDelete (fun r => ExpiresAt r <? before) in
  match err with
  | Some _ => ret (expired, err)
  | None => let! (revoked, err) := batchedDelete Revoked in ret ((expired + revoked)%nat, err)
  end.

End S.
End RefreshTokenRepository.

Module SessionRepository.
Section S.
Context {ST : Store}.
Import Session.

Definition scope (ctx : Ctx) (p : row -> bool) : DB -> row -> bool :=
  fun _ s => bool_decide (TenantID s = FromContext ctx) && p s.

Definition clash (a b : row) : bool := bool_decide (ID a = ID b).

Definition Create (ctx : Ctx) (s : row) : M row :=
  let! tid := scopeTenant ctx (TenantID s) in
  requireOwner ctx (UserID s) ;;;
  let! t := now in
  Create clash (fun _ =>
    mk (ID s) tid (UserID s) (IPAddress s) (UserAgent s) (DeviceName s) (LocationEstimate s)
       (Revoked s) (LastActiveAt s) (ExpiresAt s) t).

Definition FindByID (ctx : Ctx) (id : string) : M (option row) :=
  optional (First (scope ctx (fun s => bool_decide (ID s = id)))).

Definition FindActiveByUser (ctx : Ctx) (userID : Z) : M (list row) :=
  let! t := now in
  let! rows := Find (scope ctx
    (fun s => (UserID s =? userID) && negb (Revoked s) && (t <? ExpiresAt s))) in
  ret (order_by (newest LastActiveAt) rows).

Definition FindAllActiveByTenant (ctx : Ctx) (tenantID : string) : M (list row) :=
  let! tid := scopeTenant ctx tenantID in
  let! t := now in
  let! rows := Find (scope ctx
    (fun s => bool_decide (TenantID s = tid) && negb (Revoked s) && (t <? ExpiresAt s))) in
  ret (order_by (newest LastActiveAt) rows).

Definition Touch (ctx : Ctx) (id ip ua device location : string) (at_ : Z) : M unit :=
  updateScoped (scope ctx (fun s => bool_decide (ID s = id)))
    (fun s => set_LastActiveAt at_ (set_LocationEstimate location (set_DeviceName device
      (set_UserAgent ua (set_IPAddress ip s))))).

Definition RevokeByID (ctx : Ctx) (id : string) (userID : Z) : M unit :=
  let! n := Updates (scope ctx (fun s => bool_decide (ID s = id) && (UserID s =? userID)))
                    (set_Revoked true) in
  if n =? 0 then fail ErrRecordNotFound else ret tt.

Definition RevokeAllForUserTx (ctx : Ctx) (userID : Z) : M unit :=
  Updates (scope ctx (fun s => (UserID s =? userID) && negb (Revoked s))) (set_Revoked true) ;;;
  ret tt.

Definition RevokeAllForUser (ctx : Ctx) (userID : Z) : M unit :=
  requireOwner ctx userID ;;;
  Updates (scope ctx (fun s => (UserID s =? userID) && negb (Revoked s))) (set_Revoked true) ;;;
  ret tt.

End S.
End SessionRepository.

Module TOTPRepository.
Section S.
Context {ST : Store}.

Definition device_clash (a b : TOTPDevice.row) : bool :=
  TOTPDevice.UserID a =? TOTPDevice.UserID b.

Definition device_of (ctx : Ctx) (userID : Z) : DB -> TOTPDevice.row -> bool :=
  ownedRows ctx TOTPDevice.UserID (fun d => TOTPDevice.UserID d =? userID).

(** A device with no id yet is inserted; one that has it is overwritten. *)
Definition Upsert (ctx : Ctx) (d : TOTPDevice.row) : M unit :=
  requireOwner ctx (TOTPDevice.UserID d) ;;;
  if TOTPDevice.ID d =? 0 then
    Create device_clash (fun id =>
      TOTPDevice.mk id (TOTPDevice.UserID d) (TOTPDevice.Secret d) (TOTPDevice.SecretEncrypted d)
        (TOTPDevice.PendingSecretEncrypted d) (TOTPDevice.Enabled d)) ;;; ret tt
  else
    updateScoped (ownedRows ctx TOTPDevice.UserID
        (fun r => (TOTPDevice.ID r =? TOTPDevice.ID d) && (TOTPDevice.UserID r =? TOTPDevice.UserID d)))
      (fun r => TOTPDevice.mk (TOTPDevice.ID r) (TOTPDevice.UserID r) (TOTPDevice.Secret d)
        (TOTPDevice.SecretEncrypted d) (TOTPDevice.PendingSecretEncrypted d) (TOTPDevice.Enabled d)).

Definition FindByUserID (ctx : Ctx) (userID : Z) : M (option TOTPDevice.row) :=
  optional (First (device_of ctx userID)).

Definition Disable (ctx : Ctx) (userID : Z) : M unit :=
  requireOwner ctx userID ;;;
  Updates (device_of ctx userID)
    (fun d => TOTPDevice.set_Enabled false (TOTPDevice.set_Secret ""
      (TOTPDevice.set_SecretEncrypted "" (TOTPDevice.set_PendingSecretEncrypted "" d)))) ;;;
  ret tt.

Fixpoint create_codes (codes : list RecoveryCode.row) : M unit :=
  match codes with
  | [] => ret tt
  | c :: codes =>
      Create no_clash (fun id =>
        RecoveryCode.mk id (RecoveryCode.UserID c) (RecoveryCode.CodeHash c)
          (RecoveryCode.CodeEncrypted c) (RecoveryCode.UsedAt c)) ;;;
      create_codes codes
  end.

Definition ReplaceRecoveryCodes (ctx : Ctx) (userID : Z) (codes : list RecoveryCode.row) : M unit :=
  requireOwner ctx userID ;;;
  if existsb (fun c => negb (RecoveryCode.UserID c =? userID)) codes then fail ErrRecordNotFound
  else transaction (
    Delete (ownedRows ctx RecoveryCode.UserID (fun c => RecoveryCode.UserID c =? userID)) ;;;
    create_codes codes).

Definition ActiveRecoveryCodes (ctx : Ctx) (userID : Z) : M (list RecoveryCode.row) :=
  Find (ownedRows ctx RecoveryCode.UserID
    (fun c => (RecoveryCode.UserID c =? userID) && bool_decide (RecoveryCode.UsedAt c = None))).

Definition MarkRecoveryCodeUsed (ctx : Ctx) (c : RecoveryCode.row) : M unit :=
  let! t := now in
  let! n := Updates (ownedRows ctx RecoveryCode.UserID
      (fun r => (RecoveryCode.ID r =? RecoveryCode.ID c) && bool_decide (RecoveryCode.UsedAt r = None)))
    (RecoveryCode.set_UsedAt (Some t)) in
  if n =? 0 then fail ErrRecoveryCodeUsed else ret tt.

End S.
End TOTPRepository.

Module UsedTokenRepository.
Section S.
Context {ST : Store}.
Import UsedToken.

Definition clash (a b : row) : bool := bool_decide (JTI a = JTI b).

(** A duplicate key means the token was already consumed. *)
Definition MarkUsed (ctx : Ctx) (jti tokenType : string) (userID exp : Z) : M bool :=
  let! r := try_ (Create clash (fun id => mk id jti tokenType userID exp)) in
  match r with
  | Ok _ => ret true
  | Error e => if decide (e = ErrDuplicateKey) then ret false else fail e
  end.

Definition IsUsed (ctx : Ctx) (jti : string) : M bool :=
  let! r := try_ (First (fun _ r => bool_decide (JTI r = jti))) in
  match r with
  | Ok _ => ret true
  | Error e => if decide (e = ErrRecordNotFound) then ret false else fail e
  end.

Definition PurgeExpired (before : Z) : M (nat * option Err) :=
  batchedDelete (fun r => ExpiresAt r <? before).

End S.
End UsedTokenRepository.

Module OAuthIdentityRepository.
Section S.
Context {ST : Store}.
Import OAuthIdentity.

Definition clash (a b : row) : bool :=
  bool_decide (Provider a = Provider b) && bool_decide (ProviderUserID a = ProviderUserID b).

Definition Create (ctx : Ctx) (identity : row) : M row :=
  requireOwner ctx (UserID identity) ;;;
  Create clash (fun id => mk id (UserID identity) (Provider identity) (ProviderUserID identity)).

Definition FindByProviderAndProviderUserID (ctx : Ctx) (provider uid : string) : M (option row) :=
  optional (First (ownedRows ctx UserID
    (fun r => bool_decide (Provider r = provider) && bool_decide (ProviderUserID r = uid)))).

Definition FindByUserIDAndProvider (ctx : Ctx) (userID : Z) (provider : string) : M (option row) :=
  optional (First (ownedRows ctx UserID
    (fun r => (UserID r =? userID) && bool_decide (Provider r = provider)))).

Definition DeleteByUserIDAndProvider (ctx : Ctx) (userID : Z) (provider : string) : M unit :=
  Delete (ownedRows ctx UserID
    (fun r => (UserID r =? userID) && bool_decide (Provider r = provider))) ;;; ret tt.

Definition DeleteAllByUserID (ctx : Ctx) (userID : Z) : M unit :=
  Delete (ownedRows ctx UserID (fun r => UserID r =? userID)) ;;; ret tt.

End S.
End OAuthIdentityRepository.

Module PasskeyRepository.
Section S.
Context {ST : Store}.
Import PasskeyCredential.

Definition clash (a b : row) : bool := bool_decide (CredentialID a = CredentialID b).

Definition Create (ctx : Ctx) (pc : row) : M row :=
  requireOwner ctx (UserID pc) ;;;
  Create clash (fun id =>
    mk id (UserID pc) (CredentialID pc) (PublicKey pc) (SignCount pc) (DisplayName pc)
       (Transports pc) (AttestationType pc) (LastUsedAt pc) (Revoked pc)).

Definition FindByCredentialID (ctx : Ctx) (credentialID : string) : M (option row) :=
  optional (First (ownedRows ctx UserID (fun r => bool_decide (CredentialID r = credentialID)))).

Definition ListByUser (ctx : Ctx) (userID : Z) (includeRevoked : bool) : M (list row) :=
  let! rows := Find (ownedRows ctx UserID
    (fun r => (UserID r =? userID) && (includeRevoked || negb (Revoked r)))) in
  ret (order_by (newest ID) rows).

Definition TouchUsage (ctx : Ctx) (id signCount usedAt : Z) : M unit :=
  updateScoped (ownedRows ctx UserID (fun r => ID r =? id))
    (fun r => set_LastUsedAt (Some usedAt) (set_SignCount signCount r)).

Definition RevokeByID (ctx : Ctx) (id userID : Z) : M unit :=
  let! n := Updates (ownedRows ctx UserID
      (fun r => (ID r =? id) && (UserID r =? userID) && negb (Revoked r))) (set_Revoked true) in
  if n =? 0 then fail ErrRecordNotFound else ret tt.

Definition RevokeAllForUser (ctx : Ctx) (userID : Z) : M unit :=
  requireOwner ctx userID ;;;
  Updates (ownedRows ctx UserID (fun r => (UserID r =? userID) && negb (Revoked r)))
    (set_Revoked true) ;;; ret tt.

End S.
End PasskeyRepository.

Module TrustedDeviceRepository.
Section S.
Context {ST : Store}.
Import TrustedDevice.

Definition clash (a b : row) : bool := bool_decide (DeviceHash a = DeviceHash b).

Definition Create (ctx : Ctx) (d : row) : M row :=
  requireOwner ctx (UserID d) ;;;
  let! t := now in
  Create clash (fun id =>
    mk id (UserID d) (DeviceHash d) (DeviceName d) (IPAddress d) (LastUsedAt d) (ExpiresAt d)
       (Revoked d) t).

Definition FindByDeviceHash (ctx : Ctx) (hash : string) : M (option row) :=
  let! t := now in
  optional (First (ownedRows ctx UserID
    (fun d => bool_decide (DeviceHash d = hash) && negb (Revoked d) && (t <? ExpiresAt d)))).

Definition TouchUsage (ctx : Ctx) (id at_ : Z) : M unit :=
  updateScoped (ownedRows ctx UserID (fun d => ID d =? id)) (set_LastUsedAt (Some at_)).

Definition ListByUser (ctx : Ctx) (userID : Z) : M (list row) :=
  let! t := now in
  let! rows := Find (ownedRows ctx UserID
    (fun d => (UserID d =? userID) && negb (Revoked d) && (t <? ExpiresAt d))) in
  ret (order_by (newest CreatedAt) rows).

Definition Revoke (ctx : Ctx) (id userID : Z) : M unit :=
  let! n := Updates (ownedRows ctx UserID (fun d => (ID d =? id) && (UserID d =? userID)))
              (set_Revoked true) in
  if n =? 0 then fail ErrRecordNotFound else ret tt.

End S.
End TrustedDeviceRepository.

Module RBACRepository.
Section S.
Context {ST : Store}.

Definition role_clash (a b : Role.row) : bool :=
  bool_decide (Role.TenantID a = Role.TenantID b) && bool_decide (Role.Name a = Role.Name b).

Fixpoint create_grants (roleID : Z) (perms : list Permission.row) : M unit :=
  match perms with
  | [] => ret tt
  | p :: perms =>
      Create (fun a b => (RolePermission.RoleID a =? RolePermission.RoleID b) &&
                         (RolePermission.PermissionID a =? RolePermission.PermissionID b))
             (fun _ => RolePermission.mk roleID (Permission.ID p)) ;;;
      create_grants roleID perms
  end.

Definition CreateRole (ctx : Ctx) (role : Role.row) (permNames : list string) : M Role.row :=
  let! tid := scopeTenant ctx (Role.TenantID role) in
  transaction (
    let! r := Create role_clash (fun id => Role.mk id tid (Role.Name role)) in
    (if bool_decide (permNames = []) then ret tt
     else let! perms := Find (fun _ p => bool_decide (Permission.Name p ∈ permNames)) in
          create_grants (Role.ID r) perms) ;;;
    ret r).

Definition AssignRoleToUser (ctx : Ctx) (userID roleID : Z) : M unit :=
  transaction (
    requireOwner ctx userID ;;;
    First (fun _ r => (Role.ID r =? roleID) && bool_decide (Role.TenantID r = FromContext ctx)) ;;;
    Create (fun a b => (UserRole.UserID a =? UserRole.UserID b) && (UserRole.RoleID a =? UserRole.RoleID b))
           (fun _ => UserRole.mk userID roleID) ;;;
    Updates (user_scope ctx userID) (fun u => User.set_AuthEpoch (User.AuthEpoch u + 1) u) ;;;
    ret tt).

(** The joins of [GetUserPermissions] and [UserHasPermission]: permission [p]
    is held by [userID] through a role of tenant [tid], and the user is of it. *)
Definition role_in (tid : string) (roleID : Z) (d : DB) : bool :=
  existsb (fun r => (Role.ID r =? roleID) && bool_decide (Role.TenantID r = tid)) (roles d).

Definition granted (tid : string) (userID : Z) (d : DB) (p : Permission.row) : bool :=
  user_in tid userID d &&
  existsb (fun ur =>
    (UserRole.UserID ur =? userID) && role_in tid (UserRole.RoleID ur) d &&
    existsb (fun rp => (RolePermission.RoleID rp =? UserRole.RoleID ur) &&
                       (RolePermission.PermissionID rp =? Permission.ID p))
            (role_permissions d))
    (user_roles d).

(** [SELECT DISTINCT name] *)
Definition GetUserPermissions (ctx : Ctx) (userID : Z) : M (list string) :=
  let! ps := Find (granted (FromContext ctx) userID) in
  ret (remove_dups (map Permission.Name ps)).

Definition UserHasPermission (ctx : Ctx) (userID : Z) (permission : string) : M bool :=
  let! n := Count (fun d p => granted (FromContext ctx) userID d p &&
                              bool_decide (Permission.Name p = permission)) in
  ret (0 <? n).

End S.
End RBACRepository.
