(* ===== verification/Jwt.v ===== *)
(** * JSON web tokens ([internal/jwt])

    Claims, the manager with its rotating key set, issuing and verifying
    ([jwt.go], [v1.go]).  The golang-jwt library is the class [JwtLib]: the
    HS256 signature and [ParseWithClaims], with its documented checks as laws. *)

From S2P Require Import Prelude Store Models World.

Open Scope Z_scope.
Open Scope monad_scope.

Definition TokenTypeAccess : string := "access".
Definition TokenTypeReset : string := "reset".
Definition TokenTypeEmailVerify : string := "verify-email".
Definition TokenTypeMFAPending : string := "mfa_pending".
Definition TokenTypeSudo : string := "sudo".

Definition Issuer_ : string := "finnapigo".
Definition FinnAudience : string := "finnapigo-api".
Definition JakeAudience : string := "jakeai-service".
Definition MaxAccessTTL : Z := 900 * second.
Definition MaxSkew : Z := 30 * second.
Definition KeyDrain : Z := MaxAccessTTL + MaxSkew.

(** [Claims], the registered claims inlined. *)
Record Claims := mkClaims {
  UserID : Z; Role : string; Email : string; Type_ : string; PwdVer : Z; AuthEpoch : Z;
  ContractVersion : Z; SID : string; TenantID : string; Permissions : option (list string);
  Issuer : string; Subject : string; Audience : list string;
  ExpiresAt : option Z; NotBefore : option Z; IssuedAt : option Z; ID : string
}.

(** [jwt.NewNumericDate]: whole seconds. *)
Definition NumericDate (t : Z) : Z := t / second * second.

(** The JSON encoding of [Claims]: field tags, [omitempty] fields left out; one
    audience is encoded as an array too ([MarshalSingleStringAsArray]). *)
Definition when (b : bool) (m : string * JV) : Obj := if b then [m] else [].

Definition date_json (name : string) (t : option Z) : Obj :=
  match t with Some t => [(name, JInt (t / second))] | None => [] end.

Definition claims_json (c : Claims) : Obj :=
  [("uid", JInt (UserID c))] ++
  when (negb (bool_decide (Role c = ""))) ("role", JText (Role c)) ++
  when (negb (bool_decide (Email c = ""))) ("email", JText (Email c)) ++
  [("type", JText (Type_ c)); ("pwdver", JInt (PwdVer c)); ("auth_epoch", JInt (AuthEpoch c))] ++
  when (negb (ContractVersion c =? 0)) ("contract_ver", JInt (ContractVersion c)) ++
  when (negb (bool_decide (SID c = ""))) ("sid", JText (SID c)) ++
  when (negb (bool_decide (TenantID c = ""))) ("tid", JText (TenantID c)) ++
  [("perms", match Permissions c with Some l => JList (map JText l) | None => JNull end)] ++
  when (negb (bool_decide (Issuer c = ""))) ("iss", JText (Issuer c)) ++
  when (negb (bool_decide (Subject c = ""))) ("sub", JText (Subject c)) ++
  when (negb (bool_decide (Audience c = []))) ("aud", JList (map JText (Audience c))) ++
  date_json "exp" (ExpiresAt c) ++ date_json "nbf" (NotBefore c) ++ date_json "iat" (IssuedAt c) ++
  when (negb (bool_decide (ID c = ""))) ("jti", JText (ID c)).

Definition header_json (kid : string) : Obj :=
  [("alg", JText "HS256"); ("kid", JText kid); ("typ", JText "JWT")].

Definition member (name : string) (o : Obj) : option JV :=
  snd <$> first_where (fun m => bool_decide (fst m = name)) o.

(** The parser's options: issuer, leeway, whether [iat] is validated. *)
Record ParserOptions := mkOptions { o_issuer : string; o_leeway : Z; o_iat : bool }.

Class JwtLib := {
  hs256 : string -> Obj -> Obj -> string;
  alg_known : string -> bool;               (* a registered signing method *)
  ParseWithClaims : string -> ParserOptions -> Z -> Token -> option Claims
}.

(** What the parser checks of the registered claims at a time. *)
Definition times_ok (o : ParserOptions) (now : Z) (c : Claims) : Prop :=
  (exists e, ExpiresAt c = Some e /\ now < e + o_leeway o) /\
  (forall n, NotBefore c = Some n -> n <= now + o_leeway o) /\
  (o_iat o = true -> forall i, IssuedAt c = Some i -> i <= now + o_leeway o).

(** Claims of the Go types: [uint] and [int64] fields, whole-second dates. *)
Definition claims_wf (c : Claims) : Prop :=
  0 <= UserID c < 2 ^ 64 /\ - 2 ^ 63 <= PwdVer c < 2 ^ 63 /\ - 2 ^ 63 <= AuthEpoch c < 2 ^ 63 /\
  - 2 ^ 63 <= ContractVersion c < 2 ^ 63 /\
  forall t, In (Some t) [ExpiresAt c; NotBefore c; IssuedAt c] -> t mod second = 0.

Class JwtLaws (J : JwtLib) : Prop := {
  alg_hs256 : alg_known "HS256" = true;
  parse_sound : forall key o now t c, ParseWithClaims key o now t = Some c ->
    (exists h p, t = Compact (Some h) (Some p) (hs256 key h p) /\ member "alg" h = Some (JText "HS256")) /\
    Issuer c = o_issuer o /\ times_ok o now c;
  parse_decode : forall key o now key' o' now' t c c',
    ParseWithClaims key o now t = Some c -> ParseWithClaims key' o' now' t = Some c' -> c = c';
  parse_complete : forall key o now kid c,
    claims_wf c -> Issuer c = o_issuer o -> times_ok o now c ->
    ParseWithClaims key o now
      (Compact (Some (header_json kid)) (Some (claims_json c)) (hs256 key (header_json kid) (claims_json c)))
    = Some c
}.

(** ** The manager *)

Record JWTManager := mkManager {
  strict : bool; previousID : string; previousRetires : Z; issuer : string;
  current : string; currentKid : string; keys : list (string * string); tryOrder : list string
}.

Definition key_of (m : JWTManager) (kid : string) : option string :=
  snd <$> first_where (fun e => bool_decide (fst e = kid)) (keys m).

(** [kidFor]: the first 8 hex digits of the key's SHA-256. *)
Definition kidFor `{Ext} (secret : string) : string := String.substring 0 8 (sha256_hex secret).

Definition newJWTManager `{Ext} (current previous issuer : string) : JWTManager :=
  let k := kidFor current in
  let p := kidFor previous in
  if bool_decide (previous = "") || bool_decide (p = k)
  then mkManager false "" 0 issuer current k [(k, current)] [k]
  else mkManager false "" 0 issuer current k [(k, current); (p, previous)] [k; p].

(** The names a JSON decoder folds onto an ASCII name: letter case, the long s
    (U+017F) and the Kelvin sign (U+212A). *)
Fixpoint fold_name (s : string) : string :=
  match s with
  | EmptyString => EmptyString
  | String a s' =>
      match byte_of a, s' with
      | 197%N, String b s'' =>
          if (byte_of b =? 191)%N then String "s"%char (fold_name s'') else String a (fold_name s')
      | 226%N, String b (String c s'') =>
          if ((byte_of b =? 132) && (byte_of c =? 170))%N then String "k"%char (fold_name s'')
          else String a (fold_name s')
      | _, _ => String (lower_ascii a) (fold_name s')
      end
  end.

(** [strings.EqualFold] against an ASCII name. *)
Definition EqualFold (key canonical : string) : bool :=
  bool_decide (fold_name key = fold_name canonical).

Definition header_names : list string :=
  ["alg"; "kid"; "typ"; "cty"; "crit"; "jku"; "jwk"; "x5u"; "x5c"; "x5t"; "x5t#S256"; "b64"].

Definition claim_names : list string :=
  ["contract_ver"; "iss"; "aud"; "sub"; "uid"; "type"; "tid"; "exp"; "iat"; "nbf"; "jti"; "sid";
   "pwdver"; "auth_epoch"; "perms"; "role"; "email"; "tenant_id"; "permissions"; "roles"; "scopes";
   "id"].

(** [uniqueObject]: the members, unless a name repeats. *)
Fixpoint uniqueObject (o : Obj) : option Obj :=
  match o with
  | [] => Some []
  | (k, v) :: o' =>
      if existsb (fun m => bool_decide (fst m = k)) o' then None
      else (fun r => (k, v) :: r) <$> uniqueObject o'
  end.

Definition names_exact (names : list string) (o : Obj) : bool :=
  forallb (fun m => forallb (fun c =>
    negb (negb (bool_decide (fst m = c)) && EqualFold (fst m) c)) names) o.

Definition validateTokenNames (t : Token) : option Err :=
  match t with
  | Compact (Some h) (Some p) _ =>
      match uniqueObject h with
      | Some ho =>
          if names_exact header_names ho then
            match uniqueObject p with
            | Some po => if names_exact claim_names po then None else Some ErrJwtInvalid
            | None => Some ErrJwtInvalid
            end
          else Some ErrJwtInvalid
      | None => Some ErrJwtInvalid
      end
  | _ => Some ErrJwtInvalid
  end.

Section Manager.
Context {J : JwtLib}.

(** [peekKid]: the unverified header's kid, empty when there is none or the
    header names no known algorithm.  The last member of a name wins. *)
Definition peekKid (t : Token) : string :=
  match t with
  | Compact (Some h) (Some _) _ =>
      match member "alg" (rev h), member "kid" (rev h) with
      | Some (JText a), Some (JText k) => if alg_known a then k else ""
      | _, _ => ""
      end
  | _ => ""
  end.

Definition is_present (o : Obj) (name : string) : bool :=
  match member name o with None | Some JNull => false | Some _ => true end.

Definition nonneg_int64 (o : Obj) (name : string) : bool :=
  match member name o with Some (JInt n) => (0 <=? n) && (n <? 2 ^ 63) | _ => false end.

Definition all_text (o : Obj) (name : string) : bool :=
  match member name o with
  | Some (JList l) => forallb (fun v => match v with JText _ => true | _ => false end) l
  | _ => false
  end.

Definition required_names : list string :=
  ["contract_ver"; "iss"; "aud"; "sub"; "uid"; "type"; "tid"; "exp"; "iat"; "nbf"; "jti"; "sid";
   "pwdver"; "auth_epoch"; "perms"].

Definition forbidden_names : list string := ["tenant_id"; "permissions"; "roles"; "scopes"; "id"].

Definition integer_names : list string :=
  ["contract_ver"; "uid"; "pwdver"; "auth_epoch"; "exp"; "iat"; "nbf"].

(** The loop over the audiences: each known, none twice. *)
Fixpoint scan_audience (l : list string) (audience : string) (found finn jake : bool) : option (bool * bool) :=
  match l with
  | [] => Some (found, finn)
  | a :: l =>
      let found := found || bool_decide (a = audience) in
      if decide (a = FinnAudience) then if finn then None else scan_audience l audience found true jake
      else if decide (a = JakeAudience) then if jake then None else scan_audience l audience found finn true
      else None
  end.

Definition audience_ok (l : list string) (audience : string) : bool :=
  ((length l =? 1)%nat || (length l =? 2)%nat) &&
  match scan_audience l audience false false false with
  | Some (found, finn) => found && finn
  | None => false
  end.

Definition raw_ok (h p : Obj) : bool :=
  match uniqueObject p, uniqueObject h with
  | Some raw, Some _ =>
      forallb (is_present raw) required_names &&
      forallb (fun n => negb (bool_decide (is_Some (member n raw)))) forbidden_names &&
      forallb (nonneg_int64 raw) integer_names && all_text raw "perms"
  | _, _ => false
  end.

Definition fields_ok (c : Claims) : bool :=
  (ContractVersion c =? 1) && bool_decide (Issuer c = Issuer_) &&
  bool_decide (Type_ c = TokenTypeAccess) && negb (UserID c =? 0) &&
  bool_decide (Subject c = fmt_d (UserID c)) && negb (bool_decide (trim_space (TenantID c) = "")) &&
  negb (bool_decide (ID c = "")) && negb (bool_decide (SID c = "")) &&
  bool_decide (is_Some (Permissions c)) && (0 <=? PwdVer c) && (0 <=? AuthEpoch c).

Definition dates_ok (now : Z) (c : Claims) : bool :=
  match ExpiresAt c, IssuedAt c, NotBefore c with
  | Some e, Some i, Some n =>
      (0 <? e - i) && (e - i <=? MaxAccessTTL) && (i <=? n) && (n <=? e) &&
      (i <=? now + MaxSkew) && (n <=? now + MaxSkew) && (now <? e + MaxSkew)
  | _, _, _ => false
  end.

Definition validateAccess (now : Z) (t : Token) (c : Claims) (audience : string) : bool :=
  match t with
  | Compact (Some h) (Some p) _ =>
      raw_ok h p && fields_ok c && dates_ok now c && audience_ok (Audience c) audience
  | _ => false
  end.

Definition purpose_ok (c : Claims) : bool :=
  negb (bool_decide (TenantID c = "")) && negb (UserID c =? 0) &&
  bool_decide (Subject c = fmt_d (UserID c)) &&
  bool_decide (Audience c = ["finnapigo-purpose:" +:+ Type_ c]) &&
  bool_decide (is_Some (IssuedAt c)) && bool_decide (is_Some (NotBefore c)).

Definition parser_options (m : JWTManager) : ParserOptions :=
  if strict m then mkOptions (issuer m) MaxSkew true else mkOptions (issuer m) 0 false.

(** [parse] *)
Definition parse (m : JWTManager) (now : Z) (t : Token) (key : string) : Res Claims :=
  match ParseWithClaims key (parser_options m) now t with
  | None => Error EInfra
  | Some c =>
      if strict m then
        if decide (Type_ c = TokenTypeAccess) then
          if validateAccess now t c FinnAudience then Ok c else Error ErrJwtInvalid
        else if purpose_ok c then Ok c else Error ErrJwtInvalid
      else Ok c
  end.

(** Kid-less legacy tokens: each key in turn; the first key's error stands. *)
Fixpoint parse_any (m : JWTManager) (now : Z) (t : Token) (kids : list string) (err : Err) : Res Claims :=
  match kids with
  | [] => Error err
  | kid :: kids =>
      match parse m now t (default "" (key_of m kid)) with
      | Ok c => Ok c
      | Error _ => parse_any m now t kids err
      end
  end.

Definition Verify (m : JWTManager) (now : Z) (t : Token) : Res Claims :=
  match (if strict m then validateTokenNames t else None) with
  | Some e => Error e
  | None =>
      let kid := peekKid t in
      if negb (bool_decide (kid = "")) then
        if strict m && bool_decide (kid = previousID m) && (previousRetires m <=? now)
        then Error ErrUnknownKeyID
        else match key_of m kid with
             | None => Error ErrUnknownKeyID
             | Some key => parse m now t key
             end
      else if strict m then Error ErrUnknownKeyID
      else match tryOrder m with
           | [] => Error EInfra
           | kid :: _ =>
               let first_err := match parse m now t (default "" (key_of m kid)) with
                                | Error e => e | Ok _ => EInfra end in
               parse_any m now t (tryOrder m) first_err
           end
  end.

Definition VerifyAccessV1 (m : JWTManager) (now : Z) (t : Token) (audience : string) : Res Claims :=
  if negb (bool_decide (audience = FinnAudience)) && negb (bool_decide (audience = JakeAudience))
  then Error ErrJwtInvalid
  else match Verify m now t with
       | Error e => Error e
       | Ok c => if validateAccess now t c audience then Ok c else Error ErrJwtInvalid
       end.

(** *** Issuing *)

Definition sign (m : JWTManager) (c : Claims) : Token :=
  let h := header_json (currentKid m) in
  Compact (Some h) (Some (claims_json c)) (hs256 (current m) h (claims_json c)).

Definition baseClaims (m : JWTManager) (now userID : Z) (role email tokenType : string) (ttl : Z) : Claims :=
  mkClaims userID role email tokenType 0 0 0 "" "" None (issuer m) (fmt_d userID) []
    (Some (NumericDate (now + ttl))) (Some (NumericDate now)) (Some (NumericDate now)) "".

Definition set_ID (v : string) (c : Claims) : Claims :=
  mkClaims (UserID c) (Role c) (Email c) (Type_ c) (PwdVer c) (AuthEpoch c) (ContractVersion c)
    (SID c) (TenantID c) (Permissions c) (Issuer c) (Subject c) (Audience c) (ExpiresAt c)
    (NotBefore c) (IssuedAt c) v.

Definition set_purpose (aud : list string) (tid : string) (c : Claims) : Claims :=
  mkClaims (UserID c) (Role c) (Email c) (Type_ c) (PwdVer c) (AuthEpoch c) (ContractVersion c)
    (SID c) tid (Permissions c) (Issuer c) (Subject c) aud (ExpiresAt c)
    (NotBefore c) (IssuedAt c) (ID c).

(** The access claims of [IssueAccessV1] and [IssueAccessEnterprise]. *)
Definition set_access (ver pwdVer epoch : Z) (jti sid tid : string) (perms aud : list string) (c : Claims) : Claims :=
  mkClaims (UserID c) (Role c) (Email c) (Type_ c) pwdVer epoch ver sid tid (Some perms)
    (Issuer c) (Subject c) aud (ExpiresAt c) (NotBefore c) (IssuedAt c) jti.

Definition audience_of (perms : list string) : list string :=
  if existsb (fun p => bool_decide (p = "chat:read") || bool_decide (p = "chat:write")) perms
  then [FinnAudience; JakeAudience] else [FinnAudience].

Context {ST : Store} {E : Ext}.

Definition Issue (m : JWTManager) (userID : Z) (role email tokenType : string) (ttl : Z)
    (tenantID : string) : M Token :=
  if strict m && bool_decide (tokenType = TokenTypeAccess) then fail ErrJwtInvalid else
  let! t := now in
  let c := baseClaims m t userID role email tokenType ttl in
  if strict m && bool_decide (tenantID = "") then fail ErrJwtInvalid else
  let c := set_purpose (if strict m then ["finnapigo-purpose:" +:+ tokenType] else []) tenantID c in
  if bool_decide (tokenType = TokenTypeReset) || bool_decide (tokenType = TokenTypeEmailVerify) then
    let! jti := NewUUID in ret (sign m (set_ID jti c))
  else ret (sign m c).

Definition IssueAccessV1 (m : JWTManager) (userID : Z) (role email : string) (ttl pwdVer authEpoch : Z)
    (sid tid : string) (perms : list string) : M Token :=
  if (userID =? 0) || bool_decide (sid = "") || bool_decide (tid = "") || (pwdVer <? 0) ||
     (authEpoch <? 0) || (ttl <=? 0) || (MaxAccessTTL <? ttl)
  then fail ErrJwtInvalid
  else
    let! t := now in
    let! jti := NewUUID in
    ret (sign m (set_access 1 pwdVer authEpoch jti sid tid perms (audience_of perms)
                   (baseClaims m t userID role email TokenTypeAccess ttl))).

Definition IssueAccessEnterprise (m : JWTManager) (userID : Z) (role email : string) (ttl pwdVer : Z)
    (sid tid : string) (perms : list string) : M Token :=
  if strict m then IssueAccessV1 m userID role email ttl pwdVer 0 sid tid perms
  else
    let! t := now in
    let! jti := NewUUID in
    ret (sign m (set_access 0 pwdVer 0 jti sid tid perms []
                   (baseClaims m t userID role email TokenTypeAccess ttl))).

(** The constructors and the issuance the unit fixtures use; a strict manager
    refuses the latter. *)
Definition NewJWTManager (secret iss : string) : JWTManager := newJWTManager secret "" iss.

Definition NewRotatingJWTManager (cur previous iss : string) : JWTManager :=
  newJWTManager cur (if bool_decide (previous = cur) then "" else previous) iss.

Definition IssueAccess (m : JWTManager) (userID : Z) (role email : string) (ttl pwdVer : Z)
    (sessionID : string) : M Token :=
  if strict m then fail ErrJwtInvalid else
  let! t := now in
  let! jti := NewUUID in
  let c := baseClaims m t userID role email TokenTypeAccess ttl in
  ret (sign m (mkClaims (UserID c) (Role c) (Email c) (Type_ c) pwdVer 0 0 sessionID "" None
    (Issuer c) (Subject c) [] (ExpiresAt c) (NotBefore c) (IssuedAt c) jti)).

End Manager.
