(* ===== verification/JwtSpec.v ===== *)
(** * What tokens guarantee

    An access token verifies from its issuance to its expiry (plus the skew) and
    gives back the claims it was issued with; its audience follows from the
    permissions; whatever verifies was signed by a live key for its purpose. *)

From S2P Require Import Prelude Store Models World Jwt.

Open Scope Z_scope.
Open Scope monad_scope.

Ltac token_lia := unfold MaxSkew, MaxAccessTTL in *; time_lia.

Section Access.
Context {J : JwtLib} {JL : JwtLaws J}.

(** The claims of an issued access token. *)
Definition access_claims (m : JWTManager) (t uid : Z) (role email : string)
    (ttl ver epoch : Z) (jti sid tid : string) (perms : list string) : Claims :=
  set_access 1 ver epoch jti sid tid perms (audience_of perms)
    (baseClaims m t uid role email TokenTypeAccess ttl).

Lemma numeric_date_bounds t : NumericDate t <= t < NumericDate t + second.
Proof.
  unfold NumericDate. pose proof (Z.div_mod t second). pose proof (Z.mod_pos_bound t second).
  token_lia.
Qed.

Lemma numeric_date_mod t : NumericDate t mod second = 0.
Proof. unfold NumericDate. apply Z.mod_mul. done. Qed.

Lemma numeric_date_div t : NumericDate t / second = t / second.
Proof. unfold NumericDate. apply Z.div_mul. done. Qed.

Lemma numeric_date_add t d : d mod second = 0 -> NumericDate (t + d) = NumericDate t + d.
Proof.
  intros H. unfold NumericDate. pose proof (Z.div_mod d second ltac:(done)) as Hd.
  rewrite H, Z.add_0_r in Hd. rewrite Hd at 1. rewrite (Z.mul_comm second).
  rewrite Z.div_add by done. lia.
Qed.

Lemma nonempty_true (s : string) : s <> "" -> negb (bool_decide (s = "")) = true.
Proof. intros H. by rewrite bool_decide_false. Qed.

Lemma uniqueObject_NoDup (o : Obj) : NoDup (map fst o) -> uniqueObject o = Some o.
Proof.
  induction o as [|[k v] o IH]; intros H; [done|]. simpl in *.
  inversion H as [|? ? Hk Hn]; subst. rewrite IH by done.
  assert (existsb (fun m : string * JV => bool_decide (fst m = k)) o = false) as ->; [|done].
  apply not_true_iff_false. rewrite existsb_exists. intros ((k' & v') & Hin & Hd).
  apply bool_decide_eq_true in Hd. simpl in Hd. subst. apply Hk, list_elem_of_In.
  by apply in_map_iff; exists (k, v').
Qed.

(** The members of an access token, for any role and email. *)
Lemma access_members m t uid role email ttl ver epoch jti sid tid perms :
  jti <> "" -> sid <> "" -> tid <> "" -> issuer m = Issuer_ -> uid <> 0 ->
  claims_json (access_claims m t uid role email ttl ver epoch jti sid tid perms) =
  [("uid", JInt uid)] ++
  when (negb (bool_decide (role = ""))) ("role", JText role) ++
  when (negb (bool_decide (email = ""))) ("email", JText email) ++
  [("type", JText TokenTypeAccess); ("pwdver", JInt ver); ("auth_epoch", JInt epoch);
   ("contract_ver", JInt 1); ("sid", JText sid); ("tid", JText tid);
   ("perms", JList (map JText perms)); ("iss", JText Issuer_); ("sub", JText (fmt_d uid));
   ("aud", JList (map JText (audience_of perms)));
   ("exp", JInt ((t + ttl) / second)); ("nbf", JInt (t / second)); ("iat", JInt (t / second));
   ("jti", JText jti)].
Proof.
  intros Hj Hs Ht Hi Hu. unfold claims_json, access_claims, set_access, baseClaims.
  cbn [UserID Role Email Type_ PwdVer AuthEpoch ContractVersion SID TenantID Permissions Issuer
       Subject Audience ExpiresAt NotBefore IssuedAt ID date_json].
  rewrite Hi, !numeric_date_div. unfold when.
  rewrite (nonempty_true sid), (nonempty_true tid), (nonempty_true jti) by done.
  rewrite (nonempty_true (fmt_d uid)) by apply fmt_d_nonempty.
  assert (negb (bool_decide (audience_of perms = [])) = true) as ->.
  { unfold audience_of. by destruct (existsb _ _). }
  done.
Qed.

Lemma all_text_map l : forallb (fun v => match v with JText _ => true | _ => false end) (map JText l) = true.
Proof. by induction l. Qed.

Lemma access_raw_ok kid m t uid role email ttl ver epoch jti sid tid perms :
  jti <> "" -> sid <> "" -> tid <> "" -> issuer m = Issuer_ ->
  0 < uid < 2 ^ 63 -> 0 <= ver < 2 ^ 63 -> 0 <= epoch < 2 ^ 63 ->
  0 <= t / second -> 0 <= (t + ttl) / second < 2 ^ 63 -> t / second < 2 ^ 63 ->
  let p := claims_json (access_claims m t uid role email ttl ver epoch jti sid tid perms) in
  raw_ok (header_json kid) p = true /\ uniqueObject p = Some p /\ names_exact claim_names p = true.
Proof.
  intros Hj Hs Ht Hi Hu Hv He H1 H2 H3 p. unfold p. rewrite access_members by (done || lia).
  assert (forall n, 0 <= n < 2 ^ 63 -> (0 <=? n) && (n <? 2 ^ 63) = true) as Hb.
  { intros n Hn. apply andb_true_iff. split; [apply Z.leb_le|apply Z.ltb_lt]; lia. }
  pose proof (Hb uid ltac:(lia)) as B1. pose proof (Hb ver Hv) as B2. pose proof (Hb epoch He) as B3.
  pose proof (Hb (t / second) ltac:(lia)) as B4. pose proof (Hb _ H2) as B5. clear Hb.
  pose proof (all_text_map perms) as B6. clear - B1 B2 B3 B4 B5 B6.
  generalize dependent (map JText perms). generalize dependent (fmt_d uid). intros sub pl B6.
  generalize (map JText (audience_of perms)). intros al.
  generalize dependent (t / second). generalize dependent ((t + ttl) / second). intros e B5 i B4.
  set (o := _ ++ _ ++ _ ++ _).
  assert (uniqueObject o = Some o) as Hun.
  { apply uniqueObject_NoDup. unfold o, when.
    destruct (bool_decide (role = "")), (bool_decide (email = "")); apply (bool_decide_unpack _); vm_compute; done. }
  unfold raw_ok. rewrite Hun.
  assert (uniqueObject (header_json kid) = Some (header_json kid)) as -> by reflexivity.
  split; [|split; [done|]].
  - assert (forall n v, nonneg_int64 o n = true -> forallb (nonneg_int64 o) v = true ->
              forallb (nonneg_int64 o) (n :: v) = true) as Hcons by (intros n v H1 H2; simpl; by rewrite H1, H2).
    apply andb_true_iff; split; [apply andb_true_iff; split; [apply andb_true_iff; split|]|].
    + unfold o, when. destruct (bool_decide (role = "")), (bool_decide (email = "")); vm_compute; reflexivity.
    + unfold o, when. destruct (bool_decide (role = "")), (bool_decide (email = "")); vm_compute; reflexivity.
    + unfold integer_names. unfold o, when in *.
      destruct (bool_decide (role = "")), (bool_decide (email = ""));
      repeat apply Hcons; first [exact B1|exact B2|exact B3|exact B4|exact B5|vm_compute; reflexivity].
    + unfold o, when. destruct (bool_decide (role = "")), (bool_decide (email = "")); exact B6.
  - unfold o, when. destruct (bool_decide (role = "")), (bool_decide (email = "")); reflexivity.
Qed.


(** A manager built from the deployment's key configuration. *)
Definition deployed (m : JWTManager) : Prop :=
  strict m = true /\ issuer m = Issuer_ /\ key_of m (currentKid m) = Some (current m) /\
  currentKid m <> "" /\ previousID m <> currentKid m.

Lemma numeric_date_mono a b : a <= b -> NumericDate a <= NumericDate b.
Proof.
  intros H. unfold NumericDate. apply Z.mul_le_mono_nonneg_r; [done|]. by apply Z.div_le_mono.
Qed.

Lemma ttl_dates t ttl :
  second <= ttl <= MaxAccessTTL -> 0 < NumericDate (t + ttl) - NumericDate t <= MaxAccessTTL.
Proof.
  intros H. pose proof (numeric_date_mono (t + second) (t + ttl) ltac:(lia)) as H1.
  pose proof (numeric_date_mono (t + ttl) (t + MaxAccessTTL) ltac:(lia)) as H2.
  rewrite (numeric_date_add t second) in H1 by reflexivity. rewrite (numeric_date_add t MaxAccessTTL) in H2 by reflexivity. token_lia.
Qed.

Lemma scan_audience_of perms aud :
  aud = FinnAudience \/ aud = JakeAudience ->
  audience_ok (audience_of perms) aud = bool_decide (aud ∈ audience_of perms).
Proof.
  unfold audience_of. intros [->| ->]; destruct (existsb _ perms); vm_compute; reflexivity.
Qed.

(** Everything about one issued access token, at one later time. *)
Section Issued.
Context (m : JWTManager) (t0 uid : Z) (role email : string) (ttl ver epoch : Z)
  (jti sid tid : string) (perms : list string).
Context (Hm : deployed m) (Huid : 0 < uid < 2 ^ 63) (Hver : 0 <= ver < 2 ^ 63)
  (Hepoch : 0 <= epoch < 2 ^ 63) (Hjti : jti <> "") (Hsid : sid <> "") (Htid : trim_space tid <> "")
  (Httl : second <= ttl <= MaxAccessTTL) (Ht0 : 0 <= t0) (Hmax : t0 + ttl < 2 ^ 63).

Let c := access_claims m t0 uid role email ttl ver epoch jti sid tid perms.
Let tok := sign m c.

Lemma issued_tid : tid <> "".
Proof. by intros ->. Qed.

Lemma issued_raw : raw_ok (header_json (currentKid m)) (claims_json c) = true /\
  uniqueObject (claims_json c) = Some (claims_json c) /\ names_exact claim_names (claims_json c) = true.
Proof.
  destruct Hm as (_ & Hi & _). apply access_raw_ok; try done.
  - apply issued_tid.
  - apply Z.div_pos; [done|]. done.
  - split; [apply Z.div_pos; [token_lia|done]|].
    apply Z.le_lt_trans with (t0 + ttl); [|done]. apply Z.div_le_upper_bound; [done|].
    token_lia.
  - apply Z.le_lt_trans with (t0 + ttl); [|done].
    apply Z.div_le_upper_bound; [done|]. token_lia.
Qed.

Lemma issued_names : validateTokenNames tok = None.
Proof.
  destruct issued_raw as (_ & Hu & Hn). unfold tok, sign, validateTokenNames.
  replace (uniqueObject (header_json (currentKid m))) with (Some (header_json (currentKid m))) by reflexivity.
  replace (names_exact header_names (header_json (currentKid m))) with true by reflexivity.
  by rewrite Hu, Hn.
Qed.

Lemma issued_kid : peekKid tok = currentKid m.
Proof.
  unfold tok, sign, peekKid.
  replace (member "alg" (rev (header_json (currentKid m)))) with (Some (JText "HS256")) by reflexivity.
  replace (member "kid" (rev (header_json (currentKid m)))) with (Some (JText (currentKid m))) by reflexivity.
  by rewrite alg_hs256.
Qed.

Lemma issued_times t : t0 <= t ->
  (t < NumericDate (t0 + ttl) + MaxSkew <-> times_ok (parser_options m) t c).
Proof.
  intros Ht. destruct Hm as (Hs & _). unfold parser_options, times_ok. rewrite Hs. simpl.
  pose proof (numeric_date_bounds t0). unfold c. simpl. split.
  - intros H1. split; [eauto|]. split; intros; simplify_eq; token_lia.
  - intros [(e & [= <-] & H1) _]. done.
Qed.

Lemma issued_parse t : t0 <= t < NumericDate (t0 + ttl) + MaxSkew ->
  ParseWithClaims (current m) (parser_options m) t tok = Some c.
Proof.
  intros Ht. destruct Hm as (Hs & Hi & _). apply parse_complete.
  - unfold c, claims_wf. simpl. repeat split; try lia.
    intros x [[= <-]|[[= <-]|[[= <-]|[]]]]; apply numeric_date_mod.
  - unfold parser_options. by rewrite Hs.
  - apply issued_times; lia.
Qed.

Lemma issued_access t aud :
  t0 <= t < NumericDate (t0 + ttl) + MaxSkew -> aud = FinnAudience \/ aud = JakeAudience ->
  validateAccess t tok c aud = bool_decide (aud ∈ audience_of perms).
Proof.
  intros Ht Ha. destruct Hm as (_ & Hi & _). destruct issued_raw as (Hr & _).
  unfold tok, sign, validateAccess. rewrite Hr. cbn [andb].
  assert (fields_ok c = true) as ->.
  { unfold fields_ok, c. simpl. rewrite Hi. rewrite !bool_decide_true by (done || eauto).
    rewrite (nonempty_true _ Htid), (nonempty_true _ Hjti), (nonempty_true _ Hsid).
    destruct (Z.eqb_spec uid 0); [lia|]. destruct (Z.leb_spec 0 ver); [|lia].
    by destruct (Z.leb_spec 0 epoch); [|lia]. }
  assert (dates_ok t c = true) as ->; [|by apply scan_audience_of].
  pose proof (ttl_dates t0 ttl Httl) as Hd. pose proof (numeric_date_bounds t0) as Hb.
  unfold dates_ok, c. simpl. repeat (apply andb_true_iff; split);
    first [apply Z.leb_le|apply Z.ltb_lt]; token_lia.
Qed.

Lemma issued_verify t : t0 <= t < NumericDate (t0 + ttl) + MaxSkew -> Verify m t tok = Ok c.
Proof.
  intros Ht. destruct Hm as (Hs & Hi & Hk & Hne & Hp). unfold Verify.
  rewrite Hs, issued_names, issued_kid, Hk, (nonempty_true _ Hne).
  rewrite (bool_decide_false (currentKid m = previousID m)) by congruence. cbn [andb].
  unfold parse. rewrite (issued_parse t Ht), Hs. rewrite decide_True by reflexivity.
  rewrite (issued_access t) by (done || by left). rewrite bool_decide_true; [done|].
  unfold audience_of. destruct (existsb _ _); by left.
Qed.

Lemma issued_expired t : NumericDate (t0 + ttl) + MaxSkew <= t -> exists e, Verify m t tok = Error e.
Proof.
  intros Ht. destruct Hm as (Hs & Hi & Hk & Hne & Hp). unfold Verify.
  rewrite Hs, issued_names, issued_kid, Hk, (nonempty_true _ Hne).
  rewrite (bool_decide_false (currentKid m = previousID m)) by congruence. cbn [andb].
  unfold parse. destruct (ParseWithClaims (current m) (parser_options m) t tok) as [c'|] eqn:E; [|eauto].
  pose proof (ttl_dates t0 ttl Httl) as Hd. pose proof (numeric_date_bounds t0) as Hb.
  assert (t0 <= t0 < NumericDate (t0 + ttl) + MaxSkew) as H0
    by (token_lia).
  pose proof (parse_decode _ _ _ _ _ _ _ _ _ E (issued_parse t0 H0)) as ->.
  apply parse_sound in E as (_ & _ & Hok).
  apply issued_times in Hok; token_lia.
Qed.

End Issued.


Context {ST : Store} {E : Ext} {EL : ExtLaws E}.

Lemma issue_access_inv m uid role email ttl ver epoch sid tid perms w tok w' :
  IssueAccessV1 m uid role email ttl ver epoch sid tid perms w = (Ok tok, w') ->
  uid <> 0 /\ sid <> "" /\ tid <> "" /\ 0 <= ver /\ 0 <= epoch /\ 0 < ttl <= MaxAccessTTL /\
  tok = sign m (access_claims m (w_now w) uid role email ttl ver epoch (new_uuid (w_uuid w)) sid tid perms).
Proof.
  unfold IssueAccessV1. destruct (_ || (MaxAccessTTL <? ttl)) eqn:Hc; [done|].
  bool_prop. intros [= <- _]. repeat split; done || lia.
Qed.

Lemma verify_sound m now t c :
  strict m = true -> Verify m now t = Ok c ->
  exists h p key,
    t = Compact (Some h) (Some p) (hs256 key h p) /\ member "alg" h = Some (JText "HS256") /\
    key_of m (peekKid t) = Some key /\ ~ (peekKid t = previousID m /\ previousRetires m <= now) /\
    is_Some (uniqueObject h) /\ is_Some (uniqueObject p) /\
    Issuer c = issuer m /\ times_ok (parser_options m) now c /\
    if decide (Type_ c = TokenTypeAccess) then validateAccess now t c FinnAudience = true
    else purpose_ok c = true.
Proof.
  intros Hs. unfold Verify. rewrite Hs. cbn [andb].
  destruct (validateTokenNames t) eqn:Hn; [done|].
  destruct (negb (bool_decide (peekKid t = ""))) eqn:Hk; [|done].
  destruct (bool_decide _ && _) eqn:Hr; [done|].
  destruct (key_of m (peekKid t)) as [key|] eqn:Hkey; [|done].
  unfold parse. rewrite Hs. destruct (ParseWithClaims key _ now t) as [c'|] eqn:Hp; [|done].
  pose proof (parse_sound _ _ _ _ _ Hp) as ((h & p & -> & Ha) & Hi & He).
  unfold parser_options in Hi. rewrite Hs in Hi. simpl in Hi.
  intros Hc. exists h, p, key. unfold validateTokenNames in Hn.
  destruct (uniqueObject h) eqn:Huh; [|done]. destruct (names_exact _ _) in Hn; [|done].
  destruct (uniqueObject p) eqn:Hup; [|done].
  assert (c' = c /\ if decide (Type_ c = TokenTypeAccess)
     then validateAccess now (Compact (Some h) (Some p) (hs256 key h p)) c FinnAudience = true
     else purpose_ok c = true) as [<- Hv].
  { destruct (decide _) as [Ht|Ht].
    - destruct (validateAccess _ _ _ _) eqn:Hv; [|done]. injection Hc as <-. split; [done|].
      by rewrite decide_True.
    - destruct (purpose_ok _) eqn:Hv; [|done]. injection Hc as <-. split; [done|].
      by rewrite decide_False. }
  do 3 (split; [done|]). split; [|by eauto 8]. intros [H1 H2]. rewrite bool_decide_true in Hr by done.
  simpl in Hr. apply Z.leb_gt in Hr. lia.
Qed.

(** The key ring a configured manager has: the current key and at most one previous
    one. *)
Definition ringed (m : JWTManager) : Prop :=
  keys m = [(currentKid m, current m)] \/
  exists previous, keys m = [(currentKid m, current m); (previousID m, previous)].

Lemma ringed_key m kid key : ringed m -> key_of m kid = Some key ->
  (kid = currentKid m /\ key = current m) \/ (kid = previousID m /\ In (kid, key) (keys m)).
Proof.
  unfold key_of. intros [Hk|[prev Hk]] H; rewrite Hk in *; simpl in H.
  - case_bool_decide as Hd; simplify_eq/=; auto.
  - case_bool_decide as Hd; [by simplify_eq/=; auto|]. case_bool_decide as Hd2; [|done].
    simplify_eq/=. right. split; [done|]. right. by left.
Qed.

(** The dates of what verifies, from the parser and from the contract. *)
Lemma verified_dates m now t c :
  strict m = true -> times_ok (parser_options m) now c ->
  (if decide (Type_ c = TokenTypeAccess) then validateAccess now t c FinnAudience = true else purpose_ok c = true) ->
  exists e i n, ExpiresAt c = Some e /\ IssuedAt c = Some i /\ NotBefore c = Some n /\
    now < e + MaxSkew /\ i <= now + MaxSkew /\ n <= now + MaxSkew /\
    (Type_ c = TokenTypeAccess -> i < e <= i + MaxAccessTTL /\ i <= n <= e).
Proof.
  intros Hs ((e & He & Hle) & Hn & Hi) H. unfold parser_options in *. rewrite Hs in *. simpl in *.
  assert (is_Some (IssuedAt c) /\ is_Some (NotBefore c)) as [[i Hei] [n Hen]].
  { destruct (decide _) in H; [|by unfold purpose_ok in H; bool_prop].
    unfold validateAccess, dates_ok in H. destruct t as [[h|] [p|] sg|]; try done. rewrite He in H.
    destruct (IssuedAt c), (NotBefore c); rewrite ?andb_false_r in H; eauto; done. }
  exists e, i, n. repeat (split; [by auto|]). intros Ht. rewrite decide_True in H by done.
  unfold validateAccess, dates_ok in H. destruct t as [[h|] [p|] sg|]; try done. rewrite He, Hei, Hen in H.
  bool_prop. lia.
Qed.



Lemma audience_of_spec perms aud :
  aud ∈ audience_of perms <->
  aud = FinnAudience \/ (aud = JakeAudience /\ ("chat:read" ∈ perms \/ "chat:write" ∈ perms)).
Proof.
  unfold audience_of. destruct (existsb _ perms) eqn:H.
  - apply existsb_exists in H as (p & Hin & Hp). apply list_elem_of_In in Hin.
    assert ("chat:read" ∈ perms \/ "chat:write" ∈ perms) as Hc.
    { apply orb_true_iff in Hp as [Hp|Hp]; bool_prop; subst; auto. }
    rewrite !elem_of_cons, elem_of_nil. tauto.
  - assert (~ ("chat:read" ∈ perms \/ "chat:write" ∈ perms)) as Hc.
    { intros Hc. apply not_true_iff_false in H. apply H, existsb_exists.
      destruct Hc as [Hc|Hc]; apply list_elem_of_In in Hc; eexists; (split; [exact Hc|done]). }
    rewrite elem_of_cons, elem_of_nil. tauto.
Qed.

Lemma scan_audience_found l aud : forall found finn jake b,
  scan_audience l aud found finn jake = Some (true, b) -> found = true \/ aud ∈ l.
Proof.
  induction l as [|a l IH]; intros found finn jake b; simpl; [by intros [= -> _]; left|].
  assert (forall found', found' = found || bool_decide (a = aud) -> found' = true -> found = true \/ aud ∈ a :: l) as Hd.
  { intros ? -> H. apply orb_true_iff in H as [H|H]; [by left|]. bool_prop. subst. right. by left. }
  repeat case_match; intros Hs; try done; apply IH in Hs as [Hs|Hs];
    [by eapply Hd| |by eapply Hd|]; right; by right.
Qed.

Lemma audience_ok_In l aud : audience_ok l aud = true -> aud ∈ l.
Proof.
  unfold audience_ok. intros H. apply andb_true_iff in H as [_ H].
  destruct (scan_audience l aud false false false) as [[found finn]|] eqn:Hsc; [|done].
  bool_prop. subst. by apply scan_audience_found in Hsc as [?|?].
Qed.

Lemma verify_access_ok m t tok c aud :
  Verify m t tok = Ok c ->
  (VerifyAccessV1 m t tok aud = Ok c <->
   (aud = FinnAudience \/ aud = JakeAudience) /\ validateAccess t tok c aud = true).
Proof.
  intros Hv. unfold VerifyAccessV1. rewrite Hv.
  destruct (decide (aud = FinnAudience)) as [Hf|Hf], (decide (aud = JakeAudience)) as [Hj|Hj];
    rewrite ?(bool_decide_true _ Hf), ?(bool_decide_false _ Hf), ?(bool_decide_true _ Hj),
      ?(bool_decide_false _ Hj); cbn [negb andb];
    destruct (validateAccess _ _ _ _); split; intuition congruence.
Qed.

Lemma verify_access_err m t tok e aud c : Verify m t tok = Error e -> VerifyAccessV1 m t tok aud <> Ok c.
Proof. intros Hv. unfold VerifyAccessV1. rewrite Hv. by destruct (_ && _). Qed.

End Access.

(** ** A concrete token library, to run the model on examples *)

Module Toy.

Fixpoint jv_text (v : JV) : string :=
  match v with
  | JText s => "s" +:+ fmt_d (str_len s) +:+ ":" +:+ s
  | JInt n => "n" +:+ fmt_d n +:+ ";"
  | JFrac s => "f" +:+ s +:+ ";"
  | JTrue => "t"
  | JFalse => "u"
  | JNull => "z"
  | JList l => "[" +:+ String.concat "," (map jv_text l) +:+ "]"
  | JMembers o => "{" +:+ String.concat "," (map (fun m => fst m +:+ ":" +:+ jv_text (snd m)) o) +:+ "}"
  end.

Definition texts (v : option JV) : option (list string) :=
  match v with
  | Some (JList l) => Some (map (fun x => match x with JText s => s | _ => "" end) l)
  | _ => None
  end.

Definition text (v : option JV) : string := match v with Some (JText s) => s | _ => "" end.
Definition int (v : option JV) : Z := match v with Some (JInt n) => n | _ => 0 end.
Definition date (v : option JV) : option Z :=
  match v with Some (JInt n) => Some (n * second) | _ => None end.

Definition decode (o : Obj) : Claims :=
  let g n := member n o in
  mkClaims (int (g "uid")) (text (g "role")) (text (g "email")) (text (g "type")) (int (g "pwdver"))
    (int (g "auth_epoch")) (int (g "contract_ver")) (text (g "sid")) (text (g "tid"))
    (texts (g "perms")) (text (g "iss")) (text (g "sub")) (default [] (texts (g "aud")))
    (date (g "exp")) (date (g "nbf")) (date (g "iat")) (text (g "jti")).

Definition before (t : option Z) (limit : Z) : bool :=
  match t with Some t => t <=? limit | None => true end.

Definition times_okb (o : ParserOptions) (now : Z) (c : Claims) : bool :=
  match ExpiresAt c with Some e => now <? e + o_leeway o | None => false end &&
  before (NotBefore c) (now + o_leeway o) &&
  (negb (o_iat o) || before (IssuedAt c) (now + o_leeway o)).

Definition sig (k : string) (h p : Obj) : string :=
  k +:+ "|" +:+ jv_text (JMembers h) +:+ "|" +:+ jv_text (JMembers p).

#[local] Instance lib : JwtLib := {|
  hs256 := sig;
  alg_known a := bool_decide (a = "HS256");
  ParseWithClaims key o now t :=
    match t with
    | Compact (Some h) (Some p) s =>
        let c := decode p in
        if bool_decide (s = sig key h p) &&
           bool_decide (text (member "alg" h) = "HS256") &&
           bool_decide (Issuer c = o_issuer o) && times_okb o now c
        then Some c else None
    | _ => None
    end
|}.

Lemma before_spec t l : before t l = true <-> forall n, t = Some n -> n <= l.
Proof.
  destruct t as [t|]; simpl; [|by split]. rewrite Z.leb_le. split; [by intros ? ? [= <-]|eauto].
Qed.

Lemma times_okb_spec o now c : times_okb o now c = true <-> times_ok o now c.
Proof.
  unfold times_okb, times_ok. rewrite !andb_true_iff, orb_true_iff, negb_true_iff, !before_spec.
  destruct (ExpiresAt c) as [e|].
  - rewrite Z.ltb_lt. split.
    + intros [[H1 H2] H3]. split; [eauto|]. split; [done|]. intros Ho. destruct H3; [congruence|done].
    + intros [(e' & [= <-] & H1) [H2 H3]]. split; [done|]. destruct (o_iat o); [right|left]; auto.
  - split; [by intros [[? _] _]|]. by intros [(? & ? & _) _].
Qed.

Lemma member_cons n n' v o : member n ((n', v) :: o) = if String.eqb n' n then Some v else member n o.
Proof.
  unfold member. simpl. destruct (String.eqb_spec n' n) as [H|H].
  - by rewrite bool_decide_true.
  - by rewrite bool_decide_false.
Qed.

Lemma member_when n n' b v o :
  member n (when b (n', v) ++ o) =
  if String.eqb n' n then if b then Some v else member n o else member n o.
Proof. destruct b; simpl; [apply member_cons|by destruct (String.eqb _ _)]. Qed.

Lemma member_date n n' t o :
  member n (date_json n' t ++ o) =
  if String.eqb n' n then match t with Some t => Some (JInt (t / second)) | None => member n o end
  else member n o.
Proof. destruct t; simpl; [apply member_cons|by destruct (String.eqb _ _)]. Qed.

Ltac member_step :=
  first [rewrite member_cons|rewrite member_when|rewrite member_date];
  match goal with |- context [String.eqb ?a ?b] =>
    let r := eval vm_compute in (String.eqb a b) in change (String.eqb a b) with r; cbv iota
  end.

(** Finds one field of the encoding of claims. *)
Ltac find_member :=
  intros; unfold claims_json;
  rewrite <- (app_nil_r (when _ ("jti", _))); cbn [app]; repeat member_step.

Lemma text_when s o : text o = "" ->
  text (if negb (bool_decide (s = "")) then Some (JText s) else o) = s.
Proof. intros Ho. case_bool_decide as H; simpl; [by rewrite Ho|done]. Qed.

Lemma texts_map l : texts (Some (JList (map JText l))) = Some l.
Proof. simpl. rewrite map_map. by rewrite map_id. Qed.

Lemma date_div t : (forall x, t = Some x -> x mod second = 0) ->
  date (match t with Some t => Some (JInt (t / second)) | None => None end) = t.
Proof.
  destruct t as [t|]; [|done]. intros H. simpl. f_equal.
  pose proof (Z.div_mod t second ltac:(done)). rewrite (H t) in * by done. lia.
Qed.

Lemma ints_back c :
  int (member "uid" (claims_json c)) = UserID c /\ int (member "pwdver" (claims_json c)) = PwdVer c /\
  int (member "auth_epoch" (claims_json c)) = AuthEpoch c /\
  int (member "contract_ver" (claims_json c)) = ContractVersion c.
Proof.
  repeat split; find_member; try done. by destruct (Z.eqb_spec (ContractVersion c) 0) as [->|].
Qed.

Lemma texts_back c :
  text (member "role" (claims_json c)) = Role c /\ text (member "email" (claims_json c)) = Email c /\
  text (member "type" (claims_json c)) = Type_ c /\ text (member "sid" (claims_json c)) = SID c /\
  text (member "tid" (claims_json c)) = TenantID c /\ text (member "iss" (claims_json c)) = Issuer c /\
  text (member "sub" (claims_json c)) = Subject c /\ text (member "jti" (claims_json c)) = ID c.
Proof. repeat split; find_member; try done; by apply text_when. Qed.

Lemma lists_back c :
  texts (member "perms" (claims_json c)) = Permissions c /\
  default [] (texts (member "aud" (claims_json c))) = Audience c.
Proof.
  split; find_member.
  - destruct (Permissions c); [apply texts_map|done].
  - case_bool_decide as H; [by rewrite H|]. cbv beta iota delta [negb]. by rewrite texts_map.
Qed.

Lemma dates_back c : claims_wf c ->
  date (member "exp" (claims_json c)) = ExpiresAt c /\ date (member "nbf" (claims_json c)) = NotBefore c /\
  date (member "iat" (claims_json c)) = IssuedAt c.
Proof.
  intros (_ & _ & _ & _ & Hd).
  repeat split; find_member; apply date_div; intros x Hx; apply Hd; rewrite Hx; simpl; auto.
Qed.

Lemma decode_encode c : claims_wf c -> decode (claims_json c) = c.
Proof.
  intros Hc. destruct (ints_back c) as (I1 & I2 & I3 & I4).
  destruct (texts_back c) as (T1 & T2 & T3 & T4 & T5 & T6 & T7 & T8).
  destruct (lists_back c) as [L1 L2]. destruct (dates_back c Hc) as (D1 & D2 & D3).
  unfold decode. rewrite I1, I2, I3, I4, T1, T2, T3, T4, T5, T6, T7, T8, L1, L2, D1, D2, D3.
  by destruct c.
Qed.

Lemma laws : JwtLaws lib.
Proof.
  split; [reflexivity| | |].
  - intros key o now [[h|] [p|] s|] c; simpl; try done.
    destruct (_ && times_okb _ _ _) eqn:H; [|done]. intros [= <-]. bool_prop. subst.
    split; [|split; [done|by apply times_okb_spec]]. exists h, p. split; [done|].
    destruct (member "alg" h) as [[]|]; simpl in *; congruence.
  - intros key o now key' o' now' [[h|] [p|] s|] c c'; simpl; try done.
    repeat case_match; by intros [= <-] [= <-].
  - intros key o now kid c Hw Hi Ht. cbn [ParseWithClaims lib hs256]. rewrite decode_encode by done.
    rewrite !bool_decide_true by (done || reflexivity). apply times_okb_spec in Ht. by rewrite Ht.
Qed.

Definition manager : JWTManager :=
  mkManager true "k1" 1000000 Issuer_ "current secret" "k2"
    [("k2", "current secret"); ("k1", "previous secret")] [].

Lemma manager_deployed : deployed manager.
Proof. by repeat split. Qed.

End Toy.

(** C28: an access token issued by a deployed manager verifies, and gives back
    exactly the claims it was issued with, at every time from issuance until
    30 s past its expiry and at no time after; a service is accepted as audience
    exactly when it is FinnApiGo or the token carries a chat permission. *)
Theorem access_round_trip {J : JwtLib} {JL : JwtLaws J} {ST : Store} {E : Ext} {EL : ExtLaws E}
    (m : JWTManager) (uid : Z) (role email : string) (ttl ver epoch : Z) (sid tid : string)
    (perms : list string) (w w' : World) (tok : Token) :
  deployed m -> 0 < uid < 2 ^ 63 -> ver < 2 ^ 63 -> epoch < 2 ^ 63 -> trim_space tid <> "" ->
  second <= ttl -> 0 <= w_now w -> w_now w + ttl < 2 ^ 63 ->
  IssueAccessV1 m uid role email ttl ver epoch sid tid perms w = (Ok tok, w') ->
  exists c e,
    UserID c = uid /\ Role c = role /\ Email c = email /\ Type_ c = TokenTypeAccess /\
    PwdVer c = ver /\ AuthEpoch c = epoch /\ SID c = sid /\ TenantID c = tid /\
    Permissions c = Some perms /\ ID c = new_uuid (w_uuid w) /\
    ExpiresAt c = Some e /\ e <= w_now w + ttl < e + second /\
    (forall t aud, w_now w <= t < e + MaxSkew ->
       VerifyAccessV1 m t tok aud = Ok c <->
       aud = FinnAudience \/ (aud = JakeAudience /\ ("chat:read" ∈ perms \/ "chat:write" ∈ perms))) /\
    (forall t aud c', e + MaxSkew <= t -> VerifyAccessV1 m t tok aud <> Ok c').
Proof.
  intros Hm Hu Hv He Htid Httl H0 Hmax Hi.
  apply issue_access_inv in Hi as (Hu0 & Hs & Hte & Hv0 & He0 & Ht0 & ->).
  set (c := access_claims _ _ _ _ _ _ _ _ _ _ _ _).
  exists c, (NumericDate (w_now w + ttl)). pose proof (numeric_date_bounds (w_now w + ttl)) as Hb.
  repeat (split; [first [reflexivity|lia]|]). split.
  - intros t aud Ht. unfold c.
    rewrite (verify_access_ok m t _ _ aud) by (apply issued_verify; auto using new_uuid_nonempty; lia).
    rewrite <- audience_of_spec. split.
    + intros [Ha Hva]. rewrite (issued_access m) in Hva by (auto using new_uuid_nonempty; lia).
      by apply bool_decide_eq_true in Hva.
    + intros Ha. assert (aud = FinnAudience \/ aud = JakeAudience) as Ha' by (apply audience_of_spec in Ha; tauto).
      split; [done|]. rewrite (issued_access m) by (auto using new_uuid_nonempty; lia).
      by apply bool_decide_eq_true.
  - intros t aud c' Ht. destruct (issued_expired m (w_now w) uid role email ttl ver epoch
      (new_uuid (w_uuid w)) sid tid perms) with (t := t) as [e Hx]; auto using new_uuid_nonempty; try lia.
    exact (verify_access_err _ _ _ _ _ _ Hx).
Qed.

Definition demo_world : World (ST := mem_store) :=
  mkWorld (1700000000 * second) [] 5 0 empty_db Mem.NewInMemoryStore None [].

Lemma access_round_trip_witness :
  exists tok w',
    IssueAccessV1 (J := Toy.lib) (E := toy_ext) Toy.manager 7 "user" "a@b.io" (15 * minute) 2 3
      "sid-1" "default" ["chat:read"] demo_world = (Ok tok, w') /\
    exists c e,
      UserID c = 7 /\ ExpiresAt c = Some e /\
      VerifyAccessV1 (J := Toy.lib) Toy.manager (w_now demo_world + minute) tok JakeAudience = Ok c /\
      VerifyAccessV1 (J := Toy.lib) Toy.manager (e + MaxSkew) tok FinnAudience <> Ok c.
Proof.
  eexists _, _. split; [reflexivity|].
  destruct (access_round_trip (JL := Toy.laws) (EL := toy_laws) Toy.manager 7 "user" "a@b.io"
    (15 * minute) 2 3 "sid-1" "default" ["chat:read"] demo_world _ _ Toy.manager_deployed
    ltac:(lia) ltac:(lia) ltac:(lia) ltac:(by vm_compute) ltac:(by vm_compute) ltac:(by vm_compute) ltac:(by vm_compute) eq_refl)
    as (c & e & H1 & _ & _ & _ & _ & _ & _ & _ & _ & _ & He & Hb & Hv & Hx).
  exists c, e. split; [done|]. split; [done|]. split.
  - apply Hv; [|by right; split; [|left; left]].
    change (w_now demo_world) with (1700000000 * second) in *. token_lia.
  - by apply Hx.
Defined.

(** C29: nothing else verifies: a token a strict manager with a configured key ring
    accepts carries the HS256 signature of the current key, or of the previous one
    and then before its retirement; its header and payload repeat no name, its
    issuer is right, it has not expired and is neither issued nor valid only in the
    future (30 s of skew).  An access token lives 15 minutes at most, its dates are in
    order, it has the FinnApiGo audience and every member and field the contract
    demands; a token of another purpose carries exactly the audience of that purpose
    and names its tenant and subject. *)
Theorem verify_only_signed {J : JwtLib} {JL : JwtLaws J} (m : JWTManager) (now : Z) (t : Token) (c : Claims) :
  strict m = true -> ringed m -> Verify m now t = Ok c ->
  exists h p key,
    t = Compact (Some h) (Some p) (hs256 key h p) /\ member "alg" h = Some (JText "HS256") /\
    ((peekKid t = currentKid m /\ key = current m) \/
     (peekKid t = previousID m /\ now < previousRetires m /\ In (previousID m, key) (keys m))) /\
    is_Some (uniqueObject h) /\ is_Some (uniqueObject p) /\
    Issuer c = issuer m /\
    (exists e i n, ExpiresAt c = Some e /\ IssuedAt c = Some i /\ NotBefore c = Some n /\
       now < e + MaxSkew /\ i <= now + MaxSkew /\ n <= now + MaxSkew /\
       (Type_ c = TokenTypeAccess -> i < e <= i + MaxAccessTTL /\ i <= n <= e)) /\
    (Type_ c = TokenTypeAccess ->
       FinnAudience ∈ Audience c /\ raw_ok h p = true /\ ContractVersion c = 1 /\ Issuer c = Issuer_ /\
       UserID c <> 0 /\ Subject c = fmt_d (UserID c) /\ trim_space (TenantID c) <> "" /\ ID c <> "" /\
       SID c <> "" /\ is_Some (Permissions c) /\ 0 <= PwdVer c /\ 0 <= AuthEpoch c) /\
    (Type_ c <> TokenTypeAccess ->
       Audience c = ["finnapigo-purpose:" +:+ Type_ c] /\ TenantID c <> "" /\ UserID c <> 0 /\
       Subject c = fmt_d (UserID c)).
Proof.
  intros Hs Hring Hv. destruct (verify_sound m now t c Hs Hv)
    as (h & p & key & -> & Ha & Hk & Hr & Hh & Hp & Hi & He & Hc).
  exists h, p, key. do 2 (split; [done|]). split.
  { apply ringed_key in Hk as [Hk|[Hk Hin]]; [by left| |done]. right. rewrite Hk in Hr, Hin.
    split; [done|]. split; [|done]. destruct (Z.le_gt_cases (previousRetires m) now); [|lia]. by destruct Hr. }
  do 3 (split; [done|]). split; [by eapply verified_dates|]. split; intros Ht.
  - rewrite decide_True in Hc by done. unfold validateAccess, fields_ok in Hc. bool_prop.
    split; [by apply audience_ok_In|]. by repeat split.
  - rewrite decide_False in Hc by done. unfold purpose_ok in Hc. bool_prop. done.
Qed.

Lemma verify_only_signed_witness :
  let t := sign (J := Toy.lib) Toy.manager (access_claims Toy.manager (w_now demo_world) 7 "user"
             "a@b.io" (15 * minute) 2 3 "jti" "sid-1" "default" []) in
  exists c, Verify (J := Toy.lib) Toy.manager (w_now demo_world) t = Ok c /\
    exists h p key, t = Compact (Some h) (Some p) (hs256 (JwtLib := Toy.lib) key h p) /\ UserID c = 7.
Proof.
  intros t. eexists. split; [vm_compute; reflexivity|].
  destruct (verify_only_signed (JL := Toy.laws) Toy.manager (w_now demo_world) t _ eq_refl
    (or_intror (ex_intro _ "previous secret" eq_refl)) ltac:(vm_compute; reflexivity)) as (h & p & key & H & _).
  exists h, p, key. split; [exact H|reflexivity].
Defined.
