(* ===== verification/AuditTrail.v ===== *)
(** * The audit trail

    [Trail]: events, signing and checkpoints ([audit/audit.go]); [Outbox]: the
    transactional outbox and the operation boundary
    ([repositories/audit_outbox.go], [audit_repository.go]); [Archive]:
    verification, archive, purge and restore ([audit_archive.go]); [Writer]: the
    service-side writer ([services/async_audit.go]). *)

From S2P Require Import Prelude Store Models World Sql Repos.

Open Scope Z_scope.
Open Scope monad_scope.

Definition GenesisAuditHash : string :=
  "0000000000000000000000000000000000000000000000000000000000000000".

(** A signed reference to the end of a tenant's chain. *)
Module Checkpoint.

Record row := mk { Tenant : string; Sequence : Z; Hash : string; KeyID : string; MAC : string }.

#[global] Instance row_eq_dec : EqDecision row.
Proof. solve_decision. Defined.

End Checkpoint.

Module Trail.

(** [Keys]: the signing and checkpoint key rings. *)
Record Keys := mkKeys {
  k_current : string; signing : list (string * string);
  checkpoints : list (string * string); checkpointCurrent : string
}.

Definition lookup (id : string) (ring : list (string * string)) : option string :=
  snd <$> first_where (fun e => bool_decide (fst e = id)) ring.


Section S.
Context {E : Ext}.
Import AuditLog.

(** The ordered array an event is signed as. *)
Definition Canonical (e : row) : list JVal :=
  [ JStr "finn.audit.event.v1"; JNum (Version e); JStr (EventID e); JStr (TenantID e);
    JNum (default 0 (AuditLog.Sequence e)); JStr (PrevHash e); JStr (AuditLog.KeyID e);
    JNum (CreatedAt e / millisecond); JStr (ActorKind e); JNum (ActorID e);
    JNum (default 0 (UserID e)); JStr (RequestID e); JStr (Event e); JStr (Action e);
    JBool (Success e) ].

Definition Sign (k : Keys) (e : row) : row :=
  let e := set_KeyID (k_current k) e in
  set_RecordHash (hmac_hex (default "" (lookup (k_current k) (signing k))) (Canonical e)) e.

Definition Verify (k : Keys) (e : row) : option Err :=
  match lookup (AuditLog.KeyID e) (signing k), AuditLog.Sequence e with
  | Some key, Some n =>
      if (Version e =? 1) && negb (n =? 0) && bool_decide (hmac_hex key (Canonical e) = RecordHash e)
      then None else Some ErrIntegrity
  | _, _ => Some ErrIntegrity
  end.

Definition HasKey (k : Keys) (id : string) : bool := bool_decide (is_Some (lookup id (signing k))).

Definition checkpointBytes (c : Checkpoint.row) : list JVal :=
  [ JStr "finn.audit.checkpoint.v1"; JStr (Checkpoint.Tenant c); JNum (Checkpoint.Sequence c); JStr (Checkpoint.Hash c);
    JStr (Checkpoint.KeyID c) ].

Definition NewCheckpoint (k : Keys) (tid : string) (seq : Z) (hash : string) : Checkpoint.row :=
  let c := Checkpoint.mk tid seq hash (checkpointCurrent k) "" in
  Checkpoint.mk tid seq hash (checkpointCurrent k)
    (hmac_hex (default "" (lookup (checkpointCurrent k) (checkpoints k))) (checkpointBytes c)).

Definition VerifyCheckpoint (k : Keys) (c : Checkpoint.row) : option Err :=
  match lookup (Checkpoint.KeyID c) (checkpoints k) with
  | Some key => if bool_decide (hmac_hex key (checkpointBytes c) = Checkpoint.MAC c) then None else Some ErrIntegrity
  | None => Some ErrIntegrity
  end.

Context {ST : Store}.

(** [Capture]: the bounded copy of an event, its authority taken from the context. *)
Definition Capture (ctx : Ctx) (in_ : row) : M row :=
  if bool_decide (Event in_ = "") || (40 <? str_len (Event in_)) || (40 <? str_len (Action in_))
  then fail ErrIntegrity else
  let tid := FromContext ctx in
  if (36 <? str_len tid) ||
     (negb (bool_decide (TenantID in_ = "")) && negb (bool_decide (TenantID in_ = tid)))
  then fail ErrIntegrity else
  let! eventID := if bool_decide (EventID in_ = "") then NewUUID else ret (EventID in_) in
  if negb (is_uuid eventID) then fail ErrIntegrity else
  let! t := now in
  let actor := match c_actor ctx with Some id => if 0 <? id then Some id else None | None => None end in
  let kind := match actor with
              | Some _ => "authenticated"
              | None => if c_system ctx then "system" else "unauthenticated"
              end in
  let! requestID := if is_uuid (c_corr ctx) then ret (c_corr ctx) else NewUUID in
  ret (mk 0 tid (UserID in_) "" (Event in_) "" (Success in_) "" "" "" (t / millisecond * millisecond)
          1 eventID None "" kind (default 0 actor) requestID (Action in_)).

End S.
End Trail.

(** The fields of [AuditRepository] besides the database handle. *)
Record AuditRepository := mkAuditRepository { a_keys : Trail.Keys; maxPending : Z }.

Module Outbox.
Import AuditOutbox.
Section S.
Context {ST : Store} {E : Ext}.

Definition auditLease : Z := 30 * second.
Definition auditMaxAttempts : Z := 8.

(** Every error of the statement becomes [audit.ErrUnavailable]. *)
Definition or_unavailable {A} (m : M A) : M A :=
  let! r := try_ m in
  match r with Ok a => ret a | Error _ => fail ErrUnavailable end.

Definition clash (a b : row) : bool :=
  bool_decide (EventID a = EventID b) ||
  (bool_decide (TenantID a = TenantID b) && (Sequence a =? Sequence b)).

Definition log_clash (a b : AuditLog.row) : bool :=
  (negb (bool_decide (AuditLog.EventID a = "")) &&
     bool_decide (AuditLog.EventID a = AuditLog.EventID b)) ||
  (bool_decide (AuditLog.TenantID a = AuditLog.TenantID b) &&
     match AuditLog.Sequence a, AuditLog.Sequence b with
     | Some m, Some n => m =? n | _, _ => false end).

(** [INSERT .. ON CONFLICT DO NOTHING]. *)
Definition create_ignore {R} `{TableOf R} (clash : R -> R -> bool) (mk : Z -> R) : M unit :=
  let! r := try_ (Create clash mk) in
  match r with
  | Ok _ => ret tt
  | Error e => if decide (e = ErrDuplicateKey) then ret tt else fail e
  end.

Definition head_of (tid : string) : DB -> AuditHead.row -> bool :=
  fun _ h => bool_decide (AuditHead.TenantID h = tid).

(** The transaction of [Admit], on a captured event. *)
Definition admit_tx (r : AuditRepository) (e : AuditLog.row) : M unit :=
  let tid := AuditLog.TenantID e in
  let! old := try_ (First (fun _ o => bool_decide (EventID o = AuditLog.EventID e))) in
  match old with
  | Ok _ => fail ErrUnavailable
  | Error err =>
      if negb (bool_decide (err = ErrRecordNotFound)) then fail ErrUnavailable else
      or_unavailable (create_ignore
        (fun a b => bool_decide (AuditHead.TenantID a = AuditHead.TenantID b))
        (fun _ => AuditHead.mk tid 0 GenesisAuditHash 0)) ;;;
      let! h := or_unavailable (First (head_of tid)) in
      if maxPending r <=? AuditHead.Pending h then fail ErrUnavailable else
      let seq := AuditHead.Sequence h + 1 in
      let e := Trail.Sign (a_keys r)
                 (AuditLog.set_PrevHash (AuditHead.Hash h) (AuditLog.set_Sequence (Some seq) e)) in
      let! t := now in
      or_unavailable (Create clash (fun _ =>
        mk (AuditLog.EventID e) tid seq (AuditLog.RecordHash e) (AuditLog.KeyID e) (JEvent e)
           "pending" 0 t None "" "" (AuditLog.CreatedAt e))) ;;;
      Updates (head_of tid)
        (fun h' => AuditHead.set_Pending (AuditHead.Pending h + 1)
          (AuditHead.set_Hash (AuditLog.RecordHash e) (AuditHead.set_Sequence seq h'))) ;;;
      ret tt
  end.

Definition Admit (r : AuditRepository) (ctx : Ctx) (in_ : AuditLog.row) : M unit :=
  let! e := or_unavailable (Trail.Capture ctx in_) in
  transaction (admit_tx r e) ;;;
  update_op (op_admitted (AuditLog.Success e)).

(** Rows that are due, oldest first. *)
Definition due (now_ : Z) (o : row) : bool :=
  (bool_decide (State o = "pending") && (AvailableAt o <=? now_)) ||
  (bool_decide (State o = "leased") &&
     match LeaseUntil o with Some u => u <=? now_ | None => false end).

Definition earlier (a b : row) : bool :=
  (AvailableAt a <? AvailableAt b) ||
  ((AvailableAt a =? AvailableAt b) && String.leb (EventID a) (EventID b)).

Definition save (o : row) : M unit :=
  Updates (fun _ x => bool_decide (EventID x = EventID o)) (fun _ => o) ;;; ret tt.

(** The row a worker leases, or retires when its leases are exhausted. *)
Definition lease (now_ : Z) (token : string) (o : row) : row :=
  let o := set_Attempts (Attempts o + 1) (set_LeaseUntil (Some (now_ + auditLease))
             (set_LeaseToken token (set_State "leased" o))) in
  if auditMaxAttempts <? Attempts o then set_LastError "lease_exhausted" (set_State "dead" o) else o.

Definition Claim (now_ : Z) : M (option row) :=
  let! r := try_ (transaction (
    let! rows := Find (fun _ => due now_) in
    match order_by earlier rows with
    | [] => fail ErrRecordNotFound
    | o :: _ =>
        let! token := NewUUID in
        let o := lease now_ token o in
        save o ;;; ret o
    end)) in
  match r with
  | Error e => if decide (e = ErrRecordNotFound) then ret None else fail e
  | Ok o => if bool_decide (State o = "dead") then ret None else ret (Some o)
  end.

Definition payload_matches (o : row) (e : AuditLog.row) : bool :=
  bool_decide (AuditLog.EventID e = EventID o) && bool_decide (AuditLog.TenantID e = TenantID o) &&
  bool_decide (AuditLog.Sequence e = Some (Sequence o)) &&
  bool_decide (AuditLog.RecordHash e = Hash o) && bool_decide (AuditLog.KeyID e = KeyID o).

Definition lease_live (now_ : Z) (claim o : row) : bool :=
  bool_decide (State o = "leased") && bool_decide (LeaseToken o = LeaseToken claim) &&
  match LeaseUntil o with Some u => now_ <? u | None => false end.

(** The insert of [Deliver], accepting an identical event already there. *)
Definition insert_event (e : AuditLog.row) : M unit :=
  let! prior := try_ (First (fun _ x => bool_decide (AuditLog.EventID x = AuditLog.EventID e))) in
  match prior with
  | Ok p =>
      if bool_decide (Trail.Canonical p = Trail.Canonical e) &&
         bool_decide (AuditLog.RecordHash p = AuditLog.RecordHash e)
      then ret tt else fail ErrIntegrity
  | Error err =>
      if decide (err = ErrRecordNotFound) then
        Create log_clash (fun id => AuditLog.set_ID id e) ;;; ret tt
      else fail err
  end.

Definition Deliver (r : AuditRepository) (claim : row) : M unit :=
  transaction (
    let! o := First (fun _ x => bool_decide (EventID x = EventID claim)) in
    if bool_decide (State o = "delivered") then ret tt else
    let! t := now in
    if negb (lease_live t claim o) then fail ErrUnavailable else
    match Payload o with
    | JEvent e =>
        if negb (payload_matches o e) then fail ErrIntegrity else
        match Trail.Verify (a_keys r) e with
        | Some err => fail err
        | None =>
            insert_event e ;;;
            Updates (fun d h => head_of (TenantID o) d h && (0 <? AuditHead.Pending h))
                    (fun h => AuditHead.set_Pending (AuditHead.Pending h - 1) h) ;;;
            Updates (fun _ x => bool_decide (EventID x = EventID o))
              (fun x => set_LastError "" (set_LeaseUntil None (set_LeaseToken ""
                (set_Payload JEmpty (set_State "delivered" x))))) ;;;
            ret tt
        end
    | _ => fail ErrIntegrity
    end).

Definition backoff (attempts : Z) : Z := second * 2 ^ Z.min attempts 8.

Definition FailClaim (c : row) (now_ : Z) : M unit :=
  let state := if auditMaxAttempts <=? Attempts c then "dead" else "pending" in
  Updates (fun _ x => bool_decide (EventID x = EventID c) && bool_decide (State x = "leased") &&
                      bool_decide (LeaseToken x = LeaseToken c))
    (fun x => set_LastError "delivery_failed" (set_LeaseToken "" (set_LeaseUntil None
      (set_AvailableAt (now_ + backoff (Attempts c)) (set_State state x))))) ;;;
  ret tt.

Definition RequeueDead (ctx : Ctx) (id : string) : M unit :=
  let! t := now in
  let! n := Updates (fun _ x => bool_decide (TenantID x = FromContext ctx) &&
                      bool_decide (EventID x = id) && bool_decide (State x = "dead"))
    (fun x => set_LastError "" (set_AvailableAt t (set_Attempts 0 (set_State "pending" x)))) in
  if n =? 1 then ret tt else fail ErrRecordNotFound.

(** [Dispatch]: the events delivered and the error that stopped it. *)
Fixpoint dispatch_loop (r : AuditRepository) (limit n : nat) : M (nat * option Err) :=
  match limit with
  | O => ret (n, None)
  | S limit =>
      let! t := now in
      let! c := try_ (Claim t) in
      match c with
      | Error e => ret (n, Some e)
      | Ok None => ret (n, None)
      | Ok (Some c) =>
          let! d := try_ (Deliver r c) in
          match d with
          | Ok _ => dispatch_loop r limit (S n)
          | Error e =>
              let! f := try_ (FailClaim c t) in
              match f with Error e' => ret (n, Some e') | Ok _ => ret (n, Some e) end
          end
      end
  end.

Definition Dispatch (r : AuditRepository) (limit : nat) : M (nat * option Err) :=
  dispatch_loop r (Nat.min (Nat.max limit 1) 1000) 0.

(** [AuditOperation]: the SQL transaction of a service call.  The latch
    decides: a failed admission or an error that is not an admitted denial rolls
    everything back. *)
Definition AuditOperation {A} (r : AuditRepository) (ctx : Ctx) (fn : Ctx -> M A)
    (denial : Err -> bool) : M A := fun w0 =>
  match w_op w0 with
  | Some _ => fn ctx w0
  | None =>
      match fault w0 with
      | (Ok true, w) => (Error ErrUnavailable, w)
      | (_, w) =>
          let (result, w1) := fn ctx (set_op (Some BindOperation) w) in
          let op := default BindOperation (w_op w1) in
          let w2 := set_op None w1 in
          let commit :=
            match fault w2 with
            | (Ok true, w3) =>
                (Error (match result with Ok _ => ErrUnavailable | Error _ => EInfra end), restore w0 w3)
            | (_, w3) =>
                (result, if c_async ctx then w3 else snd (Dispatch r 1000 w3))
            end in
          match failure op, result with
          | Some _, _ => (Error ErrUnavailable, restore w0 w2)
          | None, Error e =>
              if negb (denial e) || negb (DenialMayCommit op) then (Error e, restore w0 w2) else commit
          | None, Ok _ => commit
          end
      end
  end.

End S.
End Outbox.

Module Archive.
Section S.
Context {ST : Store} {E : Ext}.

Record RetentionPolicy := mkPolicy {
  Approval : string; Enabled : bool; LegalHold : bool; Before : option Z; MaxRows : Z
}.

Record AuditArchive := mkArchive {
  Base : Checkpoint.row; End_ : Checkpoint.row; Events : list AuditLog.row
}.

Definition legacyAuditErasureMarker : string := "anonymized@gdpr.local".

Definition normalizeArchivedAncillary (e : AuditLog.row) : option AuditLog.row :=
  let e := if (AuditLog.Version e =? 1) && bool_decide (AuditLog.Email e = legacyAuditErasureMarker)
           then AuditLog.set_Email "" e else e in
  if bool_decide (AuditLog.Email e = "") && bool_decide (AuditLog.IPAddress e = "") &&
     bool_decide (AuditLog.Detail e = "")
  then Some e else None.

Definition GetCheckpoint (r : AuditRepository) (ctx : Ctx) : M Checkpoint.row :=
  let! h := optional (First (Outbox.head_of (FromContext ctx))) in
  match h with
  | None => ret (Trail.NewCheckpoint (a_keys r) (FromContext ctx) 0 GenesisAuditHash)
  | Some h => ret (Trail.NewCheckpoint (a_keys r) (AuditHead.TenantID h) (AuditHead.Sequence h)
                                       (AuditHead.Hash h))
  end.

(** The loop of [verifyEvents]: the sequence and hash after the rows. *)
Fixpoint verify_loop (r : AuditRepository) (tid : string) (seq : Z) (hash : string)
    (rows : list AuditLog.row) : option (Z * string) :=
  match rows with
  | [] => Some (seq, hash)
  | e :: rows =>
      if bool_decide (AuditLog.TenantID e = tid) &&
         bool_decide (AuditLog.Sequence e = Some (seq + 1)) &&
         bool_decide (AuditLog.PrevHash e = hash) &&
         bool_decide (Trail.Verify (a_keys r) e = None)
      then verify_loop r tid (seq + 1) (AuditLog.RecordHash e) rows
      else None
  end.

Definition verifyEvents (r : AuditRepository) (tid : string) (base end_ : Checkpoint.row)
    (rows : list AuditLog.row) : option Err :=
  if negb (bool_decide (Checkpoint.Tenant base = tid)) ||
     negb (bool_decide (Checkpoint.Tenant end_ = tid)) ||
     (Checkpoint.Sequence end_ <? Checkpoint.Sequence base)
  then Some ErrIntegrity
  else if negb (bool_decide (Trail.VerifyCheckpoint (a_keys r) base = None)) ||
          negb (bool_decide (Trail.VerifyCheckpoint (a_keys r) end_ = None))
  then Some ErrIntegrity
  else if bool_decide (verify_loop r tid (Checkpoint.Sequence base) (Checkpoint.Hash base) rows =
                       Some (Checkpoint.Sequence end_, Checkpoint.Hash end_))
  then None else Some ErrIntegrity.

Definition throw (e : option Err) : M unit := match e with Some e => fail e | None => ret tt end.

(** Signed rows of a tenant with a sequence in the half-open range. *)
Definition in_range (tid : string) (lo hi : Z) (e : AuditLog.row) : bool :=
  bool_decide (AuditLog.TenantID e = tid) && (AuditLog.Version e =? 1) &&
  match AuditLog.Sequence e with Some n => (lo <? n) && (n <=? hi) | None => false end.

Definition by_sequence (a b : AuditLog.row) : bool :=
  default 0 (AuditLog.Sequence a) <=? default 0 (AuditLog.Sequence b).

Definition VerifyAgainst (r : AuditRepository) (ctx : Ctx) (base end_ : Checkpoint.row) : M unit :=
  let tid := FromContext ctx in
  let! rows := Find (fun _ => in_range tid (Checkpoint.Sequence base) (Checkpoint.Sequence end_)) in
  throw (verifyEvents r tid base end_ (order_by by_sequence rows)).

Definition VerifyChain (r : AuditRepository) (ctx : Ctx) (tid : string) : M bool :=
  scopeTenant ctx tid ;;;
  let tid := FromContext ctx in
  let! n := Count (fun _ e => bool_decide (AuditLog.TenantID e = tid) &&
                              negb (AuditLog.Version e =? 1)) in
  if 0 <? n then fail ErrLegacy else
  let! b := optional (First (fun _ b => bool_decide (AuditBoundary.TenantID b = tid))) in
  let base := match b with
              | Some b => Trail.NewCheckpoint (a_keys r) tid (AuditBoundary.Sequence b) (AuditBoundary.Hash b)
              | None => Trail.NewCheckpoint (a_keys r) tid 0 GenesisAuditHash
              end in
  let! end_ := GetCheckpoint r ctx in
  VerifyAgainst r ctx base end_ ;;; ret true.

(** The events before the first one at or after the cut-off, normalized. *)
Fixpoint archive_prefix (before : Z) (rows : list AuditLog.row) : option (list AuditLog.row) :=
  match rows with
  | [] => Some []
  | e :: rows =>
      if negb (AuditLog.CreatedAt e <? before) then Some []
      else match normalizeArchivedAncillary e with
           | None => None
           | Some e => (cons e) <$> archive_prefix before rows
           end
  end.

Definition ArchiveEvents (r : AuditRepository) (ctx : Ctx) (p : RetentionPolicy) (base : Checkpoint.row)
    : M AuditArchive :=
  match Before p with
  | None => fail ErrPolicy
  | Some before =>
      if negb (Enabled p) || LegalHold p || bool_decide (Approval p = "") || (MaxRows p <? 1) ||
         (1000 <? MaxRows p)
      then fail ErrPolicy else
      let tid := FromContext ctx in
      if negb (bool_decide (Checkpoint.Tenant base = tid)) ||
         negb (bool_decide (Trail.VerifyCheckpoint (a_keys r) base = None))
      then fail ErrIntegrity else
      let! rows := Find (fun _ e => bool_decide (AuditLog.TenantID e = tid) && (AuditLog.Version e =? 1) &&
          match AuditLog.Sequence e with Some n => Checkpoint.Sequence base <? n | None => false end) in
      match archive_prefix before (take (Z.to_nat (MaxRows p)) (order_by by_sequence rows)) with
      | None => fail ErrIntegrity
      | Some events =>
          let end_ := match hd_error (rev events) with
                      | Some e => Trail.NewCheckpoint (a_keys r) tid (default 0 (AuditLog.Sequence e))
                                                      (AuditLog.RecordHash e)
                      | None => base
                      end in
          throw (verifyEvents r tid base end_ events) ;;;
          ret (mkArchive base end_ events)
      end
  end.

Definition boundary_of (tid : string) : DB -> AuditBoundary.row -> bool :=
  fun _ b => bool_decide (AuditBoundary.TenantID b = tid).

(** [tx.Save(&b)]: update the tenant's boundary, or insert the first one. *)
Definition save_boundary (b : AuditBoundary.row) : M unit :=
  let! c := Count (boundary_of (AuditBoundary.TenantID b)) in
  if c =? 0 then Create (fun a b => bool_decide (AuditBoundary.TenantID a = AuditBoundary.TenantID b))
                        (fun _ => b) ;;; ret tt
  else Updates (boundary_of (AuditBoundary.TenantID b)) (fun _ => b) ;;; ret tt.

Definition PurgeArchive (r : AuditRepository) (ctx : Ctx) (p : RetentionPolicy) (a : AuditArchive)
    (trusted : Checkpoint.row) : M unit :=
  match Before p with
  | None => fail ErrPolicy
  | Some before =>
      if negb (Enabled p) || LegalHold p || bool_decide (Approval p = "") || (MaxRows p <? 1) ||
         (MaxRows p <? Z.of_nat (length (Events a))) || negb (bool_decide (trusted = End_ a))
      then fail ErrPolicy else
      let tid := FromContext ctx in
      throw (verifyEvents r tid (Base a) (End_ a) (Events a)) ;;;
      if existsb (fun e => negb (AuditLog.CreatedAt e <? before)) (Events a) then fail ErrPolicy else
      let range := in_range tid (Checkpoint.Sequence (Base a)) (Checkpoint.Sequence (End_ a)) in
      transaction (
        First (Outbox.head_of tid) ;;;
        let! b := optional (First (boundary_of tid)) in
        let b := default (AuditBoundary.mk tid 0 GenesisAuditHash) b in
        if negb (AuditBoundary.Sequence b =? Checkpoint.Sequence (Base a)) ||
           negb (bool_decide (AuditBoundary.Hash b = Checkpoint.Hash (Base a)))
        then fail ErrIntegrity else
        let! rows := Find (fun _ => range) in
        throw (verifyEvents r tid (Base a) (End_ a) (order_by by_sequence rows)) ;;;
        Delete (fun _ => range) ;;;
        save_boundary (AuditBoundary.mk tid (Checkpoint.Sequence (End_ a)) (Checkpoint.Hash (End_ a))))
  end.

Fixpoint restore_events (events : list AuditLog.row) : M unit :=
  match events with
  | [] => ret tt
  | e :: events =>
      match normalizeArchivedAncillary (AuditLog.set_ID 0 e) with
      | None => fail ErrIntegrity
      | Some e =>
          Create Outbox.log_clash (fun id => AuditLog.set_ID id e) ;;; restore_events events
      end
  end.

Definition RestoreArchive (r : AuditRepository) (ctx : Ctx) (a : AuditArchive) (trusted : Checkpoint.row)
    : M unit :=
  let tid := FromContext ctx in
  if negb (bool_decide (trusted = End_ a)) || (1000 <? Z.of_nat (length (Events a)))
  then fail ErrIntegrity else
  throw (verifyEvents r tid (Base a) (End_ a) (Events a)) ;;;
  transaction (
    let! h := First (Outbox.head_of tid) in
    let! b := First (boundary_of tid) in
    if negb (AuditBoundary.Sequence b =? Checkpoint.Sequence (End_ a)) ||
       negb (bool_decide (AuditBoundary.Hash b = Checkpoint.Hash (End_ a))) ||
       (AuditHead.Sequence h <? Checkpoint.Sequence (End_ a))
    then fail ErrIntegrity else
    restore_events (Events a) ;;;
    Updates (boundary_of tid)
      (fun b => AuditBoundary.mk (AuditBoundary.TenantID b) (Checkpoint.Sequence (Base a))
                                 (Checkpoint.Hash (Base a))) ;;;
    ret tt).

(** [AnonymizeUser]: the free-text columns of the user's events are cleared. *)
Definition AnonymizeUser (ctx : Ctx) (userID : Z) : M unit :=
  Updates (fun _ e => bool_decide (AuditLog.UserID e = Some userID) &&
                      bool_decide (AuditLog.TenantID e = FromContext ctx))
    (fun e => AuditLog.set_Detail "" (AuditLog.set_IPAddress ""
      (AuditLog.set_Email (if AuditLog.Version e =? 1 then "" else legacyAuditErasureMarker) e))) ;;;
  ret tt.

End S.
End Archive.

Module Writer.
Section S.
Context {ST : Store} {E : Ext}.

(** [AsyncAuditWriter] over the durable repository. *)
Record AsyncAuditWriter := mkWriter { durable : AuditRepository; syncMode : bool }.

(** [Record]: an admission that fails inside an operation latches its failure. *)
Definition Record_ (wr : AsyncAuditWriter) (ctx : Ctx) (entry : AuditLog.row) : M unit :=
  let! r := try_ (Outbox.Admit (durable wr) ctx entry) in
  match r with
  | Error _ => update_op (op_fail ErrUnavailable)
  | Ok _ =>
      let! op := current_op in
      if syncMode wr && negb (bool_decide (is_Some op))
      then try_ (Outbox.Dispatch (durable wr) 1000) ;;; ret tt
      else ret tt
  end.

Definition AuditOperation {A} (wr : AsyncAuditWriter) (ctx : Ctx) (fn : Ctx -> M A)
    (denial : Err -> bool) : M A :=
  Outbox.AuditOperation (durable wr) (WithAsyncDelivery ctx) fn denial.

End S.
End Writer.
