(* ===== verification/AuditSpec.v ===== *)
(** * What the audit trail guarantees

    Service operations are atomic with their evidence; admission extends the
    tenant's signed chain by one link within capacity; the outbox is a state
    machine with final states and fenced leases; two histories that verify
    between the same references are the same history. *)

From S2P Require Import Prelude Store Models World Sql Repos AuditTrail.

Open Scope Z_scope.
Open Scope monad_scope.

(** The demonstration repository of the witnesses. *)
Definition demo_keys : Trail.Keys :=
  Trail.mkKeys "a1" [("a1", "signing key")] [("c1", "checkpoint key")] "c1".

Definition demo_repo : AuditRepository := mkAuditRepository demo_keys 2.

Definition demo_ctx : Ctx := mkCtx "default" (Some 7) false "" true.

Definition demo_event : AuditLog.row :=
  AuditLog.mk 0 "" (Some 7) "" "login" "" true "" "" "" 0 0 "" None "" "" 0 "" "".

Definition demo_refusal : AuditLog.row :=
  AuditLog.mk 0 "" (Some 7) "" "login" "" false "" "" "" 0 0 "" None "" "" 0 "" "".

Definition demo_start : World (ST := mem_store) :=
  mkWorld (1700000000 * second) [] 0 0 empty_db Mem.NewInMemoryStore None [].

Section AuditFacts.
Context {ST : Store} {E : Ext}.
Import Outbox.

(** ** Operations *)

Lemma operation_inv {A} r ctx (fn : Ctx -> M A) denial w res w' :
  w_op w = None -> c_async ctx = true ->
  AuditOperation r ctx fn denial w = (res, w') ->
  (is_Ok res = false /\ w_db w' = w_db w) \/
  exists w0 w1, w_db w0 = w_db w /\ w_kv w0 = w_kv w /\ w_now w0 = w_now w /\
    w_op w0 = Some BindOperation /\ fn ctx w0 = (res, w1) /\ w_db w' = w_db w1 /\ w_kv w' = w_kv w1 /\
    let op := default BindOperation (w_op w1) in
    failure op = None /\ forall e, res = Error e -> denial e = true /\ DenialMayCommit op = true.
Proof.
  intros Hop Ha. unfold AuditOperation. rewrite Hop, Ha.
  destruct (fault_cases w) as (w0 & (Hd & Hk & _ & Hn & _) & [-> | ->]).
  { intros [= <- <-]. by left. }
  set (w0' := set_op (Some BindOperation) w0).
  destruct (fn ctx w0') as [result w1] eqn:Hfn.
  intros H. cut ((is_Ok res = false /\ w_db w' = w_db w) \/
    (failure (default BindOperation (w_op w1)) = None /\ res = result /\ w_db w' = w_db w1 /\ w_kv w' = w_kv w1 /\
     forall e, res = Error e -> denial e = true /\ DenialMayCommit (default BindOperation (w_op w1)) = true)).
  { intros [Hx|(H1 & -> & H3 & H3' & H4)]; [by left|right]. exists w0', w1. by repeat (split; [done|]). }
  destruct (failure _) eqn:Hf; [injection H as <- <-; by left|].
  assert (forall r' w3, (match fault (set_op None w1) with
      | (Ok true, w3) => (Error (match result with Ok _ => ErrUnavailable | Error _ => EInfra end), restore w w3)
      | (_, w3) => (result, w3) end) = (r', w3) ->
    (is_Ok r' = false /\ w_db w3 = w_db w) \/ (r' = result /\ w_db w3 = w_db w1 /\ w_kv w3 = w_kv w1)) as Hc.
  { intros r' w3. destruct (fault_cases (set_op None w1)) as (w4 & (Hd4 & Hk4 & _) & [-> | ->]);
      intros [= <- <-]; [by left|by right]. }
  destruct result as [a|e].
  - destruct (Hc _ _ H) as [Hx|[-> [Hx Hx']]]; [by left|right]. by repeat (split; [done|]).
  - destruct (_ || _) eqn:Hden; [injection H as <- <-; by left|]. bool_prop.
    destruct (Hc _ _ H) as [Hx|[-> [Hx Hx']]]; [by left|right]. do 4 (split; [done|]).
    by intros ? [= <-].
Qed.


(** ** Admission *)

Lemma or_unavailable_Ok {A} (m : M A) w a w' : or_unavailable m w = (Ok a, w') -> m w = (Ok a, w').
Proof.
  intros H. apply bind_Ok in H as (r & w1 & Hr & H). apply try_Ok in Hr.
  destruct r; [|done]. by injection H as <- <-.
Qed.

Lemma create_ignore_Ok {R} `{TableOf R} clash (mk : Z -> R) w w' :
  create_ignore clash mk w = (Ok tt, w') ->
  let r := mk (next_id (w_db w)) in
  (existsb (clash r) (rows_of (w_db w)) = true /\ same_state w w') \/
  (existsb (clash r) (rows_of (w_db w)) = false /\
   db_step (set_next_id (next_id (w_db w) + 1) (set_rows (rows_of (w_db w) ++ [r]) (w_db w))) w w').
Proof.
  intros Hs. apply bind_Ok in Hs as (r & w1 & Hr & Hs). apply try_Ok in Hr. destruct r as [r|e].
  - injection Hs as <-. apply Create_Ok in Hr as (-> & Hc & Hd). by right.
  - destruct (decide _) as [->|]; [|done]. injection Hs as <-.
    apply Create_dup in Hr as [Hw Hc]. by left.
Qed.


(** The head [Admit] extends: the tenant's, or the genesis one. *)
Definition heads_with (tid : string) (hs : list AuditHead.row) : list AuditHead.row :=
  if existsb (fun h => bool_decide (AuditHead.TenantID h = tid)) hs then hs
  else hs ++ [AuditHead.mk tid 0 GenesisAuditHash 0].

(** The event as it is signed after head [h]. *)
Definition linked (r : AuditRepository) (h : AuditHead.row) (e : AuditLog.row) : AuditLog.row :=
  Trail.Sign (a_keys r) (AuditLog.set_PrevHash (AuditHead.Hash h)
    (AuditLog.set_Sequence (Some (AuditHead.Sequence h + 1)) e)).

Definition outbox_row (t : Z) (e : AuditLog.row) : AuditOutbox.row :=
  AuditOutbox.mk (AuditLog.EventID e) (AuditLog.TenantID e) (default 0 (AuditLog.Sequence e))
    (AuditLog.RecordHash e) (AuditLog.KeyID e) (JEvent e) "pending" 0 t None "" "" (AuditLog.CreatedAt e).

Lemma existsb_sym tid hs :
  existsb (fun h => bool_decide (tid = AuditHead.TenantID h)) hs =
  existsb (fun h => bool_decide (AuditHead.TenantID h = tid)) hs.
Proof. induction hs as [|h hs IH]; simpl; [done|]. rewrite IH. f_equal. by apply bool_decide_ext. Qed.

Lemma admit_tx_Ok r e w w' :
  admit_tx r e w = (Ok tt, w') ->
  let tid := AuditLog.TenantID e in
  let hs := heads_with tid (audit_heads (w_db w)) in
  exists h, first_where (fun h => bool_decide (AuditHead.TenantID h = tid)) hs = Some h /\
    AuditHead.Pending h < maxPending r /\
    first_where (fun o => bool_decide (AuditOutbox.EventID o = AuditLog.EventID e))
      (audit_outbox (w_db w)) = None /\
    existsb (clash (outbox_row (w_now w) (linked r h e))) (audit_outbox (w_db w)) = false /\
    audit_outbox (w_db w') = audit_outbox (w_db w) ++ [outbox_row (w_now w) (linked r h e)] /\
    audit_heads (w_db w') = update_where (fun h => bool_decide (AuditHead.TenantID h = tid))
      (fun h' => AuditHead.set_Pending (AuditHead.Pending h + 1)
        (AuditHead.set_Hash (AuditLog.RecordHash (linked r h e))
          (AuditHead.set_Sequence (AuditHead.Sequence h + 1) h'))) hs /\
    audit_logs (w_db w') = audit_logs (w_db w) /\ w_op w' = w_op w.
Proof.
  unfold admit_tx. cbv zeta. intros H.
  apply bind_Ok in H as (old & w1 & Hold & H). apply try_Ok in Hold.
  destruct old as [o|err]; [done|]. destruct (negb _) eqn:Herr; [done|]. bool_prop. subst err.
  apply First_NotFound in Hold as [Hw1 Hnone].
  apply bind_Ok in H as ([] & w2 & Hh & H). apply or_unavailable_Ok, create_ignore_Ok in Hh.
  apply bind_Ok in H as (h & w3 & Hf & H). apply or_unavailable_Ok, First_Ok in Hf as [Hw3 Hf].
  destruct (maxPending r <=? AuditHead.Pending h) eqn:Hcap; [done|]. bool_prop.
  apply bind_Ok in H as (t & w4 & Ht & H). apply now_Ok in Ht as [-> Hw4].
  apply bind_Ok in H as (o & w5 & Ho & H). apply or_unavailable_Ok, Create_Ok in Ho as (-> & Hcl & Hw5).
  apply bind_Ok in H as (n & w6 & Hu & H). apply Updates_Ok in Hu as [Hw6 _]. injection H as <-.
  set (tid := AuditLog.TenantID e) in *.
  assert (audit_heads (w_db w2) = heads_with tid (audit_heads (w_db w)) /\
          audit_outbox (w_db w2) = audit_outbox (w_db w) /\ audit_logs (w_db w2) = audit_logs (w_db w) /\
          w_now w2 = w_now w /\ w_op w2 = w_op w) as (Hh2 & Ho2 & Hl2 & Hn2 & Hop2).
  { unfold heads_with. destruct Hw1 as (Hd1 & _ & Hop1 & Hn1 & _).
    destruct Hh as [[Hex (Hd2 & _ & Hop2 & Hn2 & _)]|[Hex (Hd2 & _ & Hop2 & Hn2 & _)]];
      simpl in Hex; rewrite existsb_sym, Hd1 in Hex; simpl in Hex; rewrite Hex, Hd2, Hn2, Hop2, ?Hd1;
      simpl; rewrite ?Hd1; done. }
  destruct Hw3 as (Hd3 & _ & Hop3 & Hn3 & _), Hw4 as (Hd4 & _ & Hop4 & Hn4 & _).
  destruct Hw5 as (Hd5 & _ & Hop5 & _), Hw6 as (Hd6 & _ & Hop6 & _).
  exists h. rewrite Hd6, Hd5, Hd4, Hd3. simpl in *. rewrite Hd4, Hd3 in Hcl. simpl in Hcl.
  rewrite Hn3, Hn2 in *. unfold outbox_row, linked in *. simpl in *.
  rewrite Hh2, Ho2, Hl2 in *. destruct Hw1 as (Hd1 & _). rewrite Hop6, Hop5, Hop4, Hop3, Hop2.
  by repeat (split; [done|]).
Qed.


(** *** The chain invariant *)

Definition undelivered (tid : string) (os : list AuditOutbox.row) : Z :=
  Z.of_nat (count_where (fun o => bool_decide (AuditOutbox.TenantID o = tid) &&
                                  negb (bool_decide (AuditOutbox.State o = "delivered"))) os).

Definition at_ (tid : string) (n : Z) (hash : string) (os : list AuditOutbox.row) : Prop :=
  exists o, In o os /\ AuditOutbox.TenantID o = tid /\ AuditOutbox.Sequence o = n /\ AuditOutbox.Hash o = hash.

(** [linked_to tid n hash os]: [hash] ends the tenant's chain of length [n]. *)
Definition linked_to (tid : string) (n : Z) (hash : string) (os : list AuditOutbox.row) : Prop :=
  (n = 0 /\ hash = GenesisAuditHash) \/ (0 < n /\ at_ tid n hash os).

Lemma verify_loop_snoc r tid e rows : forall seq hash,
  Archive.verify_loop r tid seq hash (rows ++ [e]) =
  match Archive.verify_loop r tid seq hash rows with
  | Some (n, h) => Archive.verify_loop r tid n h [e]
  | None => None
  end.
Proof.
  induction rows as [|x rows IH]; intros seq hash; [done|].
  change ((x :: rows) ++ [e]) with (x :: rows ++ [e]). cbn [Archive.verify_loop].
  destruct (_ && _); [apply IH|done].
Qed.

(** [o] is the entry of the event [e]; a payload it still has is that event. *)
Definition entry_of (e : AuditLog.row) (o : AuditOutbox.row) : Prop :=
  AuditOutbox.EventID o = AuditLog.EventID e /\ AuditOutbox.TenantID o = AuditLog.TenantID e /\
  Some (AuditOutbox.Sequence o) = AuditLog.Sequence e /\ AuditOutbox.Hash o = AuditLog.RecordHash e /\
  AuditOutbox.KeyID o = AuditLog.KeyID e /\
  forall x, AuditOutbox.Payload o = JEvent x -> x = e.

(** The history of head [h]: signed events that verify one after the other from the
    genesis hash up to the head, each with its entry. *)
Definition history (r : AuditRepository) (os : list AuditOutbox.row) (h : AuditHead.row) : Prop :=
  exists es, Archive.verify_loop r (AuditHead.TenantID h) 0 GenesisAuditHash es =
               Some (AuditHead.Sequence h, AuditHead.Hash h) /\
    forall e, In e es -> exists o, In o os /\ entry_of e o.

Record chain_ok (r : AuditRepository) (hs : list AuditHead.row) (os : list AuditOutbox.row) : Prop := {
  one_head : NoDup (map AuditHead.TenantID hs);
  one_event : NoDup (map AuditOutbox.EventID os);
  one_place : NoDup (map (fun o => (AuditOutbox.TenantID o, AuditOutbox.Sequence o)) os);
  numbered : forall o, In o os -> exists h, In h hs /\ AuditHead.TenantID h = AuditOutbox.TenantID o /\
      1 <= AuditOutbox.Sequence o <= AuditHead.Sequence h;
  ends : forall h, In h hs -> linked_to (AuditHead.TenantID h) (AuditHead.Sequence h) (AuditHead.Hash h) os;
  pending : forall h, In h hs -> AuditHead.Pending h = undelivered (AuditHead.TenantID h) os;
  bounded : forall h, In h hs -> AuditHead.Pending h <= maxPending r;
  signed : forall o e, In o os -> AuditOutbox.Payload o = JEvent e ->
      payload_matches o e = true /\ Trail.Verify (a_keys r) e = None /\
      linked_to (AuditOutbox.TenantID o) (AuditOutbox.Sequence o - 1) (AuditLog.PrevHash e) os;
  histories : forall h, In h hs -> history r os h
}.

Definition keys_ok (r : AuditRepository) : Prop :=
  is_Some (Trail.lookup (Trail.k_current (a_keys r)) (Trail.signing (a_keys r))).

Lemma linked_to_more tid n hash os more : linked_to tid n hash os -> linked_to tid n hash (os ++ more).
Proof.
  intros [H|[Hn (o & Hin & H)]]; [by left|right]. split; [done|]. exists o.
  split; [apply in_or_app; by left|done].
Qed.

Lemma head_unique r hs os tid h x :
  chain_ok r hs os -> first_where (fun h => bool_decide (AuditHead.TenantID h = tid)) hs = Some h ->
  In x hs -> AuditHead.TenantID x = tid -> x = h.
Proof.
  intros Hc Hf Hin Hx. apply (first_where_unique AuditHead.TenantID (fun h => bool_decide (AuditHead.TenantID h = tid))
    hs h x (one_head _ _ _ Hc)); try done.
  - intros a b Ha Hb. bool_prop. congruence.
  - by apply bool_decide_eq_true.
Qed.

Lemma verify_signed r e n :
  keys_ok r -> AuditLog.Version e = 1 -> AuditLog.Sequence e = Some n -> n <> 0 ->
  Trail.Verify (a_keys r) (Trail.Sign (a_keys r) e) = None.
Proof.
  intros [key Hk] Hv Hs Hn. unfold Trail.Verify. simpl. rewrite Hk, Hv, Hs. simpl.
  destruct (Z.eqb_spec n 0); [done|]. simpl. rewrite bool_decide_true; [done|]. done.
Qed.

(** The genesis head of a tenant without events keeps the invariant. *)
Lemma heads_with_ok r tid hs os :
  0 <= maxPending r -> chain_ok r hs os -> chain_ok r (heads_with tid hs) os.
Proof.
  intros Hmax Hc. unfold heads_with. destruct (existsb _ hs) eqn:Ex; [done|].
  assert (forall h, In h hs -> AuditHead.TenantID h <> tid) as Hno.
  { intros h Hin Ht. apply not_true_iff_false in Ex. apply Ex, existsb_exists. exists h.
    split; [done|by apply bool_decide_eq_true]. }
  assert (undelivered tid os = 0) as Hu.
  { unfold undelivered. cut (count_where (fun o => bool_decide (AuditOutbox.TenantID o = tid) &&
      negb (bool_decide (AuditOutbox.State o = "delivered"))) os = 0%nat); [lia|].
    apply count_where_zero. intros o Hin. apply andb_false_iff. left. apply bool_decide_eq_false.
    intros Ht. destruct (numbered _ _ _ Hc o Hin) as (h & Hh & Hth & _). apply (Hno h Hh). congruence. }
  destruct Hc as [H1 H2 H3 H4 H5 H6 H7 H8 H9]. split; try done.
  - rewrite map_app. apply NoDup_snoc; [done|]. rewrite in_map_iff. intros (h & Ht & Hin).
    by apply (Hno h Hin).
  - intros o Hin. destruct (H4 o Hin) as (h & Hh & Hx). exists h. split; [apply in_or_app; by left|done].
  - intros h [Hin|[<-|[]]]%in_app_or; [by apply H5|]. left. done.
  - intros h [Hin|[<-|[]]]%in_app_or; [by apply H6|]. simpl. by rewrite Hu.
  - intros h [Hin|[<-|[]]]%in_app_or; [by apply H7|]. done.
  - intros h [Hin|[<-|[]]]%in_app_or; [by apply H9|]. by exists [].
Qed.

(** The event signed after a head carries on from it. *)
Lemma verify_linked r h e :
  keys_ok r -> AuditLog.Version e = 1 -> 0 <= AuditHead.Sequence h -> AuditHead.TenantID h = AuditLog.TenantID e ->
  Archive.verify_loop r (AuditHead.TenantID h) (AuditHead.Sequence h) (AuditHead.Hash h) [linked r h e] =
  Some (AuditHead.Sequence h + 1, AuditLog.RecordHash (linked r h e)).
Proof.
  intros Hk Hv Hn Ht. cbn [Archive.verify_loop].
  rewrite (bool_decide_true (Trail.Verify _ _ = None))
    by (apply (verify_signed r _ (AuditHead.Sequence h + 1)); [done|done|done|lia]).
  by rewrite !bool_decide_true.
Qed.

(** One more event after the head. *)
Lemma admit_ok r hs os h e t :
  keys_ok r -> chain_ok r hs os -> AuditLog.Version e = 1 ->
  first_where (fun h => bool_decide (AuditHead.TenantID h = AuditLog.TenantID e)) hs = Some h ->
  AuditHead.Pending h < maxPending r ->
  first_where (fun o => bool_decide (AuditOutbox.EventID o = AuditLog.EventID e)) os = None ->
  let e' := linked r h e in
  chain_ok r (update_where (fun x => bool_decide (AuditHead.TenantID x = AuditLog.TenantID e))
      (fun x => AuditHead.set_Pending (AuditHead.Pending h + 1)
        (AuditHead.set_Hash (AuditLog.RecordHash e') (AuditHead.set_Sequence (AuditHead.Sequence h + 1) x))) hs)
    (os ++ [outbox_row t e']).
Proof.
  intros Hk Hc Hver Hf Hcap Hnew e'.
  assert (In h hs /\ AuditHead.TenantID h = AuditLog.TenantID e) as [Hh Hth].
  { apply first_where_Some in Hf as [? ?]. bool_prop. done. }
  pose proof (ends _ _ _ Hc h Hh) as Hend. rewrite Hth in Hend.
  assert (0 <= AuditHead.Sequence h) as Hseq by (destruct Hend as [[-> _]|[? _]]; lia).
  assert (forall x, In x hs -> AuditHead.TenantID x = AuditLog.TenantID e -> x = h) as Hu
    by (intros; by apply (head_unique r hs os (AuditLog.TenantID e))).
  set (upd := fun x => AuditHead.set_Pending (AuditHead.Pending h + 1)
    (AuditHead.set_Hash (AuditLog.RecordHash e') (AuditHead.set_Sequence (AuditHead.Sequence h + 1) x))).
  split.
  - rewrite map_update_where by done. apply Hc.
  - rewrite map_app. apply NoDup_snoc; [apply Hc|]. rewrite in_map_iff. intros (o & Ho & Hin).
    rewrite first_where_None in Hnew. specialize (Hnew o Hin). bool_prop. done.
  - rewrite map_app. apply NoDup_snoc; [apply Hc|]. rewrite in_map_iff. intros (o & Ho & Hin).
    injection Ho as Ho1 Ho2. destruct (numbered _ _ _ Hc o Hin) as (x & Hx & Htx & Hn).
    rewrite (Hu x Hx) in Hn by (simpl in *; congruence). simpl in *. lia.
  - intros o [Hin|[<-|[]]]%in_app_or.
    + destruct (numbered _ _ _ Hc o Hin) as (x & Hx & Htx & Hn).
      exists (if bool_decide (AuditHead.TenantID x = AuditLog.TenantID e) then upd x else x).
      split; [apply update_where_In; eauto|]. case_bool_decide as Hd; [|done].
      rewrite (Hu x Hx Hd) in Hn. simpl. split; [done|lia].
    + exists (upd h). split; [|simpl; split; [done|lia]].
      apply update_where_In. exists h. split; [done|]. by rewrite bool_decide_true.
  - intros x (y & Hy & ->)%update_where_In. case_bool_decide as Hd.
    + rewrite (Hu y Hy Hd). right. simpl. split; [lia|]. exists (outbox_row t e').
      split; [apply in_or_app; right; by left|]. simpl. by rewrite Hth.
    + apply linked_to_more. by apply (ends _ _ _ Hc).
  - intros x (y & Hy & ->)%update_where_In. unfold undelivered. rewrite count_where_snoc.
    pose proof (pending _ _ _ Hc y Hy) as Hp. unfold undelivered in Hp.
    case_bool_decide as Hd; simpl.
    + rewrite (Hu y Hy Hd) in Hp |- *. rewrite bool_decide_true by (by rewrite Hth).
      simpl. rewrite Hp. lia.
    + rewrite bool_decide_false by congruence. simpl. rewrite Hp. lia.
  - intros x (y & Hy & ->)%update_where_In. case_bool_decide as Hd; simpl; [lia|].
    by apply (bounded _ _ _ Hc).
  - intros o x [Hin|[<-|[]]]%in_app_or Hp.
    + destruct (signed _ _ _ Hc o x Hin Hp) as (H1 & H2 & H3). repeat split; try done.
      by apply linked_to_more.
    + injection Hp as <-. split; [|split].
      * unfold payload_matches. by rewrite !bool_decide_true.
      * apply (verify_signed r _ (AuditHead.Sequence h + 1)); try done. lia.
      * apply linked_to_more.
        assert (AuditOutbox.Sequence (outbox_row t e') - 1 = AuditHead.Sequence h) as -> by (simpl; lia).
        exact Hend.
  - intros x (y & Hy & ->)%update_where_In. destruct (histories _ _ _ Hc y Hy) as (es & Hes & Hen).
    assert (forall e, In e es -> exists o, In o (os ++ [outbox_row t e']) /\ entry_of e o) as Hmore.
    { intros x Hx. destruct (Hen x Hx) as (o & Ho & Hxo). exists o. split; [apply in_or_app; by left|done]. }
    case_bool_decide as Hd; [|by exists es]. rewrite (Hu y Hy Hd) in Hes. exists (es ++ [e']). split.
    + rewrite (Hu y Hy Hd), verify_loop_snoc. simpl AuditHead.TenantID. rewrite Hes. by apply verify_linked.
    + intros z [Hz|[<-|[]]]%in_app_or; [by apply Hmore|]. exists (outbox_row t e').
      split; [apply in_or_app; right; by left|]. repeat split. intros x Hx. by injection Hx.
Qed.


(** A verified history has an event at every place. *)
Lemma verify_loop_places r tid es : forall seq hash n h i,
  Archive.verify_loop r tid seq hash es = Some (n, h) -> seq < i <= n ->
  exists e, In e es /\ AuditLog.TenantID e = tid /\ AuditLog.Sequence e = Some i.
Proof.
  induction es as [|e es IH]; intros seq hash n h i H Hi; [injection H as <- _; lia|].
  cbn [Archive.verify_loop] in H. destruct (_ && _) eqn:He; [|done]. bool_prop.
  destruct (decide (i = seq + 1)) as [->|Hne].
  - exists e. split; [by left|done].
  - destruct (IH _ _ _ _ i H ltac:(lia)) as (x & Hx & Hix). exists x. split; [by right|done].
Qed.

(** Every place up to the head is taken by one entry. *)
Definition gapless (hs : list AuditHead.row) (os : list AuditOutbox.row) : Prop :=
  forall h n, In h hs -> 1 <= n <= AuditHead.Sequence h ->
    exists o, forall x, (In x os /\ AuditOutbox.TenantID x = AuditHead.TenantID h /\ AuditOutbox.Sequence x = n) <-> x = o.

Lemma chain_gapless r hs os : chain_ok r hs os -> gapless hs os.
Proof.
  intros Hc h n Hh Hn. destruct (histories _ _ _ Hc h Hh) as (es & Hes & Hen).
  destruct (verify_loop_places r _ es 0 _ _ _ n Hes ltac:(lia)) as (e & He & Ht & Hs).
  destruct (Hen e He) as (o & Ho & (_ & E2 & E3 & _)). rewrite Hs in E3. injection E3 as E3. rewrite Ht in E2.
  exists o. intros x. split; [|by intros ->]. intros (Hx & Htx & Hsx).
  apply (NoDup_map_inj (fun o => (AuditOutbox.TenantID o, AuditOutbox.Sequence o)) os); [apply Hc|done|done|].
  congruence.
Qed.

(** *** The worker's transitions *)

(** The same entry in another, equally undelivered, state. *)
Definition same_entry (o o' : AuditOutbox.row) : Prop :=
  AuditOutbox.EventID o' = AuditOutbox.EventID o /\ AuditOutbox.TenantID o' = AuditOutbox.TenantID o /\
  AuditOutbox.Sequence o' = AuditOutbox.Sequence o /\ AuditOutbox.Hash o' = AuditOutbox.Hash o /\
  AuditOutbox.KeyID o' = AuditOutbox.KeyID o.

Definition undelivered_entry (o o' : AuditOutbox.row) : Prop :=
  same_entry o o' /\ AuditOutbox.Payload o' = AuditOutbox.Payload o /\
  (AuditOutbox.State o' = "delivered" <-> AuditOutbox.State o = "delivered").

Lemma at_update tid n hash (q : AuditOutbox.row -> bool) g os :
  (forall o, In o os -> q o = true -> same_entry o (g o)) ->
  at_ tid n hash os -> at_ tid n hash (update_where q g os).
Proof.
  intros Hg (o & Hin & H1 & H2 & H3). exists (if q o then g o else o).
  split; [apply update_where_In; eauto|]. destruct (q o) eqn:Eq; [|done].
  destruct (Hg o Hin Eq) as (? & -> & -> & -> & _). done.
Qed.

Lemma linked_to_update tid n hash (q : AuditOutbox.row -> bool) g os :
  (forall o, In o os -> q o = true -> same_entry o (g o)) ->
  linked_to tid n hash os -> linked_to tid n hash (update_where q g os).
Proof. intros Hg [H|[Hn H]]; [by left|right]. split; [done|by apply at_update]. Qed.

Lemma map_update_same {K} (key : AuditOutbox.row -> K) (q : AuditOutbox.row -> bool) g os :
  (forall o, In o os -> q o = true -> key (g o) = key o) ->
  map key (update_where q g os) = map key os.
Proof.
  intros H. unfold update_where. rewrite map_map. apply map_ext_in. intros o Hin.
  destruct (q o) eqn:E'; [by apply H|done].
Qed.

(** What a change of entries needs to keep the chain: the entries stay, a
    payload that is still there is the same, and the counts agree. *)
Lemma chain_update r hs hs' os (q : AuditOutbox.row -> bool) g :
  chain_ok r hs os ->
  (forall o, In o os -> q o = true -> same_entry o (g o) /\
     forall e, AuditOutbox.Payload (g o) = JEvent e -> AuditOutbox.Payload o = JEvent e) ->
  Forall2 (fun h h' => AuditHead.TenantID h' = AuditHead.TenantID h /\
    AuditHead.Sequence h' = AuditHead.Sequence h /\ AuditHead.Hash h' = AuditHead.Hash h /\
    AuditHead.Pending h' <= AuditHead.Pending h /\
    AuditHead.Pending h' = undelivered (AuditHead.TenantID h) (update_where q g os)) hs hs' ->
  chain_ok r hs' (update_where q g os).
Proof.
  intros Hc Hg Hh.
  assert (forall o, In o os -> q o = true -> same_entry o (g o)) as Hs by (intros o Hin Hq; by apply Hg).
  assert (forall h', In h' hs' -> exists h, In h hs /\ AuditHead.TenantID h' = AuditHead.TenantID h /\
    AuditHead.Sequence h' = AuditHead.Sequence h /\ AuditHead.Hash h' = AuditHead.Hash h /\
    AuditHead.Pending h' <= AuditHead.Pending h /\
    AuditHead.Pending h' = undelivered (AuditHead.TenantID h) (update_where q g os)) as Hback.
  { clear - Hh. induction Hh as [|a b hs hs' Hab Hh IH]; [done|]. intros x [<-|Hin]; [exists a|].
    - split; [by left|done].
    - destruct (IH x Hin) as (h & ? & ?). exists h. split; [by right|done]. }
  assert (forall h, In h hs -> exists h', In h' hs' /\ AuditHead.TenantID h' = AuditHead.TenantID h /\
    AuditHead.Sequence h' = AuditHead.Sequence h) as Hforth.
  { clear - Hh. induction Hh as [|a b hs hs' Hab Hh IH]; [done|]. intros x [<-|Hin].
    - exists b. destruct Hab as (? & ? & _). split; [by left|done].
    - destruct (IH x Hin) as (h & ? & ?). exists h. split; [by right|done]. }
  assert (map AuditHead.TenantID hs' = map AuditHead.TenantID hs) as Hmap.
  { clear - Hh. induction Hh as [|a b hs hs' (Hab & _) Hh IH]; [done|]. simpl. by rewrite Hab, IH. }
  split.
  - rewrite Hmap. apply Hc.
  - rewrite map_update_same; [apply Hc|]. intros o Hin Hq. apply (Hs o Hin Hq).
  - rewrite map_update_same; [apply Hc|]. intros o Hin Hq.
    by destruct (Hs o Hin Hq) as (_ & -> & -> & _).
  - intros o (x & Hx & ->)%update_where_In. destruct (numbered _ _ _ Hc x Hx) as (h & Hin & Ht & Hn).
    destruct (Hforth h Hin) as (h' & Hin' & Ht' & Hs'). exists h'. split; [done|].
    destruct (q x) eqn:Eq; [destruct (Hs x Hx Eq) as (_ & -> & -> & _)|]; rewrite Ht', Hs'; done.
  - intros h' Hin. destruct (Hback h' Hin) as (h & Hin' & -> & -> & -> & _).
    by apply linked_to_update, (ends _ _ _ Hc).
  - intros h' Hin. by destruct (Hback h' Hin) as (h & Hin' & -> & _ & _ & _ & ->).
  - intros h' Hin. destruct (Hback h' Hin) as (h & Hin' & _ & _ & _ & Hle & _).
    pose proof (bounded _ _ _ Hc h Hin'). lia.
  - intros o e (x & Hx & ->)%update_where_In Hp. destruct (q x) eqn:Eq.
    + destruct (Hg x Hx Eq) as [(H1 & H2 & H3 & H4 & H5) Hpay].
      destruct (signed _ _ _ Hc x e Hx (Hpay e Hp)) as (Hm & Hv & Hl).
      unfold payload_matches in *. rewrite H1, H2, H3, H4, H5. repeat split; try done.
      by apply linked_to_update.
    + destruct (signed _ _ _ Hc x e Hx Hp) as (Hm & Hv & Hl). repeat split; try done.
      by apply linked_to_update.
  - intros h' Hin. destruct (Hback h' Hin) as (h & Hin' & Ht & Hs1 & Hh1 & _).
    destruct (histories _ _ _ Hc h Hin') as (es & Hes & Hen). exists es. rewrite Ht, Hs1, Hh1. split; [done|].
    intros e He. destruct (Hen e He) as (o & Ho & (E1 & E2 & E3 & E4 & E5 & E6)).
    exists (if q o then g o else o). split; [apply update_where_In; eauto|].
    destruct (q o) eqn:Eq; [|by repeat split]. destruct (Hg o Ho Eq) as [(H1 & H2 & H3 & H4 & H5) Hpay].
    repeat split; [congruence..|]. intros x Hx. by apply E6, Hpay.
Qed.

Lemma undelivered_same tid (q : AuditOutbox.row -> bool) g os :
  (forall o, In o os -> q o = true -> undelivered_entry o (g o)) ->
  undelivered tid (update_where q g os) = undelivered tid os.
Proof.
  intros Hg. unfold undelivered, count_where, rows_where. f_equal.
  induction os as [|o os IH]; [done|].
  assert (forall o', In o' os -> q o' = true -> undelivered_entry o' (g o')) as Hg'
    by (intros; apply Hg; [by right|done]).
  specialize (IH Hg'). unfold update_where in *. simpl. destruct (q o) eqn:Eq.
  - destruct (Hg o (or_introl eq_refl) Eq) as ((_ & -> & _) & _ & Hd).
    rewrite (bool_decide_ext _ _ Hd). destruct (_ && _); simpl; lia.
  - destruct (_ && _); simpl; lia.
Qed.

Lemma chain_restate r hs os (q : AuditOutbox.row -> bool) g :
  (forall o, In o os -> q o = true -> undelivered_entry o (g o)) ->
  chain_ok r hs os -> chain_ok r hs (update_where q g os).
Proof.
  intros Hg Hc. apply chain_update with hs; [done| |].
  - intros o Hin Hq. destruct (Hg o Hin Hq) as (? & -> & _). auto.
  - assert (forall h, In h hs -> AuditHead.Pending h = undelivered (AuditHead.TenantID h) (update_where q g os)) as Hp.
    { intros h Hin. rewrite undelivered_same by done. by apply (pending _ _ _ Hc). }
    clear - Hp. induction hs as [|h hs IH]; constructor.
    + repeat split; [lia|]. apply Hp. by left.
    + apply IH. intros x Hx. apply Hp. by right.
Qed.


(** *** Every operation on the trail keeps the chain *)

Definition db_chain (r : AuditRepository) (d : DB) : Prop := chain_ok r (audit_heads d) (audit_outbox d).

Abbreviation keeps_chain r := (keeps (preserves (db_chain r))).

Lemma Capture_Ok ctx in_ w e w' :
  Trail.Capture ctx in_ w = (Ok e, w') ->
  same_state w w' /\ AuditLog.Version e = 1 /\ AuditLog.TenantID e = FromContext ctx /\
  AuditLog.Event e = AuditLog.Event in_ /\ AuditLog.Success e = AuditLog.Success in_ /\
  AuditLog.UserID e = AuditLog.UserID in_ /\ is_uuid (AuditLog.EventID e) = true /\
  AuditLog.Email e = "" /\ AuditLog.IPAddress e = "" /\ AuditLog.Detail e = "" /\
  AuditLog.ActorID e = match c_actor ctx with Some id => if 0 <? id then id else 0 | None => 0 end.
Proof.
  unfold Trail.Capture. destruct (_ || (40 <? str_len (AuditLog.Action in_))); [done|].
  destruct (_ || _); [done|]. intros H.
  apply bind_Ok in H as (eid & w1 & H1 & H).
  assert (same_state w w1) as Hw1.
  { destruct (bool_decide (AuditLog.EventID in_ = "")); [by apply uuid_Ok in H1 as [_ ?]|injection H1 as _ <-; apply same_refl]. }
  destruct (is_uuid eid) eqn:Hu; [|done]. cbn [negb] in H.
  apply bind_Ok in H as (t & w2 & H2 & H). apply now_Ok in H2 as [-> Hw2].
  apply bind_Ok in H as (rid & w3 & H3 & H).
  assert (same_state w2 w3) as Hw3.
  { destruct (is_uuid (c_corr ctx)); [injection H3 as _ <-; apply same_refl|by apply uuid_Ok in H3 as [_ ?]]. }
  injection H as <- <-. simpl. split; [eauto using same_trans|].
  repeat split; try done. destruct (c_actor ctx) as [id|]; [|done]. by destruct (0 <? id).
Qed.

Lemma Capture_keeps P `{!PreOrder P} ctx in_ : keeps P (Trail.Capture ctx in_).
Proof. unfold Trail.Capture. keeps_tac. Qed.

Lemma Admit_db r ctx in_ w res w' :
  Admit r ctx in_ w = (res, w') ->
  (is_Ok res = false /\ w_db w' = w_db w) \/
  (res = Ok tt /\ exists e w0 w1, same_state w w0 /\ Trail.Capture ctx in_ w = (Ok e, w0) /\
     w_db w1 = w_db w /\ w_now w1 = w_now w /\ w_op w1 = w_op w /\
     exists w2, admit_tx r e w1 = (Ok tt, w2) /\ w_db w' = w_db w2 /\
       w_op w' = op_admitted (AuditLog.Success e) <$> w_op w2).
Proof.
  unfold Admit. intros H. unfold bind at 1 in H.
  destruct (or_unavailable (Trail.Capture ctx in_) w) as [[e|err] w0] eqn:Hc.
  - apply or_unavailable_Ok in Hc. destruct (Capture_Ok _ _ _ _ _ Hc) as (Hw & _).
    unfold bind in H. destruct (transaction (admit_tx r e) w0) as [[[]|err] w1] eqn:Ht.
    + right. injection H as <- <-. split; [done|]. apply transaction_Ok in Ht as (wa & wb & Ha & Hm & Hb).
      exists e, w0, wa. destruct Hw as (D1 & K1 & O1 & N1 & M1), Ha as (D2 & K2 & O2 & N2 & M2), Hb as (D3 & _ & O3 & _).
      repeat (split; [by repeat split; congruence || done|]). exists wb. split; [done|]. rewrite <- O3.
      destruct (w_op w1) eqn:Eo; simpl; rewrite ?Eo; auto.
    + injection H as <- <-. left. split; [done|]. apply transaction_Error in Ht. rewrite Ht. apply Hw.
  - injection H as <- <-. left. split; [done|].
    unfold or_unavailable, bind, try_ in Hc.
    pose proof (Capture_keeps eq ctx in_ w) as Hk. destruct (Trail.Capture ctx in_ w) as [[]];
      [done|injection Hc as _ <-; by symmetry].
Qed.


Definition delivered (o : AuditOutbox.row) : AuditOutbox.row :=
  AuditOutbox.set_LastError "" (AuditOutbox.set_LeaseUntil None (AuditOutbox.set_LeaseToken ""
    (AuditOutbox.set_Payload JEmpty (AuditOutbox.set_State "delivered" o)))).

Lemma undelivered_deliver r hs os o tid :
  chain_ok r hs os -> In o os -> AuditOutbox.State o <> "delivered" ->
  undelivered tid (update_where (fun x => bool_decide
        (AuditOutbox.EventID x = AuditOutbox.EventID o)) delivered os) =
  undelivered tid os - if bool_decide (AuditOutbox.TenantID o = tid) then 1 else 0.
Proof.
  intros Hc Hin Hst. unfold undelivered.
  pose proof (count_where_update AuditOutbox.EventID
    (fun x => bool_decide (AuditOutbox.EventID x = AuditOutbox.EventID o))
    (fun o => bool_decide (AuditOutbox.TenantID o = tid) && negb (bool_decide (AuditOutbox.State o = "delivered")))
    delivered os o (one_event _ _ _ Hc) Hin (fun x => bool_decide_eq_true _)) as Hn.
  cbn beta in Hn. rewrite (bool_decide_false _ Hst) in Hn. simpl in Hn.
  rewrite andb_true_r, andb_false_r in Hn. case_bool_decide; lia.
Qed.

Section Kept.
Context (r : AuditRepository) (Hkeys : keys_ok r) (Hmax : 0 <= maxPending r).

Lemma admit_keeps ctx in_ : keeps_chain r (Admit r ctx in_).
Proof.
  intros w Hc. destruct (Admit r ctx in_ w) as [res w'] eqn:H. simpl.
  apply Admit_db in H as [[_ ->]|(_ & e & w0 & w1 & Hw & Hcap & Hd & _ & _ & w2 & Htx & -> & _)]; [done|].
  destruct (Capture_Ok _ _ _ _ _ Hcap) as (_ & Hv & Ht & _).
  apply admit_tx_Ok in Htx as (h & Hf & Hp & Hnew & _ & Ho & Hh & _ & _).
  unfold db_chain in *. rewrite Ho, Hh, Hd in *. apply admit_ok; try done. by apply heads_with_ok.
Qed.

Lemma order_by_In {R} (before : R -> R -> bool) (l : list R) x : In x (order_by before l) -> In x l.
Proof.
  assert (forall y k, In x (insert_by before y k) -> x = y \/ In x k) as Hi.
  { intros y k. induction k as [|z k IH]; simpl; [by intros [->|[]]; left|].
    destruct (before y z); simpl; [by intros [->|[->|H]]; auto|].
    intros [->|H]; [by right; left|]. destruct (IH H); auto. }
  induction l as [|y l IH]; [done|]. simpl. intros H. destruct (Hi _ _ H) as [->|H']; auto.
Qed.

Lemma lease_entry t token o : due t o = true -> undelivered_entry o (lease t token o).
Proof.
  intros Hd. unfold lease. assert (AuditOutbox.State o <> "delivered") as Hs.
  { intros Hs. unfold due in Hd. rewrite Hs in Hd. done. }
  destruct (auditMaxAttempts <? _); by repeat split.
Qed.

Lemma claim_keeps t : keeps_chain r (Claim t).
Proof.
  apply keeps_bind; [typeclasses eauto| |intros []; keeps_tac]. apply keeps_try.
  apply keeps_transaction_Ok; [typeclasses eauto|]. intros w o w' H Hc.
  apply bind_Ok in H as (rows & w1 & Hf & H). apply Find_Ok in Hf as [(Hd1 & _) ->].
  destruct (order_by _ _) as [|x l] eqn:Ho; [done|].
  assert (In x (audit_outbox (w_db w)) /\ due t x = true) as [Hin Hdue].
  { assert (In x (rows_where (due t) (rows_of (w_db w)))) as Hx; [|by apply filter_In in Hx].
    apply (order_by_In earlier). rewrite Ho. by left. }
  apply bind_Ok in H as (token & w2 & Hu & H). apply uuid_Ok in Hu as [_ (Hd2 & _)].
  apply bind_Ok in H as ([] & w3 & Hs & H). injection H as _ <-.
  apply bind_Ok in Hs as (n & w4 & Hs & H). injection H as <-. apply Updates_Ok in Hs as [(Hd & _) _].
  unfold db_chain in *. rewrite Hd, Hd2, Hd1. simpl. pose proof (lease_entry t token x Hdue) as He.
  erewrite update_where_ext with (g := lease t token).
  - apply chain_restate; [|done]. intros y Hy Hq. bool_prop.
    assert (y = x) as ->; [|done].
    apply (NoDup_map_inj AuditOutbox.EventID (audit_outbox (w_db w))); [apply Hc|done|done|].
    rewrite Hq. apply He.
  - intros y Hy Hq. bool_prop. f_equal.
    apply (NoDup_map_inj AuditOutbox.EventID (audit_outbox (w_db w))); [apply Hc|done|done|].
    rewrite Hq. symmetry. apply He.
Qed.

Lemma failclaim_keeps c t : keeps_chain r (FailClaim c t).
Proof.
  apply keeps_bind; [typeclasses eauto| |intros; keeps_tac]. apply keeps_Updates; [typeclasses eauto|].
  intros d Hc. unfold db_chain. simpl. apply chain_restate; [|done]. intros o _ Hq.
  bool_prop. split; [by repeat split|]. split; [done|]. simpl.
  destruct (auditMaxAttempts <=? _); by split; intros; congruence.
Qed.

Lemma requeue_keeps ctx id : keeps_chain r (RequeueDead ctx id).
Proof.
  apply keeps_bind; [typeclasses eauto|keeps_tac|]. intros t.
  apply keeps_bind; [typeclasses eauto| |intros; keeps_tac]. apply keeps_Updates; [typeclasses eauto|].
  intros d Hc. unfold db_chain. simpl. apply chain_restate; [|done]. intros o _ Hq.
  bool_prop. split; [by repeat split|]. split; [done|]. simpl. by split; intros; congruence.
Qed.

Lemma insert_event_Ok e w w' :
  insert_event e w = (Ok tt, w') ->
  audit_heads (w_db w') = audit_heads (w_db w) /\ audit_outbox (w_db w') = audit_outbox (w_db w) /\
  ((exists p, In p (audit_logs (w_db w)) /\ Trail.Canonical p = Trail.Canonical e /\
      AuditLog.RecordHash p = AuditLog.RecordHash e /\ w_db w' = w_db w) \/
   audit_logs (w_db w') = audit_logs (w_db w) ++ [AuditLog.set_ID (next_id (w_db w)) e]).
Proof.
  intros H. apply bind_Ok in H as (prior & w1 & Hp & H). apply try_Ok in Hp. destruct prior as [p|err].
  - apply First_Ok in Hp as [(Hd & _) Hp]. apply first_where_Some in Hp as [Hin _].
    destruct (_ && _) eqn:Hm; [|done]. bool_prop. injection H as <-. rewrite Hd.
    repeat (split; [done|]). left. eauto.
  - destruct (decide _) as [->|]; [|done]. apply First_NotFound in Hp as [(Hd & _) _].
    apply bind_Ok in H as (x & w2 & Hc & H). injection H as <-.
    apply Create_Ok in Hc as (-> & _ & (Hd2 & _)). rewrite Hd2, Hd. simpl. auto.
Qed.

Lemma deliver_chain hs os o :
  chain_ok r hs os -> In o os -> AuditOutbox.State o <> "delivered" ->
  chain_ok r (update_where (fun h => bool_decide (AuditHead.TenantID h = AuditOutbox.TenantID o) &&
                                     (0 <? AuditHead.Pending h))
                           (fun h => AuditHead.set_Pending (AuditHead.Pending h - 1) h) hs)
    (update_where (fun x => bool_decide (AuditOutbox.EventID x = AuditOutbox.EventID o)) delivered os).
Proof.
  intros Hc Hin Hst. apply chain_update with hs; [done| |].
  - intros x _ _. split; [by repeat split|done].
  - assert (forall h, In h hs -> AuditHead.Pending h = undelivered (AuditHead.TenantID h) os) as Hp
      by apply (pending _ _ _ Hc).
    assert (Hu := fun tid => undelivered_deliver r hs os o tid Hc Hin Hst).
    clear - Hp Hu. induction hs as [|h hs IH]; constructor.
    + rewrite Hu. specialize (Hp h (or_introl eq_refl)). rewrite <- Hp.
      assert (0 <= AuditHead.Pending h) as Hnn by (rewrite Hp; unfold undelivered; lia).
      destruct (decide (AuditHead.TenantID h = AuditOutbox.TenantID o)) as [Ht|Ht].
      * rewrite !bool_decide_true by done. simpl.
        assert (0 < AuditHead.Pending h) as Hpos.
        { specialize (Hu (AuditHead.TenantID h)). rewrite bool_decide_true, <- Hp in Hu by done.
          unfold undelivered in Hu. lia. }
        destruct (Z.ltb_spec 0 (AuditHead.Pending h)); [|lia]. simpl. repeat split; lia.
      * rewrite !bool_decide_false by congruence. simpl. repeat split; lia.
    + apply IH. intros x Hx. apply Hp. by right.
Qed.

Lemma Deliver_inv claim w w' :
  Deliver r claim w = (Ok tt, w') ->
  w_db w' = w_db w \/
  exists o e, first_where (fun x => bool_decide (AuditOutbox.EventID x = AuditOutbox.EventID claim))
      (audit_outbox (w_db w)) = Some o /\ AuditOutbox.State o <> "delivered" /\
    lease_live (w_now w) claim o = true /\ AuditOutbox.Payload o = JEvent e /\
    payload_matches o e = true /\ Trail.Verify (a_keys r) e = None /\
    audit_heads (w_db w') = update_where (fun h => bool_decide (AuditHead.TenantID h = AuditOutbox.TenantID o) &&
        (0 <? AuditHead.Pending h)) (fun h => AuditHead.set_Pending (AuditHead.Pending h - 1) h)
      (audit_heads (w_db w)) /\
    audit_outbox (w_db w') = update_where (fun x => bool_decide (AuditOutbox.EventID x = AuditOutbox.EventID o))
      delivered (audit_outbox (w_db w)) /\
    ((exists p, In p (audit_logs (w_db w)) /\ Trail.Canonical p = Trail.Canonical e /\
        AuditLog.RecordHash p = AuditLog.RecordHash e /\ audit_logs (w_db w') = audit_logs (w_db w)) \/
     exists id, audit_logs (w_db w') = audit_logs (w_db w) ++ [AuditLog.set_ID id e]).
Proof.
  intros H. apply transaction_Ok in H as (wa & wb & (Hda & _ & _ & Hna & _) & H & (Hdb & _)).
  rewrite Hdb, <- Hda. rewrite <- Hna. clear Hdb Hda Hna w w'.
  apply bind_Ok in H as (o & w1 & Ho & H). apply First_Ok in Ho as [(Hd1 & _ & _ & Hn1 & _) Ho].
  destruct (bool_decide (AuditOutbox.State o = "delivered")) eqn:Hst.
  { injection H as <-. by left. }
  right. bool_prop. apply bind_Ok in H as (t & w2 & Ht & H). apply now_Ok in Ht as [-> (Hd2 & _)].
  destruct (lease_live (w_now w1) claim o) eqn:Hl; [|done]. cbn [negb] in H.
  destruct (AuditOutbox.Payload o) as [|e|] eqn:Hpay; try done.
  destruct (payload_matches o e) eqn:Hm; [|done]. cbn [negb] in H.
  destruct (Trail.Verify (a_keys r) e) eqn:Hv; [done|].
  apply bind_Ok in H as ([] & w3 & Hi & H). apply insert_event_Ok in Hi as (Hh3 & Ho3 & Hl3).
  apply bind_Ok in H as (n & w4 & Hu & H). apply Updates_Ok in Hu as [(Hd4 & _) _].
  apply bind_Ok in H as (n' & w5 & Hu & H). apply Updates_Ok in Hu as [(Hd5 & _) _]. injection H as <-.
  exists o, e. rewrite Hn1 in Hl. repeat (split; [done|]).
  rewrite Hd5, Hd4. simpl. rewrite Hh3, Ho3, Hd2, Hd1. repeat (split; [done|]).
  rewrite Hd2, Hd1 in Hl3. destruct Hl3 as [(p & Hin & Hcp & Hrp & Heq)|Hl3]; [left|right].
  - exists p. by rewrite Heq.
  - rewrite Hl3. eauto.
Qed.

Lemma deliver_keeps claim : keeps_chain r (Deliver r claim).
Proof.
  intros w Hc. destruct (Deliver r claim w) as [[[]|err] w'] eqn:H; simpl.
  - apply Deliver_inv in H as [->|(o & e & Ho & Hs & _ & _ & _ & _ & Hh & Hb & _)]; [done|].
    unfold db_chain in *. rewrite Hh, Hb. apply first_where_Some in Ho as [Hin _].
    by apply deliver_chain.
  - by rewrite (transaction_Error _ _ _ _ H).
Qed.

Lemma dispatch_loop_keeps limit : forall n, keeps_chain r (dispatch_loop r limit n).
Proof.
  induction limit as [|limit IH]; intros n; cbn [dispatch_loop]; [keeps_tac|].
  apply keeps_bind; [typeclasses eauto|keeps_tac|]. intros t.
  apply keeps_bind; [typeclasses eauto|apply keeps_try, claim_keeps|].
  intros [[c|]|err]; [|by apply keeps_ret; typeclasses eauto ..].
  apply keeps_bind; [typeclasses eauto|apply keeps_try, deliver_keeps|]. intros [u|err]; [apply IH|].
  apply keeps_bind; [typeclasses eauto|apply keeps_try, failclaim_keeps|].
  intros []; apply keeps_ret; typeclasses eauto.
Qed.

(** *** The operations that reach the trail, in any order, under any faults *)

Inductive trail_call :=
  | CAdmit (ctx : Ctx) (e : AuditLog.row) | CClaim (t : Z) | CDeliver (claim : AuditOutbox.row)
  | CFail (claim : AuditOutbox.row) (t : Z) | CRequeue (ctx : Ctx) (id : string) | CDispatch (limit : nat).

Definition run_call (c : trail_call) (w : World) : World :=
  match c with
  | CAdmit ctx e => snd (Admit r ctx e w)
  | CClaim t => snd (Claim t w)
  | CDeliver claim => snd (Deliver r claim w)
  | CFail claim t => snd (FailClaim claim t w)
  | CRequeue ctx id => snd (RequeueDead ctx id w)
  | CDispatch n => snd (Dispatch r n w)
  end.

(** Between two calls the clock, the oracle and every other table may change. *)
Inductive trail_reach : World -> Prop :=
  | reach_start w : audit_heads (w_db w) = [] -> audit_outbox (w_db w) = [] -> trail_reach w
  | reach_call c w : trail_reach w -> trail_reach (run_call c w)
  | reach_else w w' : trail_reach w -> audit_heads (w_db w') = audit_heads (w_db w) ->
      audit_outbox (w_db w') = audit_outbox (w_db w) -> trail_reach w'.

Lemma call_keeps c w : db_chain r (w_db w) -> db_chain r (w_db (run_call c w)).
Proof.
  destruct c; simpl.
  - apply admit_keeps.
  - apply claim_keeps.
  - apply deliver_keeps.
  - apply failclaim_keeps.
  - apply requeue_keeps.
  - apply dispatch_loop_keeps.
Qed.

End Kept.

(** ** Verified histories *)

Lemma verify_loop_one r tid n h e s h' :
  Archive.verify_loop r tid n h [e] = Some (s, h') ->
  AuditLog.TenantID e = tid /\ AuditLog.Sequence e = Some s /\ s = n + 1 /\ AuditLog.PrevHash e = h /\ AuditLog.RecordHash e = h' /\ Trail.Verify (a_keys r) e = None.
Proof.
  cbn [Archive.verify_loop]. destruct (_ && _) eqn:H; [|done]. intros [= <- <-]. bool_prop. done.
Qed.

Lemma Verify_None k e :
  Trail.Verify k e = None ->
  exists key, Trail.lookup (AuditLog.KeyID e) (Trail.signing k) = Some key /\ hmac_hex key (Trail.Canonical e) = AuditLog.RecordHash e.
Proof.
  unfold Trail.Verify. destruct (Trail.lookup _ _) as [key|]; [|done].
  destruct (AuditLog.Sequence e) as [n|]; [|done]. destruct (_ && _) eqn:H; [|done]. bool_prop. eauto.
Qed.

Lemma verify_loop_length r tid rows : forall seq hash n h,
  Archive.verify_loop r tid seq hash rows = Some (n, h) -> n = seq + Z.of_nat (length rows).
Proof.
  induction rows as [|e rows IH]; intros seq hash n h H; [injection H as <- _; simpl; lia|].
  cbn [Archive.verify_loop] in H. destruct (_ && _); [|done]. apply IH in H. simpl. lia.
Qed.

Lemma verify_loop_unique r tid seq hash : ExtLaws E -> forall rows rows' n h,
  Archive.verify_loop r tid seq hash rows = Some (n, h) ->
  Archive.verify_loop r tid seq hash rows' = Some (n, h) ->
  map Trail.Canonical rows = map Trail.Canonical rows'.
Proof.
  intros HE. induction rows as [|e rows IH] using rev_ind; intros rows' n h H H'.
  { apply verify_loop_length in H, H'. destruct rows'; [done|]. simpl in *. lia. }
  pose proof (verify_loop_length _ _ _ _ _ _ _ H) as Hl.
  pose proof (verify_loop_length _ _ _ _ _ _ _ H') as Hl'.
  destruct rows' as [|e' rows' _] using rev_ind.
  { rewrite length_app in Hl. simpl in *. lia. }
  rewrite verify_loop_snoc in H, H'.
  destruct (Archive.verify_loop r tid seq hash rows) as [[a ha]|] eqn:Ha; [|done].
  destruct (Archive.verify_loop r tid seq hash rows') as [[b hb]|] eqn:Hb; [|done].
  apply verify_loop_one in H as (_ & _ & Hn & Hp & Hr & Hv).
  apply verify_loop_one in H' as (_ & _ & Hn' & Hp' & Hr' & Hv').
  apply Verify_None in Hv as (k & _ & Hk). apply Verify_None in Hv' as (k' & _ & Hk').
  rewrite Hr in Hk. rewrite Hr' in Hk'.
  assert (Trail.Canonical e = Trail.Canonical e') as Hc.
  { apply (hmac_collision_free k k'). congruence. }
  assert (ha = hb) as <- by (rewrite <- Hp, <- Hp'; by injection Hc).
  assert (a = b) as <- by lia.
  rewrite !map_app. simpl. f_equal; [by apply (IH rows' a ha)|by f_equal].
Qed.

Lemma verifyEvents_None r tid base end_ rows :
  Archive.verifyEvents r tid base end_ rows = None ->
  Checkpoint.Tenant base = tid /\ Checkpoint.Tenant end_ = tid /\ Archive.verify_loop r tid (Checkpoint.Sequence base) (Checkpoint.Hash base) rows =
  Some (Checkpoint.Sequence end_, Checkpoint.Hash end_).
Proof.
  unfold Archive.verifyEvents.
  destruct (bool_decide (Checkpoint.Tenant base = tid)) eqn:Hb; [|done].
  destruct (bool_decide (Checkpoint.Tenant end_ = tid)) eqn:He; [|done].
  destruct (Checkpoint.Sequence end_ <? _); [done|]. cbn [negb orb]. destruct (negb _ || negb _); [done|].
  destruct (bool_decide (Archive.verify_loop _ _ _ _ _ = _)) eqn:Hl; [|done]. intros _. by bool_prop.
Qed.

End AuditFacts.

(** ** The properties *)

Section Claims.
Context {ST : Store} {E : Ext}.

(** C25: a service operation is atomic with its audit evidence.  The database
    after [AsyncAuditWriter.AuditOperation] is either the one before it, and then
    the call answers an error; or the one the body left, and then no audit
    admission of the body failed, the answer is the body's, and if that is an
    error it is one of the operation's denials and a denial was admitted
    (and no success was). *)
Theorem operation_atomic {A} (wr : Writer.AsyncAuditWriter) (ctx : Ctx) (fn : Ctx -> M A)
    (denial : Err -> bool) (w : World) (res : Res A) (w' : World)
    (Hunbound : w_op w = None)
    (Hrun : Writer.AuditOperation wr ctx fn denial w = (res, w')) :
  (is_Ok res = false /\ w_db w' = w_db w) \/
  exists w0 w1, w_db w0 = w_db w /\ w_op w0 = Some BindOperation /\
    fn (WithAsyncDelivery ctx) w0 = (res, w1) /\ w_db w' = w_db w1 /\
    let op := default BindOperation (w_op w1) in
    failure op = None /\
    forall e, res = Error e -> denial e = true /\ 0 < admissions op /\ successful op = false.
Proof.
  apply operation_inv in Hrun as [H|(w0 & w1 & Hd & _ & _ & Ho & Hf & Hdb & _ & Hop)]; [by left| |done..].
  right. exists w0, w1. repeat (split; [done|]). destruct Hop as [Hfail Hop]. split; [done|].
  intros e He. destruct (Hop e He) as [? Hmay]. unfold DenialMayCommit in Hmay. by bool_prop.
Qed.

(** C26: with a signing key for the current id and a capacity that is not negative:
    whatever calls to admit, claim, deliver, fail, requeue and dispatch run, in any
    order, with any faults of the database and at any times, every tenant has one
    head and one gapless, linked, signed chain.  There is a list of events, one for
    each place from 1 to the head's number, that verifies from the genesis hash to
    the head's hash (each event signed, numbered after the one before and linked to
    its hash), and the outbox holds the entry of each, with its place, hash and key;
    a payload still there is that event, and a delivered entry has lost its payload
    only.  Event ids and places are unique, no entry lies outside 1 to the head, the
    capacity counter is the number of undelivered entries and never exceeds the
    limit. *)
Theorem trail_invariant (r : AuditRepository) (w : World)
    (Hkeys : keys_ok r) (Hmax : 0 <= maxPending r) (Hreach : trail_reach r w) :
  chain_ok r (audit_heads (w_db w)) (audit_outbox (w_db w)) /\
  gapless (audit_heads (w_db w)) (audit_outbox (w_db w)).
Proof.
  cut (db_chain r (w_db w)); [intros H; split; [exact H|exact (chain_gapless r _ _ H)]|].
  induction Hreach as [w Hh Ho|c w _ IH|w w' _ IH Hh Ho]; unfold db_chain in *.
  - rewrite Hh, Ho. by split; simpl; try constructor.
  - by apply call_keeps.
  - by rewrite Hh, Ho.
Qed.

(** Delivery is fenced by the lease and verified.  If [Deliver] succeeds it
    either changed nothing, or the entry was leased under the claimant's token,
    the lease had not expired, the payload matches the entry and carries a valid
    signature; then the log holds the event, the entry is delivered without its
    payload and token, and the tenant's pending count is one less. *)
Theorem deliver_fenced (r : AuditRepository) (claim : AuditOutbox.row) (w w' : World)
    (Hchain : chain_ok r (audit_heads (w_db w)) (audit_outbox (w_db w)))
    (Hrun : Outbox.Deliver r claim w = (Ok tt, w')) :
  w_db w' = w_db w \/
  exists o e, In o (audit_outbox (w_db w)) /\ AuditOutbox.EventID o = AuditOutbox.EventID claim /\
    AuditOutbox.State o = "leased" /\ AuditOutbox.LeaseToken o = AuditOutbox.LeaseToken claim /\
    (exists u, AuditOutbox.LeaseUntil o = Some u /\ w_now w < u) /\
    AuditOutbox.Payload o = JEvent e /\ AuditLog.EventID e = AuditOutbox.EventID o /\
    Trail.Verify (a_keys r) e = None /\
    (exists x, In x (audit_logs (w_db w')) /\ Trail.Canonical x = Trail.Canonical e /\
       AuditLog.RecordHash x = AuditLog.RecordHash e) /\
    In (delivered o) (audit_outbox (w_db w')) /\
    undelivered (AuditOutbox.TenantID o) (audit_outbox (w_db w')) =
      undelivered (AuditOutbox.TenantID o) (audit_outbox (w_db w)) - 1.
Proof.
  apply Deliver_inv in Hrun as [H|(o & e & Ho & Hs & Hl & Hp & Hm & Hv & Hh & Hb & Hlog)]; [by left|right].
  apply first_where_Some in Ho as [Hin Hid]. bool_prop. exists o, e. unfold Outbox.lease_live in Hl. bool_prop.
  unfold Outbox.payload_matches in Hm. bool_prop. repeat (split; [done|]).
  split. { destruct (AuditOutbox.LeaseUntil o) as [u|]; [|done]. exists u. split; [done|lia]. }
  repeat (split; [done|]). split.
  { destruct Hlog as [(p & Hx & Hc & Hr & Heq)|(id & Heq)]; rewrite Heq.
    - by exists p.
    - exists (AuditLog.set_ID id e). split; [apply in_or_app; right; by left|done]. }
  rewrite Hb. split.
  - apply update_where_In. exists o. by rewrite bool_decide_true.
  - rewrite (undelivered_deliver r (audit_heads (w_db w))) by done. rewrite bool_decide_true by done. lia.
Qed.

(** Tamper evidence.  Under a collision-free MAC, two event lists that
    [verifyEvents] accepts between the same base and end references are, field by
    signed field, the same list: no event can be altered, dropped, inserted or
    reordered. *)
Theorem history_unique (HE : ExtLaws E) (r : AuditRepository) (tid : string) (base end_ : Checkpoint.row)
    (rows rows' : list AuditLog.row)
    (H : Archive.verifyEvents r tid base end_ rows = None)
    (H' : Archive.verifyEvents r tid base end_ rows' = None) :
  map Trail.Canonical rows = map Trail.Canonical rows'.
Proof.
  apply verifyEvents_None in H as (_ & _ & H), H' as (_ & _ & H'). by apply (verify_loop_unique _ _ _ _ HE _ _ _ _ H).
Qed.

End Claims.

(** ** Witnesses *)

#[local] Existing Instance mem_store.
#[local] Existing Instance toy_ext.

Definition demo_writer : Writer.AsyncAuditWriter := Writer.mkWriter demo_repo true.

(** A body that records a successful event and then is refused. *)
Definition demo_denied (ctx : Ctx) : M unit :=
  Writer.Record_ demo_writer ctx demo_refusal ;;; fail ErrInvalidCredentials.

Definition demo_denial (e : Err) : bool := bool_decide (e = ErrInvalidCredentials).

Definition demo_run := Writer.AuditOperation demo_writer demo_ctx demo_denied demo_denial demo_start.

Lemma operation_atomic_witness :
  length (audit_outbox (w_db (snd demo_run))) = 1%nat /\
  ((is_Ok (fst demo_run) = false /\ w_db (snd demo_run) = w_db demo_start) \/
   exists w0 w1, w_db w0 = w_db demo_start /\ w_op w0 = Some BindOperation /\
     demo_denied (WithAsyncDelivery demo_ctx) w0 = (fst demo_run, w1) /\ w_db (snd demo_run) = w_db w1 /\
     let op := default BindOperation (w_op w1) in
     failure op = None /\
     forall e, fst demo_run = Error e -> demo_denial e = true /\ 0 < admissions op /\ successful op = false).
Proof.
  split; [vm_reflexivity|].
  assert (Writer.AuditOperation demo_writer demo_ctx demo_denied demo_denial demo_start =
          (fst demo_run, snd demo_run)) as Hrun.
  { unfold demo_run. exact (surjective_pairing (Writer.AuditOperation demo_writer demo_ctx demo_denied demo_denial demo_start)). }
  exact (operation_atomic (A := unit) demo_writer demo_ctx demo_denied demo_denial demo_start
    (fst demo_run) (snd demo_run) eq_refl Hrun).
Defined.

(** One event admitted, then claimed, then delivered. *)
Definition demo_admitted : World := run_call demo_repo (CAdmit demo_ctx demo_event) demo_start.

Definition demo_claimed : World := run_call demo_repo (CClaim (w_now demo_start)) demo_admitted.

Definition demo_claim : AuditOutbox.row :=
  default (AuditOutbox.mk "" "" 0 "" "" JEmpty "" 0 0 None "" "" 0) (hd_error (audit_outbox (w_db demo_claimed))).

Definition demo_delivered : World := run_call demo_repo (CDeliver demo_claim) demo_claimed.

Lemma demo_keys_ok : keys_ok demo_repo.
Proof. by eexists. Qed.

Lemma demo_reach : trail_reach demo_repo demo_claimed.
Proof. exact (reach_call _ _ _ (reach_call _ _ _ (reach_start _ demo_start eq_refl eq_refl))). Qed.

Lemma trail_invariant_witness :
  length (audit_outbox (w_db demo_claimed)) = 1%nat /\
  chain_ok demo_repo (audit_heads (w_db demo_claimed)) (audit_outbox (w_db demo_claimed)).
Proof.
  split; [vm_reflexivity|].
  exact (proj1 (trail_invariant demo_repo demo_claimed demo_keys_ok (ltac:(done)) demo_reach)).
Defined.

Lemma demo_chain : chain_ok demo_repo (audit_heads (w_db demo_claimed)) (audit_outbox (w_db demo_claimed)).
Proof.
  refine (call_keeps demo_repo demo_keys_ok (ltac:(done)) (CClaim (w_now demo_start)) demo_admitted
    (call_keeps demo_repo demo_keys_ok (ltac:(done)) (CAdmit demo_ctx demo_event) demo_start _)).
  by split; simpl; try constructor.
Qed.

Lemma deliver_fenced_witness :
  length (audit_logs (w_db demo_delivered)) = 1%nat /\
  (w_db demo_delivered = w_db demo_claimed \/
   exists o, In o (audit_outbox (w_db demo_claimed)) /\ AuditOutbox.State o = "leased" /\
     In (delivered o) (audit_outbox (w_db demo_delivered))).
Proof.
  split; [vm_reflexivity|].
  assert (Outbox.Deliver demo_repo demo_claim demo_claimed = (Ok tt, demo_delivered)) as Hrun.
  { exact (run_snd (Outbox.Deliver demo_repo demo_claim) demo_claimed (Ok tt) (ltac:(vm_reflexivity))). }
  destruct (deliver_fenced demo_repo demo_claim demo_claimed demo_delivered demo_chain Hrun)
    as [H|(o & e & H1 & _ & H2 & _ & _ & _ & _ & _ & _ & H3 & _)]; [exact (or_introl H)|].
  exact (or_intror (ex_intro _ o (conj H1 (conj H2 H3)))).
Defined.

Definition demo_base : Checkpoint.row := Trail.NewCheckpoint demo_keys "default" 0 GenesisAuditHash.

Definition demo_end : Checkpoint.row :=
  match fst (Archive.GetCheckpoint demo_repo demo_ctx demo_delivered) with Ok c => c | Error _ => demo_base end.

Definition demo_rows : list AuditLog.row := audit_logs (w_db demo_delivered).

(** The second list differs in an unsigned column. *)
Definition demo_rows' : list AuditLog.row := map (AuditLog.set_Detail "redacted") demo_rows.

Lemma history_unique_witness :
  (length demo_rows = 1%nat /\ Checkpoint.Sequence demo_end = 1) /\
  map Trail.Canonical demo_rows = map Trail.Canonical demo_rows'.
Proof.
  split; [split; vm_reflexivity|].
  assert (Archive.verifyEvents demo_repo "default" demo_base demo_end demo_rows = None) as H
    by (vm_reflexivity).
  assert (Archive.verifyEvents demo_repo "default" demo_base demo_end demo_rows' = None) as H'
    by (vm_reflexivity).
  exact (history_unique toy_laws demo_repo "default" demo_base demo_end demo_rows demo_rows' H H').
Defined.
