(* ===== verification/Boot.v ===== *)
(** * Start-up policy ([cmd/server], [internal/config/audit.go], [internal/crypto])

    Everything [run] decides before it opens a listener: the key material and the
    rotation windows it accepts, the recovery key, the audit key ring, the metrics
    and TLS policy, in the order [run] checks them.  A server that starts is a
    [Deployment]. *)

From S2P Require Import Prelude Store Models Codec Config World Json Sql Jwt AuditTrail.

Open Scope Z_scope.
Open Scope monad_scope.

(** ** Key material *)

Module KeyMaterial.

(** How many different bytes a text has. *)
Definition diversity (s : string) : nat := length (remove_dups (String.list_ascii_of_string s)).

(** [DecodeStrongKey] *)
Definition DecodeStrongKey (value : string) : option string :=
  match Codec.b64_decode false value with
  | Some b =>
      if (str_len b <? 32) || negb (bool_decide (Codec.b64_encode b = value)) then None
      else if (diversity b <? 16)%nat then None else Some b
  | None => None
  end.

Definition key_id_char (a : Ascii.ascii) : bool :=
  let n := byte_of a in
  (((97 <=? n) && (n <=? 122)) || ((65 <=? n) && (n <=? 90)) || ((48 <=? n) && (n <=? 57)) || (n =? 45) || (n =? 95))%N.

Definition validKeyID (s : string) : bool :=
  negb (str_len s =? 0) && negb (64 <? str_len s) && str_forall key_id_char s.

Record KeyConfig := mkKeyConfig {
  kc_Algorithm : string; CurrentID : string; CurrentSecret : string; PreviousID : string; PreviousSecret : string;
  PreviousLastIssued : Z
}.

Definition NewConfiguredJWTManager (now : Z) (c : KeyConfig) : option JWTManager :=
  if negb (bool_decide (kc_Algorithm c = "HS256")) || negb (validKeyID (CurrentID c)) then None else
  match DecodeStrongKey (CurrentSecret c) with
  | None => None
  | Some current =>
      let keys := [(CurrentID c, current)] in
      if bool_decide (PreviousSecret c = "") then
        if negb (bool_decide (PreviousID c = "")) || negb (PreviousLastIssued c =? Rfc3339.zero_time) then None
        else Some (mkManager true "" Rfc3339.zero_time Issuer_ current (CurrentID c) keys [])
      else
      match DecodeStrongKey (PreviousSecret c) with
      | None => None
      | Some previous =>
          if negb (validKeyID (PreviousID c)) || bool_decide (PreviousID c = CurrentID c) ||
             bool_decide (PreviousSecret c = CurrentSecret c) || (PreviousLastIssued c =? Rfc3339.zero_time) ||
             (now <? PreviousLastIssued c)
          then None
          else Some (mkManager true (PreviousID c) (PreviousLastIssued c + KeyDrain) Issuer_ current (CurrentID c)
                      (keys ++ [(PreviousID c, previous)]) [])
      end
  end.

(** The keys of the introspection caller. *)
Record ServiceKeys := mkServiceKeys {
  sk_CurrentID : string; sk_CurrentSecret : string; sk_PreviousID : string; sk_PreviousSecret : string;
  PreviousUntil : Z
}.

(** The same key, whatever the encoding of the other one. *)
Definition same_material (s other : string) : bool :=
  let decoded := default "" (Codec.b64_decode false s) in
  let same_as b := match b with Some b => negb (bool_decide (b = "")) && bool_decide (decoded = b) | None => false end in
  negb (bool_decide (other = "")) &&
  (bool_decide (s = other) || same_as (Codec.b64_decode false other) || same_as (Codec.hex_decode other)).

Definition ValidateServiceKeys (now : Z) (k : ServiceKeys) (applicationKeys : list string) : bool :=
  let previous_ok :=
    if negb (bool_decide (sk_PreviousSecret k = "")) then
      bool_decide (is_Some (DecodeStrongKey (sk_PreviousSecret k))) &&
      negb (bool_decide (sk_PreviousID k = "") || bool_decide (sk_PreviousID k = sk_CurrentID k) ||
            bool_decide (sk_PreviousSecret k = sk_CurrentSecret k) || (PreviousUntil k =? Rfc3339.zero_time) ||
            (now + KeyDrain <? PreviousUntil k))
    else bool_decide (sk_PreviousID k = "") && (PreviousUntil k =? Rfc3339.zero_time) in
  let all := sk_CurrentSecret k ::
    (if bool_decide (sk_PreviousSecret k = "") then [] else [sk_PreviousSecret k]) in
  negb (bool_decide (trim_space (sk_CurrentID k) = "")) &&
  bool_decide (is_Some (DecodeStrongKey (sk_CurrentSecret k))) && previous_ok &&
  forallb (fun s => forallb (fun other => negb (same_material s other)) applicationKeys) all.

(** ** Audit key rings *)

Definition low_word (b : string) : bool :=
  str_contains "default" (to_lower b) || str_contains "secret" (to_lower b).

Definition decodeKey (encoded : string) : option string :=
  match Codec.b64_decode true encoded with
  | Some b =>
      if negb (bool_decide (Codec.b64_encode b = encoded)) || (str_len b <? 32) || (128 <? str_len b) ||
         (diversity b =? 1)%nat || low_word b || (diversity b <? 16)%nat
      then None else Some b
  | None => None
  end.

(** A Go map built member by member: a repeated key is overwritten. *)
Fixpoint map_set (k v : string) (m : list (string * string)) : list (string * string) :=
  match m with
  | [] => [(k, v)]
  | (k', v') :: m => if decide (k = k') then (k, v) :: m else (k', v') :: map_set k v m
  end.

(** [json.Unmarshal] into a [map[string]string]; a [null] member is the empty text. *)
Definition string_map (s : string) : option (list (string * string)) :=
  match Json.object s with
  | None => None
  | Some o =>
      fold_left (fun acc m =>
        match acc, snd m with
        | Some l, JText v => Some (map_set (fst m) v l)
        | Some l, JNull => Some (map_set (fst m) "" l)
        | _, _ => None
        end) o (Some [])
  end.

Inductive BootError :=
  | TLSPair | IssuerOrLifetime | RedisRequired | RotationTimestamp | JWTKeys | StateKeys
  | SigningKeysMap | CheckpointKeysMap | AuditKeyRing | CheckpointNotSeparate | AuthKeyEncoding | RecoveryKeyEncoding
  | AuditSharedMaterial | KeyNotFound | KeyFileUnreadable | KeyFileEncoding | RecoveryKeyRequired | NoSecretToDerive
  | MetricsUnprotected | TracingSetup | MigrateFailed | DatabaseUnreachable | AuditHistory | StoreUnreachable | EncryptorKey | PasskeyConfig_
  | LoadFailed (e : Config.LoadError) | Panic.

Definition id_ok (id : string) : bool := negb (bool_decide (id = "")) && negb (64 <? str_len id).

(** One map of encoded keys, as raw keys. *)
Fixpoint decode_ring (encoded : list (string * string)) : option (list (string * string)) :=
  match encoded with
  | [] => Some []
  | (id, value) :: l =>
      match decodeKey value, decode_ring l with
      | Some key, Some ring => if id_ok id then Some ((id, key) :: ring) else None
      | _, _ => None
      end
  end.

(** The checkpoint keys, none of them a signing key. *)
Fixpoint checkpoint_ring (sign : list (string * string)) (encoded : list (string * string))
    : BootError + list (string * string) :=
  match encoded with
  | [] => inr []
  | (id, value) :: l =>
      match decodeKey value with
      | None => inl AuditKeyRing
      | Some cp =>
          if negb (id_ok id) then inl AuditKeyRing else
          if existsb (fun e => bool_decide (snd e = cp)) sign then inl CheckpointNotSeparate else
          match checkpoint_ring sign l with inl e => inl e | inr ring => inr ((id, cp) :: ring) end
      end
  end.

Definition NewKeyRing (current : string) (encoded : list (string * string)) (checkpointID : string)
    (checkpoints : list (string * string)) : BootError + Trail.Keys :=
  if negb (id_ok current) || (8 <? length encoded)%nat then inl AuditKeyRing else
  match decode_ring encoded with
  | None => inl AuditKeyRing
  | Some sign =>
      if negb (bool_decide (is_Some (Trail.lookup current sign))) then inl AuditKeyRing else
      if bool_decide (checkpointID = "") || (8 <? length checkpoints)%nat then inl AuditKeyRing else
      match checkpoint_ring sign checkpoints with
      | inl e => inl e
      | inr cps =>
          if negb (bool_decide (is_Some (Trail.lookup checkpointID cps))) then inl AuditKeyRing
          else inr (Trail.mkKeys current sign cps checkpointID)
      end
  end.

Definition NewKeys (current : string) (encoded : list (string * string)) (checkpoint : string) : BootError + Trail.Keys :=
  NewKeyRing current encoded "checkpoint-v1" [("checkpoint-v1", checkpoint)].

(** [true]: some key of a ring is one of the materials. *)
Definition shares_material (k : Trail.Keys) (materials : list string) : bool :=
  existsb (fun material => existsb (fun e => bool_decide (snd e = material)) (Trail.signing k ++ Trail.checkpoints k))
    materials.

Definition RejectSharedMaterial (k : Trail.Keys) (materials : list string) : option BootError :=
  if shares_material k materials then Some AuditSharedMaterial else None.

(** The keys of a development process, from its two random draws. *)
Definition EphemeralKeys (a b : string) : BootError + Trail.Keys :=
  match NewKeys "ephemeral-dev" [("ephemeral-dev", Codec.b64_encode a)] (Codec.b64_encode b) with
  | inl _ => inl Panic
  | inr k => inr k
  end.

(** ** Key providers ([internal/crypto/keyprovider.go]) *)

Definition KeyLen : Z := 32.
Definition KeyNameRecoveryCodes : string := "recovery_codes".

(** What [os.ReadFile] gives for a directory and a file name. *)
Inductive FileRead := Absent | Unreadable | Contents (raw : string).

Definition Files : Type := string -> string -> FileRead.

(** [FileKeyProvider.Retrieve] *)
Definition file_Retrieve (files : Files) (dir name : string) : BootError + string :=
  match files dir (name +:+ ".key") with
  | Absent => inl KeyNotFound
  | Unreadable => inl KeyFileUnreadable
  | Contents raw =>
      match Codec.hex_decode (trim_space raw) with
      | None => inl KeyFileEncoding
      | Some key => if str_len key =? KeyLen then inr key else inl KeyFileEncoding
      end
  end.

(** [EnvKeyProvider.Retrieve] *)
Definition env_Retrieve (keys : list (string * string)) (name : string) : BootError + string :=
  match Trail.lookup name keys with
  | Some v => if bool_decide (v = "") then inl KeyNotFound else inr v
  | None => inl KeyNotFound
  end.

(** [NewEnvKeyProvider]: a copy of the map. *)
Definition NewEnvKeyProvider (keys : list (string * string)) : list (string * string) :=
  fold_left (fun m e => map_set (fst e) (snd e) m) keys [].

End KeyMaterial.

(** ** The server's start *)

Module Boot.
Import Config KeyMaterial.

(** What start-up meets outside the process: the random draws of a development
    process, key files, the database it connects to, and whether tracing, schema
    migration, Redis and the WebAuthn library take their configuration. *)
Record Surroundings {ST : Store} := mkSurroundings {
  rand_a : string; rand_b : string; files : Files; database : option World; traces : bool; migrates : bool;
  redis_connects : bool; webauthn_accepts : bool
}.

Arguments mkSurroundings {ST}.

(** [Distinct(key_id).Limit(9)]: a ring holds eight keys at most. *)
Definition distinct_keys {R} (key : R -> string) (l : list R) : list string := take 9 (remove_dups (map key l)).

(** [AuditRepository.ValidateKeyHistory]: every key that signed a row still to be
    verified or delivered is in the ring. *)
Definition ValidateKeyHistory {ST : Store} (k : Trail.Keys) : M unit :=
  let! logs := Outbox.or_unavailable (Find (fun _ e => AuditLog.Version e =? 1)) in
  if negb (forallb (Trail.HasKey k) (distinct_keys AuditLog.KeyID logs)) then fail ErrUnavailable else
  let! out := Outbox.or_unavailable (Find (fun _ o => negb (bool_decide (AuditOutbox.State o = "delivered")))) in
  if negb (forallb (Trail.HasKey k) (distinct_keys AuditOutbox.KeyID out)) then fail ErrUnavailable else ret tt.

Section S.
Context {ST : Store} {E : Ext} {FL : Floats}.
Abbreviation Cfg := (Config.Config float64).

Definition release (c : Cfg) : bool := bool_decide (GinMode (Server c) = "release").

Definition optionalUTC (s : string) : option Z :=
  if bool_decide (s = "") then Some Rfc3339.zero_time else Rfc3339.parse_utc s.

Definition is_set (s : string) : bool := negb (bool_decide (s = "")).

(** [identityPolicy] *)
Definition identityPolicy (now : Z) (c : Cfg) : BootError + (JWTManager * ServiceKeys) :=
  let j := JWT c in
  if negb (Bool.eqb (is_set (TLSCertFile (Server c))) (is_set (TLSKeyFile (Server c)))) then inl TLSPair else
  if negb (bool_decide (jwt_Issuer j = Issuer_)) || (jwt_AccessTTL j <=? 0) || (MaxAccessTTL <? jwt_AccessTTL j)
  then inl IssuerOrLifetime else
  if release c && bool_decide (redis_URL (Redis c) = "") then inl RedisRequired else
  match optionalUTC (jwt_PreviousLastIssued j) with
  | None => inl RotationTimestamp
  | Some last =>
  match optionalUTC (jwt_StatePreviousUntil j) with
  | None => inl RotationTimestamp
  | Some until_ =>
      let k := mkServiceKeys (jwt_StateKeyID j) (jwt_StateSecret j) (jwt_StatePreviousKeyID j)
                 (jwt_StatePreviousSecret j) until_ in
      match NewConfiguredJWTManager now (mkKeyConfig (jwt_Algorithm j) (jwt_KeyID j) (jwt_Secret j)
              (jwt_PreviousKeyID j) (jwt_PreviousSecret j) last) with
      | None => inl JWTKeys
      | Some m =>
          if ValidateServiceKeys now k
               [jwt_Secret j; jwt_PreviousSecret j; auth_RecoveryCodeKey (Auth c); MetricsToken (Server c);
                db_Password (DB c); smtp_Password (SMTP c); captcha_Secret (Captcha c);
                google_ClientSecret (GoogleOAuth c)]
          then inr (m, k) else inl StateKeys
      end
  end
  end.

(** The authentication keys the audit rings must not share. *)
Fixpoint auth_materials (l : list string) : option (list string) :=
  match l with
  | [] => Some []
  | value :: l =>
      if bool_decide (value = "") then auth_materials l else
      match DecodeStrongKey value, auth_materials l with
      | Some b, Some bs => Some (b :: bs)
      | _, _ => None
      end
  end.

(** [Config.AuditKeys] *)
Definition AuditKeys (s : Surroundings) (c : Cfg) : BootError + Trail.Keys :=
  let a := Audit c in
  if negb (is_set (au_SigningKeys a)) && negb (is_set (au_CheckpointKey a)) && negb (is_set (au_CheckpointKeys a)) &&
     negb (release c)
  then EphemeralKeys (rand_a s) (rand_b s) else
  match string_map (au_SigningKeys a) with
  | None => inl SigningKeysMap
  | Some encoded =>
      let cpID := if is_set (au_CheckpointKeyID a) then au_CheckpointKeyID a else "checkpoint-v1" in
      match (if is_set (au_CheckpointKeys a) then string_map (au_CheckpointKeys a)
             else Some [(cpID, au_CheckpointKey a)]) with
      | None => inl CheckpointKeysMap
      | Some checkpoints =>
          match NewKeyRing (au_KeyID a) encoded cpID checkpoints with
          | inl e => inl e
          | inr k =>
              match auth_materials [jwt_Secret (JWT c); jwt_PreviousSecret (JWT c); jwt_StateSecret (JWT c);
                                    jwt_StatePreviousSecret (JWT c)] with
              | None => inl AuthKeyEncoding
              | Some materials =>
                  let recovery :=
                    if negb (bool_decide (sec_KeyProvider (Security c) = "file")) && is_set (auth_RecoveryCodeKey (Auth c))
                    then match Codec.hex_decode (auth_RecoveryCodeKey (Auth c)) with
                         | Some b => if str_len b =? 32 then Some [b] else None
                         | None => None
                         end
                    else Some [] in
                  match recovery with
                  | None => inl RecoveryKeyEncoding
                  | Some r =>
                      match RejectSharedMaterial k (materials ++ r) with Some e => inl e | None => inr k end
                  end
              end
          end
      end
  end.

(** [recoveryEncryptionKey] *)
Definition recoveryEncryptionKey (s : Surroundings) (c : Cfg) : BootError + string :=
  let key := auth_RecoveryCodeKey (Auth c) in
  if bool_decide (sec_KeyProvider (Security c) = "file")
  then file_Retrieve (files s) (sec_KeyDir (Security c)) KeyNameRecoveryCodes else
  if is_set key then
    match Codec.hex_decode key with
    | Some b => if str_len b =? KeyLen then inr b else inl RecoveryKeyEncoding
    | None => inl RecoveryKeyEncoding
    end
  else if release c then inl RecoveryKeyRequired else
  if negb (is_set (jwt_Secret (JWT c))) then inl NoSecretToDerive else
  inr (default "" (Codec.hex_decode (sha256_hex (jwt_Secret (JWT c) +:+ ":finnapigo:recovery-codes:v1")))).

Definition auditRetentionWarning (c : Cfg) : string :=
  if negb (release c) || (0 <? au_RetentionDays (Audit c)) then "" else
  "audit retention: AUDIT_RETENTION_DAYS is unset in release mode — automatic purge is disabled pending approved policy, legal hold and archive/checkpoint retention (see docs/audit.md)".

Definition validateMetricsPolicy (c : Cfg) : option BootError :=
  if release c && negb (is_set (MetricsAddr (Server c))) && negb (is_set (MetricsToken (Server c)))
  then Some MetricsUnprotected else None.

(** The handler of [/metrics] on the public router: none, open, or behind a token. *)
Inductive PublicMetrics := NoMetrics | OpenMetrics | BearerMetrics (token : string).

Definition publicMetrics (c : Cfg) : PublicMetrics :=
  if is_set (MetricsAddr (Server c)) then NoMetrics
  else if is_set (MetricsToken (Server c)) then BearerMetrics (MetricsToken (Server c)) else OpenMetrics.

(** [metrics.BearerAuth]: does the request reach the handler? *)
Definition BearerAuth (token authorization : string) : bool :=
  negb (is_set token) ||
  (has_prefix "Bearer " authorization &&
   bool_decide (String.substring 7 (String.length authorization - 7) authorization = token)).

(** Does a request to [/metrics] of the public router read the metrics? *)
Definition metrics_served (p : PublicMetrics) (authorization : string) : bool :=
  match p with NoMetrics => false | OpenMetrics => true | BearerMetrics t => BearerAuth t authorization end.

(** A listener off the public router: whether it mounts [/metrics], with which token,
    and whether it mounts the profiler, which nothing guards. *)
Record Listener := mkListener { l_addr : string; l_metrics : option string; l_pprof : bool }.

Definition startInternalServers (metricsAddr pprofAddr metricsToken : string) : list Listener :=
  if is_set metricsAddr && bool_decide (metricsAddr = pprofAddr)
  then [mkListener metricsAddr (Some metricsToken) true]
  else if is_set metricsAddr
  then mkListener metricsAddr (Some metricsToken) false ::
       (if is_set pprofAddr then [mkListener pprofAddr None true] else [])
  else if is_set pprofAddr then [mkListener pprofAddr None true] else [].

(** Does a request to [/metrics] of the listener read the metrics? *)
Definition internal_metrics_served (l : Listener) (authorization : string) : bool :=
  match l_metrics l with Some token => BearerAuth token authorization | None => false end.

(** How background jobs run on this replica. *)
Inductive JobsMode := Unconditional | Disabled | Elected.

Definition jobs_mode (c : Cfg) : JobsMode :=
  match RunJobs (Server c) with Some true => Unconditional | Some false => Disabled | None => Elected end.

(** [NewGoogleOAuthClient], [NewSMTPNotifier] and the CAPTCHA wiring: what is switched on. *)
Definition google_enabled (c : Cfg) : bool :=
  is_set (google_ClientID (GoogleOAuth c)) && is_set (google_RedirectURL (GoogleOAuth c)).

Definition captcha_enabled (c : Cfg) : bool :=
  bool_decide (captcha_Provider (Captcha c) = "turnstile") && is_set (captcha_Secret (Captcha c)).

Definition passkeys_enabled (c : Cfg) : bool := is_set (wa_RPID (WebAuthn c)).

(** A server that listens. *)
Record Deployment := mkDeployment {
  d_config : Cfg; d_jwt : JWTManager; d_state : ServiceKeys; d_audit : Trail.Keys; d_recovery : string;
  d_metrics : PublicMetrics; d_internal : list Listener; d_jobs : JobsMode; d_google : bool; d_captcha : bool; d_passkeys : bool;
  d_warning : string
}.

(** [run], up to the listener. *)
Definition run (now : Z) (s : Surroundings) (e : Env) : BootError + Deployment :=
  match Load e with
  | inl err => inl (LoadFailed err)
  | inr c =>
  match identityPolicy now c with
  | inl err => inl err
  | inr (m, k) =>
  if negb (traces s) then inl TracingSetup else
  match AuditKeys s c with
  | inl err => inl err
  | inr ak =>
  match validateMetricsPolicy c with
  | Some err => inl err
  | None =>
  match database s with
  | None => inl DatabaseUnreachable
  | Some w =>
      if db_MigrateAuto (DB c) && negb (migrates s) then inl MigrateFailed else
      if negb (is_Ok (fst (ValidateKeyHistory ak w))) then inl AuditHistory else
      if is_set (redis_URL (Redis c)) && negb (redis_connects s) then inl StoreUnreachable else
      match recoveryEncryptionKey s c with
      | inl err => inl err
      | inr rk =>
          if negb (ValidateServiceKeys now k [Codec.hex_encode rk]) then inl StateKeys else
          match RejectSharedMaterial ak [rk] with
          | Some err => inl err
          | None =>
              if negb (str_len rk =? KeyLen) then inl EncryptorKey else
              if passkeys_enabled c && negb (webauthn_accepts s) then inl PasskeyConfig_ else
              inr (mkDeployment c m k ak rk (publicMetrics c)
                     (startInternalServers (MetricsAddr (Server c)) (PProfAddr (Server c)) (MetricsToken (Server c)))
                     (jobs_mode c) (google_enabled c) (captcha_enabled c) (passkeys_enabled c) (auditRetentionWarning c))
          end
      end
  end
  end
  end
  end
  end.

End S.
End Boot.
