(* ===== verification/Common.v ===== *)
(** * What the services share

    [Hash] ([internal/hash]), [Device] ([internal/device]), [Policy]: password
    and email rules ([validatePassword], [isDisposableEmail]), [Calls]: the calls
    every service makes (store, audit writer, notifier, [runAuditOperation] and
    [admitBeforeExternal] of [services/audit_operations.go]). *)

From S2P Require Import Prelude Store Models NetIP World Sql Repos AuditTrail.

Open Scope Z_scope.
Open Scope monad_scope.

Module Hash.
Section S.
Context {ST : Store} {E : Ext}.

Definition MaxPasswordBytes : Z := 72.
Definition MinCost : Z := 4.
Definition DefaultCost : Z := 10.
Definition MaxCost : Z := 31.

(** Random bytes: the system's source may fail. *)
Definition GenerateRandomBytes : M string :=
  let! b := fault in
  if b : bool then fail EInfra else let! n := draw in ret (rand_hex n).

Definition HashPasswordWithCost (plain : string) (cost : Z) : M string :=
  if MaxPasswordBytes <? str_len plain then fail ErrPasswordTooLong else
  let cost := if (cost <? MinCost) || (MaxCost <? cost) then DefaultCost else cost in
  let! b := fault in
  if b : bool then fail EInfra else let! n := draw in ret (bcrypt_gen n cost plain).

Definition CheckPassword (hash plain : string) : bool :=
  if MaxPasswordBytes <? str_len plain then false else bcrypt_cmp hash plain.

Definition HashToken (token : string) : string := sha256_hex token.

Definition HashRecoveryCode (code : string) : string := HashToken code.

Definition GenerateOpaqueToken : M string := GenerateRandomBytes.

(** The index of the first stored hash equal to the candidate's. *)
Fixpoint index_of (want : string) (hashes : list string) : option nat :=
  match hashes with
  | [] => None
  | h :: hashes => if bool_decide (h = want) then Some O else S <$> index_of want hashes
  end.

Definition MatchRecoveryCode (candidate : string) (codeHashes : list string) : option nat :=
  index_of (HashRecoveryCode candidate) codeHashes.

End S.
End Hash.

Module Device.

Definition MaxUserAgentLen : nat := 512.

Definition detectOS (lower : string) : string :=
  if str_contains "iphone" lower then "iPhone"
  else if str_contains "ipad" lower then "iPad"
  else if str_contains "android" lower then "Android"
  else if str_contains "windows" lower then "Windows"
  else if str_contains "mac os" lower || str_contains "macintosh" lower then "macOS"
  else if str_contains "linux" lower then "Linux"
  else "".

(** [strings.Fields]: the words between runs of white space. *)
Fixpoint fields_from (word s : string) : list string :=
  match s with
  | EmptyString => if bool_decide (word = "") then [] else [str_rev word]
  | String a s =>
      if is_space a then if bool_decide (word = "") then fields_from "" s else str_rev word :: fields_from "" s
      else fields_from (String a word) s
  end.

Definition Fields (s : string) : list string := fields_from "" (blank_spaces s).

(** [strings.Trim(w, "();,.")] *)
Definition punctuation (a : Ascii.ascii) : bool :=
  bool_decide (a ∈ ["("; ")"; ";"; ","; "."]%char).

Fixpoint trim_left_set (s : string) : string :=
  match s with
  | EmptyString => EmptyString
  | String a s' => if punctuation a then trim_left_set s' else s
  end.

Definition trim_set (s : string) : string := str_rev (trim_left_set (str_rev (trim_left_set s))).

Definition title (s : string) : string :=
  match s with
  | EmptyString => EmptyString
  | String a s => let n := byte_of a in
      String (if (97 <=? n)%N && (n <=? 122)%N then Ascii.ascii_of_N (n - 32) else a) s
  end.

Fixpoint first_label (words : list string) : string :=
  match words with
  | [] => ""
  | w :: words =>
      let w := trim_set (default "" (hd_error (split_on "/" w))) in
      let lw := to_lower w in
      if bool_decide (w = "") || bool_decide (lw = "mozilla") || bool_decide (lw = "compatible") ||
         bool_decide (lw = "applewebkit")
      then first_label words else title w
  end.

Definition titleCaseVersionless (raw : string) : string := first_label (Fields raw).

Definition detectBrowser (lower raw : string) : string :=
  if str_contains "edg/" lower then "Edge"
  else if str_contains "opr/" lower || str_contains "opera" lower then "Opera"
  else if str_contains "firefox" lower then "Firefox"
  else if str_contains "chrome" lower || str_contains "crios" lower then "Chrome"
  else if str_contains "safari" lower then "Safari"
  else titleCaseVersionless raw.

Definition Parse (userAgent : string) : string :=
  let ua := trim_space userAgent in
  if bool_decide (ua = "") then "Unknown device" else
  let ua := String.substring 0 MaxUserAgentLen ua in
  let lower := to_lower ua in
  let browser := detectBrowser lower ua in
  let os := detectOS lower in
  if bool_decide (browser = "") && bool_decide (os = "") then "Unknown device"
  else if bool_decide (os = "") then browser
  else if bool_decide (browser = "") then os
  else browser +:+ " on " +:+ os.

End Device.

Module Policy.
Section S.
Context {E : Ext}.

Definition is_letter (a : Ascii.ascii) : bool :=
  let n := byte_of a in ((97 <=? n) && (n <=? 122) || (65 <=? n) && (n <=? 90))%N.

Definition is_digit (a : Ascii.ascii) : bool :=
  let n := byte_of a in ((48 <=? n) && (n <=? 57))%N.

(** The loop over the user inputs: lower-cased, trimmed, the empty ones dropped. *)
Definition sanitizedInputs (userInputs : list string) : list string :=
  List.filter (fun i => negb (bool_decide (i = ""))) (map (fun i => trim_space (to_lower i)) userInputs).

Definition contains_input (pw : string) (inputs : list string) : bool :=
  existsb (fun i => (3 <=? str_len i) && str_contains i (to_lower pw)) inputs.

Definition validatePassword (pw : string) (minScore : Z) (userInputs : list string) : option Err :=
  if str_len pw <? 8 then Some ErrPasswordTooWeak
  else if Hash.MaxPasswordBytes <? str_len pw then Some ErrPasswordTooWeak
  else if negb (str_exists is_letter pw) || negb (str_exists is_digit pw) then Some ErrPasswordTooWeak
  else let inputs := sanitizedInputs userInputs in
    if contains_input pw inputs then Some ErrPasswordTooWeak
    else if (0 <? minScore) && (zxcvbn_score pw inputs <? minScore) then Some ErrPasswordTooWeak
    else None.

(** The local part of an address: what precedes the first at sign. *)
Definition emailLocalPart (email : string) : string := default "" (hd_error (split_on "@" email)).

Definition disposableDomains : list string :=
  ["mailinator.com"; "guerrillamail.com"; "10minutemail.com"; "tempmail.com"; "temp-mail.org";
   "throwawaymail.com"; "yopmail.com"; "getnada.com"; "trashmail.com"; "sharklasers.com";
   "dispostable.com"; "maildrop.cc"; "fakeinbox.com"; "tempinbox.com"; "mailnesia.com"].

(** What follows the last at sign; [None] without one. *)
Definition after_last_at (email : string) : option string :=
  match rev (split_on "@" email) with
  | _ :: [] | [] => None
  | last :: _ => Some last
  end.

Definition isDisposableEmail (email : string) : bool :=
  match after_last_at email with
  | None => false
  | Some d => negb (bool_decide (d = "")) && bool_decide (to_lower (trim_space d) ∈ disposableDomains)
  end.

(** [strings.ToLower(strings.TrimSpace(email))] *)
Definition normalize (email : string) : string := to_lower (trim_space email).

End S.
End Policy.

Module Calls.
Section S.
Context {ST : Store} {E : Ext}.

(** *** The key-value store, whose backend may be down *)

Definition kv_call {A} (f : bool -> Z -> kv -> A * kv) : M A :=
  let! b := fault in
  fun w => let (a, s) := f (negb b) (w_now w) (w_kv w) in (Ok a, set_kv s w).

Definition store_Get (key : string) : M (option Val) := kv_call (fun up t => kv_get up t key).
Definition store_Take (key : string) : M (option Val) := kv_call (fun up t => kv_take up t key).
Definition store_Set (key : string) (v : Val) (ttl : Z) : M unit :=
  kv_call (fun up t s => (tt, kv_set up t key v ttl s)).
Definition store_SetNX (key : string) (v : Val) (ttl : Z) : M bool :=
  kv_call (fun up t => kv_setnx up t key v ttl).
Definition store_IncrBy (key : string) (delta ttl : Z) : M Z :=
  kv_call (fun up t => kv_incr up t key delta ttl).
Definition store_Delete (key : string) : M unit :=
  kv_call (fun up _ s => (tt, kv_delete up key s)).
Definition store_Revoked (jti sid : string) : M (option bool) :=
  kv_call (fun up t => kv_revoked up t jti sid).
Definition store_Admit (key : string) (limit window : Z) : M (option bool) :=
  kv_call (fun up t => kv_admit up t key limit window).

Definition storeCounterValue (key : string) : M Z :=
  let! v := store_Get key in ret (match v with Some v => counter_of v | None => 0 end).

(** A per-IP key. *)
Definition ipCounterKey (prefix ip : string) : string := prefix +:+ Net.CanonicalIP ip.

(** *** Effects whose error is dropped *)

Definition quietly {A} (m : M A) : M unit := try_ m ;;; ret tt.

Definition lift {A} (r : Res A) : M A := match r with Ok a => ret a | Error e => fail e end.

(** A notification sent in the background or with its error ignored. *)
Definition notify (m : Mail) : M unit := quietly (send m).

(** *** Audit events and operations *)

(** The literal [models.AuditLog] the services record. *)
Definition event (uid : option Z) (email name ip : string) (success : bool) (detail : string) : AuditLog.row :=
  AuditLog.mk 0 "" uid email name ip success detail "" "" 0 0 "" None "" "" 0 "" "".

Definition auditDenial (e : Err) : bool :=
  bool_decide (e ∈ [ErrInvalidCredentials; ErrInvalidToken; ErrInvalidCode; ErrAccountLocked;
                    ErrAccountDisabled; ErrRateLimited; ErrPasskeyCredentialRevoked]).

Definition runAuditOperation {A} (audits : Writer.AsyncAuditWriter) (ctx : Ctx) (fn : Ctx -> M A) : M A :=
  Writer.AuditOperation audits ctx fn auditDenial.

Definition admitBeforeExternal (audits : Writer.AsyncAuditWriter) (ctx : Ctx) (e : AuditLog.row) : M unit :=
  let! op := current_op in
  if bool_decide (is_Some op) then fail ErrUnavailable
  else runAuditOperation audits ctx (fun inner => Writer.Record_ audits inner e).

End S.
End Calls.

(** A store call leaves the database alone. *)
Lemma keeps_kv {ST : Store} (R : DB -> DB -> Prop) `{!PreOrder R} {A} (f : bool -> Z -> kv -> A * kv) :
  keeps R (Calls.kv_call f).
Proof.
  apply keeps_bind; [done|apply keeps_fault; done|].
  intros b. apply keeps_same; [done|]. intros w. by destruct (f _ _ _).
Qed.

#[export] Hint Resolve keeps_kv : keeps.
