(* ===== verification/Identity.v ===== *)
(** * The access-state authority ([internal/identity/state.go])

    [Check] decides whether an access token still stands, against the store's
    denylist and one snapshot of the database; [RevokeAccess] and [Suspend] are
    the durable denials; [accessState] is [Check] as [cmd/server/main.go] wires
    it into token issuance. *)

From S2P Require Import Prelude Store Models World Sql Repos Jwt AuditTrail Common.

Open Scope Z_scope.
Open Scope monad_scope.

Module Authority.
Section S.
Context {ST : Store}.
Import Calls.

(** [slices.Sort] then [slices.Compact]. *)
Fixpoint compact (l : list string) : list string :=
  match l with
  | a :: (b :: _) as l' => if bool_decide (a = b) then compact l' else a :: compact l'
  | l => l
  end.

Definition sorted (l : list string) : list string := order_by String.leb l.

Definition same_grants (actual signed : list string) : bool :=
  bool_decide (compact (sorted actual) = compact (sorted signed)).

(** A row that must exist: its absence is an inactive credential. *)
Definition required {R} `{TableOf R} (p : DB -> R -> bool) : M R :=
  let! r := try_ (First p) in
  match r with
  | Ok r => ret r
  | Error e => if decide (e = ErrRecordNotFound) then fail ErrInactive else fail e
  end.

Definition live_user (c : Claims) (u : User.row) : bool :=
  User.IsActive u && negb (User.AdminSuspended u) && (User.PwdVersion u =? PwdVer c) &&
  (User.AuthEpoch u =? AuthEpoch c).

(** The snapshot transaction of [Check]. *)
Definition snapshot (ctx : Ctx) (c : Claims) : M unit :=
  let! u := required (fun _ u => (User.ID u =? UserID c) && bool_decide (User.TenantID u = TenantID c)) in
  if negb (live_user c u) then fail ErrInactive else
  let! t := required (fun _ t => bool_decide (Tenant.ID t = TenantID c)) in
  if negb (Tenant.IsActive t) then fail ErrInactive else
  let! s := required (fun _ s => bool_decide (Session.ID s = SID c) &&
                bool_decide (Session.TenantID s = TenantID c) && (Session.UserID s =? UserID c)) in
  let! n := now in
  if Session.Revoked s || negb (n <? Session.ExpiresAt s) then fail ErrInactive else
  let! k := Count (fun _ r => bool_decide (AccessRevocation.TenantID r = TenantID c) &&
                              bool_decide (AccessRevocation.JTI r = ID c)) in
  if negb (k =? 0) then fail ErrInactive else
  let! perms := RBACRepository.GetUserPermissions ctx (UserID c) in
  if negb (same_grants perms (default [] (Permissions c))) then fail ErrInactive else ret tt.

Definition Check (ctx : Ctx) (c : Claims) : M unit :=
  if bool_decide (TenantID c = "") || bool_decide (SID c = "") || bool_decide (ID c = "")
  then fail ErrInactive else
  let ctx := WithTenant (TenantID c) ctx in
  let! revoked := store_Revoked (ID c) (SID c) in
  match revoked with
  | None => fail EInfra
  | Some true => fail ErrInactive
  | Some false => transaction (snapshot ctx c)
  end.

Definition revocation_clash (a b : AccessRevocation.row) : bool :=
  bool_decide (AccessRevocation.TenantID a = AccessRevocation.TenantID b) &&
  bool_decide (AccessRevocation.JTI a = AccessRevocation.JTI b).

(** [INSERT .. ON CONFLICT DO NOTHING] *)
Definition RevokeAccess (ctx : Ctx) (jti : string) (exp : Z) : M unit :=
  if bool_decide (jti = "") then fail ErrInactive else
  Outbox.create_ignore revocation_clash (fun _ => AccessRevocation.mk (FromContext ctx) jti exp).

Definition Suspend (ctx : Ctx) (uid : Z) : M unit :=
  let tid := FromContext ctx in
  transaction (
    let! n := Updates (fun _ u => (User.ID u =? uid) && bool_decide (User.TenantID u = tid))
      (fun u => User.set_PwdVersion (User.PwdVersion u + 1) (User.set_AuthEpoch (User.AuthEpoch u + 1)
        (User.set_AdminSuspended true u))) in
    if negb (n =? 1) then fail ErrInactive else
    Updates (fun _ s => (Session.UserID s =? uid) && bool_decide (Session.TenantID s = tid))
            (Session.set_Revoked true) ;;; ret tt).

(** The access-state option of the services ([cmd/server/main.go]). *)
Definition accessState (ctx : Ctx) (c : Claims) : M unit :=
  let! r := try_ (Check ctx c) in
  match r with
  | Ok _ => ret tt
  | Error e => if decide (e = ErrInactive) then fail ErrInvalidCredentials else fail e
  end.

End S.
End Authority.
