(* ===== verification/Totp.v ===== *)
(** * Time-based one-time passwords ([services/totp_service.go])

    Enrollment, confirmation, validation with replay and brute-force guards,
    recovery codes, and disabling.  The RFC 6238 check and AES-GCM sealing are
    parameters. *)

From S2P Require Import Prelude Store Models World Sql Repos Jwt AuditTrail Common.

Open Scope Z_scope.
Open Scope monad_scope.

(** [pquerna/otp]: [totp.Generate] (secret and provisioning URI) and the
    validation at a time with one step of skew; the [crypto.Encryptor]: sealing
    under a fresh nonce, and opening, which fails on anything else. *)
Class Otp := {
  totp_generate : nat -> string -> string -> string * string;
  totp_valid : Z -> string -> string -> bool;
  seal : nat -> string -> string;
  unseal : string -> option string
}.

Record AuthConfig := mkAuthConfig {
  MaxLoginAttempts : Z; LoginLockoutDuration : Z; MaxLockoutMultiplier : Z;
  RequireEmailVerified : bool; TOTPMaxAttempts : Z; TOTPAttemptWindow : Z;
  RecoveryCodeCount : nat; NotifyNewIPLogin : bool
}.

Module Totp.

(** [TOTPService] as production wires it. *)
Record TOTPService := mkTOTPService {
  audits : Writer.AsyncAuditWriter; issuer : string; cfg : AuthConfig; jwtMgr : JWTManager
}.

Definition totpReplayTTL : Z := 120 * second.
Definition rotationLockTTL : Z := 10 * second.

Section S.
Context {ST : Store} {E : Ext} {J : JwtLib} {OT : Otp}.
Import Calls.

Definition fail_key (userID : Z) : string := "totp:fail:" +:+ fmt_d userID.
Definition lock_key (userID : Z) : string := "totp:rotatelock:" +:+ fmt_d userID.
Definition replay_key (userID : Z) (code : string) : string :=
  "totp:replay:" +:+ fmt_d userID +:+ ":" +:+ sha256_hex code.

(** *** Guards and counters *)

Definition recordFailure (s : TOTPService) (ctx : Ctx) (userID : Z) (detail : string) : M unit :=
  store_IncrBy (fail_key userID) 1 (TOTPAttemptWindow (cfg s)) ;;;
  Writer.Record_ (audits s) ctx (event (Some userID) "" "totp_failed" "" false detail).

Definition recordSuccess (s : TOTPService) (ctx : Ctx) (userID : Z) (name detail : string) : M unit :=
  store_Delete (fail_key userID) ;;;
  Writer.Record_ (audits s) (WithActor userID ctx) (event (Some userID) "" name "" true detail).

Definition guardBruteForce (s : TOTPService) (ctx : Ctx) (userID : Z) : M unit :=
  let! n := storeCounterValue (fail_key userID) in
  if TOTPMaxAttempts (cfg s) <=? n
  then recordFailure s ctx userID "brute-force lockout" ;;; fail ErrRateLimited
  else ret tt.

(** A failed attempt: counted, recorded, refused. *)
Definition refuse {A} (s : TOTPService) (ctx : Ctx) (userID : Z) (detail : string) : M A :=
  recordFailure s ctx userID detail ;;; fail ErrInvalidCode.

Definition replayGuard (userID : Z) (code : string) : M bool :=
  store_SetNX (replay_key userID code) (VStr "1") totpReplayTTL.

Definition acquireRotationLock (userID : Z) : M bool :=
  store_SetNX (lock_key userID) (VStr "1") rotationLockTTL.

Definition releaseRotationLock (userID : Z) : M unit := store_Delete (lock_key userID).

(** The critical section: refused while another holds the lock, which is
    released on every way out. *)
Definition with_rotation_lock {A} (userID : Z) (m : M A) : M A :=
  let! ok := acquireRotationLock userID in
  if negb ok then fail ErrRateLimited else
  let! r := try_ m in
  releaseRotationLock userID ;;; lift r.

(** *** Secrets *)

Definition Encrypt (plain : string) : M string :=
  let! b := fault in
  if b : bool then fail EInfra else let! n := draw in ret (seal n plain).

Definition verifySudoToken (s : TOTPService) (token : Token) (userID : Z) : M unit :=
  if is_empty_token token then fail ErrSudoRequired else
  let! t := now in
  match Verify (jwtMgr s) t token with
  | Ok c =>
      if bool_decide (Type_ c = TokenTypeSudo) && (UserID c =? userID) && bool_decide (is_Some (ExpiresAt c))
      then ret tt else fail ErrSudoRequired
  | Error _ => fail ErrSudoRequired
  end.

(** The active secret and the device, whose seal may have been healed. *)
Definition openActiveSecret (ctx : Ctx) (d : TOTPDevice.row) : M (string * TOTPDevice.row) :=
  if bool_decide (TOTPDevice.SecretEncrypted d = "") then ret (TOTPDevice.Secret d, d) else
  match unseal (TOTPDevice.SecretEncrypted d) with
  | Some plain => ret (plain, d)
  | None =>
      if bool_decide (TOTPDevice.Secret d = "") then fail ErrTOTPUnrecoverable else
      let! r := try_ (Encrypt (TOTPDevice.Secret d)) in
      match r with
      | Ok resealed =>
          let d := TOTPDevice.set_SecretEncrypted resealed d in
          quietly (TOTPRepository.Upsert ctx d) ;;; ret (TOTPDevice.Secret d, d)
      | Error _ => ret (TOTPDevice.Secret d, d)
      end
  end.

Definition code_valid (code secret : string) : M bool :=
  let! t := now in ret (totp_valid t code secret).

(** A batch of fresh codes: each the plain text and its row. *)
Fixpoint fresh_codes (userID : Z) (n : nat) : M (list (string * RecoveryCode.row)) :=
  match n with
  | O => ret []
  | S n =>
      let! plain := Hash.GenerateRandomBytes in
      let! sealed := Encrypt plain in
      let! rest := fresh_codes userID n in
      ret ((plain, RecoveryCode.mk 0 userID (Hash.HashRecoveryCode plain) sealed None) :: rest)
  end.

Definition newRecoveryCodes (s : TOTPService) (ctx : Ctx) (userID : Z) : M (list string) :=
  let! codes := fresh_codes userID (RecoveryCodeCount (cfg s)) in
  TOTPRepository.ReplaceRecoveryCodes ctx userID (map snd codes) ;;;
  ret (map fst codes).

(** *** Operations *)

Definition enabled (d : option TOTPDevice.row) : bool :=
  match d with Some d => TOTPDevice.Enabled d | None => false end.

Definition enableAudited (s : TOTPService) (ctx : Ctx) (userID : Z) (email : string) (sudoToken : Token)
    : M (string * string) :=
  with_rotation_lock userID (
    let! old := TOTPRepository.FindByUserID ctx userID in
    let! n := draw in
    let (secret, url) := totp_generate n (issuer s) email in
    let! sealed := Encrypt secret in
    let! d :=
      match old with
      | None => ret (TOTPDevice.mk 0 userID "" sealed "" false)
      | Some old =>
          if TOTPDevice.Enabled old then
            verifySudoToken s sudoToken userID ;;; ret (TOTPDevice.set_PendingSecretEncrypted sealed old)
          else ret (TOTPDevice.set_PendingSecretEncrypted "" (TOTPDevice.set_SecretEncrypted sealed
                      (TOTPDevice.set_Secret "" old)))
      end in
    TOTPRepository.Upsert ctx d ;;;
    Writer.Record_ (audits s) ctx (event (Some userID) "" "totp_staged" "" true "") ;;;
    ret (secret, url)).

(** The critical section of [verifyEnableAudited]. *)
Definition activate (s : TOTPService) (ctx : Ctx) (userID : Z) (code : string) : M (list string) :=
  let! d := TOTPRepository.FindByUserID ctx userID in
  match d with
  | None => refuse s ctx userID "no pending device"
  | Some d =>
      let confirming := negb (bool_decide (TOTPDevice.PendingSecretEncrypted d = "")) in
      if TOTPDevice.Enabled d && negb confirming then fail ErrInvalidInput else
      let! (secret, d) :=
        (if confirming then
           match unseal (TOTPDevice.PendingSecretEncrypted d) with
           | Some p => ret (p, d) | None => fail EInfra
           end
         else openActiveSecret ctx d) in
      let! valid := code_valid code secret in
      if negb valid then refuse s ctx userID "bad enable code" else
      let prevActive := TOTPDevice.SecretEncrypted d in
      let d := if confirming then
                 TOTPDevice.set_Secret "" (TOTPDevice.set_PendingSecretEncrypted ""
                   (TOTPDevice.set_SecretEncrypted (TOTPDevice.PendingSecretEncrypted d) d))
               else d in
      let d := TOTPDevice.set_Enabled true d in
      TOTPRepository.Upsert ctx d ;;;
      let! codes := try_ (newRecoveryCodes s ctx userID) in
      match codes with
      | Error e =>
          let d := if confirming then
                     TOTPDevice.set_SecretEncrypted prevActive
                       (TOTPDevice.set_PendingSecretEncrypted (TOTPDevice.SecretEncrypted d) d)
                   else TOTPDevice.set_Enabled false d in
          quietly (TOTPRepository.Upsert ctx d) ;;; fail e
      | Ok codes => recordSuccess s ctx userID "totp_enabled" "totp enabled" ;;; ret codes
      end
  end.

Definition verifyEnableAudited (s : TOTPService) (ctx : Ctx) (userID : Z) (code : string) : M (list string) :=
  guardBruteForce s ctx userID ;;; with_rotation_lock userID (activate s ctx userID code).

(** The recovery-code path of [validateAudited]. *)
Definition use_recovery_code (s : TOTPService) (ctx : Ctx) (userID : Z) (code : string) : M unit :=
  let! codes := TOTPRepository.ActiveRecoveryCodes ctx userID in
  match Hash.MatchRecoveryCode code (map RecoveryCode.CodeHash codes) with
  | Some i =>
      match codes !! i with
      | Some c =>
          let! r := try_ (TOTPRepository.MarkRecoveryCodeUsed ctx c) in
          match r with
          | Error e => if decide (e = ErrRecoveryCodeUsed) then refuse s ctx userID "recovery code replay"
                       else fail e
          | Ok _ => recordSuccess s ctx userID "recovery_code_used" "recovery code used"
          end
      | None => fail EInfra
      end
  | None => refuse s ctx userID "bad recovery code"
  end.

Definition validateAudited (s : TOTPService) (ctx : Ctx) (userID : Z) (code : string) : M unit :=
  guardBruteForce s ctx userID ;;;
  let! d := TOTPRepository.FindByUserID ctx userID in
  match d with
  | Some d =>
      if negb (TOTPDevice.Enabled d) then refuse s ctx userID "device not enabled" else
      if str_len code =? 6 then
        let! (secret, _) := openActiveSecret ctx d in
        let! valid := code_valid code secret in
        if negb valid then refuse s ctx userID "bad totp code" else
        let! fresh := replayGuard userID code in
        if negb fresh then refuse s ctx userID "totp replay" else
        recordSuccess s ctx userID "totp_validated" "totp validated"
      else use_recovery_code s ctx userID code
  | None => refuse s ctx userID "device not enabled"
  end.

(** The codes that open; a row without a readable copy is skipped. *)
Definition readable (rows : list RecoveryCode.row) : list string :=
  omap (fun r => if bool_decide (RecoveryCode.CodeEncrypted r = "") then None
                 else unseal (RecoveryCode.CodeEncrypted r)) rows.

Definition viewRecoveryCodesAudited (s : TOTPService) (ctx : Ctx) (userID : Z) (code : string) : M (list string) :=
  guardBruteForce s ctx userID ;;;
  let! d := TOTPRepository.FindByUserID ctx userID in
  match d with
  | Some d =>
      if negb (TOTPDevice.Enabled d) then refuse s ctx userID "view codes: device not enabled" else
      let! (secret, _) := openActiveSecret ctx d in
      let! valid := code_valid code secret in
      if negb (str_len code =? 6) || negb valid then refuse s ctx userID "view codes: bad totp code" else
      let! fresh := replayGuard userID code in
      if negb fresh then refuse s ctx userID "view codes: totp replay" else
      let! rows := TOTPRepository.ActiveRecoveryCodes ctx userID in
      recordSuccess s ctx userID "recovery_codes_viewed" "recovery codes viewed" ;;;
      ret (readable rows)
  | None => refuse s ctx userID "view codes: device not enabled"
  end.

Definition regenerateRecoveryCodesAudited (s : TOTPService) (ctx : Ctx) (userID : Z) : M (list string) :=
  let! d := TOTPRepository.FindByUserID ctx userID in
  if negb (enabled d) then refuse s ctx userID "regenerate codes: device not enabled" else
  let! codes := newRecoveryCodes s ctx userID in
  recordSuccess s ctx userID "recovery_codes_regenerated" "recovery codes regenerated" ;;;
  ret codes.

Definition Validate (s : TOTPService) (ctx : Ctx) (userID : Z) (code : string) : M unit :=
  runAuditOperation (audits s) ctx (fun inner => validateAudited s inner userID code).

(** The authorization of [disableAudited]: a sudo token, or password and code. *)
Definition authorize_disable (s : TOTPService) (ctx : Ctx) (userID : Z) (sudoToken : Token)
    (password code : string) : M unit :=
  let! sudo := try_ (if is_empty_token sudoToken then fail ErrSudoRequired
                     else verifySudoToken s sudoToken userID) in
  match sudo with
  | Ok _ => ret tt
  | Error _ =>
      if bool_decide (password = "") then fail ErrSudoRequired else
      let! u := try_ (UserRepository.FindByID ctx userID) in
      match u with
      | Ok (Some user) =>
          if negb (Hash.CheckPassword (User.Password user) password) then fail ErrInvalidCredentials else
          if bool_decide (code = "") then fail ErrInvalidCode else
          let! v := try_ (Validate s ctx userID code) in
          match v with Ok _ => ret tt | Error _ => fail ErrInvalidCode end
      | _ => fail ErrUserNotFound
      end
  end.

Definition disableAudited (s : TOTPService) (ctx : Ctx) (userID : Z) (sudoToken : Token)
    (password code ip : string) : M unit :=
  let! device := TOTPRepository.FindByUserID ctx userID in
  if negb (enabled device) then ret tt else
  authorize_disable s ctx userID sudoToken password code ;;;
  TOTPRepository.Disable ctx userID ;;;
  TOTPRepository.ReplaceRecoveryCodes ctx userID [] ;;;
  quietly (UserRepository.BumpPwdVersion ctx userID) ;;;
  recordSuccess s ctx userID "totp_disabled" "mfa device disabled" ;;;
  let! u := try_ (UserRepository.FindByID ctx userID) in
  match u with
  | Ok (Some u) => notify (SecurityAlert (User.Email u) "mfa_disabled"
      "Two-factor authentication (TOTP) has been disabled on your account.")
  | _ => ret tt
  end.

Record MFAMethodsResult := mkMethods {
  TOTPEnabled : bool; PasskeysCount : nat; RecoveryCodesRemaining : nat; DefaultMethod : string
}.

Definition GetMFAMethods (ctx : Ctx) (userID : Z) : M MFAMethodsResult :=
  let! device := TOTPRepository.FindByUserID ctx userID in
  let! codes := TOTPRepository.ActiveRecoveryCodes ctx userID in
  let! pks := try_ (PasskeyRepository.ListByUser ctx userID false) in
  let n := match pks with Ok l => length l | Error _ => O end in
  ret (mkMethods (enabled device) n (length codes)
    (if (0 <? n)%nat then "passkey" else if enabled device then "totp" else "none")).

(** *** The entry points ([services/audit_operations.go]) *)

Definition Enable (s : TOTPService) (ctx : Ctx) (userID : Z) (email : string) (sudoToken : Token)
    : M (string * string) :=
  runAuditOperation (audits s) ctx (fun inner => enableAudited s inner userID email sudoToken).

Definition VerifyEnable (s : TOTPService) (ctx : Ctx) (userID : Z) (code : string) : M (list string) :=
  runAuditOperation (audits s) ctx (fun inner => verifyEnableAudited s inner userID code).

Definition ViewRecoveryCodes (s : TOTPService) (ctx : Ctx) (userID : Z) (code : string) : M (list string) :=
  runAuditOperation (audits s) ctx (fun inner => viewRecoveryCodesAudited s inner userID code).

Definition RegenerateRecoveryCodes (s : TOTPService) (ctx : Ctx) (userID : Z) : M (list string) :=
  runAuditOperation (audits s) ctx (fun inner => regenerateRecoveryCodesAudited s inner userID).

Definition Disable (s : TOTPService) (ctx : Ctx) (userID : Z) (sudoToken : Token)
    (password code ip : string) : M unit :=
  runAuditOperation (audits s) ctx (fun inner => disableAudited s inner userID sudoToken password code ip).

End S.
End Totp.
