(* ===== verification/Auth.v ===== *)
(** * Sign-in, sign-out and sessions ([services/auth_service.go])

    [AuthService], the token pair it issues, login with lockout and the adaptive
    captcha, completing a second factor, logout, refresh-token rotation with
    reuse containment, sessions, and the password-version counter.  [X_] names a
    definition whose Go name is taken. *)

From S2P Require Import Prelude Store Models World Sql Repos Jwt AuditTrail Common Identity Totp.

Open Scope Z_scope.
Open Scope monad_scope.

Record RateLimitConfig := mkRateLimitConfig {
  LoginPerAccountMax : Z; LoginWindow : Z; RegisterPerIPMax : Z; RegisterWindow : Z;
  VerifyResendPerEmailMax : Z; VerifyResendWindow : Z; VerifyResendGlobalMax : Z;
  VerifyResendGlobalWindow : Z; VerifyResendPerIPMax : Z; VerifyResendPerIPWindow : Z;
  LoginCaptchaAfterFails : Z
}.

Record JWTConfig := mkJWTConfig {
  AccessTTL : Z; RefreshTTL : Z; ResetTTL : Z; VerifyTTL : Z; MFAPendingTTL : Z; SudoTTL : Z
}.

(** [AuthService] as production wires it: store, notifier, sessions, second
    factor, permissions, access state and revoker are all there; the breach
    screener is an option. *)
Record AuthService := mkAuthService {
  audits : Writer.AsyncAuditWriter; jwt : JWTManager; cfg : AuthConfig; rlCfg : RateLimitConfig;
  jwtCfg : JWTConfig; totp : Totp.TOTPService; breached : bool; minPasswordScore : Z; bcryptCost : Z
}.

Record TokenPair := mkPair { AccessToken : Token; RefreshToken_ : string; ExpiresAt_ : Z }.

Record UserProfile := mkProfile {
  p_ID : Z; p_Username : string; p_Email : string; p_FullName : string; p_Role : string;
  p_IsActive : bool; p_IsEmailVerified : bool; p_CreatedAt : Z
}.

Definition FromUser (u : User.row) : UserProfile :=
  mkProfile (User.ID u) (User.Username u) (User.Email u) (User.FullName u) (User.Role u)
    (User.IsActive u) (User.IsEmailVerified u) (User.CreatedAt u).

(** What a login answers: the pair, or the token of a pending second factor. *)
Inductive LoginResult :=
  | Issued (pair : TokenPair) (profile : UserProfile)
  | MFAPending (token : Token).

Record LoginInput := mkLogin { l_Email : string; l_Password : string; l_CaptchaToken : string }.

Record SessionInfo := mkInfo {
  i_ID : string; i_IPAddress : string; i_UserAgent : string; i_DeviceName : string;
  i_LocationEstimate : string; i_CreatedAt : Z; i_LastActiveAt : Z; i_ExpiresAt : Z; i_IsCurrent : bool
}.

Module Auth.

Definition newIPLookbackWindow : Z := 30 * 24 * hour.
Definition pwdVerCacheTTL : Z := 60 * second.
Definition denylistJTIPrefix : string := "denylist:jti:".
Definition denylistSIDPrefix : string := "denylist:sid:".

Section S.
Context {ST : Store} {E : Ext} {J : JwtLib} {OT : Otp}.
Import Calls.

Definition record (s : AuthService) (ctx : Ctx) (e : AuditLog.row) : M unit := Writer.Record_ (audits s) ctx e.

Definition hashPassword (s : AuthService) (plain : string) : M string :=
  Hash.HashPasswordWithCost plain (if bcryptCost s <=? 0 then Hash.DefaultCost else bcryptCost s).

(** *** Denylists, versions, single-use tokens *)

Definition denylistAccessToken (s : AuthService) (jti : string) : M unit :=
  if bool_decide (jti = "") then ret tt
  else store_Set (denylistJTIPrefix +:+ jti) (VStr "revoked") (AccessTTL (jwtCfg s)).

Definition denylistSession (s : AuthService) (sess : option Session.row) : M unit :=
  match sess with
  | None => ret tt
  | Some sess =>
      if bool_decide (Session.ID sess = "") then ret tt else
      let! t := now in
      let ttl := Session.ExpiresAt sess - t in
      store_Set (denylistSIDPrefix +:+ Session.ID sess) (VStr "revoked")
                (if ttl <=? 0 then AccessTTL (jwtCfg s) else ttl)
  end.

Definition bumpPwdVersion (ctx : Ctx) (userID : Z) : M unit :=
  UserRepository.BumpPwdVersion ctx userID ;;; store_Delete (PasswordVersionKey ctx userID).

(** The cached value, if it reads as a number. *)
Definition cached_version (v : option Val) : option Z :=
  match v with
  | Some (VInt64 n) | Some (VInt n) => Some n
  | Some (VStr t) => let (n, ok) := parse_int64 t in if ok then Some n else None
  | _ => None
  end.

Definition CurrentPwdVersion (ctx : Ctx) (userID : Z) : M Z :=
  let! v := store_Get (PasswordVersionKey ctx userID) in
  match cached_version v with
  | Some n => ret n
  | None =>
      let! user := UserRepository.FindByID ctx userID in
      match user with
      | None => fail ErrUserNotFound
      | Some u =>
          store_Set (PasswordVersionKey ctx userID) (VInt64 (User.PwdVersion u)) pwdVerCacheTTL ;;;
          ret (User.PwdVersion u)
      end
  end.

Definition markTokenUsed (jti : string) (ttl : Z) : M bool :=
  store_SetNX ("jti:" +:+ jti) (VStr "used") ttl.

Definition jtiStoreTTL (c : Claims) : M Z :=
  let! t := now in
  ret (match ExpiresAt c with
       | Some e => if 0 <? e - t then e - t + hour else 24 * hour
       | None => 24 * hour
       end).

Definition markTokenDurable (ctx : Ctx) (jti tokenType : string) (userID exp : Z) : M unit :=
  UsedTokenRepository.MarkUsed ctx jti tokenType userID exp ;;; ret tt.

(** Both guards: the store's mark, then the durable table, which must answer. *)
Definition consumeSingleUseToken (ctx : Ctx) (jti : string) (ttl : Z) : M bool :=
  let! fresh := markTokenUsed jti ttl in
  if negb fresh then ret false else
  let! used := try_ (UsedTokenRepository.IsUsed ctx jti) in
  match used with
  | Ok u => ret (negb u)
  | Error _ => ret false
  end.

(** *** Issuing a pair *)

Definition resolveLocation (ip : string) : string :=
  if bool_decide (ip = "") then "Unknown" else
  if bool_decide (geo_resolve ip = "") then "Unknown" else geo_resolve ip.

Definition knownip_key (userID : Z) (ip : string) : string :=
  "knownip:" +:+ fmt_d userID +:+ ":" +:+ ip.

Definition maybeNotifyNewIPLogin (s : AuthService) (user : User.row) (ip ua : string) : M unit :=
  if bool_decide (ip = "") || negb (NotifyNewIPLogin (cfg s)) then ret tt else
  let! first := store_SetNX (knownip_key (User.ID user) ip) (VStr "seen") newIPLookbackWindow in
  if negb first then ret tt else notify (NewLoginAlert (User.Email user) ip (Device.Parse ua)).

(** The session of a new login, or the family being rotated. *)
Definition session_of (s : AuthService) (ctx : Ctx) (user : User.row) (ip ua reuseSessionID : string) : M string :=
  if bool_decide (reuseSessionID = "") then
    let! sid := NewUUID in
    let! t := now in
    SessionRepository.Create ctx
      (Session.mk sid "" (User.ID user) ip ua (Device.Parse ua) (resolveLocation ip) false t
                  (t + RefreshTTL (jwtCfg s)) 0) ;;;
    ret sid
  else
    let! t := now in
    quietly (SessionRepository.Touch ctx reuseSessionID ip ua (Device.Parse ua) (resolveLocation ip) t) ;;;
    ret reuseSessionID.

(** The access token, checked against the authority before it leaves. *)
Definition access_token (s : AuthService) (ctx : Ctx) (user : User.row) (sid : string) (perms : list string) : M Token :=
  if strict (jwt s) then
    let! access := IssueAccessV1 (jwt s) (User.ID user) (User.Role user) (User.Email user)
      (AccessTTL (jwtCfg s)) (User.PwdVersion user) (User.AuthEpoch user) sid (FromContext ctx) perms in
    let! t := now in
    match VerifyAccessV1 (jwt s) t access FinnAudience with
    | Error e => fail e
    | Ok claims =>
        let! r := try_ (Authority.accessState ctx claims) in
        match r with
        | Ok _ => ret access
        | Error e => fail (if decide (e = ErrInvalidCredentials) then ErrInvalidCredentials
                           else ErrIdentityUnavailable)
        end
    end
  else
    IssueAccessEnterprise (jwt s) (User.ID user) (User.Role user) (User.Email user)
      (AccessTTL (jwtCfg s)) (User.PwdVersion user) sid (FromContext ctx) perms.

Definition issueTokenPair (s : AuthService) (ctx : Ctx) (user : User.row) (ip ua reuseSessionID : string) : M TokenPair :=
  if strict (jwt s) && (negb (User.IsActive user) || User.AdminSuspended user) then fail ErrAccountDisabled else
  if negb (bool_decide (User.TenantID user = "")) && negb (bool_decide (User.TenantID user = FromContext ctx))
  then fail ErrUserNotFound else
  let! perms := try_ (RBACRepository.GetUserPermissions ctx (User.ID user)) in
  match perms with
  | Error _ => fail ErrIdentityUnavailable
  | Ok perms =>
      let! sid := session_of s ctx user ip ua reuseSessionID in
      let! access := access_token s ctx user sid perms in
      let! refreshPlain := Hash.GenerateOpaqueToken in
      let! t := now in
      RefreshTokenRepository.Create ctx
        (RefreshToken.mk 0 (User.ID user) (Hash.HashToken refreshPlain) (t + RefreshTTL (jwtCfg s)) false
           ip ua (Device.Parse ua) (resolveLocation ip) t sid 0) ;;;
      maybeNotifyNewIPLogin s user ip ua ;;;
      ret (mkPair access refreshPlain (t + AccessTTL (jwtCfg s)))
  end.

(** *** Login *)

Definition login_event (uid : option Z) (email ip detail : string) : AuditLog.row :=
  event uid email "login_failed" ip false detail.

Definition acct_key (email : string) : string := "login:acct:" +:+ email.

Definition recordLoginFailAccount (s : AuthService) (email : string) : M unit :=
  if bool_decide (email = "") then ret tt
  else store_IncrBy (acct_key email) 1 (LoginWindow (rlCfg s)) ;;; ret tt.

Definition recordLoginFailIP (ip : string) : M unit :=
  if bool_decide (ip = "") then ret tt
  else store_IncrBy (ipCounterKey "loginfail:" ip) 1 hour ;;; ret tt.

Definition isLocked (user : User.row) : M bool :=
  let! t := now in
  ret (match User.LockedUntil user with Some u => t <? u | None => false end).

(** The lockout a failed attempt starts, if it is the last one allowed: the base
    duration times the number of lockouts in 24 hours, capped. *)
Definition lockout (s : AuthService) (user : User.row) : M (option Z) :=
  if MaxLoginAttempts (cfg s) <=? User.FailedLoginAttempts user + 1 then
    let! mult :=
      (if 0 <? MaxLockoutMultiplier (cfg s) then
         let! n := store_IncrBy ("lockouts:" +:+ fmt_d (User.ID user)) 1 (24 * hour) in
         let m := if MaxLockoutMultiplier (cfg s) <? n then MaxLockoutMultiplier (cfg s) else n in
         ret (if m <? 1 then 1 else m)
       else ret 1) in
    let! t := now in
    ret (Some (t + int64 (LoginLockoutDuration (cfg s) * mult)))
  else ret None.

Definition recordFailedLogin (s : AuthService) (ctx : Ctx) (user : User.row) (email ip : string) : M unit :=
  let! lockUntil := lockout s user in
  quietly (UserRepository.IncrementFailedAttempts ctx user lockUntil) ;;;
  recordLoginFailIP ip ;;;
  recordLoginFailAccount s email ;;;
  record s ctx (login_event (Some (User.ID user)) email ip "bad password").

(** The velocity limit per account and the adaptive captcha per address. *)
Definition login_gates (s : AuthService) (email captchaToken ip : string) : M unit :=
  (if negb (bool_decide (email = "")) && (0 <? LoginPerAccountMax (rlCfg s)) then
     let! n := storeCounterValue (acct_key email) in
     if LoginPerAccountMax (rlCfg s) <=? n then fail ErrRateLimited else ret tt
   else ret tt) ;;;
  (if 0 <? LoginCaptchaAfterFails (rlCfg s) then
     let! n := storeCounterValue (ipCounterKey "loginfail:" ip) in
     if LoginCaptchaAfterFails (rlCfg s) <=? n then
       let! b := fault in
       if b || negb (captcha_ok captchaToken) then fail ErrCaptchaRequired else ret tt
     else ret tt
   else ret tt).

Definition checkMFAOrIssueTokensAudited (s : AuthService) (ctx : Ctx) (user : User.row)
    (ip ua auditDetail : string) : M LoginResult :=
  if User.AdminSuspended user || negb (User.IsActive user) then fail ErrAccountDisabled else
  let ctx := WithActor (User.ID user) ctx in
  let! device := TOTPRepository.FindByUserID ctx (User.ID user) in
  if Totp.enabled device then
    let! mfaToken := Issue (jwt s) (User.ID user) "" "" TokenTypeMFAPending (MFAPendingTTL (jwtCfg s))
                           (FromContext ctx) in
    record s ctx (event (Some (User.ID user)) "" "mfa_pending" "" true "") ;;;
    ret (MFAPending mfaToken)
  else
    let! tokens := issueTokenPair s ctx user ip ua "" in
    record s ctx (event (Some (User.ID user)) (User.Email user) "login" ip true auditDetail) ;;;
    ret (Issued tokens (FromUser user)).

Definition CheckMFAOrIssueTokens (s : AuthService) (ctx : Ctx) (user : User.row)
    (ip ua auditDetail : string) : M LoginResult :=
  runAuditOperation (audits s) ctx (fun inner => checkMFAOrIssueTokensAudited s inner user ip ua auditDetail).

Definition password_matches (user : User.row) (password : string) : bool :=
  negb (bool_decide (User.Password user = "")) && Hash.CheckPassword (User.Password user) password.

Definition loginAudited (s : AuthService) (ctx : Ctx) (in_ : LoginInput) (ip ua : string) : M LoginResult :=
  let email := Policy.normalize (l_Email in_) in
  login_gates s email (l_CaptchaToken in_) ip ;;;
  let! user := UserRepository.FindByEmail ctx email in
  match user with
  | None =>
      recordLoginFailIP ip ;;;
      recordLoginFailAccount s email ;;;
      record s ctx (login_event None email ip "unknown user") ;;;
      fail ErrInvalidCredentials
  | Some user =>
      if RequireEmailVerified (cfg s) && negb (User.IsEmailVerified user) then fail ErrEmailNotVerified else
      if negb (User.IsActive user) || User.AdminSuspended user then
        record s ctx (login_event (Some (User.ID user)) email ip "disabled") ;;; fail ErrAccountDisabled
      else
      let! locked := isLocked user in
      if locked : bool then
        record s ctx (login_event (Some (User.ID user)) email ip "locked") ;;; fail ErrAccountLocked
      else
      if negb (password_matches user (l_Password in_)) then
        recordFailedLogin s ctx user email ip ;;; fail ErrInvalidCredentials
      else
      let! user := UserRepository.ResetFailedAttempts ctx user in
      store_Delete (acct_key email) ;;;
      CheckMFAOrIssueTokens s ctx user ip ua ""
  end.

Definition completeMFALoginAudited (s : AuthService) (ctx : Ctx) (userID : Z) (code ip ua : string)
    : M (TokenPair * UserProfile) :=
  Totp.Validate (totp s) ctx userID code ;;;
  let! user := UserRepository.FindByID ctx userID in
  match user with
  | Some user =>
      if negb (User.IsActive user) || User.AdminSuspended user then fail ErrInvalidToken else
      let ctx := WithActor (User.ID user) ctx in
      let! tokens := issueTokenPair s ctx user ip ua "" in
      record s ctx (event (Some (User.ID user)) (User.Email user) "login" ip true "mfa-complete") ;;;
      record s ctx (event (Some (User.ID user)) "" "token_issued" "" true "") ;;;
      ret (tokens, FromUser user)
  | None => fail ErrInvalidToken
  end.

Definition issuePasskeyTokenPairAudited (s : AuthService) (ctx : Ctx) (user : User.row) (ip ua : string)
    : M (TokenPair * UserProfile) :=
  if negb (User.IsActive user) || User.AdminSuspended user then fail ErrAccountDisabled else
  let ctx := WithActor (User.ID user) ctx in
  let! tokens := issueTokenPair s ctx user ip ua "" in
  record s ctx (event (Some (User.ID user)) "" "token_issued" "" true "") ;;;
  ret (tokens, FromUser user).

(** *** Logout *)

(** The family of a revoked token: session row, refresh tokens, denylist. *)
Definition kill_family (s : AuthService) (ctx : Ctx) (rt : RefreshToken.row) : M unit :=
  if bool_decide (RefreshToken.SessionID rt = "") then ret tt else
  let! sess := try_ (SessionRepository.FindByID ctx (RefreshToken.SessionID rt)) in
  match sess with
  | Error _ => ret tt
  | Ok sess =>
      quietly (SessionRepository.RevokeByID ctx (RefreshToken.SessionID rt) (RefreshToken.UserID rt)) ;;;
      quietly (RefreshTokenRepository.RevokeBySession ctx (RefreshToken.SessionID rt)) ;;;
      denylistSession s sess
  end.

Definition logoutAudited (s : AuthService) (ctx : Ctx) (refreshToken accessJTI ip : string) : M unit :=
  let! t := now in
  (if bool_decide (accessJTI = "") then ret tt else
   let! r := try_ (Authority.RevokeAccess ctx accessJTI (t + KeyDrain)) in
   match r with Ok _ => ret tt | Error _ => fail ErrIdentityUnavailable end) ;;;
  denylistAccessToken s accessJTI ;;;
  let! rt := RefreshTokenRepository.FindByHash ctx (Hash.HashToken refreshToken) in
  let quiet_end :=
    if bool_decide (accessJTI = "") then ret tt
    else record s ctx (event None "" "access_token_revoked" "" true "") in
  match rt with
  | None => quiet_end
  | Some rt =>
      if RefreshToken.Revoked rt then quiet_end else
      let! r := try_ (RefreshTokenRepository.Revoke ctx rt) in
      match r with
      | Error e => if decide (e = ErrTokenAlreadyRevoked) then ret tt else fail e
      | Ok _ => ret tt
      end ;;;
      kill_family s ctx rt ;;;
      let uid := Some (RefreshToken.UserID rt) in
      record s ctx (event uid "" "logout" ip true "") ;;;
      (if bool_decide (accessJTI = "") then ret tt
       else record s ctx (event uid "" "access_token_revoked" ip true "logout denylisted access jti"))
  end.

Definition logoutAllAudited (s : AuthService) (ctx : Ctx) (userID : Z) (ip : string) : M unit :=
  RefreshTokenRepository.RevokeAllForUser ctx userID ;;;
  SessionRepository.RevokeAllForUser ctx userID ;;;
  bumpPwdVersion ctx userID ;;;
  record s ctx (event (Some userID) "" "logout" ip true "logout-all").

(** *** Refresh *)

Definition notifySecurityAsync (ctx : Ctx) (userID : Z) (name body : string) : M unit :=
  let! user := try_ (UserRepository.FindByID ctx userID) in
  match user with
  | Ok (Some u) => if bool_decide (User.Email u = "") then ret tt
                   else notify (SecurityAlert (User.Email u) name body)
  | _ => ret tt
  end.

Definition handleTokenReuse (s : AuthService) (ctx : Ctx) (rt : RefreshToken.row) (ip detail : string) : M unit :=
  let uid := Some (RefreshToken.UserID rt) in
  if negb (bool_decide (RefreshToken.SessionID rt = "")) then
    let! sess := try_ (SessionRepository.FindByID ctx (RefreshToken.SessionID rt)) in
    let sess := match sess with Ok sess => sess | Error _ => None end in
    quietly (SessionRepository.RevokeByID ctx (RefreshToken.SessionID rt) (RefreshToken.UserID rt)) ;;;
    quietly (RefreshTokenRepository.RevokeBySession ctx (RefreshToken.SessionID rt)) ;;;
    denylistSession s sess ;;;
    record s ctx (event uid "" "token_reuse" ip false (detail +:+ " (session family revoked)")) ;;;
    match sess with
    | Some _ => notifySecurityAsync ctx (RefreshToken.UserID rt) "Suspicious sign-in activity detected"
        "A refresh token from one of your devices was reused after being revoked. That device's session has been ended. If this was not you, change your password immediately."
    | None => ret tt
    end
  else
    quietly (RefreshTokenRepository.RevokeAllForUser ctx (RefreshToken.UserID rt)) ;;;
    record s ctx (event uid "" "token_reuse" ip false detail).

(** Reuse: contain it, and refuse. *)
Definition reuse {A} (s : AuthService) (ctx : Ctx) (rt : RefreshToken.row) (ip detail : string) : M A :=
  handleTokenReuse s ctx rt ip detail ;;; fail ErrInvalidToken.

(** The rotation: the compare-and-set of the old token, then the new pair. *)
Definition rotate (s : AuthService) (ctx : Ctx) (rt : RefreshToken.row) (user : User.row) (ip ua : string) : M TokenPair :=
  let! r := try_ (RefreshTokenRepository.Revoke ctx rt) in
  match r with
  | Error e => if decide (e = ErrTokenAlreadyRevoked)
               then reuse s ctx rt ip "concurrent refresh lost revoke race" else fail e
  | Ok _ =>
      let ctx := WithActor (User.ID user) ctx in
      let! tokens := issueTokenPair s ctx user ip ua (RefreshToken.SessionID rt) in
      record s ctx (event (Some (User.ID user)) "" "refresh_token" ip true "") ;;;
      ret tokens
  end.

Definition refreshAudited (s : AuthService) (ctx : Ctx) (refreshToken ip ua : string) : M TokenPair :=
  let! rt := RefreshTokenRepository.FindByHash ctx (Hash.HashToken refreshToken) in
  match rt with
  | None => fail ErrInvalidToken
  | Some rt =>
      if RefreshToken.Revoked rt then reuse s ctx rt ip "revoked refresh token presented" else
      let! t := now in
      if RefreshToken.ExpiresAt rt <? t then
        quietly (RefreshTokenRepository.Revoke ctx rt) ;;; fail ErrInvalidToken
      else
      let! user := UserRepository.FindByID ctx (RefreshToken.UserID rt) in
      match user with
      | None => fail ErrInvalidToken
      | Some user =>
          if negb (User.IsActive user) || User.AdminSuspended user then fail ErrInvalidToken else
          if bool_decide (RefreshToken.SessionID rt = "") then rotate s ctx rt user ip ua else
          let! sess := SessionRepository.FindByID ctx (RefreshToken.SessionID rt) in
          match sess with
          | None => fail ErrInvalidToken
          | Some sess =>
              if Session.Revoked sess || (Session.ExpiresAt sess <? t)
              then reuse s ctx rt ip "revoked session presented"
              else rotate s ctx rt user ip ua
          end
      end
  end.

(** *** Sessions *)

Definition session_info (currentSID : string) (x : Session.row) : SessionInfo :=
  mkInfo (Session.ID x) (Session.IPAddress x) (Session.UserAgent x) (Session.DeviceName x)
    (Session.LocationEstimate x) (Session.CreatedAt x) (Session.LastActiveAt x) (Session.ExpiresAt x)
    (bool_decide (Session.ID x = currentSID)).

Definition ListSessions (ctx : Ctx) (userID : Z) (currentSID : string) : M (list SessionInfo) :=
  let! rows := SessionRepository.FindActiveByUser ctx userID in
  ret (map (session_info currentSID) rows).

Definition revokeSessionAudited (s : AuthService) (ctx : Ctx) (sessionID : string) (userID : Z) (ip : string) : M unit :=
  let! sess := SessionRepository.FindByID ctx sessionID in
  match sess with
  | None => fail ErrSessionNotFound
  | Some sess =>
      if negb (Session.UserID sess =? userID) then fail ErrSessionNotFound else
      let! r := try_ (SessionRepository.RevokeByID ctx sessionID userID) in
      match r with
      | Error e => fail (if decide (e = ErrRecordNotFound) then ErrSessionNotFound else e)
      | Ok _ => ret tt
      end ;;;
      RefreshTokenRepository.RevokeBySession ctx sessionID ;;;
      denylistSession s (Some sess) ;;;
      record s ctx (event (Some userID) "" "session_revoked" ip true "")
  end.

(** *** The entry points ([services/audit_operations.go]) *)

Definition Login (s : AuthService) (ctx : Ctx) (in_ : LoginInput) (ip ua : string) : M LoginResult :=
  runAuditOperation (audits s) ctx (fun inner => loginAudited s inner in_ ip ua).

Definition CompleteMFALogin (s : AuthService) (ctx : Ctx) (userID : Z) (code ip ua : string)
    : M (TokenPair * UserProfile) :=
  runAuditOperation (audits s) ctx (fun inner => completeMFALoginAudited s inner userID code ip ua).

Definition IssuePasskeyTokenPair (s : AuthService) (ctx : Ctx) (user : User.row) (ip ua : string)
    : M (TokenPair * UserProfile) :=
  runAuditOperation (audits s) ctx (fun inner => issuePasskeyTokenPairAudited s inner user ip ua).

Definition Logout (s : AuthService) (ctx : Ctx) (refreshToken accessJTI ip : string) : M unit :=
  runAuditOperation (audits s) ctx (fun inner => logoutAudited s inner refreshToken accessJTI ip).

Definition LogoutAll (s : AuthService) (ctx : Ctx) (userID : Z) (ip : string) : M unit :=
  runAuditOperation (audits s) ctx (fun inner => logoutAllAudited s inner userID ip).

Definition Refresh (s : AuthService) (ctx : Ctx) (refreshToken ip ua : string) : M TokenPair :=
  runAuditOperation (audits s) ctx (fun inner => refreshAudited s inner refreshToken ip ua).

Definition RevokeSession (s : AuthService) (ctx : Ctx) (sessionID : string) (userID : Z) (ip : string) : M unit :=
  runAuditOperation (audits s) ctx (fun inner => revokeSessionAudited s inner sessionID userID ip).

End S.
End Auth.
