(* ===== verification/Account.v ===== *)
(** * Accounts ([services/auth_service.go])

    Registration, email verification, the password operations, the change of
    email, deactivation and erasure. *)

From Stdlib Require Import DecimalString.
From S2P Require Import Prelude Store Models World Sql Repos Jwt AuditTrail Common Identity Totp Auth.

Open Scope Z_scope.
Open Scope monad_scope.

Record RegisterInput := mkRegister {
  r_Username : string; r_Email : string; r_Password : string; r_FullName : string; r_IP : string
}.

Module Account.
Section S.
Context {ST : Store} {E : Ext} {J : JwtLib} {OT : Otp}.
Import Calls Auth.

(** *** Shared steps *)

(** A counter key and whether this call puts it over its limit. *)
Definition over (key : string) (limit window : Z) : M bool :=
  let! n := store_IncrBy key 1 window in ret (limit <? n).

(** A throttle layer: skipped when its limit is not positive. *)
Definition layer (on : bool) (key : string) (limit window : Z) (blocked : M unit) : M unit :=
  if on && (0 <? limit) then
    let! b := over key limit window in if b : bool then blocked else ret tt
  else ret tt.

Definition passwordBreached (s : AuthService) (pw : string) : M bool :=
  if negb (breached s) then ret false
  else let! b := fault in ret (negb b && hibp_listed pw).

(** The checks of a new password: complexity, then breach screening. *)
Definition accept_password (s : AuthService) (pw username email : string) : M unit :=
  match Policy.validatePassword pw (minPasswordScore s) [username; Policy.emailLocalPart email] with
  | Some e => fail e
  | None =>
      let! b := passwordBreached s pw in
      if b : bool then fail ErrPasswordBreached else ret tt
  end.

Definition applyCredentialChange (ctx : Ctx) (user : User.row) (hashedPassword : string) : M unit :=
  UserRepository.CredentialChangeTx ctx (User.ID user) hashedPassword
    (RefreshTokenRepository.RevokeAllForUserTx ctx (User.ID user) ;;;
     SessionRepository.RevokeAllForUserTx ctx (User.ID user)) ;;;
  store_Delete (PasswordVersionKey ctx (User.ID user)).

(** The user a request acts on. *)
Definition the_user (ctx : Ctx) (userID : Z) : M User.row :=
  let! user := UserRepository.FindByID ctx userID in
  match user with Some u => ret u | None => fail ErrUserNotFound end.

(** Every session family and outstanding token of the user, best effort. *)
Definition revoke_everything (ctx : Ctx) (userID : Z) : M unit :=
  quietly (RefreshTokenRepository.RevokeAllForUser ctx userID) ;;;
  quietly (SessionRepository.RevokeAllForUser ctx userID) ;;;
  quietly (bumpPwdVersion ctx userID).

(** *** Register *)

Definition shouldThrottleDuplicateRegisterAlert (s : AuthService) (email ip : string) : M bool :=
  let rl := rlCfg s in
  let! a := (if 0 <? VerifyResendGlobalMax rl then
               over "reg:dup:global" (VerifyResendGlobalMax rl) (VerifyResendGlobalWindow rl) else ret false) in
  if a : bool then ret true else
  let! b := (if negb (bool_decide (ip = "")) && (0 <? VerifyResendPerIPMax rl) then
               over (ipCounterKey "reg:dup:ip:" ip) (VerifyResendPerIPMax rl) (VerifyResendPerIPWindow rl)
             else ret false) in
  if b : bool then ret true else
  (if negb (bool_decide (email = "")) && (0 <? VerifyResendPerEmailMax rl) then
     over ("reg:dup:email:" +:+ email) (VerifyResendPerEmailMax rl) (VerifyResendWindow rl)
   else ret false).

Definition handleDuplicateRegistration (s : AuthService) (ctx : Ctx) (ownerEmail ip attemptedUsername : string)
    : M UserProfile :=
  record s ctx (event None ownerEmail "register_duplicate" ip false
    ("attempted registration with existing email or username (attempted username: " +:+ attemptedUsername +:+ ")")) ;;;
  let! throttled := shouldThrottleDuplicateRegisterAlert s ownerEmail ip in
  (if throttled : bool then ret tt else notify (DuplicateRegisterAlert ownerEmail)) ;;;
  let! t := now in
  ret (mkProfile 0 attemptedUsername ownerEmail "" "user" true false t).

(** The account is created; a failed mail degrades to an audit row. *)
Definition create_account (s : AuthService) (ctx : Ctx) (in_ : RegisterInput) (username email hashed : string)
    : M UserProfile :=
  let! t := now in
  let! created := try_ (UserRepository.Create ctx
    (User.mk 0 "" username email hashed (r_FullName in_) "user" true false 0 None 0 false 0 t)) in
  match created with
  | Error e => if decide (e = ErrDuplicateKey)
               then handleDuplicateRegistration s ctx email (r_IP in_) username else fail e
  | Ok user =>
      record s ctx (event (Some (User.ID user)) "" "registered" "" true "") ;;;
      let! verifyToken := Issue (jwt s) (User.ID user) (User.Role user) (User.Email user) TokenTypeEmailVerify
                                (VerifyTTL (jwtCfg s)) (FromContext ctx) in
      let! sent := try_ (send (EmailVerification (User.Email user) verifyToken)) in
      match sent with
      | Ok _ => ret tt
      | Error _ => record s ctx (event (Some (User.ID user)) (User.Email user) "verify_email_send_failed"
                                       (r_IP in_) false "send failed")
      end ;;;
      ret (FromUser user)
  end.

Definition registerAudited (s : AuthService) (ctx : Ctx) (in_ : RegisterInput) : M UserProfile :=
  let username := trim_space (r_Username in_) in
  let email := Policy.normalize (r_Email in_) in
  accept_password s (r_Password in_) username email ;;;
  (if bool_decide (r_IP in_ = "") then ret tt else
   let! b := over (ipCounterKey "reg:ip:" (r_IP in_)) (RegisterPerIPMax (rlCfg s)) (RegisterWindow (rlCfg s)) in
   if b : bool then fail ErrRateLimited else ret tt) ;;;
  if Policy.isDisposableEmail email then fail ErrDisposableEmail else
  let! existing := UserRepository.FindByEmail ctx email in
  match existing with
  | Some x => handleDuplicateRegistration s ctx (User.Email x) (r_IP in_) username
  | None =>
      let! existing := UserRepository.FindByUsername ctx username in
      match existing with
      | Some x => handleDuplicateRegistration s ctx (User.Email x) (r_IP in_) username
      | None =>
          let! hashed := hashPassword s (r_Password in_) in
          create_account s ctx in_ username email hashed
      end
  end.

(** *** Mail a token: forgotten password, verification *)

Definition ForgotPassword (s : AuthService) (ctx : Ctx) (email ip : string) : M unit :=
  let email := Policy.normalize email in
  admitBeforeExternal (audits s) ctx (event None "" "password_reset_requested" "" true "") ;;;
  let! user := UserRepository.FindByEmail ctx email in
  match user with
  | None => ret tt
  | Some user =>
      let! resetToken := Issue (jwt s) (User.ID user) (User.Role user) (User.Email user) TokenTypeReset
                               (ResetTTL (jwtCfg s)) (FromContext ctx) in
      send (PasswordReset email resetToken)
  end.

Definition resendVerifyEmailAudited (s : AuthService) (ctx : Ctx) (email ip : string) : M unit :=
  let email := Policy.normalize email in
  let rl := rlCfg s in
  let blocked detail := event None email "verify_resend_blocked" ip false detail in
  let refuse detail := record s ctx (blocked detail) ;;; fail ErrRateLimited in
  layer true "verify:resend:global" (VerifyResendGlobalMax rl) (VerifyResendGlobalWindow rl)
        (refuse "global cap") ;;;
  layer (negb (bool_decide (ip = ""))) (ipCounterKey "verify:resend:ip:" ip) (VerifyResendPerIPMax rl)
        (VerifyResendPerIPWindow rl) (refuse "per-ip cap") ;;;
  if Policy.isDisposableEmail email then admitBeforeExternal (audits s) ctx (blocked "disposable domain") else
  layer (negb (bool_decide (email = ""))) ("verify:resend:" +:+ email) (VerifyResendPerEmailMax rl)
        (VerifyResendWindow rl) (refuse "per-email cap") ;;;
  admitBeforeExternal (audits s) ctx (event None "" "verification_requested" "" true "") ;;;
  let! user := UserRepository.FindByEmail ctx email in
  match user with
  | None => ret tt
  | Some user =>
      if User.IsEmailVerified user then ret tt else
      let! verifyToken := Issue (jwt s) (User.ID user) (User.Role user) (User.Email user) TokenTypeEmailVerify
                                (VerifyTTL (jwtCfg s)) (FromContext ctx) in
      send (EmailVerification (User.Email user) verifyToken)
  end.

Definition ResendVerifyEmail (s : AuthService) (ctx : Ctx) (email ip : string) : M unit :=
  resendVerifyEmailAudited s ctx email ip.

(** *** Single-use tokens: reset, verification *)

(** A purpose token: verified, of its type; the context is bound to its tenant. *)
Definition purpose_token (s : AuthService) (token : Token) (type_ : string) : M Claims :=
  let! t := now in
  match Verify (jwt s) t token with
  | Ok c => if bool_decide (Type_ c = type_) then ret c else fail ErrInvalidToken
  | Error _ => fail ErrInvalidToken
  end.

(** The token is spent in the store and in the durable table. *)
Definition spend (ctx : Ctx) (c : Claims) (type_ : string) (userID : Z) : M unit :=
  let! ttl := jtiStoreTTL c in
  let! fresh := consumeSingleUseToken ctx (ID c) ttl in
  if negb fresh then fail ErrInvalidToken
  else markTokenDurable ctx (ID c) type_ userID (default 0 (ExpiresAt c)).

Definition resetPasswordAudited (s : AuthService) (ctx : Ctx) (token : Token) (newPassword ip : string) : M unit :=
  let! claims := purpose_token s token TokenTypeReset in
  let ctx := WithTenant (TenantID claims) ctx in
  let! user := the_user ctx (UserID claims) in
  accept_password s newPassword (User.Username user) (User.Email user) ;;;
  spend ctx claims TokenTypeReset (User.ID user) ;;;
  let! hashed := hashPassword s newPassword in
  applyCredentialChange ctx user hashed ;;;
  record s ctx (event (Some (User.ID user)) "" "password_reset" ip true "").

Definition verifyEmailAudited (s : AuthService) (ctx : Ctx) (token : Token) : M unit :=
  let! claims := purpose_token s token TokenTypeEmailVerify in
  let ctx := WithTenant (TenantID claims) ctx in
  let! user := the_user ctx (UserID claims) in
  spend ctx claims TokenTypeEmailVerify (User.ID user) ;;;
  UserRepository.SetEmailVerified ctx user true ;;;
  record s (WithActor (User.ID user) ctx) (event (Some (User.ID user)) "" "email_verified" "" true "").

(** *** Change and first password *)

Definition changePasswordAudited (s : AuthService) (ctx : Ctx) (userID : Z) (oldPassword newPassword ip : string) : M unit :=
  let! user := the_user ctx userID in
  if negb (Hash.CheckPassword (User.Password user) oldPassword) then fail ErrInvalidCredentials else
  accept_password s newPassword (User.Username user) (User.Email user) ;;;
  let! hashed := hashPassword s newPassword in
  applyCredentialChange ctx user hashed ;;;
  record s ctx (event (Some (User.ID user)) "" "password_changed" ip true "").

Definition setPasswordAudited (s : AuthService) (ctx : Ctx) (userID : Z) (newPassword ip : string) : M unit :=
  let! user := the_user ctx userID in
  if negb (bool_decide (User.Password user = "")) then fail ErrPasswordAlreadySet else
  accept_password s newPassword (User.Username user) (User.Email user) ;;;
  let! hashed := hashPassword s newPassword in
  let! set := UserRepository.SetFirstPassword ctx (User.ID user) hashed in
  if negb set then fail ErrPasswordAlreadySet else
  bumpPwdVersion ctx (User.ID user) ;;;
  record s ctx (event (Some (User.ID user)) (User.Email user) "password_set" ip true
                      "first password set (oauth-only account)").

Definition Me (ctx : Ctx) (userID : Z) : M UserProfile :=
  let! user := the_user ctx userID in ret (FromUser user).

(** *** Change of email *)

Definition change_email_payload (userID : Z) (oldEmail newEmail : string) : string :=
  fmt_d userID +:+ ":" +:+ oldEmail +:+ ":" +:+ newEmail.

Definition requestChangeEmailAudited (s : AuthService) (ctx : Ctx) (userID : Z) (password newEmail ip : string) : M unit :=
  let! user := the_user ctx userID in
  if negb (Hash.CheckPassword (User.Password user) password) then fail ErrInvalidCredentials else
  let newEmail := Policy.normalize newEmail in
  if bool_decide (newEmail = "") || bool_decide (newEmail = User.Email user) then fail ErrInvalidInput else
  let rl := rlCfg s in
  let uid := Some (User.ID user) in
  let refuse detail := record s ctx (event uid (User.Email user) "email_change_requested" ip false detail) ;;;
                       fail ErrRateLimited in
  layer true "chgemail:global" (VerifyResendGlobalMax rl) (VerifyResendGlobalWindow rl)
        (refuse "blocked: global cap") ;;;
  layer (negb (bool_decide (ip = ""))) (ipCounterKey "chgemail:ip:" ip) (VerifyResendPerIPMax rl)
        (VerifyResendPerIPWindow rl) (refuse "blocked: per-ip cap") ;;;
  layer true ("chgemail:email:" +:+ User.Email user) (VerifyResendPerEmailMax rl) (VerifyResendWindow rl)
        (refuse "blocked: per-email cap") ;;;
  if Policy.isDisposableEmail newEmail then fail ErrDisposableEmail else
  let! existing := UserRepository.FindByEmail ctx newEmail in
  if bool_decide (is_Some existing) then fail ErrEmailExists else
  let! token := NewUUID in
  store_Set ("change_email:" +:+ token) (VStr (change_email_payload (User.ID user) (User.Email user) newEmail)) hour ;;;
  admitBeforeExternal (audits s) ctx (event uid "" "email_change_requested" "" true "") ;;;
  notify (EmailVerification newEmail (Text token)) ;;;
  notify (SecurityAlert (User.Email user) "email_change_requested"
    ("A request was made to change your email address to " +:+ newEmail +:+
     ". If you did not make this request, secure your account immediately.")).

(** [strconv.ParseUint(s, 10, 64)] *)
Definition parse_uint64 (s : string) : option Z :=
  match NilZero.uint_of_string s with
  | Some d => let z := Z.of_uint d in if z <? 2 ^ 64 then Some z else None
  | None => None
  end.

(** The staged change: who, from, to. *)
Definition parse_change_email (v : option Val) : option (Z * string * string) :=
  match v with
  | Some (VStr payload) =>
      match split_on ":" payload with
      | [a; b; c] => match parse_uint64 a with Some uid => Some (uid, b, c) | None => None end
      | _ => None
      end
  | _ => None
  end.

Definition confirmChangeEmailAudited (s : AuthService) (ctx : Ctx) (token ip : string) : M unit :=
  if bool_decide (token = "") then fail ErrInvalidToken else
  let! val := store_Take ("change_email:" +:+ token) in
  match parse_change_email val with
  | None => fail ErrInvalidToken
  | Some (uid, oldEmail, newEmail) =>
      let! existing := UserRepository.FindByEmail ctx newEmail in
      if match existing with Some x => negb (User.ID x =? uid) | None => false end then fail ErrEmailExists else
      let! user := the_user ctx uid in
      let user := User.set_IsEmailVerified true (User.set_Email newEmail user) in
      UserRepository.UpdateEmail ctx user ;;;
      revoke_everything ctx uid ;;;
      notify (SecurityAlert oldEmail "email_changed"
        ("Your account email was successfully updated to " +:+ newEmail +:+ ". All existing sessions were revoked.")) ;;;
      record s ctx (event (Some (User.ID user)) newEmail "email_changed" ip true ("email changed from " +:+ oldEmail))
  end.

(** *** Deactivate and erase *)

Definition verifySudoOrPassword (s : AuthService) (user : User.row) (sudoToken : Token) (password : string) : M unit :=
  let! t := now in
  let sudo := negb (is_empty_token sudoToken) &&
    match Verify (jwt s) t sudoToken with
    | Ok c => bool_decide (Type_ c = TokenTypeSudo) && (UserID c =? User.ID user) &&
              bool_decide (is_Some (ExpiresAt c))
    | Error _ => false
    end in
  if sudo then ret tt
  else if negb (bool_decide (password = "")) && negb (bool_decide (User.Password user = "")) then
    if Hash.CheckPassword (User.Password user) password then ret tt else fail ErrInvalidCredentials
  else fail ErrSudoRequired.

Definition deactivateAccountAudited (s : AuthService) (ctx : Ctx) (userID : Z) (sudoToken : Token)
    (password accessJTI ip : string) : M unit :=
  let! user := the_user ctx userID in
  verifySudoOrPassword s user sudoToken password ;;;
  UserRepository.Deactivate ctx userID ;;;
  revoke_everything ctx userID ;;;
  denylistAccessToken s accessJTI ;;;
  record s ctx (event (Some (User.ID user)) (User.Email user) "account_deactivated" ip true
                      "account self-deactivated") ;;;
  notify (SecurityAlert (User.Email user) "account_deactivated"
    "Your account has been deactivated. Contact support if you wish to reactivate it.").

Definition erased (suffix : string) (user : User.row) : User.row :=
  User.set_IsEmailVerified false (User.set_IsActive false (User.set_FullName "" (User.set_Password ""
    (User.set_Username ("deleted_" +:+ String.substring 0 12 suffix)
      (User.set_Email ("deleted_" +:+ suffix +:+ "@anonymized.invalid") user))))).

Definition eraseAccountAudited (s : AuthService) (ctx : Ctx) (userID : Z) (sudoToken : Token)
    (password accessJTI ip : string) : M unit :=
  let! user := the_user ctx userID in
  verifySudoOrPassword s user sudoToken password ;;;
  let! suffix := NewUUID in
  let oldEmail := User.Email user in
  let user := erased suffix user in
  UserRepository.Erase ctx user ;;;
  quietly (TOTPRepository.Disable ctx userID) ;;;
  quietly (TOTPRepository.ReplaceRecoveryCodes ctx userID []) ;;;
  quietly (PasskeyRepository.RevokeAllForUser ctx userID) ;;;
  quietly (OAuthIdentityRepository.DeleteAllByUserID ctx userID) ;;;
  quietly (Archive.AnonymizeUser ctx userID) ;;;
  revoke_everything ctx userID ;;;
  denylistAccessToken s accessJTI ;;;
  record s ctx (event (Some (User.ID user)) "anonymized@gdpr.local" "account_erased" ip true
                      "account erased via GDPR right-to-erasure") ;;;
  notify (SecurityAlert oldEmail "account_erased"
    "Your account data has been permanently erased per your request.").

(** *** The entry points ([services/audit_operations.go]) *)

Definition Register (s : AuthService) (ctx : Ctx) (in_ : RegisterInput) : M UserProfile :=
  runAuditOperation (audits s) ctx (fun inner => registerAudited s inner in_).

Definition ResetPassword (s : AuthService) (ctx : Ctx) (token : Token) (newPassword ip : string) : M unit :=
  runAuditOperation (audits s) ctx (fun inner => resetPasswordAudited s inner token newPassword ip).

Definition VerifyEmail (s : AuthService) (ctx : Ctx) (token : Token) : M unit :=
  runAuditOperation (audits s) ctx (fun inner => verifyEmailAudited s inner token).

Definition ChangePassword (s : AuthService) (ctx : Ctx) (userID : Z) (oldPassword newPassword ip : string) : M unit :=
  runAuditOperation (audits s) ctx (fun inner => changePasswordAudited s inner userID oldPassword newPassword ip).

Definition SetPassword (s : AuthService) (ctx : Ctx) (userID : Z) (newPassword ip : string) : M unit :=
  runAuditOperation (audits s) ctx (fun inner => setPasswordAudited s inner userID newPassword ip).

Definition RequestChangeEmail (s : AuthService) (ctx : Ctx) (userID : Z) (password newEmail ip : string) : M unit :=
  requestChangeEmailAudited s ctx userID password newEmail ip.

Definition ConfirmChangeEmail (s : AuthService) (ctx : Ctx) (token ip : string) : M unit :=
  runAuditOperation (audits s) ctx (fun inner => confirmChangeEmailAudited s inner token ip).

Definition DeactivateAccount (s : AuthService) (ctx : Ctx) (userID : Z) (sudoToken : Token)
    (password accessJTI ip : string) : M unit :=
  runAuditOperation (audits s) ctx (fun inner => deactivateAccountAudited s inner userID sudoToken password accessJTI ip).

Definition EraseAccount (s : AuthService) (ctx : Ctx) (userID : Z) (sudoToken : Token)
    (password accessJTI ip : string) : M unit :=
  runAuditOperation (audits s) ctx (fun inner => eraseAccountAudited s inner userID sudoToken password accessJTI ip).

End S.
End Account.
