(* ===== verification/OAuth.v ===== *)
(** * Sign-in with Google ([services/oauth_service.go], [google_id_token_verifier.go])

    The staged challenge (state, PKCE verifier, nonce), its consumption, the
    callback: exchange, verification of the identity token, account linking or
    creation; and the unlinking of an identity. *)

From S2P Require Import Prelude Store Models World Json Sql Repos Jwt AuditTrail Common Identity Totp Auth.

Open Scope Z_scope.
Open Scope monad_scope.

(** [oauth2.Config] as [NewGoogleOAuthClient] fills it; endpoint and scopes are
    constants. *)
Record oauth2Config := mkGoogle { ClientID : string; ClientSecret : string; RedirectURL : string }.

(** The libraries and the provider: [golang.org/x/oauth2] (consent URL from a
    state and extra parameters; exchange of a code and a verifier at a time,
    answering the members of the token response), [idtoken.Validate] (at a time,
    for an audience: subject and claims), the driver's message of a duplicate
    key, and base64url of random bytes and of a SHA-256 digest. *)
Class GoogleLib := {
  AuthCodeURL : oauth2Config -> string -> list (string * string) -> string;
  Exchange : oauth2Config -> Z -> string -> list (string * string) -> option Obj;
  idtoken_Validate : Z -> string -> string -> option (string * Obj);
  duplicate_text : string -> string -> string;
  rand_base64url : nat -> string;
  sha256_base64url : string -> string
}.

(** A nil client is the disabled feature. *)
Definition NewGoogleOAuthClient (clientID clientSecret redirectURL : string) : option oauth2Config :=
  if bool_decide (clientID = "") || bool_decide (redirectURL = "") then None
  else Some (mkGoogle clientID clientSecret redirectURL).

(** [OAuthService] as production wires it: the token issuer is the authentication
    service, whose trail, store and notifier it shares; the verifier is bound to
    the client's id. *)
Record OAuthService := mkOAuth { issuer : AuthService; client : option oauth2Config; clientID_ : string }.

Record GoogleIDTokenClaims := mkGClaims {
  Sub : string; g_Email : string; EmailVerified : bool; g_Name : string; Picture : string; Nonce : string
}.

Record oauthChallenge := mkChallenge { Verifier : string; ch_Nonce : string }.

Module OAuth.

Definition oauthProviderGoogle : string := "google".
Definition oauthStateTTL : Z := 10 * minute.

Definition oauthChallengeKey (state : string) : string := "oauth:state:" +:+ state.

(** *** The staged text *)

(** [json.Marshal] of the challenge. *)
Definition marshal (c : oauthChallenge) : string :=
  Json.text (JMembers [("verifier", JText (Verifier c)); ("nonce", JText (ch_Nonce c))]).

(** [json.Unmarshal] into an [oauthChallenge]. *)
Definition unmarshal (raw : string) : option oauthChallenge :=
  match Json.object raw with
  | None => None
  | Some o =>
      let (v, v_ok) := Json.string_field "verifier" o "" in
      let (n, n_ok) := Json.string_field "nonce" o "" in
      if v_ok && n_ok then Some (mkChallenge v n) else None
  end.

(** The decoded challenge of a stored value, if it has a verifier. *)
Definition staged (v : option Val) : option oauthChallenge :=
  match v with
  | Some (VStr raw) =>
      match unmarshal raw with
      | Some c => if bool_decide (Verifier c = "") then None else Some c
      | None => None
      end
  | _ => None
  end.

(** *** The identity token *)

Definition claimString (claims : Obj) (key : string) : string :=
  match member key (rev claims) with Some (JText s) => s | _ => "" end.

(** [strconv.ParseBool], its error ignored. *)
Definition ParseBool (s : string) : bool := bool_decide (s ∈ ["1"; "t"; "T"; "true"; "TRUE"; "True"]).

Definition claimBool (claims : Obj) (key : string) : bool :=
  match member key (rev claims) with
  | Some JTrue => true
  | Some (JText s) => ParseBool s
  | _ => false
  end.

Definition google_claims (p : string * Obj) : GoogleIDTokenClaims :=
  let (subject, claims) := p in
  mkGClaims subject (claimString claims "email") (claimBool claims "email_verified") (claimString claims "name")
    (claimString claims "picture") (claimString claims "nonce").

(** [token.Extra("id_token").(string)] *)
Definition id_token_of (token : Obj) : option string :=
  match member "id_token" (rev token) with
  | Some (JText raw) => if bool_decide (raw = "") then None else Some raw
  | _ => None
  end.

Definition generateUsernameFromEmail (email : string) : string :=
  match split_on "@" email with
  | local :: _ :: _ => if bool_decide (local = "") then email else local
  | _ => email
  end.

Section S.
Context {ST : Store} {E : Ext} {J : JwtLib} {OT : Otp} {G : GoogleLib}.
Import Calls.

Abbreviation trail o := (audits (issuer o)).

(** *** Begin *)

Definition pkceVerifier : M string :=
  let! b := fault in
  if b : bool then fail EInfra else let! n := draw in ret (rand_base64url n).

Definition s256Challenge (verifier : string) : string := sha256_base64url verifier.

(** [oauth2GoogleClient.AuthCodeURL] *)
Definition consent_url (cfg : oauth2Config) (state codeChallenge nonce : string) : string :=
  AuthCodeURL cfg state
    ([("code_challenge", codeChallenge); ("code_challenge_method", "S256")] ++
     (if bool_decide (nonce = "") then [] else [("nonce", nonce)])).

(** State and consent URL; an empty URL when the feature is disabled. *)
Definition BeginLogin (o : OAuthService) (ctx : Ctx) : M (string * string) :=
  match client o with
  | None => ret ("", "")
  | Some cfg =>
      let! state := Hash.GenerateRandomBytes in
      let! verifier := pkceVerifier in
      let! nonce := Hash.GenerateRandomBytes in
      let challenge := mkChallenge verifier nonce in
      let! set := store_SetNX (oauthChallengeKey state) (VStr (marshal challenge)) oauthStateTTL in
      if negb set then fail EInfra
      else ret (state, consent_url cfg state (s256Challenge verifier) nonce)
  end.

Definition ConsumeState (state : string) : M oauthChallenge :=
  if bool_decide (state = "") then fail ErrOAuthStateInvalid else
  let! raw := store_Take (oauthChallengeKey state) in
  match staged raw with
  | Some c => ret c
  | None => fail ErrOAuthStateInvalid
  end.

(** *** Callback *)

(** [oauth2GoogleClient.Exchange]: a network call. *)
Definition exchange (cfg : oauth2Config) (code verifier : string) : M Obj :=
  let! b := fault in
  let! t := now in
  match (if b : bool then None else Exchange cfg t code [("code_verifier", verifier)]) with
  | Some token => ret token
  | None => fail ErrOAuthCodeExchangeFailed
  end.

(** [productionGoogleVerifier.Verify] *)
Definition Verify_ (o : OAuthService) (rawIDToken : string) : M GoogleIDTokenClaims :=
  let! b := fault in
  let! t := now in
  match (if b : bool then None else idtoken_Validate t rawIDToken (clientID_ o)) with
  | Some p => ret (google_claims p)
  | None => fail ErrOAuthTokenVerificationFailed
  end.

(** [mapDuplicateKey] of [auth_service.go] *)
Definition mapDuplicateKey (email username : string) (e : Err) : Err :=
  if decide (e = ErrDuplicateKey) then
    let msg := duplicate_text email username in
    if str_contains "email" msg then ErrEmailExists
    else if str_contains "username" msg then ErrUsernameExists
    else ErrEmailExists
  else e.

Definition createGoogleUser (ctx : Ctx) (claims : GoogleIDTokenClaims) (email : string) : M User.row :=
  let username := generateUsernameFromEmail email in
  let! existing := UserRepository.FindByUsername ctx username in
  let! username := (match existing with
                    | Some _ => let! suffix := Hash.GenerateRandomBytes in ret (username +:+ suffix)
                    | None => ret username
                    end) in
  let! t := now in
  let! created := try_ (UserRepository.Create ctx
    (User.mk 0 "" username email "" (g_Name claims) "user" true true 0 None 0 false 0 t)) in
  match created with
  | Ok user => ret user
  | Error e => fail (mapDuplicateKey email username e)
  end.

Definition linkIdentity (o : OAuthService) (ctx : Ctx) (user : User.row) (claims : GoogleIDTokenClaims) (ip : string)
    : M unit :=
  let! existing := OAuthIdentityRepository.FindByProviderAndProviderUserID ctx oauthProviderGoogle (Sub claims) in
  match existing with
  | Some _ => ret tt
  | None =>
      OAuthIdentityRepository.Create ctx (OAuthIdentity.mk 0 (User.ID user) oauthProviderGoogle (Sub claims)) ;;;
      Writer.Record_ (trail o) ctx (event (Some (User.ID user)) (User.Email user) "oauth_linked" ip true
                                          "linked google oauth account") ;;;
      notify (SecurityAlert (User.Email user) "oauth_linked" "A Google account has been connected to your profile.")
  end.

Definition findOrCreateUser (o : OAuthService) (ctx : Ctx) (claims : GoogleIDTokenClaims) (email ip : string)
    : M User.row :=
  let! ident := OAuthIdentityRepository.FindByProviderAndProviderUserID ctx oauthProviderGoogle (Sub claims) in
  match ident with
  | Some ident =>
      let! user := UserRepository.FindByID ctx (OAuthIdentity.UserID ident) in
      match user with
      | Some user => ret user
      | None => fail ErrUserNotFound
      end
  | None =>
      let! user := UserRepository.FindByEmail ctx email in
      let! user := (match user with
                    | Some user => if negb (User.IsEmailVerified user) then fail ErrOAuthEmailTaken else ret user
                    | None => createGoogleUser ctx claims email
                    end) in
      linkIdentity o ctx user claims ip ;;;
      ret user
  end.

(** The checks of the provider's answer: token, nonce, verified address. *)
Definition identify (o : OAuthService) (cfg : oauth2Config) (challenge : oauthChallenge) (code : string)
    : M GoogleIDTokenClaims :=
  let! token := exchange cfg code (Verifier challenge) in
  match id_token_of token with
  | None => fail ErrOAuthTokenVerificationFailed
  | Some rawIDToken =>
      let! claims := Verify_ o rawIDToken in
      if bool_decide (Nonce claims = "") || negb (bool_decide (Nonce claims = ch_Nonce challenge))
      then fail ErrOAuthTokenVerificationFailed
      else if negb (EmailVerified claims) then fail ErrOAuthEmailNotVerified
      else ret claims
  end.

Definition handleCallbackAudited (o : OAuthService) (ctx : Ctx) (code state ip ua : string) : M LoginResult :=
  let! challenge := ConsumeState state in
  match client o with
  | None => fail ErrOAuthNotConfigured
  | Some cfg =>
      let! claims := identify o cfg challenge code in
      let email := Policy.normalize (g_Email claims) in
      let! user := findOrCreateUser o ctx claims email ip in
      if negb (User.IsActive user) then fail ErrAccountDisabled else
      Auth.CheckMFAOrIssueTokens (issuer o) ctx user ip ua "google-oauth"
  end.

(** *** Unlink *)

Definition unlinkAudited (o : OAuthService) (ctx : Ctx) (userID : Z) (provider ip : string) : M unit :=
  let! existing := OAuthIdentityRepository.FindByUserIDAndProvider ctx userID provider in
  match existing with
  | None => fail ErrUserNotFound
  | Some _ =>
      let! user := UserRepository.FindByID ctx userID in
      match user with
      | None => fail ErrUserNotFound
      | Some user =>
          let hasPassword := negb (bool_decide (User.Password user = "")) in
          let! pks := try_ (PasskeyRepository.ListByUser ctx userID false) in
          let hasPasskey := match pks with Ok (_ :: _) => true | _ => false end in
          if negb hasPassword && negb hasPasskey then fail ErrCannotUnlinkOnlyMethod else
          OAuthIdentityRepository.DeleteByUserIDAndProvider ctx userID provider ;;;
          Writer.Record_ (trail o) ctx (event (Some (User.ID user)) (User.Email user) "oauth_unlinked" ip true
                                              ("unlinked " +:+ provider +:+ " oauth account")) ;;;
          notify (SecurityAlert (User.Email user) "oauth_unlinked"
            ("Your " +:+ provider +:+ " account was disconnected from your profile."))
      end
  end.

(** The entry points ([services/audit_operations.go]). *)
Definition HandleCallback (o : OAuthService) (ctx : Ctx) (code state ip ua : string) : M LoginResult :=
  runAuditOperation (trail o) ctx (fun inner => handleCallbackAudited o inner code state ip ua).

Definition Unlink (o : OAuthService) (ctx : Ctx) (userID : Z) (provider ip : string) : M unit :=
  runAuditOperation (trail o) ctx (fun inner => unlinkAudited o inner userID provider ip).

End S.
End OAuth.
