(* ===== verification/Passkey.v ===== *)
(** * Passkeys ([services/passkey_service.go])

    The WebAuthn ceremonies: registration and authentication, each a challenge
    staged in the store and a response checked by the library; detection of cloned
    authenticators; the list and the revocation of a user's credentials. *)

From S2P Require Import Prelude Store Models World Json Sql Repos Jwt AuditTrail Common Identity Totp Auth.

Open Scope Z_scope.
Open Scope monad_scope.

(** [services.PasskeyConfig] *)
Record PasskeyConfig := mkPasskeyConfig {
  RPDisplayName : string; RPID : string; RPOrigins : list string; AttestationPreference : string
}.

(** [webauthn.Credential], its authenticator flattened. *)
Record Credential := mkCredential {
  c_ID : string; c_PublicKey : string; c_AttestationType : string; c_AttestationFormat : string;
  c_Transport : list string; c_SignCount : Z; c_CloneWarning : bool
}.

(** [services.webauthnUser] through the methods the library calls. *)
Record WebauthnUser := mkWUser {
  WebAuthnID : string; WebAuthnName : string; WebAuthnDisplayName : string; WebAuthnCredentials : list Credential
}.

(** What the services read of an [http.Request] of a ceremony: the members of
    its body if it is a JSON object, the socket's peer, the user agent. *)
Record CeremonyRequest := mkCeremony { cr_body : option Obj; RemoteAddr : string; cr_UserAgent : string }.

(** [go-webauthn]: a relying party is accepted or not; a challenge is drawn for a
    user, under a conveyance preference and required user verification, with the
    session to keep; a response is checked at a time against the session and the
    user's credentials.  A session is known by its JSON value. *)
Class WebAuthnLib := {
  SessionData : Type;
  zero_session : SessionData;
  session_json : SessionData -> JV;
  session_of : JV -> option SessionData;
  webauthn_New : PasskeyConfig -> bool;
  web_BeginRegistration : PasskeyConfig -> WebauthnUser -> nat -> option (JV * SessionData);
  web_FinishRegistration : PasskeyConfig -> WebauthnUser -> SessionData -> Z -> option Obj -> option Credential;
  web_BeginLogin : PasskeyConfig -> WebauthnUser -> nat -> option (JV * SessionData);
  web_FinishLogin : PasskeyConfig -> WebauthnUser -> SessionData -> Z -> option Obj -> option Credential
}.

(** What the services rely on: a session's JSON reads back, and a login answers
    one of the user's credentials. *)
Class WebAuthnLaws (WL : WebAuthnLib) := {
  session_whole : forall s, Json.whole (session_json s) = true;
  session_back : forall s, session_of (session_json s) = Some s;
  login_credential : forall cfg u s t body c,
    web_FinishLogin cfg u s t body = Some c -> In (c_ID c) (map c_ID (WebAuthnCredentials u))
}.

(** [passkeyService]; its token issuer is the authentication service, nil in no
    deployment but tested by the code. *)
Record passkeyService := mkPasskey {
  web : PasskeyConfig; p_audits : Writer.AsyncAuditWriter; tokens : option AuthService
}.

Module Passkey.

Definition challengeTTL : Z := 60 * second.

Definition regSessionKey (userID : Z) : string := "passkey:reg:" +:+ fmt_d userID.
Definition authSessionKey (userID : Z) : string := "passkey:auth:" +:+ fmt_d userID.

(** *** Pure parts *)

(** [binary.BigEndian.PutUint64] *)
Definition be64 (n : Z) : string :=
  foldr (fun k s => String (Ascii.ascii_of_N (Z.to_N (Z.land (Z.shiftr n (8 * k)) 255))) s) ""
    [7; 6; 5; 4; 3; 2; 1; 0].

(** [json.Unmarshal] into a slice of strings, its error ignored. *)
Definition transports_of (raw : string) : list string :=
  match Json.parse raw with
  | Some (JList l) => map (fun v => match v with JText t => t | _ => "" end) l
  | _ => []
  end.

Definition transportsJSON (t : list string) : string :=
  match t with [] => "[]" | _ => Json.text (JList (map JText t)) end.

Definition credentialFromRow (row : PasskeyCredential.row) : Credential :=
  mkCredential (PasskeyCredential.CredentialID row) (PasskeyCredential.PublicKey row)
    (PasskeyCredential.AttestationType row) "" (transports_of (PasskeyCredential.Transports row))
    (PasskeyCredential.SignCount row) false.

Definition webauthnUser (u : User.row) (creds : list Credential) : WebauthnUser :=
  mkWUser (be64 (User.ID u)) (User.Username u) (User.FullName u) creds.

Fixpoint lastIndexByte (s : string) (b : Ascii.ascii) : Z :=
  match s with
  | EmptyString => -1
  | String a s =>
      let i := lastIndexByte s b in
      if 0 <=? i then i + 1 else if Ascii.eqb a b then 0 else -1
  end.

Definition clientIPFrom (r : CeremonyRequest) : string :=
  let host := RemoteAddr r in
  if bool_decide (host = "") then host else
  let idx := lastIndexByte host ":" in
  if 0 <? idx then String.substring 0 (Z.to_nat idx) host else host.

Section S.
Context {ST : Store} {E : Ext} {J : JwtLib} {OT : Otp} {WL : WebAuthnLib}.
Import Calls.

(** An attestation preference the switch does not know is "none". *)
Definition NewPasskeyService (audits : Writer.AsyncAuditWriter) (issuer : option AuthService) (cfg : PasskeyConfig)
    : Res passkeyService :=
  let a := AttestationPreference cfg in
  let pref := if bool_decide (a = "indirect") || bool_decide (a = "direct") then a else "none" in
  let w := mkPasskeyConfig (RPDisplayName cfg) (RPID cfg) (RPOrigins cfg) pref in
  if webauthn_New w then Ok (mkPasskey w audits issuer) else Error EInfra.

(** *** Staging *)

(** The staged values: [regSession] and [authSession] as JSON. *)
Definition regSession (session : SessionData) (displayName : string) : JV :=
  JMembers [("session", session_json session); ("displayName", JText displayName)].

Definition authSession (session : SessionData) : JV := JMembers [("session", session_json session)].

(** The session member; a text without one leaves the zero value. *)
Definition session_field (o : Obj) : option SessionData :=
  match Json.field "session" o with
  | None => Some zero_session
  | Some v => session_of v
  end.

Definition decode_reg (o : Obj) : option (SessionData * string) :=
  let (name, ok) := Json.string_field "displayName" o "" in
  match session_field o with
  | Some session => if ok then Some (session, name) else None
  | None => None
  end.

Definition stageJSON (key : string) (v : JV) : M unit := store_Set key (VStr (Json.text v)) challengeTTL.

(** The decoded value of a key, which is spent. *)
Definition staged {A} (decode : Obj -> option A) (v : option Val) : option A :=
  match v with
  | Some (VStr raw) => match Json.object raw with Some o => decode o | None => None end
  | _ => None
  end.

Definition takeJSON {A} (key : string) (decode : Obj -> option A) : M A :=
  let! rawAny := store_Take key in
  match staged decode rawAny with
  | Some a => ret a
  | None => fail ErrPasskeyChallenge
  end.

(** *** The user of a ceremony *)

Definition loadUser (ctx : Ctx) (userID : Z) : M (User.row * WebauthnUser) :=
  let! u := UserRepository.FindByID ctx userID in
  match u with
  | None => fail ErrUserNotFound
  | Some u =>
      if negb (User.IsActive u) then fail ErrAccountDisabled else
      let! rows := PasskeyRepository.ListByUser ctx userID false in
      ret (u, webauthnUser u (map credentialFromRow rows))
  end.

(** An answer of the library: a challenge draws randomness, which may fail; a
    check may fail for any reason. *)
Definition challenge (f : nat -> option (JV * SessionData)) : M (JV * SessionData) :=
  let! b := fault in
  let! n := draw in
  match (if b : bool then None else f n) with Some r => ret r | None => fail EInfra end.

Definition checked (f : Z -> option Credential) : M Credential :=
  let! t := now in
  match f t with Some cred => ret cred | None => fail EInfra end.

(** *** Registration *)

Definition BeginRegistration (s : passkeyService) (ctx : Ctx) (userID : Z) (displayName : string) : M JV :=
  let! p := loadUser ctx userID in
  let (_, user) := p : User.row * WebauthnUser in
  let! c := challenge (web_BeginRegistration (web s) user) in
  let (options, session) := c : JV * SessionData in
  stageJSON (regSessionKey userID) (regSession session displayName) ;;;
  ret options.

Definition finishRegistrationAudited (s : passkeyService) (ctx : Ctx) (userID : Z) (r : CeremonyRequest)
    : M PasskeyCredential.row :=
  let! st := takeJSON (regSessionKey userID) decode_reg in
  let (session, displayName) := st : SessionData * string in
  let! p := loadUser ctx userID in
  let (_, user) := p : User.row * WebauthnUser in
  let! cred := checked (fun t => web_FinishRegistration (web s) user session t (cr_body r)) in
  let! row := PasskeyRepository.Create ctx
    (PasskeyCredential.mk 0 userID (c_ID cred) (c_PublicKey cred) (c_SignCount cred) displayName
       (transportsJSON (c_Transport cred)) (c_AttestationType cred) None false) in
  Writer.Record_ (p_audits s) ctx (event (Some userID) "" "passkey_registered" (clientIPFrom r) true
                                     (PasskeyCredential.DisplayName row)) ;;;
  ret row.

(** *** Authentication *)

Definition BeginAuthentication (s : passkeyService) (ctx : Ctx) (userID : Z) : M JV :=
  let! p := loadUser ctx userID in
  let (_, user) := p : User.row * WebauthnUser in
  let! c := challenge (web_BeginLogin (web s) user) in
  let (options, session) := c : JV * SessionData in
  stageJSON (authSessionKey userID) (authSession session) ;;;
  ret options.

(** 0 when the row cannot be read or is another user's. *)
Definition rowIDByCredential (ctx : Ctx) (userID : Z) (credentialID : string) : M Z :=
  let! r := try_ (PasskeyRepository.FindByCredentialID ctx credentialID) in
  ret (match r with
       | Ok (Some row) => if PasskeyCredential.UserID row =? userID then PasskeyCredential.ID row else 0
       | _ => 0
       end).

Definition completeAuthentication (s : passkeyService) (issuer : AuthService) (ctx : Ctx) (userID : Z)
    (r : CeremonyRequest) (user : User.row) (cred : Credential) : M (TokenPair * UserProfile) :=
  if c_CloneWarning cred then
    let! id := rowIDByCredential ctx userID (c_ID cred) in
    quietly (PasskeyRepository.RevokeByID ctx id userID) ;;;
    Writer.Record_ (p_audits s) ctx (event (Some userID) "" "passkey.clone_detected" (clientIPFrom r) false
                                       "signCount regression on passkey credential — revoked") ;;;
    fail ErrPasskeyCredentialRevoked
  else
    let! id := rowIDByCredential ctx userID (c_ID cred) in
    let! t := now in
    quietly (PasskeyRepository.TouchUsage ctx id (c_SignCount cred) t) ;;;
    Writer.Record_ (p_audits s) ctx (event (Some userID) "" "passkey_login" (clientIPFrom r) true
                                       (c_AttestationFormat cred)) ;;;
    Auth.IssuePasskeyTokenPair issuer ctx user (clientIPFrom r) (cr_UserAgent r).

Definition finishAuthenticationAudited (s : passkeyService) (ctx : Ctx) (userID : Z) (r : CeremonyRequest)
    : M (TokenPair * UserProfile) :=
  match tokens s with
  | None => fail ErrPasskeyNotConfigured
  | Some issuer =>
      let! session := takeJSON (authSessionKey userID) session_field in
      let! p := loadUser ctx userID in
      let (u, user) := p : User.row * WebauthnUser in
      let! cred := checked (fun t => web_FinishLogin (web s) user session t (cr_body r)) in
      completeAuthentication s issuer ctx userID r u cred
  end.

(** *** Devices *)

Definition List_ (ctx : Ctx) (userID : Z) : M (list PasskeyCredential.row) :=
  PasskeyRepository.ListByUser ctx userID false.

Definition revokeAudited (s : passkeyService) (ctx : Ctx) (id userID : Z) : M unit :=
  let! r := try_ (PasskeyRepository.RevokeByID ctx id userID) in
  match r with
  | Error _ => fail ErrSessionNotFound
  | Ok _ => Writer.Record_ (p_audits s) ctx (event (Some userID) "" "passkey_revoked" "" true "device revoked by user")
  end.

(** The entry points ([services/audit_operations.go]). *)
Definition FinishRegistration (s : passkeyService) (ctx : Ctx) (userID : Z) (r : CeremonyRequest) :=
  runAuditOperation (p_audits s) ctx (fun inner => finishRegistrationAudited s inner userID r).

Definition FinishAuthentication (s : passkeyService) (ctx : Ctx) (userID : Z) (r : CeremonyRequest) :=
  runAuditOperation (p_audits s) ctx (fun inner => finishAuthenticationAudited s inner userID r).

Definition Revoke (s : passkeyService) (ctx : Ctx) (id userID : Z) : M unit :=
  runAuditOperation (p_audits s) ctx (fun inner => revokeAudited s inner id userID).

End S.
End Passkey.
