(* ===== verification/Admin.v ===== *)
(** * Administration, remembered devices, the personal audit log

    [services/admin_service.go] (lock, unlock, forced logout, the listings),
    [services/trusted_device_service.go], the paginated reads of
    [user_repository.go] and [audit_repository.go], and
    [AuthService.GetUserAuditLog].  The export of the trail is in [AuditExport]. *)

From S2P Require Import Prelude Store Models World Sql Repos Jwt AuditTrail Common Identity Totp Auth Account.

Open Scope Z_scope.
Open Scope monad_scope.

(** What the process and the database server are configured with: the text of an
    instant in the local zone ([time.Format(time.RFC3339)]) and MySQL's [LIKE]
    under the column's collation (pattern, value). *)
Class Local := {
  rfc3339_local : Z -> string;
  like : string -> string -> bool
}.

(** ** Pages *)

Module Page.

Definition page_of (page : Z) : Z := if page <? 1 then 1 else page.

Definition limit_of (limit : Z) : Z := if (limit <? 1) || (100 <? limit) then 20 else limit.

(** [Offset((page-1)*limit).Limit(limit)]: an offset that is not positive is not
    written into the statement. *)
Definition slice {A} (page limit : Z) (l : list A) : list A :=
  let offset := int64 ((page_of page - 1) * limit_of limit) in
  take (Z.to_nat (limit_of limit)) (drop (Z.to_nat offset) l).

End Page.

Section Listings.
Context {ST : Store} {L : Local}.

(** [UserRepository.ListPaginated] *)
Definition user_matches (tid search : string) (u : User.row) : bool :=
  bool_decide (User.TenantID u = tid) &&
  (bool_decide (search = "") ||
   let term := "%" +:+ search +:+ "%" in
   like term (User.Username u) || like term (User.Email u) || like term (User.FullName u)).

Definition ListPaginated (ctx : Ctx) (tenantID : string) (page limit : Z) (search : string)
    : M (list User.row * Z) :=
  let! tid := scopeTenant ctx tenantID in
  let! total := Count (fun _ => user_matches tid search) in
  let! rows := Find (fun _ => user_matches tid search) in
  ret (Page.slice page limit (order_by (newest User.ID) rows), total).

(** [AuditRepository.FindByUserIDPaginated] *)
Definition own_event (ctx : Ctx) (userID : Z) (e : AuditLog.row) : bool :=
  bool_decide (AuditLog.UserID e = Some userID) && bool_decide (AuditLog.TenantID e = FromContext ctx).

Definition FindByUserIDPaginated (ctx : Ctx) (userID page limit : Z) : M (list AuditLog.row * Z) :=
  let! total := Count (fun _ => own_event ctx userID) in
  let! rows := Find (fun _ => own_event ctx userID) in
  ret (Page.slice page limit (order_by (newest AuditLog.CreatedAt) (order_by (newest AuditLog.ID) rows)), total).

Record UserAuditLogItem := mkItem {
  it_ID : Z; it_Event : string; it_IPAddress : string; it_Success : bool; it_CreatedAt : Z
}.

Definition audit_item (l : AuditLog.row) : UserAuditLogItem :=
  mkItem (AuditLog.ID l) (AuditLog.Event l) (AuditLog.IPAddress l) (AuditLog.Success l) (AuditLog.CreatedAt l).

Definition GetUserAuditLog (ctx : Ctx) (userID page limit : Z) : M (list UserAuditLogItem * Z) :=
  let! (logs, total) := FindByUserIDPaginated ctx userID page limit in
  ret (map audit_item logs, total).

End Listings.

(** ** [AdminService] *)

Module Admin.
Section S.
Context {ST : Store} {E : Ext} {L : Local} (audits : Writer.AsyncAuditWriter).
Import Calls.

(** The literal of an administrative event. *)
Definition admin_event (ctx : Ctx) (u : User.row) (target : Z) (ip detail action : string) : AuditLog.row :=
  AuditLog.mk 0 (FromContext ctx) (Some target) (User.Email u) "admin_action" ip true detail
    "" "" 0 0 "" None "" "" 0 "" action.

Definition list_profile (u : User.row) : UserProfile :=
  mkProfile (User.ID u) (User.Username u) (User.Email u) (User.FullName u) (User.Role u)
    (User.IsActive u) (User.IsEmailVerified u) 0.

Definition ListUsers (ctx : Ctx) (page limit : Z) (search : string) : M (list UserProfile * Z) :=
  let! (rows, total) := ListPaginated ctx (FromContext ctx) page limit search in
  ret (map list_profile rows, total).

(** The user an administrator acts on: of the request's tenant. *)
Definition target (ctx : Ctx) (targetUserID : Z) : M User.row :=
  let! u := UserRepository.FindByID ctx targetUserID in
  match u with
  | Some u => if bool_decide (User.TenantID u = FromContext ctx) then ret u else fail ErrUserNotFound
  | None => fail ErrUserNotFound
  end.

Definition lockUserAudited (ctx : Ctx) (adminID targetUserID lockDuration : Z) (ip : string) : M unit :=
  if adminID =? targetUserID then fail ErrCannotLockSelf else
  let! u := target ctx targetUserID in
  let lockDuration := if lockDuration <=? 0 then 24 * hour * 365 * 10 else lockDuration in
  let! t := now in
  let lockedUntil := t + lockDuration in
  UserRepository.SetLock ctx targetUserID (Some lockedUntil) ;;;
  Writer.Record_ audits ctx (admin_event ctx u targetUserID ip
    ("locked user " +:+ fmt_d targetUserID +:+ " until " +:+ rfc3339_local lockedUntil) "lock").

Definition unlockUserAudited (ctx : Ctx) (adminID targetUserID : Z) (ip : string) : M unit :=
  let! u := target ctx targetUserID in
  UserRepository.SetLock ctx targetUserID None ;;;
  Writer.Record_ audits ctx (admin_event ctx u targetUserID ip
    ("unlocked user " +:+ fmt_d targetUserID) "unlock").

Definition forceLogoutAudited (ctx : Ctx) (adminID targetUserID : Z) (ip : string) : M unit :=
  let! u := target ctx targetUserID in
  RefreshTokenRepository.RevokeAllForUser ctx targetUserID ;;;
  SessionRepository.RevokeAllForUser ctx targetUserID ;;;
  UserRepository.BumpPwdVersion ctx targetUserID ;;;
  store_Delete (PasswordVersionKey ctx targetUserID) ;;;
  Writer.Record_ audits ctx (admin_event ctx u targetUserID ip
    ("forced logout for user " +:+ fmt_d targetUserID +:+ " (sessions and tokens revoked)") "force_logout").

Definition admin_session (x : Session.row) : SessionInfo :=
  mkInfo (Session.ID x) (Session.IPAddress x) (Session.UserAgent x) (Session.DeviceName x)
    (Session.LocationEstimate x) (Session.CreatedAt x) (Session.LastActiveAt x) (Session.ExpiresAt x) false.

Definition ListTenantSessions (ctx : Ctx) : M (list SessionInfo) :=
  let! rows := SessionRepository.FindAllActiveByTenant ctx (FromContext ctx) in
  ret (map admin_session rows).

(** The entry points ([services/audit_operations.go]). *)
Definition LockUser (ctx : Ctx) (adminID targetUserID lockDuration : Z) (ip : string) : M unit :=
  runAuditOperation audits ctx (fun inner => lockUserAudited inner adminID targetUserID lockDuration ip).

Definition UnlockUser (ctx : Ctx) (adminID targetUserID : Z) (ip : string) : M unit :=
  runAuditOperation audits ctx (fun inner => unlockUserAudited inner adminID targetUserID ip).

Definition ForceLogout (ctx : Ctx) (adminID targetUserID : Z) (ip : string) : M unit :=
  runAuditOperation audits ctx (fun inner => forceLogoutAudited inner adminID targetUserID ip).

End S.
End Admin.

(** ** [TrustedDeviceService] *)

Module Trusted.

Definition ttl : Z := 30 * 24 * hour.

Record TrustedDeviceInfo := mkDevice {
  d_ID : Z; d_DeviceName : string; d_IPAddress : string; d_LastUsedAt : option Z; d_ExpiresAt : Z;
  d_CreatedAt : Z
}.

Section S.
Context {ST : Store} {E : Ext} (audits : Writer.AsyncAuditWriter).
Import Calls.

Definition hashDeviceToken (token : string) : string := sha256_hex token.

Definition issueAudited (ctx : Ctx) (userID : Z) (deviceName ip : string) : M (string * Z) :=
  let! token := Hash.GenerateRandomBytes in
  let! t := now in
  let expiresAt := t + ttl in
  TrustedDeviceRepository.Create ctx
    (TrustedDevice.mk 0 userID (hashDeviceToken token) deviceName ip None expiresAt false t) ;;;
  Writer.Record_ audits ctx (event (Some userID) "" "trusted_device_issued" "" true "") ;;;
  ret (token, expiresAt).

Definition validateAudited (ctx : Ctx) (userID : Z) (token : string) : M bool :=
  if bool_decide (token = "") then ret false else
  let! d := TrustedDeviceRepository.FindByDeviceHash ctx (hashDeviceToken token) in
  let! t := now in
  match d with
  | None => ret false
  | Some d =>
      if negb (TrustedDevice.UserID d =? userID) || TrustedDevice.Revoked d || (TrustedDevice.ExpiresAt d <? t)
      then ret false else
      quietly (TrustedDeviceRepository.TouchUsage ctx (TrustedDevice.ID d) t) ;;;
      Writer.Record_ audits (WithActor userID ctx) (event (Some userID) "" "trusted_device_used" "" true "") ;;;
      ret true
  end.

Definition device_info (r : TrustedDevice.row) : TrustedDeviceInfo :=
  mkDevice (TrustedDevice.ID r) (TrustedDevice.DeviceName r) (TrustedDevice.IPAddress r)
    (TrustedDevice.LastUsedAt r) (TrustedDevice.ExpiresAt r) (TrustedDevice.CreatedAt r).

Definition ListByUser (ctx : Ctx) (userID : Z) : M (list TrustedDeviceInfo) :=
  let! rows := TrustedDeviceRepository.ListByUser ctx userID in ret (map device_info rows).

Definition revokeAudited (ctx : Ctx) (id userID : Z) : M unit :=
  TrustedDeviceRepository.Revoke ctx id userID ;;;
  Writer.Record_ audits ctx (event (Some userID) "" "trusted_device_revoked" "" true "").

Definition Issue (ctx : Ctx) (userID : Z) (deviceName ip : string) : M (string * Z) :=
  runAuditOperation audits ctx (fun inner => issueAudited inner userID deviceName ip).

Definition Validate (ctx : Ctx) (userID : Z) (token : string) : M bool :=
  runAuditOperation audits ctx (fun inner => validateAudited inner userID token).

Definition Revoke (ctx : Ctx) (id userID : Z) : M unit :=
  runAuditOperation audits ctx (fun inner => revokeAudited inner id userID).

End S.
End Trusted.
