(* ===== verification/Webhook.v ===== *)
(** * Webhooks ([services/webhook_service.go], [repositories/webhook_repository.go])

    Subscriptions of a tenant, the outbox of their events, and the delivery of one
    event: signing, the screening of addresses at registration and at every dial,
    retries.  The URL parser, the resolver and the HTTP exchange are parameters. *)

From S2P Require Import Prelude Store Models Codec NetIP World Json Sql Repos Common.

Open Scope Z_scope.
Open Scope monad_scope.

(** A parsed URL: scheme, host with port, host name. *)
Record URL := mkURL { u_scheme : string; u_host : string; u_hostname : string }.

(** The network: [url.Parse]; the resolver's answer to the n-th question, which may
    differ from its last; the exchange of the n-th request with an address (a status,
    or the transport's message); the text of a refused dial; HMAC-SHA256 in hex. *)
Class Network := {
  url_parse : string -> option URL;
  lookup_ip : nat -> string -> option (list IP);
  exchange : nat -> option IP -> HookRequest -> string + Z;
  dial_refused : URL -> option IP -> string;
  hmac_sha256 : string -> string -> string
}.

(** ** The repository *)

Module WebhookRepository.
Section S.
Context {ST : Store}.
Import WebhookDelivery.

Definition CreateEndpoint (ctx : Ctx) (ep : WebhookEndpoint.row) : M WebhookEndpoint.row :=
  let! tid := scopeTenant ctx (WebhookEndpoint.TenantID ep) in
  Create (fun a b => bool_decide (WebhookEndpoint.ID a = WebhookEndpoint.ID b))
    (fun _ => WebhookEndpoint.mk (WebhookEndpoint.ID ep) tid (WebhookEndpoint.URL ep) (WebhookEndpoint.Secret ep)
                (WebhookEndpoint.Events ep) (WebhookEndpoint.IsActive ep) (WebhookEndpoint.CreatedAt ep)).

Definition subscribed (event : string) (ep : WebhookEndpoint.row) : bool :=
  existsb (fun ev => bool_decide (trim_space ev = "*") || bool_decide (trim_space ev = event))
    (split_on "," (WebhookEndpoint.Events ep)).

Definition FindActiveEndpointsByEvent (ctx : Ctx) (tenantID event : string) : M (list WebhookEndpoint.row) :=
  let! tid := scopeTenant ctx tenantID in
  let! endpoints := Find (fun _ ep => bool_decide (WebhookEndpoint.TenantID ep = tid) && WebhookEndpoint.IsActive ep) in
  ret (List.filter (subscribed event) endpoints).

Definition CreateDelivery (d : row) : M row :=
  Create (fun a b => bool_decide (ID a = ID b)) (fun _ => d).

Definition waiting (t : Z) (d : row) : bool :=
  bool_decide (Status d = "pending") && match NextRetryAt d with None => true | Some n => n <=? t end.

Definition older (a b : row) : bool := CreatedAt a <=? CreatedAt b.

Definition GetPendingDeliveries (limit : nat) : M (list row) :=
  let! t := now in
  let! l := Find (fun _ => waiting t) in
  ret (take limit (order_by older l)).

Definition UpdateDeliveryStatus (id status : string) (attempts : Z) (nextRetry respStatus : option Z) (errMsg : string)
    : M unit :=
  Updates (fun _ d => bool_decide (ID d = id)) (set_outcome status attempts nextRetry respStatus errMsg) ;;; ret tt.

End S.
End WebhookRepository.

(** ** The service *)

(** [WebhookService]: the switch of the test fixtures. *)
Record WebhookService := mkWebhookService { allowLocalhost : bool }.

Module Webhook.
Section S.
Context {ST : Store} {E : Ext} {N : Network}.
Import Net Calls.

Definition NewWebhookService : WebhookService := mkWebhookService false.

(** One question to the resolver. *)
Definition resolve (host : string) : M (option (list IP)) :=
  let! n := draw in ret (lookup_ip n host).

Definition ValidateURL (s : WebhookService) (targetURL : string) : M unit :=
  match url_parse targetURL with
  | None => fail ErrInvalidWebhookURL
  | Some u =>
      if (negb (bool_decide (u_scheme u = "http")) && negb (bool_decide (u_scheme u = "https"))) ||
         bool_decide (u_host u = "")
      then fail ErrInvalidWebhookURL else
      if allowLocalhost s then ret tt else
      let! ips := resolve (u_hostname u) in
      match ips with
      | None => fail EInfra
      | Some ips => if existsb blockedIP ips then fail ErrWebhookSSRFBlocked else ret tt
      end
  end.

(** [DialContext] of the client: the address dialled, none where nothing is screened. *)
Definition dial (s : WebhookService) (u : URL) : M ((string * Err) + option IP) :=
  if allowLocalhost s then ret (inr None) else
  let! ips := resolve (u_hostname u) in
  match ips with
  | None | Some [] => ret (inl (dial_refused u None, EInfra))
  | Some (ip :: rest) =>
      match List.find blockedIP (ip :: rest) with
      | Some bad => ret (inl (dial_refused u (Some bad), ErrWebhookSSRFBlocked))
      | None => ret (inr (Some ip))
      end
  end.

Definition post (address : option IP) (r : HookRequest) : M unit := fun w =>
  (Ok tt, mkWorld (w_now w) (w_faults w) (w_uuid w) (w_rand w) (w_db w) (w_kv w) (w_op w)
            (w_mail w ++ [Posted address r])).

(** [httpClient.Do]: redirects are answers; a new connection is dialled. *)
Definition Do (s : WebhookService) (u : URL) (r : HookRequest) : M ((string * Err) + Z) :=
  let! d := dial s u in
  match d with
  | inl err => ret (inl err)
  | inr address =>
      post address r ;;;
      let! n := draw in
      ret (match exchange n address r with inl msg => inl (msg, EInfra) | inr code => inr code end)
  end.

Definition SignPayload (secret payload : string) : string := "sha256=" +:+ hmac_sha256 secret payload.

Definition RegisterEndpoint (s : WebhookService) (ctx : Ctx) (tenantID targetURL events : string)
    : M WebhookEndpoint.row :=
  ValidateURL s targetURL ;;;
  let! secret := Hash.GenerateRandomBytes in
  let! id := NewUUID in
  let! t := now in
  WebhookRepository.CreateEndpoint ctx (WebhookEndpoint.mk id tenantID targetURL secret events true t).

(** The queued payload; its members in the order of their names. *)
Definition payload (t : Z) (tenantID event : string) (data : JV) : string :=
  Json.text (JMembers [("data", data); ("event", JText event); ("tenantId", JText tenantID);
                       ("timestamp", JText (Rfc3339.format_utc t))]).

Fixpoint enqueue (endpoints : list WebhookEndpoint.row) (event payload : string) : M unit :=
  match endpoints with
  | [] => ret tt
  | ep :: endpoints =>
      let! id := NewUUID in
      let! t := now in
      quietly (WebhookRepository.CreateDelivery (WebhookDelivery.mk id (WebhookEndpoint.ID ep) event payload "pending" 0 None None "" t) ;;; ret tt) ;;;
      enqueue endpoints event payload
  end.

Definition EnqueueEvent (ctx : Ctx) (tenantID event : string) (data : JV) : M unit :=
  let! endpoints := WebhookRepository.FindActiveEndpointsByEvent ctx tenantID event in
  let! t := now in
  enqueue endpoints event (payload t tenantID event data).

(** The state after an attempt that failed: another try, or the end. *)
Definition after_failure (t attempts : Z) : string * option Z :=
  if 5 <=? attempts then ("failed", None) else ("pending", Some (t + 2 ^ attempts * minute)).

(** The delivery after [d.Attempts++]. *)
Definition tried (d : WebhookDelivery.row) : WebhookDelivery.row :=
  WebhookDelivery.set_outcome (WebhookDelivery.Status d) (WebhookDelivery.Attempts d + 1) (WebhookDelivery.NextRetryAt d)
    (WebhookDelivery.ResponseStatus d) (WebhookDelivery.ErrorMsg d) d.

Definition request_of (d : WebhookDelivery.row) (secret targetURL : string) : HookRequest :=
  mkHook targetURL (SignPayload secret (WebhookDelivery.Payload d)) (WebhookDelivery.Event d) (WebhookDelivery.ID d)
    (WebhookDelivery.Payload d).

(** [DeliverOne]: the delivery as it is left, and the error. *)
Definition DeliverOne (s : WebhookService) (d : WebhookDelivery.row) (secret targetURL : string)
    : M (WebhookDelivery.row * option Err) :=
  let! v := try_ (ValidateURL s targetURL) in
  match v, url_parse targetURL with
  | Error e, _ => ret (d, Some e)
  | Ok _, None => ret (d, Some ErrInvalidWebhookURL)
  | Ok _, Some u =>
      let! r := Do s u (request_of d secret targetURL) in
      let d := tried d in
      let n := WebhookDelivery.Attempts d in
      let! t := now in
      match r with
      | inl (msg, err) =>
          let (status, nextRetry) := after_failure t n in
          quietly (WebhookRepository.UpdateDeliveryStatus (WebhookDelivery.ID d) status n nextRetry None msg) ;;;
          ret (d, Some err)
      | inr code =>
          if (200 <=? code) && (code <? 300) then
            quietly (WebhookRepository.UpdateDeliveryStatus (WebhookDelivery.ID d) "delivered" n None (Some code) "") ;;;
            ret (d, None)
          else
            let (status, nextRetry) := after_failure t n in
            quietly (WebhookRepository.UpdateDeliveryStatus (WebhookDelivery.ID d) status n nextRetry (Some code)
                       ("HTTP " +:+ fmt_d code)) ;;;
            ret (d, Some EInfra)
      end
  end.

End S.
End Webhook.
