(* ===== verification/AuditExport.v ===== *)
(** * Export of the audit trail ([AdminService.ExportAuditLogs])

    The tenant's events as CSV ([encoding/csv]) or as one JSON object a line, and a
    CSV reader that gives back what the writer was given. *)

From S2P Require Import Prelude Store Models Codec World Json Sql Repos Common.

Open Scope Z_scope.
Open Scope monad_scope.

(** ** [encoding/csv] *)

Module Csv.
Import Ascii.

Definition dq : ascii := Codec.chr 34.
Definition comma : ascii := ","%char.
Definition lf : ascii := Codec.chr 10.
Definition cr : ascii := Codec.chr 13.

(** The white space a field may start with, in UTF-8. *)
Definition wide_spaces : list string :=
  let t (l : list N) := String.string_of_list_ascii (map Codec.chr l) in
  [ t [194; 133]; t [194; 160]; t [225; 154; 128]; t [226; 128; 168]; t [226; 128; 169]; t [226; 128; 175];
    t [226; 129; 159]; t [227; 128; 128] ]%N ++
  map (fun n => t [226; 128; n]%N) [128; 129; 130; 131; 132; 133; 134; 135; 136; 137; 138]%N.

Definition special (a : ascii) : bool :=
  Ascii.eqb a comma || Ascii.eqb a dq || Ascii.eqb a lf || Ascii.eqb a cr.

Definition fieldNeedsQuotes (field : string) : bool :=
  match field with
  | EmptyString => false
  | String a _ =>
      bool_decide (field = "\.") || str_exists special field || is_space a || existsb (fun w => has_prefix w field) wide_spaces
  end.

Fixpoint double_quotes (s rest : string) : string :=
  match s with
  | EmptyString => rest
  | String a s => if Ascii.eqb a dq then String dq (String dq (double_quotes s rest)) else String a (double_quotes s rest)
  end.

Fixpoint put (s rest : string) : string :=
  match s with EmptyString => rest | String a s => String a (put s rest) end.

Definition put_field (field rest : string) : string :=
  if fieldNeedsQuotes field then String dq (double_quotes field (String dq rest)) else put field rest.

(** [Writer.Write]: the fields of a record, and the end of the line. *)
Fixpoint put_record (fields : list string) (rest : string) : string :=
  match fields with
  | [] => String lf rest
  | [f] => put_field f (String lf rest)
  | f :: fields => put_field f (String comma (put_record fields rest))
  end.

Fixpoint write (records : list (list string)) : string :=
  match records with [] => "" | r :: records => put_record r (write records) end.

(** *** A reader (RFC 4180) *)

Inductive Mode := Start | Plain | Quoted | Closing.

(** The field so far is kept back to front; a record ends at a line end outside
    quotes, the text at the end of a record. *)
Fixpoint read (m : Mode) (field : string) (row : list string) (s : string) : option (list (list string)) :=
  match s with
  | EmptyString => match m, row with Start, [] => if bool_decide (field = "") then Some [] else None | _, _ => None end
  | String a s =>
      let next_field := read Start "" (row ++ [str_rev field]) s in
      let next_row := match read Start "" [] s with Some rows => Some ((row ++ [str_rev field]) :: rows) | None => None end in
      match m with
      | Quoted => if Ascii.eqb a dq then read Closing field row s else read Quoted (String a field) row s
      | Closing =>
          if Ascii.eqb a dq then read Quoted (String dq field) row s
          else if Ascii.eqb a comma then next_field
          else if Ascii.eqb a lf then next_row else None
      | Start =>
          if Ascii.eqb a dq then read Quoted "" row s
          else if Ascii.eqb a comma then next_field
          else if Ascii.eqb a lf then next_row
          else read Plain (String a field) row s
      | Plain =>
          if Ascii.eqb a dq then None
          else if Ascii.eqb a comma then next_field
          else if Ascii.eqb a lf then next_row
          else read Plain (String a field) row s
      end
  end.

(** Back to front, onto what is there. *)
Definition onto (s field : string) : string := str_rev_app s field.

Lemma read_quoted s field row rest :
  read Quoted field row (double_quotes s (String dq rest)) = read Closing (onto s field) row rest.
Proof.
  revert field. induction s as [|a s IH]; intros field; [done|]. cbn [double_quotes].
  destruct (Ascii.eqb a dq) eqn:Ha.
  - apply Ascii.eqb_eq in Ha as ->. cbn [read]. rewrite Ascii.eqb_refl. apply IH.
  - cbn [read]. rewrite Ha. apply IH.
Qed.

Lemma read_plain s field row rest :
  str_forall (fun a => negb (special a)) s = true ->
  read Plain field row (put s rest) = read Plain (onto s field) row rest.
Proof.
  revert field. induction s as [|a s IH]; intros field H; [done|]. cbn [str_forall] in H. apply andb_prop in H as [Ha H].
  unfold special in Ha. bool_prop. cbn [put read]. rewrite ?Ascii.eqb_neq in *.
  repeat match goal with |- context [Ascii.eqb a ?c] => destruct (Ascii.eqb_spec a c); [done|] end. by apply IH.
Qed.

Lemma text_assoc (s t u : string) : (s +:+ t) +:+ u = s +:+ (t +:+ u).
Proof. induction s as [|a s IH]; [done|]. exact (f_equal (String a) IH). Qed.

Lemma rev_app s acc : str_rev_app s acc = str_rev_app s "" +:+ acc.
Proof.
  revert acc. induction s as [|a s IH]; intros acc; [done|]. cbn [str_rev_app]. rewrite IH, (IH (String a "")).
  by rewrite text_assoc.
Qed.

Lemma str_rev_onto s : str_rev (onto s "") = s.
Proof.
  unfold str_rev, onto. assert (forall s acc, str_rev_app (str_rev_app s acc) "" = str_rev_app acc "" +:+ s) as H.
  { clear. induction s as [|a s IH]; intros acc; cbn [str_rev_app].
    - induction (str_rev_app acc "") as [|b t IH]; [done|]. exact (f_equal (String b) IH).
    - rewrite IH. cbn [str_rev_app]. rewrite rev_app, text_assoc. done. }
  by rewrite H.
Qed.

(** After a field: in a state where a comma or a line end closes it. *)
Lemma read_field f row c rest :
  Ascii.eqb c comma = true \/ Ascii.eqb c lf = true ->
  read Start "" row (put_field f (String c rest)) =
  if Ascii.eqb c comma then read Start "" (row ++ [f]) rest
  else match read Start "" [] rest with Some rows => Some ((row ++ [f]) :: rows) | None => None end.
Proof.
  intros Hc. assert (Ascii.eqb c dq = false /\ (Ascii.eqb c comma = false -> Ascii.eqb c lf = true)) as [Hdq Hlf].
  { destruct Hc as [->%Ascii.eqb_eq| ->%Ascii.eqb_eq]; done. }
  unfold put_field. destruct (fieldNeedsQuotes f) eqn:Hq.
  - cbn [read]. rewrite Ascii.eqb_refl, read_quoted. cbn [read]. rewrite Hdq, str_rev_onto.
    destruct (Ascii.eqb c comma); [done|]. by rewrite Hlf.
  - destruct f as [|a f].
    + cbn [put read]. rewrite Hdq. destruct (Ascii.eqb c comma); [done|]. by rewrite Hlf.
    + cbn [fieldNeedsQuotes] in Hq. apply orb_false_iff in Hq as [Hq _]. apply orb_false_iff in Hq as [Hq _].
      apply orb_false_iff in Hq as [_ Hq]. unfold str_exists in Hq. apply negb_false_iff in Hq.
      pose proof Hq as Hall. cbn [str_forall] in Hq. apply andb_prop in Hq as [Ha Hf]. unfold special in Ha.
      cbn [put read]. apply negb_true_iff, orb_false_iff in Ha as [Ha _]. apply orb_false_iff in Ha as [Ha H3].
      apply orb_false_iff in Ha as [H1 H2]. rewrite H1, H2, H3, read_plain by done. cbn [read].
      rewrite Hdq. change (onto f (String a "")) with (onto (String a f) ""). rewrite str_rev_onto.
      destruct (Ascii.eqb c comma); [done|]. by rewrite Hlf.
Qed.

Lemma read_record fields row rest :
  fields <> [] ->
  read Start "" row (put_record fields rest) =
  match read Start "" [] rest with Some rows => Some ((row ++ fields) :: rows) | None => None end.
Proof.
  revert row. induction fields as [|f fields IH]; intros row Hne; [done|]. destruct fields as [|g fields].
  - cbn [put_record]. rewrite read_field by (by right). done.
  - change (put_record (f :: g :: fields) rest) with (put_field f (String comma (put_record (g :: fields) rest))).
    rewrite read_field by (by left). change (Ascii.eqb comma comma) with true. cbv iota. rewrite IH by done.
    destruct (read Start "" [] rest); [|done]. by rewrite <- app_assoc.
Qed.

(** What was written is read back, record by record and field by field. *)
Lemma read_write records :
  Forall (fun r => r <> []) records -> read Start "" [] (write records) = Some records.
Proof.
  induction records as [|r records IH]; intros H; [done|]. apply Forall_cons_1 in H as [Hr H]. cbn [write].
  rewrite read_record by done. by rewrite IH.
Qed.

End Csv.

(** ** The export *)

(** [time.Format(time.RFC3339Nano)] in UTC: the fraction without its trailing zeros. *)
Fixpoint drop_zeros (s : string) : string :=
  match s with String "0"%char s => drop_zeros s | s => s end.

Definition fraction_text (t : Z) : string :=
  let digits := str_rev (drop_zeros (str_rev (Rfc3339.padded 9 (t mod second) ""))) in
  if bool_decide (digits = "") then "" else String "." digits.

Definition nano_text (t : Z) : string :=
  let s := Rfc3339.format_utc t in
  String.substring 0 (String.length s - 1) s +:+ fraction_text t +:+ "Z".

Module Exporter.
Section S.
Context {ST : Store}.
Import AuditLog.

(** [version ASC, sequence ASC, id ASC]; a row without a sequence comes first. *)
Definition streamed (a b : row) : bool :=
  let key r := (Version r, match AuditLog.Sequence r with None => -1 | Some n => n end, ID r) in
  let '(v, s, i) := key a in
  let '(v', s', i') := key b in
  (v <? v') || ((v =? v') && ((s <? s') || ((s =? s') && (i <=? i')))).

(** [AuditRepository.StreamAll] *)
Definition StreamAll (ctx : Ctx) (tenantID : string) : M (list row) :=
  let! tid := scopeTenant ctx tenantID in
  let! rows := Find (fun _ e => bool_decide (TenantID e = tid)) in
  ret (order_by streamed rows).

Definition when_set (name v : string) : Obj := if bool_decide (v = "") then [] else [(name, JText v)].

(** A row as [encoding/json] writes it. *)
Definition json_of (e : row) : JV := JMembers (
  [ ("id", JInt (ID e)); ("tenantId", JText (TenantID e));
    ("userId", match UserID e with Some u => JInt u | None => JNull end); ("email", JText (Email e));
    ("event", JText (Event e)); ("ipAddress", JText (IPAddress e)); ("success", if Success e then JTrue else JFalse);
    ("detail", JText (Detail e)) ] ++
  when_set "prevHash" (PrevHash e) ++ when_set "recordHash" (RecordHash e) ++
  [ ("createdAt", JText (nano_text (CreatedAt e))); ("version", JInt (Version e)) ] ++
  when_set "eventId" (EventID e) ++
  match AuditLog.Sequence e with Some n => [("sequence", JInt n)] | None => [] end ++
  when_set "keyId" (AuditLog.KeyID e) ++ when_set "actorKind" (ActorKind e) ++
  (if ActorID e =? 0 then [] else [("actorId", JInt (ActorID e))]) ++
  when_set "requestId" (RequestID e) ++ when_set "action" (Action e)).

Definition newline : string := String Csv.lf "".

Fixpoint ndjson (entries : list row) : string :=
  match entries with [] => "" | e :: entries => Json.text (json_of e) +:+ newline +:+ ndjson entries end.

Definition csv_header : list string :=
  [ "id"; "tenant_id"; "user_id"; "email"; "event"; "ip_address"; "success"; "detail"; "prev_hash"; "record_hash";
    "created_at" ].

Definition csv_row (e : row) : list string :=
  [ fmt_d (ID e); TenantID e; match UserID e with Some u => fmt_d u | None => "" end; Email e; Event e; IPAddress e;
    if Success e then "true" else "false"; Detail e; PrevHash e; RecordHash e; Rfc3339.format_utc (CreatedAt e) ].

Definition csv (entries : list row) : string := Csv.write (csv_header :: map csv_row entries).

(** The body and its type. *)
Definition ExportAuditLogs (ctx : Ctx) (format : string) : M (string * string) :=
  let! entries := StreamAll ctx (FromContext ctx) in
  if bool_decide (to_lower (trim_space format) = "ndjson") then ret (ndjson entries, "application/x-ndjson")
  else ret (csv entries, "text/csv").

End S.
End Exporter.
