(* ===== verification/Http.v ===== *)
(** * Requests, responses and the middlewares ([internal/middleware])

    A request is what gin hands to a handler: method, path, headers, cookies,
    query, the client address it resolved, the socket's peer, whether the connection is TLS, and the
    body.  A [GinCtx] is the request with the request context and the keys the
    middlewares set.  A handler answers a [Response]; a middleware wraps a
    handler: calling it is [c.Next()], answering without it is [c.Abort()]. *)

From S2P Require Import Prelude Store Models NetIP World Sql Repos Jwt AuditTrail Common Identity Totp Auth Account Admin.

Open Scope Z_scope.
Open Scope monad_scope.

(** What stands between the bytes of a connection and the program: the text of a
    token and back (golang-jwt), the validator's [email] rule, the message of a
    failed binding, and the process-local token bucket of an address at a time
    (golang.org/x/time/rate). *)
Class Wire := {
  token_of : string -> Token;
  valid_email : string -> bool;
  bind_message : list (string * JV) -> string;
  bucket_allow : string -> Z -> bool
}.

(** A body: its length in bytes, its members when it is a JSON object that can be
    read whole, and the cap it is read under. *)
Record Body := mkBody { b_length : Z; b_json : option Obj; b_cap : option Z }.

Record Request := mkRequest {
  r_method : string; r_path : list string; r_headers : list (string * string);
  r_cookies : list (string * string); r_query : list (string * string); r_host : string;
  r_client_ip : string; r_remote : string; r_tls : bool; r_body : Body
}.

(** The first value of a header, by its canonical name. *)
Fixpoint value_of (name : string) (l : list (string * string)) : option string :=
  match l with
  | [] => None
  | (n, v) :: l => if bool_decide (to_lower n = to_lower name) then Some v else value_of name l
  end.

(** The first value of a query parameter or a cookie (as gin decodes it). *)
Fixpoint named (name : string) (l : list (string * string)) : option string :=
  match l with
  | [] => None
  | (n, v) :: l => if bool_decide (n = name) then Some v else named name l
  end.

Definition GetHeader (name : string) (r : Request) : string := default "" (value_of name (r_headers r)).

Definition UserAgent (r : Request) : string := GetHeader "User-Agent" r.

(** What a response carries besides its message. *)
Inductive Data :=
  | DNone
  | DProfile (p : UserProfile)
  | DRegistered (p : UserProfile)
  | DLogin (p : UserProfile) (pair : TokenPair)
  | DMFAPending (token : Token)
  | DPair (pair : TokenPair)
  | DSessions (l : list SessionInfo)
  | DTenantSessions (l : list SessionInfo)
  | DDevices (l : list Trusted.TrustedDeviceInfo)
  | DAuditLog (items : list UserAuditLogItem) (total page limit : Z)
  | DUsers (items : list UserProfile) (total page limit : Z)
  | DEnrollment (secret uri : string)
  | DRecoveryCodes (codes : list string)
  | DRecoveryCodesSudo (codes : list string) (sudo : Token) (expiresInSec : Z)
  | DMethods (m : Totp.MFAMethodsResult)
  | DOptions (options : JV)
  | DPasskey (id : Z) (displayName transports : string)
  | DPasskeys (rows : list PasskeyCredential.row)
  | DEndpoint (ep : WebhookEndpoint.row)
  | DFile (contentType body : string)
  | DJson (o : Obj).

Record Response := mkResponse {
  code : Z; headers : list (string * string); message : string; data : Data
}.

(** The context of a request: the keys of [c.Set], the headers set so far, the
    parameter of the path. *)
Record GinCtx := mkGin {
  g_req : Request; g_ctx : Ctx; g_tenant : option string; g_user : option Z; g_role : option string;
  g_email : option string; g_jti : option string; g_sid : option string;
  g_perms : option (list string); g_sudo : option Z; g_headers : list (string * string);
  g_param : string
}.

Definition with_ctx (ctx : Ctx) (c : GinCtx) : GinCtx :=
  mkGin (g_req c) ctx (g_tenant c) (g_user c) (g_role c) (g_email c) (g_jti c) (g_sid c) (g_perms c)
    (g_sudo c) (g_headers c) (g_param c).

Definition with_body (b : Body) (c : GinCtx) : GinCtx :=
  let r := g_req c in
  mkGin (mkRequest (r_method r) (r_path r) (r_headers r) (r_cookies r) (r_query r) (r_host r) (r_client_ip r)
           (r_remote r) (r_tls r) b)
    (g_ctx c) (g_tenant c) (g_user c) (g_role c) (g_email c) (g_jti c) (g_sid c) (g_perms c) (g_sudo c)
    (g_headers c) (g_param c).

(** [c.Set("tenant_id", tid)] and [tenant.WithTenant] on the request context. *)
Definition bind_tenant (tid : string) (c : GinCtx) : GinCtx :=
  mkGin (g_req c) (WithTenant tid (g_ctx c)) (Some tid) (g_user c) (g_role c) (g_email c) (g_jti c) (g_sid c)
    (g_perms c) (g_sudo c) (g_headers c) (g_param c).

Definition with_user (id : Z) (c : GinCtx) : GinCtx :=
  mkGin (g_req c) (g_ctx c) (g_tenant c) (Some id) (g_role c) (g_email c) (g_jti c) (g_sid c) (g_perms c)
    (g_sudo c) (g_headers c) (g_param c).

Definition with_sudo (until_ : Z) (c : GinCtx) : GinCtx :=
  mkGin (g_req c) (g_ctx c) (g_tenant c) (g_user c) (g_role c) (g_email c) (g_jti c) (g_sid c) (g_perms c)
    (Some until_) (g_headers c) (g_param c).

(** [c.Header(k, v)] *)
Definition add_header (k v : string) (c : GinCtx) : GinCtx :=
  mkGin (g_req c) (g_ctx c) (g_tenant c) (g_user c) (g_role c) (g_email c) (g_jti c) (g_sid c) (g_perms c)
    (g_sudo c) (g_headers c ++ [(k, v)]) (g_param c).

Section Handler.
Context {ST : Store}.

Definition Handler : Type := GinCtx -> M Response.

Definition Middleware : Type := Handler -> Handler.

(** [response.Respond] *)
Definition Respond (c : GinCtx) (status : Z) (msg : string) (d : Data) : M Response :=
  ret (mkResponse status (g_headers c) msg d).

(** [router.Use(m1, ..., mn)], outermost first. *)
Definition chain (ms : list Middleware) (h : Handler) : Handler := foldr (fun m k => m k) h ms.

End Handler.

(** ** The middlewares *)

Module Middleware.

Definition SudoHeader : string := "X-Sudo-Token".

(** *** Tenant resolution ([tenant.go]) *)

(** The text up to the last colon, when there is one. *)
Fixpoint before_last_colon (s : string) : option string :=
  match s with
  | EmptyString => None
  | String a s' =>
      match before_last_colon s' with
      | Some p => Some (String a p)
      | None => if Ascii.eqb a ":"%char then Some "" else None
      end
  end.

(** The text between an opening bracket at the front and the first closing one,
    and what follows it. *)
Fixpoint to_bracket (s : string) : option (string * string) :=
  match s with
  | EmptyString => None
  | String a s' =>
      if Ascii.eqb a "]"%char then Some ("", s')
      else match to_bracket s' with Some (p, q) => Some (String a p, q) | None => None end
  end.

Definition has_byte (a : Ascii.ascii) (s : string) : bool := str_exists (fun b => Ascii.eqb b a) s.

(** [net.SplitHostPort]: the host, or an error. *)
Definition SplitHost (s : string) : option string :=
  match before_last_colon s with
  | None => None
  | Some p =>
      match s with
      | String "["%char rest =>
          match to_bracket rest with
          | Some (host, String ":"%char port) =>
              if has_byte ":"%char port || has_byte "["%char host || has_byte "["%char port || has_byte "]"%char port
              then None else Some host
          | _ => None
          end
      | _ => if has_byte ":"%char p || has_byte "["%char s || has_byte "]"%char s then None else Some p
      end
  end.

Definition reserved : list string :=
  ["www"; "api"; "auth"; "app"; "admin"; "staging"; "dev"; "localhost"; "finnapigo"].

Definition paas : list string := ["onrender.com"; "fly.dev"; "railway.app"; "herokuapp.com"; "vercel.app"].

(** The tenant a host names. *)
Definition subdomain (host : string) : string :=
  let parts := split_on "." host in
  match parts with
  | sub :: _ :: _ :: _ =>
      match rev parts with
      | tld :: dom :: _ =>
          if bool_decide (dom +:+ "." +:+ tld ∈ paas) && (Nat.eqb (length parts) 3) then DefaultTenantID
          else if bool_decide (sub ∈ reserved) then DefaultTenantID else sub
      | _ => DefaultTenantID
      end
  | _ => DefaultTenantID
  end.

Section S.
Context {ST : Store} {E : Ext} {J : JwtLib} {OT : Otp} {W : Wire}.
Import Calls.

Definition resolveTenant (r : Request) : string :=
  let headerID := trim_space (GetHeader "X-Tenant-ID" r) in
  if negb (bool_decide (headerID = "")) then headerID else
  let headerSlug := trim_space (GetHeader "X-Tenant-Slug" r) in
  if negb (bool_decide (headerSlug = "")) then headerSlug else
  let host := to_lower (trim_space (default (r_host r) (SplitHost (r_host r)))) in
  match Net.ParseIP host with
  | Some _ => DefaultTenantID
  | None => subdomain host
  end.

Definition TenantMiddleware : Middleware := fun next c =>
  let tid := resolveTenant (g_req c) in
  next (bind_tenant (if bool_decide (tid = "") then DefaultTenantID else tid) c).

(** *** Browser headers ([cors.go], [security_headers.go]) *)

Fixpoint trim_slashes_front (s : string) : string :=
  match s with
  | String "/"%char s' => trim_slashes_front s'
  | _ => s
  end.

(** [strings.TrimRight(s, "/")] *)
Definition trim_slashes (s : string) : string := str_rev (trim_slashes_front (str_rev s)).

Definition origin_allowed (allowedOrigins : list string) (origin : string) : bool :=
  let allowed := List.filter (fun o => negb (bool_decide (o = "")))
                   (map (fun o => trim_slashes (trim_space o)) allowedOrigins) in
  bool_decide (trim_slashes origin ∈ allowed).

Definition CORS (allowedOrigins : list string) : Middleware := fun next c =>
  let origin := GetHeader "Origin" (g_req c) in
  if bool_decide (origin = "") then next c else
  if negb (origin_allowed allowedOrigins origin) then next c else
  let c := add_header "Access-Control-Allow-Origin" origin (add_header "Vary" "Origin" c) in
  if bool_decide (r_method (g_req c) = "OPTIONS") &&
     negb (bool_decide (GetHeader "Access-Control-Request-Method" (g_req c) = ""))
  then Respond (add_header "Access-Control-Max-Age" "600"
         (add_header "Access-Control-Allow-Headers" "Authorization, Content-Type, X-Request-ID"
           (add_header "Access-Control-Allow-Methods" "GET, POST, DELETE, OPTIONS" c))) 204 "" DNone
  else next c.

Definition isTLS (r : Request) : bool := r_tls r || bool_decide (GetHeader "X-Forwarded-Proto" r = "https").

Definition contentSecurityPolicy : string :=
  "default-src 'self'; script-src 'self' 'unsafe-inline'; style-src 'self' 'unsafe-inline'; img-src 'self' data:".

Definition SecurityHeaders (hstsSeconds : Z) : Middleware := fun next c =>
  let c := add_header "Content-Security-Policy" contentSecurityPolicy
             (add_header "Cache-Control" "no-store"
               (add_header "Referrer-Policy" "no-referrer"
                 (add_header "X-Content-Type-Options" "nosniff" c))) in
  next (if (0 <? hstsSeconds) && isTLS (g_req c)
        then add_header "Strict-Transport-Security" ("max-age=" +:+ fmt_d hstsSeconds) c else c).

(** The request logger of [routes.go]: a fresh request id on the context and in
    the response; the log line itself is not modelled. *)
Definition requestLogger : Middleware := fun next c =>
  let! id := NewUUID in
  next (add_header "X-Request-ID" id (with_ctx (WithCorrelation id (g_ctx c)) c)).

(** The global cap on bodies: reading past it fails. *)
Definition cap_body (limit : Z) (b : Body) : Body :=
  mkBody (b_length b) (if limit <? b_length b then None else b_json b) (Some limit).

Definition MaxBytes (limit : Z) : Middleware := fun next c =>
  next (if 0 <? limit then with_body (cap_body limit (r_body (g_req c))) c else c).

(** *** Bearer tokens ([auth.go], [mfa_pending.go]) *)

(** [strings.SplitN(s, " ", 2)] *)
Fixpoint cut_space (s : string) : option (string * string) :=
  match s with
  | EmptyString => None
  | String a s' =>
      if Ascii.eqb a " "%char then Some ("", s')
      else match cut_space s' with Some (p, q) => Some (String a p, q) | None => None end
  end.

(** The token of an Authorization header, or what is wrong with it. *)
Definition bearer (r : Request) : string + string :=
  let header := GetHeader "Authorization" r in
  if bool_decide (header = "") then inl "missing authorization header" else
  match cut_space header with
  | Some (scheme, token) =>
      if negb (bool_decide (to_lower scheme = "bearer")) || bool_decide (token = "")
      then inl "invalid authorization header format" else inr token
  | None => inl "invalid authorization header format"
  end.

Definition denyAuth (c : GinCtx) (msg : string) : M Response := Respond c 401 msg DNone.

Record authOptions := mkAuthOptions {
  opt_denylist : bool;
  opt_state : option (Ctx -> Claims -> M unit)
}.

Definition tenant_of (claims : Claims) : string :=
  if bool_decide (TenantID claims = "") then DefaultTenantID else TenantID claims.

(** What the handlers find of a verified access token. *)
Definition authenticated (claims : Claims) (c : GinCtx) : GinCtx :=
  mkGin (g_req c) (WithActor (UserID claims) (g_ctx c)) (g_tenant c) (Some (UserID claims))
    (Some (Role claims)) (Some (Email claims)) (Some (ID claims)) (Some (SID claims))
    (Some (default [] (Permissions claims))) (g_sudo c) (g_headers c) (g_param c).

(** The denylist of the store, looked at when no identity state is wired. *)
Definition check_denylist (opt : authOptions) (claims : Claims) : M (option string) :=
  if opt_denylist opt && negb (bool_decide (is_Some (opt_state opt))) then
    let! jti := (if bool_decide (ID claims = "") then ret None else store_Get ("denylist:jti:" +:+ ID claims)) in
    if bool_decide (is_Some jti) then ret (Some "token revoked") else
    let! sid := (if bool_decide (SID claims = "") then ret None else store_Get ("denylist:sid:" +:+ SID claims)) in
    ret (if bool_decide (is_Some sid) then Some "session revoked" else None)
  else ret None.

(** The version check, made when no identity state is wired: passed, refused
    with a reason, or the account state is unavailable. *)
Inductive Verdict := Pass | Refuse (msg : string) | Unavailable (msg : string).

Definition check_version (versions : option (Ctx -> Z -> M Z)) (opt : authOptions) (ctx : Ctx) (claims : Claims)
    : M Verdict :=
  match versions, opt_state opt with
  | Some pwdVersion, None =>
      let! r := try_ (pwdVersion ctx (UserID claims)) in
      ret (match r with
           | Error e => if decide (e = ErrUserNotFound) then Refuse "invalid subject for tenant"
                        else Unavailable "account state unavailable"
           | Ok current => if PwdVer claims <? current then Refuse "credentials changed, please sign in again"
                           else Pass
           end)
  | _, _ => ret Pass
  end.

(** The identity state, required under the strict contract. *)
Definition check_state (jwtMgr : JWTManager) (opt : authOptions) (ctx : Ctx) (claims : Claims) : M Verdict :=
  match opt_state opt with
  | None => ret (if strict jwtMgr then Unavailable "identity state unavailable" else Pass)
  | Some check =>
      let! r := try_ (check ctx claims) in
      ret (match r with
           | Ok _ => Pass
           | Error e => if decide (e = ErrInactive) then Refuse "inactive credential"
                        else Unavailable "identity state unavailable"
           end)
  end.

Definition AuthMiddleware (jwtMgr : JWTManager) (versions : option (Ctx -> Z -> M Z)) (opt : authOptions)
    : Middleware := fun next c =>
  match bearer (g_req c) with
  | inl msg => denyAuth c msg
  | inr text =>
      let! t := now in
      match Verify jwtMgr t (token_of text) with
      | Error _ => denyAuth c "invalid or expired token"
      | Ok claims =>
          if negb (bool_decide (Type_ claims = TokenTypeAccess)) then denyAuth c "invalid token type" else
          let c := bind_tenant (tenant_of claims) c in
          let! v := check_state jwtMgr opt (g_ctx c) claims in
          match v with
          | Refuse msg => denyAuth c msg
          | Unavailable msg => Respond c 503 msg DNone
          | Pass =>
              let! d := check_denylist opt claims in
              match d with
              | Some msg => denyAuth c msg
              | None =>
                  let! v := check_version versions opt (g_ctx c) claims in
                  match v with
                  | Refuse msg => denyAuth c msg
                  | Unavailable msg => Respond c 503 msg DNone
                  | Pass => next (authenticated claims c)
                  end
              end
          end
      end
  end.

Definition MFAPendingMiddleware (jwtMgr : JWTManager) : Middleware := fun next c =>
  match bearer (g_req c) with
  | inl msg => Respond c 401 msg DNone
  | inr text =>
      let! t := now in
      match Verify jwtMgr t (token_of text) with
      | Error _ => Respond c 401 "invalid or expired token" DNone
      | Ok claims =>
          if negb (bool_decide (Type_ claims = TokenTypeMFAPending)) then Respond c 401 "invalid token type" DNone
          else next (bind_tenant (tenant_of claims) (with_user (UserID claims) c))
      end
  end.

Definition RequireRole (roles : list string) : Middleware := fun next c =>
  match g_role c with
  | None => Respond c 401 "authentication required" DNone
  | Some role => if bool_decide (role ∈ roles) then next c else Respond c 403 "insufficient permissions" DNone
  end.

(** *** Sudo mode and permissions ([sudo.go], [rbac.go]) *)

Definition sudo_denied (c : GinCtx) : M Response := Respond c 403 "sudo verification required" DNone.

Definition SudoMiddleware (jwtMgr : JWTManager) : Middleware := fun next c =>
  let token := GetHeader SudoHeader (g_req c) in
  if bool_decide (token = "") then sudo_denied c else
  let! t := now in
  match Verify jwtMgr t (token_of token) with
  | Error _ => sudo_denied c
  | Ok claims =>
      if negb (bool_decide (Type_ claims = TokenTypeSudo)) ||
         (strict jwtMgr && negb (bool_decide (TenantID claims = default "" (g_tenant c))))
      then sudo_denied c else
      if negb (bool_decide (g_user c = Some (UserID claims))) then sudo_denied c else
      match ExpiresAt claims with
      | None => sudo_denied c
      | Some e => next (with_sudo e c)
      end
  end.

Definition RequirePermission (permission : string) : Middleware := fun next c =>
  match g_user c with
  | None => Respond c 401 "authentication required" DNone
  | Some uid =>
      if uid =? 0 then Respond c 401 "authentication required" DNone else
      if bool_decide (permission ∈ default [] (g_perms c)) then next c
      else Respond c 403 ("permission denied: " +:+ permission +:+ " required") DNone
  end.

(** *** Rate and concurrency ([rate_limit.go], [semaphore.go]) *)

(** [RateLimiter]: the burst, the window of the shared counter (the time the
    burst takes at the configured rate, at least a second), and whether a shared
    counter is wired. *)
Record RateLimiter := mkRateLimiter { burst : Z; window : Z; shared : bool }.

Definition too_many (c : GinCtx) : M Response := Respond c 429 "too many requests, please slow down" DNone.

Definition RateLimit (rl : RateLimiter) : Middleware := fun next c =>
  let ip := Net.CanonicalIP (r_client_ip (g_req c)) in
  let! n := (if shared rl then store_IncrBy ("rate:ip:" +:+ ip) 1 (window rl) else ret 0) in
  if 0 <? n then (if burst rl <? n then too_many c else next c) else
  let! t := now in
  if negb (bucket_allow ip t) then too_many c else next c.

(** [ConcurrencyLimiter.Handler] when [free] tokens are left ([None]: disabled). *)
Definition Concurrency (free : option nat) : Middleware := fun next c =>
  match free with
  | Some O => Respond c 429 "server busy, please retry shortly" DNone
  | _ => next c
  end.

End S.
End Middleware.
