(* ===== verification/Handlers.v ===== *)
(** * The HTTP handlers ([internal/handlers])

    Binding of request bodies, the translation of errors into responses, and the
    handlers of the authentication, session, second-factor, remembered-device and
    administration endpoints. *)

From S2P Require Import Prelude Store Models World Json Sql Repos Jwt AuditTrail Common Identity Totp Auth Account Admin Http.

Open Scope Z_scope.
Open Scope monad_scope.

(** ** Binding *)

Module Bind.

(** The field as it stands after a decoding whose error is ignored. *)
Definition lenient (name : string) (b : Body) : string :=
  match b_json b with Some o => fst (Json.string_field name o "") | None => "" end.

(** An [int64] field, read the same way. *)
Fixpoint int_field (name : string) (o : Obj) (acc : Z) : Z :=
  match o with
  | [] => acc
  | (k, v) :: o =>
      if bool_decide (to_lower k = to_lower name) then
        match v with
        | JInt n => int_field name o (if (- 2 ^ 63 <=? n) && (n <? 2 ^ 63) then n else acc)
        | _ => int_field name o acc
        end
      else int_field name o acc
  end.

(** Runes of a UTF-8 string: the bytes that do not continue one. *)
Fixpoint rune_count (s : string) : Z :=
  match s with
  | EmptyString => 0
  | String a s => (if (128 <=? byte_of a)%N && (byte_of a <? 192)%N then 0 else 1) + rune_count s
  end.

(** The validator's rules of a field: required, email, min, max. *)
Record Rules := mkRules { ru_required : bool; ru_email : bool; ru_min : Z; ru_max : Z }.

Definition free : Rules := mkRules false false 0 (2 ^ 62).
Definition required : Rules := mkRules true false 0 (2 ^ 62).
Definition sized (lo hi : Z) : Rules := mkRules true false lo hi.
Definition an_email (hi : Z) : Rules := mkRules true true 0 hi.

Section S.
Context {ST : Store} {W : Wire}.

Definition valid (r : Rules) (s : string) : bool :=
  (negb (ru_required r) || negb (bool_decide (s = ""))) && (negb (ru_email r) || valid_email s) &&
  (ru_min r <=? rune_count s) && (rune_count s <=? ru_max r).

Definition field (name : string) (r : Rules) (b : Body) : option string :=
  match b_json b with
  | None => None
  | Some o => let (s, ok) := Json.string_field name o "" in if ok && valid r s then Some s else None
  end.

(** [c.ShouldBindJSON] into a struct of string fields. *)
Fixpoint fields (l : list (string * Rules)) (b : Body) : option (list string) :=
  match l with
  | [] => match b_json b with Some _ => Some [] | None => None end
  | (name, r) :: l =>
      match field name r b, fields l b with
      | Some s, Some rest => Some (s :: rest)
      | _, _ => None
      end
  end.

Definition bad_body (c : GinCtx) : M Response :=
  Respond c 400 (bind_message (default [] (b_json (r_body (g_req c))))) DNone.

(** Bind or answer 400. *)
Definition ShouldBindJSON (l : list (string * Rules)) (c : GinCtx) (k : list string -> M Response) : M Response :=
  match fields l (r_body (g_req c)) with
  | None => bad_body c
  | Some vs => k vs
  end.

Definition maxTOTPBody : Z := 1024.

(** [bindJSON]: the same after a check of the size. *)
Definition bindJSON (l : list (string * Rules)) (c : GinCtx) (k : list string -> M Response) : M Response :=
  let b := r_body (g_req c) in
  let cap := default (maxTOTPBody + 1) (b_cap b) in
  if (maxTOTPBody <? b_length b) && (maxTOTPBody <? cap) then Respond c 413 "request body too large" DNone else
  if cap <? b_length b then Respond c 400 "could not read request body" DNone else
  if b_length b <=? 0 then Respond c 400 "request body is required" DNone else
  ShouldBindJSON l c k.

End S.

(** The request types of [dto.go], by their fields. *)
Definition RegisterRequest : list (string * Rules) :=
  [("username", sized 3 50); ("email", an_email 255); ("password", sized 8 128); ("fullName", sized 0 255);
   ("captchaToken", free); ("website", free)].
Definition LoginRequest : list (string * Rules) :=
  [("email", an_email 255); ("password", sized 0 128); ("captchaToken", free)].
Definition RefreshRequest : list (string * Rules) := [("refreshToken", required)].
Definition LogoutRequest : list (string * Rules) := [("refreshToken", required)].
Definition ForgotPasswordRequest : list (string * Rules) := [("email", an_email 255)].
Definition ResetPasswordRequest : list (string * Rules) := [("token", required); ("newPassword", sized 8 128)].
Definition ChangePasswordRequest : list (string * Rules) := [("oldPassword", sized 0 128); ("newPassword", sized 8 128)].
Definition SetPasswordRequest : list (string * Rules) := [("password", sized 8 128)].
Definition VerifyEmailRequest : list (string * Rules) := [("token", required)].
Definition ResendVerifyEmailRequest : list (string * Rules) := [("email", an_email 255)].
Definition TOTPCodeRequest : list (string * Rules) := [("code", sized 6 128)].
Definition MFALoginVerifyRequest : list (string * Rules) := [("code", sized 6 128)].
Definition ChangeEmailRequestInput : list (string * Rules) := [("password", required); ("newEmail", an_email (2 ^ 62))].
Definition ChangeEmailConfirmInput : list (string * Rules) := [("token", required)].

End Bind.

(** ** Errors *)

Module Errors.

(** [err.Error()] of the sentinels. *)
Definition text (e : Err) : string :=
  match e with
  | ErrIdentityUnavailable => "identity state unavailable"
  | ErrInvalidInput => "invalid input"
  | ErrPasswordTooWeak => "password does not meet complexity requirements"
  | ErrInvalidCredentials => "invalid email or password"
  | ErrInvalidToken => "invalid or expired token"
  | ErrInvalidCode => "invalid or expired code"
  | ErrAccountLocked => "account is temporarily locked due to repeated failed attempts"
  | ErrAccountDisabled => "account is disabled"
  | ErrEmailNotVerified => "email is not verified"
  | ErrSudoRequired => "sudo verification required"
  | ErrCaptchaRequired => "captcha verification required"
  | ErrUserNotFound => "user not found"
  | ErrTOTPUnrecoverable => "totp configuration is invalid; please re-enroll MFA"
  | ErrSessionNotFound => "session not found"
  | ErrEmailExists => "email already registered"
  | ErrUsernameExists => "username already taken"
  | ErrPasswordAlreadySet => "password already set; use change-password instead"
  | ErrDisposableEmail => "disposable email addresses are not allowed"
  | ErrPasswordBreached => "password appears in known data breaches — choose a different one"
  | ErrRateLimited => "rate limit exceeded, please try again later"
  | ErrOAuthStateInvalid => "invalid or expired oauth state"
  | ErrOAuthEmailNotVerified => "google email is not verified"
  | ErrOAuthCodeExchangeFailed => "failed to exchange authorization code"
  | ErrOAuthTokenVerificationFailed => "failed to verify google id token"
  | ErrOAuthNotConfigured => "google sign-in is not configured"
  | ErrOAuthEmailTaken => "an account with this email already exists — verify the email or sign in with your password"
  | ErrCannotUnlinkOnlyMethod => "cannot unlink the only authentication method without setting a password"
  | ErrCannotLockSelf => "cannot lock own account"
  | ErrPasskeyChallenge => "passkey challenge missing, expired, or already used"
  | ErrPasskeyCredentialRevoked => "passkey credential is revoked"
  | ErrPasskeyNotConfigured => "passkey authentication is not configured"
  | ErrWebhookSSRFBlocked => "webhook destination address is restricted (SSRF protection)"
  | ErrInvalidWebhookURL => "invalid webhook URL: must be valid http or https"
  | _ => ""
  end.

Definition statusForError (e : Err) : Z * string :=
  match e with
  | ErrInvalidCredentials | ErrAccountLocked | ErrAccountDisabled | ErrEmailNotVerified =>
      (401, "invalid email or password")
  | ErrInvalidToken | ErrInvalidCode => (401, text e)
  | ErrSudoRequired => (403, text e)
  | ErrTOTPUnrecoverable => (422, text e)
  | ErrUserNotFound | ErrSessionNotFound => (404, text e)
  | ErrEmailExists | ErrUsernameExists | ErrPasswordAlreadySet => (409, text e)
  | ErrInvalidInput | ErrPasswordTooWeak | ErrCaptchaRequired | ErrCannotUnlinkOnlyMethod | ErrCannotLockSelf
  | ErrWebhookSSRFBlocked | ErrInvalidWebhookURL => (400, text e)
  | ErrDisposableEmail | ErrPasswordBreached => (422, text e)
  | ErrOAuthNotConfigured | ErrPasskeyNotConfigured => (501, text e)
  | ErrOAuthStateInvalid => (401, text e)
  | ErrOAuthEmailNotVerified => (403, text e)
  | ErrOAuthEmailTaken => (409, text e)
  | ErrOAuthCodeExchangeFailed | ErrOAuthTokenVerificationFailed => (502, text e)
  | ErrUnavailable => (503, "durable audit unavailable")
  | ErrIdentityUnavailable => (503, "identity state unavailable")
  | ErrRateLimited => (429, text e)
  | _ => (500, "internal server error")
  end.

Definition respondError {ST : Store} (c : GinCtx) (e : Err) : M Response :=
  let (status, msg) := statusForError e in Respond c status msg DNone.

End Errors.

(** ** Handlers *)

Module Handlers.
Section S.
Context {ST : Store} {E : Ext} {J : JwtLib} {OT : Otp} {W : Wire} {L : Local}.
Context (s : AuthService) (captcha : bool).
Import Bind Errors Calls.

Definition unauthenticated (c : GinCtx) : M Response := Respond c 401 "authentication required" DNone.

(** [ctxUserID], or 401. *)
Definition as_user (c : GinCtx) (k : Z -> M Response) : M Response :=
  match g_user c with Some uid => k uid | None => unauthenticated c end.

(** A service call: its error is translated, its answer handed on. *)
Definition call {A} (c : GinCtx) (m : M A) (k : A -> M Response) : M Response :=
  let! r := try_ m in
  match r with Ok a => k a | Error e => respondError c e end.

Definition done_ (c : GinCtx) (msg : string) : M Response := Respond c 200 msg DNone.

Definition ip (c : GinCtx) : string := r_client_ip (g_req c).
Definition ua (c : GinCtx) : string := UserAgent (g_req c).
Definition sudo_token (c : GinCtx) : Token := token_of (GetHeader Middleware.SudoHeader (g_req c)).
Definition key (k : option string) : string := default "" k.

(** *** [auth_handler.go] *)

(** The captcha of a registration, when one is configured. *)
Definition verify_captcha (token : string) : M bool :=
  if negb captcha then ret true else
  let! b := fault in ret (negb b && captcha_ok token).

Definition Register (c : GinCtx) : M Response :=
  ShouldBindJSON RegisterRequest c (fun vs =>
    match vs with
    | [username; email; password; fullName; captchaToken; website] =>
        if negb (bool_decide (website = "")) then Respond c 201 "account created" DNone else
        let! human := verify_captcha captchaToken in
        if negb human then Respond c 400 "captcha verification failed" DNone else
        call c (Account.Register s (g_ctx c) (mkRegister username email password fullName (ip c)))
          (fun profile => Respond c 201 "account created" (DRegistered profile))
    | _ => bad_body c
    end).

Definition Login (c : GinCtx) : M Response :=
  ShouldBindJSON LoginRequest c (fun vs =>
    match vs with
    | [email; password; captchaToken] =>
        call c (Auth.Login s (g_ctx c) (mkLogin email password captchaToken) (ip c) (ua c)) (fun r =>
          match r with
          | MFAPending token => Respond c 200 "mfa required" (DMFAPending token)
          | Issued toks profile => Respond c 200 "login successful" (DLogin profile toks)
          end)
    | _ => bad_body c
    end).

Definition CompleteMFALogin (c : GinCtx) : M Response :=
  as_user c (fun uid =>
  bindJSON MFALoginVerifyRequest c (fun vs =>
    match vs with
    | [code] =>
        call c (Auth.CompleteMFALogin s (g_ctx c) uid code (ip c) (ua c)) (fun '(toks, profile) =>
          Respond c 200 "login successful" (DLogin profile toks))
    | _ => bad_body c
    end)).

Definition Logout (c : GinCtx) : M Response :=
  ShouldBindJSON LogoutRequest c (fun vs =>
    match vs with
    | [refreshToken] =>
        call c (Auth.Logout s (g_ctx c) refreshToken (key (g_jti c)) (ip c)) (fun _ => done_ c "logged out")
    | _ => bad_body c
    end).

Definition LogoutAll (c : GinCtx) : M Response :=
  as_user c (fun uid =>
  call c (Auth.LogoutAll s (g_ctx c) uid (ip c)) (fun _ => done_ c "signed out everywhere")).

Definition Refresh (c : GinCtx) : M Response :=
  ShouldBindJSON RefreshRequest c (fun vs =>
    match vs with
    | [refreshToken] =>
        call c (Auth.Refresh s (g_ctx c) refreshToken (ip c) (ua c)) (fun toks =>
          Respond c 200 "token refreshed" (DPair toks))
    | _ => bad_body c
    end).

(** Only an unavailable trail is told; every other outcome reads the same. *)
Definition ForgotPassword (c : GinCtx) : M Response :=
  ShouldBindJSON ForgotPasswordRequest c (fun vs =>
    match vs with
    | [email] =>
        let! r := try_ (Account.ForgotPassword s (g_ctx c) email (ip c)) in
        match r with
        | Error e => if decide (e = ErrUnavailable) then respondError c e
                     else done_ c "if the email exists, a reset link has been sent"
        | Ok _ => done_ c "if the email exists, a reset link has been sent"
        end
    | _ => bad_body c
    end).

Definition ResetPassword (c : GinCtx) : M Response :=
  ShouldBindJSON ResetPasswordRequest c (fun vs =>
    match vs with
    | [token; newPassword] =>
        call c (Account.ResetPassword s (g_ctx c) (token_of token) newPassword (ip c)) (fun _ =>
          done_ c "password has been reset")
    | _ => bad_body c
    end).

Definition ChangePassword (c : GinCtx) : M Response :=
  as_user c (fun uid =>
  ShouldBindJSON ChangePasswordRequest c (fun vs =>
    match vs with
    | [oldPassword; newPassword] =>
        call c (Account.ChangePassword s (g_ctx c) uid oldPassword newPassword (ip c)) (fun _ =>
          done_ c "password changed; all sessions signed out")
    | _ => bad_body c
    end)).

Definition SetPassword (c : GinCtx) : M Response :=
  as_user c (fun uid =>
  ShouldBindJSON SetPasswordRequest c (fun vs =>
    match vs with
    | [password] =>
        call c (Account.SetPassword s (g_ctx c) uid password (ip c)) (fun _ => done_ c "password has been set")
    | _ => bad_body c
    end)).

Definition Me (c : GinCtx) : M Response :=
  as_user c (fun uid =>
  call c (Account.Me (g_ctx c) uid) (fun profile => Respond c 200 "profile fetched" (DProfile profile))).

Definition VerifyEmail (c : GinCtx) : M Response :=
  ShouldBindJSON VerifyEmailRequest c (fun vs =>
    match vs with
    | [token] => call c (Account.VerifyEmail s (g_ctx c) (token_of token)) (fun _ => done_ c "email verified")
    | _ => bad_body c
    end).

Definition ResendVerifyEmail (c : GinCtx) : M Response :=
  ShouldBindJSON ResendVerifyEmailRequest c (fun vs =>
    match vs with
    | [email] =>
        let! r := try_ (Account.ResendVerifyEmail s (g_ctx c) email (ip c)) in
        match r with
        | Error e => if decide (e = ErrRateLimited \/ e = ErrUnavailable) then respondError c e
                     else done_ c "if the email exists, a verification link has been sent"
        | Ok _ => done_ c "if the email exists, a verification link has been sent"
        end
    | _ => bad_body c
    end).

(** [strconv.Atoi(c.DefaultQuery(name, def))], its error ignored. *)
Definition query_int (name : string) (def : Z) (c : GinCtx) : Z :=
  match named name (r_query (g_req c)) with Some v => fst (parse_int64 v) | None => def end.

Definition MyAuditLog (c : GinCtx) : M Response :=
  as_user c (fun uid =>
  let page := Page.page_of (query_int "page" 1 c) in
  let limit := Page.limit_of (query_int "limit" 20 c) in
  call c (GetUserAuditLog (g_ctx c) uid page limit) (fun '(items, total) =>
    Respond c 200 "audit log" (DAuditLog items total page limit))).

Definition RequestChangeEmail (c : GinCtx) : M Response :=
  as_user c (fun uid =>
  ShouldBindJSON ChangeEmailRequestInput c (fun vs =>
    match vs with
    | [password; newEmail] =>
        call c (Account.RequestChangeEmail s (g_ctx c) uid password newEmail (ip c)) (fun _ =>
          done_ c "verification email sent to new address")
    | _ => bad_body c
    end)).

Definition ConfirmChangeEmail (c : GinCtx) : M Response :=
  ShouldBindJSON ChangeEmailConfirmInput c (fun vs =>
    match vs with
    | [token] =>
        call c (Account.ConfirmChangeEmail s (g_ctx c) token (ip c)) (fun _ => done_ c "email successfully changed")
    | _ => bad_body c
    end).

Definition DeactivateAccount (c : GinCtx) : M Response :=
  as_user c (fun uid =>
  call c (Account.DeactivateAccount s (g_ctx c) uid (sudo_token c) (lenient "password" (r_body (g_req c)))
            (key (g_jti c)) (ip c)) (fun _ => done_ c "account deactivated")).

Definition EraseMe (c : GinCtx) : M Response :=
  as_user c (fun uid =>
  call c (Account.EraseAccount s (g_ctx c) uid (sudo_token c) (lenient "password" (r_body (g_req c)))
            (key (g_jti c)) (ip c)) (fun _ => done_ c "account erased")).

(** *** [session_handler.go] *)

Definition ListSessions (c : GinCtx) : M Response :=
  as_user c (fun uid =>
  call c (Auth.ListSessions (g_ctx c) uid (key (g_sid c))) (fun l => Respond c 200 "sessions fetched" (DSessions l))).

Definition parseSessionID (c : GinCtx) : option string :=
  let raw := trim_space (g_param c) in
  if bool_decide (raw = "") || (64 <? str_len raw) then None else Some raw.

Definition RevokeSession (c : GinCtx) : M Response :=
  as_user c (fun uid =>
  match parseSessionID c with
  | None => Respond c 400 "invalid session id" DNone
  | Some id => call c (Auth.RevokeSession s (g_ctx c) id uid (ip c)) (fun _ => done_ c "session revoked")
  end).

(** *** [mfa_handler.go] *)

Definition EnableTOTP (c : GinCtx) : M Response :=
  as_user c (fun uid =>
  let account := if bool_decide (key (g_email c) = "") then "user-" +:+ fmt_d uid else key (g_email c) in
  call c (Totp.Enable (totp s) (g_ctx c) uid account (sudo_token c)) (fun '(secret, uri) =>
    Respond c 200 "TOTP enrollment pending verification" (DEnrollment secret uri))).

(** A request that carries a code. *)
Definition with_code (c : GinCtx) (k : Z -> string -> M Response) : M Response :=
  as_user c (fun uid =>
  bindJSON TOTPCodeRequest c (fun vs => match vs with [code] => k uid code | _ => bad_body c end)).

Definition VerifyTOTP (c : GinCtx) : M Response :=
  with_code c (fun uid code =>
    call c (Totp.VerifyEnable (totp s) (g_ctx c) uid code) (fun codes =>
      Respond c 200 "TOTP enabled" (DRecoveryCodes codes))).

Definition ValidateTOTP (c : GinCtx) : M Response :=
  with_code c (fun uid code =>
    call c (Totp.Validate (totp s) (g_ctx c) uid code) (fun _ => done_ c "TOTP validated")).

Definition sudo_ttl : Z := if SudoTTL (jwtCfg s) <=? 0 then 15 * minute else SudoTTL (jwtCfg s).

Definition ViewRecoveryCodes (c : GinCtx) : M Response :=
  with_code c (fun uid code =>
    call c (Totp.ViewRecoveryCodes (totp s) (g_ctx c) uid code) (fun codes =>
      call c (Issue (jwt s) uid (key (g_role c)) (key (g_email c)) TokenTypeSudo sudo_ttl (key (g_tenant c)))
        (fun sudo => Respond c 200 "Recovery codes" (DRecoveryCodesSudo codes sudo (sudo_ttl / second))))).

Definition RegenerateRecoveryCodes (c : GinCtx) : M Response :=
  as_user c (fun uid =>
  call c (Totp.RegenerateRecoveryCodes (totp s) (g_ctx c) uid) (fun codes =>
    Respond c 200 "New recovery codes generated" (DRecoveryCodes codes))).

Definition DisableTOTP (c : GinCtx) : M Response :=
  as_user c (fun uid =>
  call c (Totp.Disable (totp s) (g_ctx c) uid (sudo_token c) (lenient "password" (r_body (g_req c)))
            (lenient "code" (r_body (g_req c))) (ip c)) (fun _ => done_ c "TOTP disabled")).

Definition GetMethods (c : GinCtx) : M Response :=
  as_user c (fun uid =>
  call c (Totp.GetMFAMethods (g_ctx c) uid) (fun m => Respond c 200 "MFA methods" (DMethods m))).

(** *** [trusted_device_handler.go] *)

Definition ListDevices (c : GinCtx) : M Response :=
  as_user c (fun uid =>
  call c (Trusted.ListByUser (g_ctx c) uid) (fun l => Respond c 200 "trusted devices retrieved" (DDevices l))).

Definition RevokeDevice (c : GinCtx) : M Response :=
  as_user c (fun uid =>
  match Account.parse_uint64 (g_param c) with
  | None => Respond c 400 "invalid device id" DNone
  | Some id => call c (Trusted.Revoke (audits s) (g_ctx c) id uid) (fun _ => done_ c "trusted device revoked")
  end).

(** *** [admin_handler.go] *)

Definition ListUsers (c : GinCtx) : M Response :=
  let page := query_int "page" 1 c in
  let limit := query_int "limit" 20 c in
  let search := default "" (named "search" (r_query (g_req c))) in
  call c (Admin.ListUsers (g_ctx c) page limit search) (fun '(users, total) =>
    Respond c 200 "users retrieved" (DUsers users total page limit)).

(** The administrator and the user the path names. *)
Definition on_user (c : GinCtx) (k : Z -> Z -> M Response) : M Response :=
  as_user c (fun adminID =>
  match Account.parse_uint64 (g_param c) with
  | None => Respond c 400 "invalid user id" DNone
  | Some target => k adminID target
  end).

Definition LockUser (c : GinCtx) : M Response :=
  on_user c (fun adminID target =>
    let secs := match b_json (r_body (g_req c)) with Some o => int_field "durationSeconds" o 0 | None => 0 end in
    call c (Admin.LockUser (audits s) (g_ctx c) adminID target (int64 (secs * second)) (ip c))
      (fun _ => done_ c "user locked")).

Definition UnlockUser (c : GinCtx) : M Response :=
  on_user c (fun adminID target =>
    call c (Admin.UnlockUser (audits s) (g_ctx c) adminID target (ip c)) (fun _ => done_ c "user unlocked")).

Definition ForceLogout (c : GinCtx) : M Response :=
  on_user c (fun adminID target =>
    call c (Admin.ForceLogout (audits s) (g_ctx c) adminID target (ip c))
      (fun _ => done_ c "user logged out of all devices")).

Definition AdminListSessions (c : GinCtx) : M Response :=
  call c (Admin.ListTenantSessions (g_ctx c)) (fun l =>
    Respond c 200 "tenant sessions retrieved" (DTenantSessions l)).

End S.
End Handlers.
