(* ===== verification/OAuthHandler.v ===== *)
(** * The Google endpoints ([handlers/oauth_handler.go])

    Start of the flow (the state bound to the browser by a cookie, redirect to the
    consent screen), the callback, and the unlinking of a provider. *)

From S2P Require Import Prelude Store Models World Sql Repos Jwt AuditTrail Common Identity Totp Auth OAuth Account Admin Http Handlers.

Open Scope Z_scope.
Open Scope monad_scope.

Module OAuthHandlers.

Definition OAuthStateCookie : string := "finnapigo_oauth_state".
Definition oauthStateCookieMaxAge : Z := 600.

Section S.
Context {ST : Store} {E : Ext} {J : JwtLib} {OT : Otp} {G : GoogleLib} {W : Wire} (o : OAuthService).
Import Handlers.

(** [gin.Context.SetCookie] after [SetSameSite(Lax)] for this path, HttpOnly: the
    header [net/http] renders; a negative age deletes. *)
Definition set_state_cookie (value : string) (maxAge : Z) (c : GinCtx) : GinCtx :=
  add_header "Set-Cookie"
    (OAuthStateCookie +:+ "=" +:+ value +:+ "; Path=/api/v1/auth/google; Max-Age=" +:+
     fmt_d (if maxAge <? 0 then 0 else maxAge) +:+ "; HttpOnly" +:+
     (if Middleware.isTLS (g_req c) then "; Secure" else "") +:+ "; SameSite=Lax") c.

(** [c.Redirect(http.StatusFound, url)] *)
Definition redirect (url : string) (c : GinCtx) : M Response := Respond (add_header "Location" url c) 302 "" DNone.

Definition GoogleLogin (c : GinCtx) : M Response :=
  let! r := try_ (OAuth.BeginLogin o (g_ctx c)) in
  match r with
  | Error _ => Respond c 500 "failed to initiate oauth" DNone
  | Ok (state, url) =>
      if bool_decide (url = "") then Respond c 501 "google sign-in is not configured" DNone
      else redirect url (set_state_cookie state oauthStateCookieMaxAge c)
  end.

Definition clearOAuthStateCookie (c : GinCtx) : GinCtx := set_state_cookie "" (-1) c.

Definition GoogleCallback (c : GinCtx) : M Response :=
  let code := default "" (named "code" (r_query (g_req c))) in
  let state := default "" (named "state" (r_query (g_req c))) in
  if bool_decide (code = "") || bool_decide (state = "")
  then Respond c 400 "missing code or state parameter" DNone else
  if negb (bool_decide (named OAuthStateCookie (r_cookies (g_req c)) = Some state))
  then Respond c 401 "invalid or expired oauth state" DNone else
  let c := clearOAuthStateCookie c in
  call c (OAuth.HandleCallback o (g_ctx c) code state (ip c) (ua c)) (fun res =>
    match res with
    | MFAPending token => Respond c 200 "mfa required" (DMFAPending token)
    | Issued toks profile => Respond c 200 "login successful" (DLogin profile toks)
    end).

Definition Unlink (c : GinCtx) : M Response :=
  as_user c (fun uid =>
  let provider := g_param c in
  if bool_decide (provider = "") then Respond c 400 "provider required" DNone else
  call c (OAuth.Unlink o (g_ctx c) uid provider (ip c)) (fun _ => done_ c "provider unlinked successfully")).

End S.
End OAuthHandlers.
