(* ===== verification/PasskeyHandler.v ===== *)
(** * The passkey endpoints ([handlers/passkey_handler.go])

    The four steps of the ceremonies, the list and the revocation.  The body of a
    verification goes to the library unread. *)

From S2P Require Import Prelude Store Models World Json Sql Repos Jwt AuditTrail Common Identity Totp Auth Passkey Account Admin Http Handlers.

Open Scope Z_scope.
Open Scope monad_scope.

Module PasskeyHandlers.

Definition PasskeyBeginRequest : list (string * Bind.Rules) := [("displayName", Bind.mkRules false false 0 255)].

Section S.
Context {ST : Store} {E : Ext} {J : JwtLib} {OT : Otp} {WL : WebAuthnLib} {W : Wire} (s : passkeyService).
Import Handlers Bind Errors.

(** [c.Request], as the services read it. *)
Definition ceremony (c : GinCtx) : CeremonyRequest :=
  let r := g_req c in mkCeremony (b_json (r_body r)) (r_remote r) (UserAgent r).

Definition BeginRegistration (c : GinCtx) : M Response :=
  as_user c (fun uid =>
  ShouldBindJSON PasskeyBeginRequest c (fun vs =>
    match vs with
    | [displayName] =>
        call c (Passkey.BeginRegistration s (g_ctx c) uid (trim_space displayName))
          (fun options => Respond c 200 "passkey registration challenge" (DOptions options))
    | _ => bad_body c
    end)).

Definition FinishRegistration (c : GinCtx) : M Response :=
  as_user c (fun uid =>
  let! r := try_ (Passkey.FinishRegistration s (g_ctx c) uid (ceremony c)) in
  match r with
  | Ok row => Respond c 201 "passkey registered"
                (DPasskey (PasskeyCredential.ID row) (PasskeyCredential.DisplayName row) (PasskeyCredential.Transports row))
  | Error ErrPasskeyChallenge => Respond c 400 (text ErrPasskeyChallenge) DNone
  | Error ErrUserNotFound => unauthenticated c
  | Error e => respondError c e
  end).

Definition BeginAuthentication (c : GinCtx) : M Response :=
  as_user c (fun uid =>
  call c (Passkey.BeginAuthentication s (g_ctx c) uid)
    (fun options => Respond c 200 "passkey authentication challenge" (DOptions options))).

(** The error of a clone is wrapped: its message says more. *)
Definition revoked_text : string := text ErrPasskeyCredentialRevoked +:+ ": credential sign counter regressed".

Definition FinishAuthentication (c : GinCtx) : M Response :=
  as_user c (fun uid =>
  let! r := try_ (Passkey.FinishAuthentication s (g_ctx c) uid (ceremony c)) in
  match r with
  | Ok (toks, profile) => Respond c 200 "login successful" (DLogin profile toks)
  | Error ErrPasskeyChallenge => Respond c 401 (text ErrPasskeyChallenge) DNone
  | Error ErrPasskeyCredentialRevoked => Respond c 401 revoked_text DNone
  | Error ErrUserNotFound => unauthenticated c
  | Error e => respondError c e
  end).

Definition ListPasskeys (c : GinCtx) : M Response :=
  as_user c (fun uid =>
  call c (Passkey.List_ (g_ctx c) uid) (fun rows => Respond c 200 "passkeys fetched" (DPasskeys rows))).

Definition Revoke (c : GinCtx) : M Response :=
  as_user c (fun uid =>
  match Account.parse_uint64 (g_param c) with
  | None => Respond c 400 "invalid passkey id" DNone
  | Some id => call c (Passkey.Revoke s (g_ctx c) id uid) (fun _ => done_ c "passkey revoked")
  end).

End S.
End PasskeyHandlers.
