(* ===== verification/Endpoints.v ===== *)
(** * Introspection, webhook registration, audit export ([identity/http.go],
    [handlers/webhook_handler.go], [handlers/admin_handler.go])

    The endpoint other services ask about a token, and the two administration
    endpoints over [WebhookService] and [AdminService.ExportAuditLogs]. *)

From S2P Require Import Prelude Store Models World Json Sql Jwt AuditTrail Boot Common Identity Totp Auth Admin Webhook AuditExport Http Handlers.

Open Scope Z_scope.
Open Scope monad_scope.

(** ** Introspection ([identity.Handler]) *)

Module Introspection.
Import KeyMaterial.

(** The handler as [cmd/server/main.go] builds it: authority and store are wired. *)
Record Introspector := mkIntrospector { i_JWT : JWTManager; Keys : ServiceKeys }.

Section S.
Context {ST : Store} {E : Ext} {J : JwtLib} {W : Wire}.
Import Calls.

(** [c.JSON] of a map: no envelope. *)
Definition answer (c : GinCtx) (status : Z) (o : Obj) : M Response := Respond c status "" (DJson o).

Definition refuse (c : GinCtx) (status : Z) (error : string) : M Response :=
  answer c status [("error", JText error)].

Definition inactive (c : GinCtx) : M Response := answer c 401 [("active", JFalse)].

Definition drop_bearer (header : string) : string :=
  if has_prefix "Bearer " header then String.substring 7 (String.length header - 7) header else header.

(** The caller's key id and secret are the current pair, or the previous one
    before its deadline. *)
Definition credential_ok (k : ServiceKeys) (now : Z) (kid header : string) : bool :=
  let secret := drop_bearer header in
  let current := bool_decide (kid = sk_CurrentID k) && bool_decide (secret = sk_CurrentSecret k) in
  let valid :=
    if negb current && bool_decide (kid = sk_PreviousID k) && (now <? PreviousUntil k)
    then bool_decide (secret = sk_PreviousSecret k) else current in
  valid && has_prefix "Bearer " header.

Definition introspect_limit : Z := 120.

(** What is said of a token that stands. *)
Definition active (t : Z) (c : Claims) : Obj := [
  ("active", JTrue); ("auth_epoch", JInt (AuthEpoch c)); ("checked_at", JInt (t / second)); ("contract_ver", JInt 1);
  ("jti", JText (ID c)); ("max_cache_seconds", JInt 15); ("pwdver", JInt (PwdVer c)); ("sid", JText (SID c));
  ("sub", JText (Subject c)); ("tid", JText (TenantID c)) ].

Definition Handle (h : Introspector) : Handler := fun c =>
  let c := add_header "Cache-Control" "no-store" c in
  if negb (r_tls (g_req c)) then refuse c 503 "tls_required" else
  let! t := now in
  if negb (credential_ok (Keys h) t (GetHeader "X-Service-Key-ID" (g_req c)) (GetHeader "Authorization" (g_req c)))
  then refuse c 401 "invalid_service_credential" else
  let! allowed := store_Admit "identity:service:jakeai-service" introspect_limit second in
  match allowed with
  | None => refuse c 503 "state_unavailable"
  | Some false => refuse (add_header "Retry-After" "1" c) 429 "rate_limited"
  | Some true =>
      let body := Middleware.cap_body 16384 (r_body (g_req c)) in
      match b_json body with
      | None => refuse c 400 "invalid_request"
      | Some o =>
          let (token, ok1) := Json.string_field "token" o "" in
          let (tenant, ok2) := Json.string_field "tenant_id" o "" in
          if negb (ok1 && ok2) || bool_decide (tenant = "") then refuse c 400 "invalid_request" else
          match VerifyAccessV1 (i_JWT h) t (token_of token) JakeAudience with
          | Error _ => inactive c
          | Ok claims =>
              if negb (bool_decide (TenantID claims = tenant)) then refuse c 403 "tenant_denied" else
              let! r := try_ (Authority.Check (g_ctx c) claims) in
              match r with
              | Error e => if decide (e = ErrInactive) then inactive c else refuse c 503 "state_unavailable"
              | Ok _ => answer c 200 (active t claims)
              end
          end
      end
  end.

End S.
End Introspection.

(** ** Webhooks and the export *)

Module AdminEndpoints.
Section S.
Context {ST : Store} {E : Ext} {N : Network} {W : Wire}.
Import Bind Errors Handlers.

Definition createWebhookRequest : list (string * Rules) := [("url", required); ("events", required)].

(** [WebhookHandler.CreateEndpoint] *)
Definition CreateEndpoint (s : WebhookService) : Handler := fun c =>
  match fields createWebhookRequest (r_body (g_req c)) with
  | Some [url; events] =>
      call c (Webhook.RegisterEndpoint s (g_ctx c) (FromContext (g_ctx c)) url events)
        (fun ep => Respond c 201 "webhook endpoint registered" (DEndpoint ep))
  | _ => Respond c 400 "invalid request: url and events required" DNone
  end.

(** [AdminHandler.ExportAuditLog] *)
Definition ExportAuditLog : Handler := fun c =>
  let format := default "csv" (named "format" (r_query (g_req c))) in
  call c (Exporter.ExportAuditLogs (g_ctx c) format) (fun file =>
    Respond (add_header "Content-Disposition"
               ("attachment; filename=" +:+ String Csv.dq ("audit_export." +:+ format +:+ String Csv.dq "")) c)
      200 "" (DFile (snd file) (fst file))).

End S.
End AdminEndpoints.
