(* ===== verification/Routes.v ===== *)
(** * The router ([internal/routes])

    The route tree [Register] builds, as a table: method, path, the middlewares of
    the route's groups and its own, outermost first, and the handler; and
    [serve_http], which runs a request through the global middlewares and the
    route it matches.  The metrics and documentation routes, which libraries
    answer, are not in the table. *)

From S2P Require Import Prelude Store Models World Sql Repos Jwt AuditTrail Common Identity Totp Auth OAuth Passkey Account Admin Http Handlers OAuthHandler PasskeyHandler Boot Webhook Endpoints.

Open Scope Z_scope.
Open Scope monad_scope.

(** [Deps] as [cmd/server/main.go] fills it: the identity state and the store are
    wired; the TOTP gate has [d_totp_free] tokens left; the Google endpoints are there
    when a client is configured, the passkey endpoints when a relying party is. *)
Record Deps := mkDeps {
  d_auth : AuthService; d_captcha : bool; d_rate : Middleware.RateLimiter; d_totp_free : option nat;
  d_max_body : Z; d_hsts : Z; d_cors : list string; d_google : option oauth2Config;
  d_passkey : PasskeyConfig; d_state : KeyMaterial.ServiceKeys
}.

Module Routes.
Section S.
Context {ST : Store} {E : Ext} {J : JwtLib} {OT : Otp} {G : GoogleLib} {WL : WebAuthnLib} {W : Wire} {L : Local} {N : Network} (deps : Deps).
Import Middleware Handlers.

Record Route := mkRoute {
  rt_method : string; rt_path : list string; rt_through : list Middleware; rt_handler : Handler
}.

Abbreviation svc := (d_auth deps).
Abbreviation captcha := (d_captcha deps).

(** [AuthMiddleware] with the options of [Register]. *)
Definition authMW : Middleware :=
  AuthMiddleware (jwt svc) (Some Auth.CurrentPwdVersion) (mkAuthOptions true (Some Authority.Check)).

Definition limited : Middleware := RateLimit (d_rate deps).

Definition sudo : Middleware := SudoMiddleware (jwt svc).

(** The TOTP gate, when it is enabled. *)
Definition totp_gate : list Middleware :=
  match d_totp_free deps with Some n => [Concurrency (Some n)] | None => [] end.

Definition auth_path (p : list string) : list string := ["api"; "v1"; "auth"] ++ p.
Definition admin_path (p : list string) : list string := ["api"; "v1"; "admin"] ++ p.

Definition healthz : Handler := fun c => Respond c 200 "ok" DNone.

(** The readiness check pings the database. *)
Definition readyz : Handler := fun c =>
  let! down := fault in if down : bool then Respond c 503 "not ready" DNone else Respond c 200 "ok" DNone.

Definition operational : list Route :=
  [ mkRoute "GET" ["healthz"] [] healthz; mkRoute "GET" ["readyz"] [] readyz ].

(** A public endpoint of the authentication group: rate limited. *)
Definition public (path : string) (h : Handler) : Route := mkRoute "POST" (auth_path [path]) [limited] h.

Definition public_routes : list Route :=
  [ public "register" (Register svc captcha); public "login" (Login svc); public "refresh-token" (Refresh svc);
    public "forgot-password" (ForgotPassword svc); public "reset-password" (ResetPassword svc);
    public "verify-email" (VerifyEmail svc); public "resend-verification" (ResendVerifyEmail svc);
    mkRoute "POST" (auth_path ["change-email"; "confirm"]) [limited] (ConfirmChangeEmail svc) ].

(** The Google service of this deployment, when there is one. *)
Definition google : option OAuthService :=
  (fun cfg => mkOAuth svc (Some cfg) (ClientID cfg)) <$> d_google deps.

Definition google_routes : list Route :=
  match google with
  | None => []
  | Some o =>
      [ mkRoute "GET" (auth_path ["google"; "login"]) [limited] (OAuthHandlers.GoogleLogin o);
        mkRoute "GET" (auth_path ["google"; "callback"]) [limited] (OAuthHandlers.GoogleCallback o) ]
  end.

Definition authed (meth : string) (path : list string) (through : list Middleware) (h : Handler) : Route :=
  mkRoute meth (auth_path path) (authMW :: through) h.

Definition authed_routes : list Route :=
  [ authed "POST" ["logout"] [] (Logout svc);
    authed "POST" ["logout-all"] [] (LogoutAll svc);
    authed "POST" ["change-password"] [] (ChangePassword svc);
    authed "POST" ["set-password"] [] (SetPassword svc);
    authed "GET" ["me"] [] Me;
    authed "DELETE" ["me"] [limited] (EraseMe svc);
    authed "GET" ["me"; "audit-log"] [limited] MyAuditLog;
    authed "POST" ["change-email"; "request"] [limited] (RequestChangeEmail svc);
    authed "POST" ["deactivate"] [limited] (DeactivateAccount svc);
    authed "GET" ["sessions"] [] ListSessions;
    authed "DELETE" ["sessions"; ":id"] [] (RevokeSession svc);
    authed "GET" ["trusted-devices"] [limited] ListDevices;
    authed "DELETE" ["trusted-devices"; ":id"] [limited] (RevokeDevice svc) ].

Definition google_authed_routes : list Route :=
  match google with
  | None => []
  | Some o => [ authed "DELETE" ["oauth"; ":provider"] [limited] (OAuthHandlers.Unlink o) ]
  end.

Definition mfa_pending_routes : list Route :=
  [ mkRoute "POST" (auth_path ["mfa"; "login-verify"])
      (MFAPendingMiddleware (jwt svc) :: limited :: totp_gate) (CompleteMFALogin svc) ].

Definition mfa_routes : list Route :=
  [ authed "POST" ["mfa"; "totp"; "enable"] (limited :: totp_gate) (EnableTOTP svc);
    authed "POST" ["mfa"; "totp"; "verify"] (limited :: totp_gate) (VerifyTOTP svc);
    authed "POST" ["mfa"; "totp"; "validate"] (limited :: totp_gate) (ValidateTOTP svc);
    authed "POST" ["mfa"; "totp"; "recovery-codes"] (limited :: totp_gate) (ViewRecoveryCodes svc);
    authed "POST" ["mfa"; "totp"; "disable"] (limited :: totp_gate) (DisableTOTP svc);
    authed "GET" ["mfa"; "methods"] [limited] GetMethods;
    authed "POST" ["mfa"; "totp"; "recovery-codes"; "regenerate"] [limited; sudo] (RegenerateRecoveryCodes svc) ].

(** The passkey service of this deployment, when there is one ([cmd/server/main.go];
    a relying party the library refuses stops the server). *)
Definition passkeys : option passkeyService :=
  if bool_decide (RPID (d_passkey deps) = "") then None else
  match Passkey.NewPasskeyService (audits svc) (Some svc) (d_passkey deps) with
  | Ok p => Some p
  | Error _ => None
  end.

Definition passkey_routes : list Route :=
  match passkeys with
  | None => []
  | Some p =>
      [ authed "POST" ["mfa"; "passkey"; "register"; "challenge"] [limited] (PasskeyHandlers.BeginRegistration p);
        authed "POST" ["mfa"; "passkey"; "register"; "verify"] [limited] (PasskeyHandlers.FinishRegistration p);
        authed "POST" ["mfa"; "passkey"; "authenticate"; "challenge"] [limited] (PasskeyHandlers.BeginAuthentication p);
        authed "POST" ["mfa"; "passkey"; "authenticate"; "verify"] [limited] (PasskeyHandlers.FinishAuthentication p);
        authed "GET" ["mfa"; "passkeys"] [] PasskeyHandlers.ListPasskeys;
        authed "DELETE" ["mfa"; "passkeys"; ":id"] [limited; sudo] (PasskeyHandlers.Revoke p) ]
  end.

Definition admin (meth : string) (path : list string) (permission : string) (h : Handler) : Route :=
  mkRoute meth (admin_path path) [authMW; limited; RequirePermission permission] h.

Definition admin_routes : list Route :=
  [ admin "GET" ["users"] "users:read" ListUsers;
    admin "POST" ["users"; ":id"; "lock"] "users:write" (LockUser svc);
    admin "POST" ["users"; ":id"; "unlock"] "users:write" (UnlockUser svc);
    admin "POST" ["users"; ":id"; "force-logout"] "users:write" (ForceLogout svc);
    admin "GET" ["sessions"] "sessions:read" AdminListSessions;
    admin "GET" ["audit-log"; "export"] "audit:export" AdminEndpoints.ExportAuditLog;
    admin "POST" ["webhooks"] "webhooks:write" (AdminEndpoints.CreateEndpoint Webhook.NewWebhookService) ].

(** Other services ask about a token here; the handler checks their key itself. *)
Definition identity_routes : list Route :=
  [ mkRoute "POST" ["api"; "v1"; "identity"; "introspect"] []
      (Introspection.Handle (Introspection.mkIntrospector (jwt svc) (d_state deps))) ].

Definition Register_ : list Route :=
  operational ++ identity_routes ++ public_routes ++ google_routes ++ authed_routes ++ google_authed_routes ++ mfa_pending_routes ++ mfa_routes ++ passkey_routes ++ admin_routes.

(** *** Matching *)

(** A segment that starts with a colon matches any non-empty one. *)
Definition is_param (seg : string) : bool := has_prefix ":" seg.

(** The parameter of the path, if it matches. *)
Fixpoint match_path (pat path : list string) (param : string) : option string :=
  match pat, path with
  | [], [] => Some param
  | p :: pat, seg :: path =>
      if is_param p then (if bool_decide (seg = "") then None else match_path pat path seg)
      else if bool_decide (p = seg) then match_path pat path param else None
  | _, _ => None
  end.

Fixpoint find_route (rs : list Route) (meth : string) (path : list string) : option (Route * string) :=
  match rs with
  | [] => None
  | rt :: rs =>
      match (if bool_decide (rt_method rt = meth) then match_path (rt_path rt) path "" else None) with
      | Some param => Some (rt, param)
      | None => find_route rs meth path
      end
  end.

Definition with_param (p : string) (c : GinCtx) : GinCtx :=
  mkGin (g_req c) (g_ctx c) (g_tenant c) (g_user c) (g_role c) (g_email c) (g_jti c) (g_sid c) (g_perms c)
    (g_sudo c) (g_headers c) p.

Definition global : list Middleware :=
  TenantMiddleware ::
  (match d_cors deps with [] => [] | origins => [CORS origins] end) ++
  [requestLogger; SecurityHeaders (d_hsts deps); MaxBytes (d_max_body deps)].

Definition not_found : Handler := fun c => Respond c 404 "404 page not found" DNone.

Definition route_handler (meth : string) (path : list string) : Handler := fun c =>
  match find_route Register_ meth path with
  | Some (rt, param) => chain (rt_through rt) (rt_handler rt) (with_param param c)
  | None => not_found c
  end.

(** A fresh request: no key set, the background context. *)
Definition start (r : Request) : GinCtx :=
  mkGin r Background None None None None None None None None [] "".

Definition serve_http (r : Request) : M Response :=
  chain global (route_handler (r_method r) (r_path r)) (start r).

End S.
End Routes.
