(* ===== verification/Wiring.v ===== *)
(** * The dependency graph ([run] of [cmd/server/main.go])

    How a configuration that passed the start-up policy becomes the services, the
    middlewares and the router: the constructors' own defaults included.  [start]
    is the whole of [run]: environment in, router out. *)

From S2P Require Import Prelude Store Models Codec Config World Jwt AuditTrail Common Totp Auth OAuth Passkey Http Routes Boot.

Open Scope Z_scope.

(** The configuration records of the services, from those of the loader. *)
Module Wiring.
Import Config.
Section S.
Context {FL : Floats}.
Abbreviation Cfg := (Config.Config float64).

Definition authCfg (c : Cfg) : Totp.AuthConfig :=
  let a := Config.Auth c in
  Totp.mkAuthConfig (auth_MaxLoginAttempts a) (auth_LoginLockoutDuration a) (auth_MaxLockoutMultiplier a)
    (auth_RequireEmailVerified a) (auth_TOTPMaxAttempts a) (auth_TOTPAttemptWindow a)
    (Z.to_nat (auth_RecoveryCodeCount a)) (auth_NotifyNewIPLogin a).

Definition rlCfg (c : Cfg) : Auth.RateLimitConfig :=
  let r := RateLimit c in
  Auth.mkRateLimitConfig (rl_LoginPerAccountMax _ r) (rl_LoginWindow _ r) (rl_RegisterPerIPMax _ r)
    (rl_RegisterWindow _ r) (rl_VerifyResendPerEmailMax _ r) (rl_VerifyResendWindow _ r)
    (rl_VerifyResendGlobalMax _ r) (rl_VerifyResendGlobalWindow _ r) (rl_VerifyResendPerIPMax _ r)
    (rl_VerifyResendPerIPWindow _ r) (rl_LoginCaptchaAfterFails _ r).

Definition jwtCfg (c : Cfg) : Auth.JWTConfig :=
  let j := JWT c in
  Auth.mkJWTConfig (jwt_AccessTTL j) (jwt_RefreshTTL j) (jwt_ResetTTL j) (jwt_VerifyTTL j) (jwt_MFAPendingTTL j)
    (jwt_SudoTTL j).

(** [NewAuditRepository] with its two options, and [NewAsyncAuditWriter] over it. *)
Definition NewAuditRepository (k : Trail.Keys) (capacity : Z) : AuditRepository :=
  mkAuditRepository k (if 0 <? capacity then capacity else 10000).

Definition NewAsyncAuditWriter (r : AuditRepository) (a : Config.AuditConfig) : Writer.AsyncAuditWriter :=
  Writer.mkWriter r (au_BufferSize a <=? 0).

(** [NewTOTPService]: what is not positive takes its default. *)
Definition NewTOTPService (w : Writer.AsyncAuditWriter) (issuer : string) (cfg : Totp.AuthConfig) (m : JWTManager)
    : Totp.TOTPService :=
  Totp.mkTOTPService w issuer
    (Totp.mkAuthConfig (MaxLoginAttempts cfg) (LoginLockoutDuration cfg) (MaxLockoutMultiplier cfg)
       (RequireEmailVerified cfg)
       (if TOTPMaxAttempts cfg <=? 0 then 5 else TOTPMaxAttempts cfg)
       (if TOTPAttemptWindow cfg <=? 0 then 5 * minute else TOTPAttemptWindow cfg)
       (if (RecoveryCodeCount cfg =? 0)%nat then 10%nat else RecoveryCodeCount cfg)
       (NotifyNewIPLogin cfg)) m.

(** [NewAuthService]: a cost bcrypt does not take becomes its default. *)
Definition NewAuthService (w : Writer.AsyncAuditWriter) (m : JWTManager) (acfg : Totp.AuthConfig)
    (rcfg : Auth.RateLimitConfig) (jcfg : Auth.JWTConfig) (t : Totp.TOTPService) (breached : bool) (score cost : Z)
    : AuthService :=
  mkAuthService w m acfg rcfg jcfg t breached score
    (if (cost <? Hash.MinCost) || (Hash.MaxCost <? cost) then Hash.DefaultCost else cost).

(** [NewRateLimiter] over the shared store. *)
Definition NewRateLimiter (rps : float64) (burst : Z) : Middleware.RateLimiter :=
  Middleware.mkRateLimiter burst
    (if is_positive rps && (0 <? burst) then Z.max second (time_of burst rps) else second) true.

(** [NewConcurrencyLimiter]: how many validations may run at once; no limit for none. *)
Definition NewConcurrencyLimiter (max : Z) : option nat := if max <=? 0 then None else Some (Z.to_nat max).

(** The services and the router's dependencies of a deployment. *)
Definition services (d : Boot.Deployment) : AuthService :=
  let c := Boot.d_config d in
  let w := NewAsyncAuditWriter (NewAuditRepository (Boot.d_audit d) (au_MaxPending (Audit c))) (Audit c) in
  NewAuthService w (Boot.d_jwt d) (authCfg c) (rlCfg c) (jwtCfg c)
    (NewTOTPService w (jwt_Issuer (JWT c)) (authCfg c) (Boot.d_jwt d))
    (sec_BreachedPasswordCheck (Security c))
    (if 0 <? sec_MinPasswordScore (Security c) then sec_MinPasswordScore (Security c) else 0)
    (auth_BcryptCost (Config.Auth c)).

Definition deps (d : Boot.Deployment) : Deps :=
  let c := Boot.d_config d in
  let wa := WebAuthn c in
  mkDeps (services d) (Boot.d_captcha d) (NewRateLimiter (rl_RPS _ (RateLimit c)) (rl_Burst _ (RateLimit c)))
    (NewConcurrencyLimiter (sec_TOTPMaxConcurrent (Security c))) (sec_MaxRequestBodyBytes (Security c))
    (HSTSSeconds (Server c)) (CORSAllowedOrigins (Server c))
    (NewGoogleOAuthClient (google_ClientID (GoogleOAuth c)) (google_ClientSecret (GoogleOAuth c))
       (google_RedirectURL (GoogleOAuth c)))
    (mkPasskeyConfig (wa_RPDisplayName wa) (wa_RPID wa) (wa_RPOrigins wa) (wa_AttestationPreference wa))
    (Boot.d_state d).

(** The whole of [run]: from the environment to what the router is registered with. *)
Definition start {ST : Store} {E : Ext} (now : Z) (s : Boot.Surroundings) (e : Env)
    : KeyMaterial.BootError + (Boot.Deployment * Deps) :=
  match Boot.run now s e with inl err => inl err | inr d => inr (d, deps d) end.

End S.
End Wiring.
