(* ===== verification/Demo.v ===== *)
(** * A deployment to run the model on

    The concrete service, database and worlds of the witnesses: two tenants, a
    user of each, a session with its refresh token, under the strict token
    contract, over the in-memory store. *)

From S2P Require Import Prelude Store Models World Json Sql Repos Jwt JwtSpec AuditTrail AuditSpec Common Identity Totp Auth OAuth Passkey Account Admin Webhook.

Open Scope Z_scope.

(** One-time passwords: one code is always right; a seal is a prefix. *)
Definition demo_otp : Otp := {|
  totp_generate n issuer email := ("secret" +:+ fmt_d (Z.of_nat n), issuer +:+ ":" +:+ email);
  totp_valid _ code secret := bool_decide (code = "123456");
  seal n plain := "sealed:" +:+ plain;
  unseal s := if has_prefix "sealed:" s then Some (String.substring 7 (String.length s - 7) s) else None
|}.

Definition demo_google : oauth2Config := mkGoogle "finn-client" "finn-secret" "https://auth.finn.io/callback".

(** Google: a code is its identity token, whose text names the account and the
    nonce as ["carol:n"]; every address is verified. *)
Definition demo_google_lib : GoogleLib := {|
  AuthCodeURL cfg state params := "https://accounts.google.com/?state=" +:+ state;
  Exchange cfg t code params := Some [("id_token", JText code)];
  idtoken_Validate t raw audience :=
    match split_on ":" raw with
    | [name; nonce] => Some ("sub-" +:+ name,
        [("email", JText (name +:+ "@finn.io")); ("email_verified", JTrue); ("name", JText name);
         ("nonce", JText nonce)])
    | _ => None
    end;
  duplicate_text email username := "Duplicate entry for key 'users.idx_users_tenant_email'";
  rand_base64url n := "v" +:+ fmt_d (Z.of_nat n);
  sha256_base64url s := s
|}.

(** WebAuthn: a session is its challenge; a response repeats it and names a
    credential, and a login presents the authenticator's counter. *)
Definition text_field (name : string) (o : Obj) : string :=
  match Json.field name o with Some (JText t) => t | _ => "" end.

Definition demo_challenge (n : nat) : option (JV * string) :=
  let c := "challenge-" +:+ fmt_d (Z.of_nat n) in
  Some (JMembers [("publicKey", JMembers [("challenge", JText c)])], c).

(** The counter of a login: a stored one that is not exceeded is a clone's. *)
Definition demo_count (n : Z) (c : Credential) : Credential :=
  let stale := (n <=? c_SignCount c) && negb ((n =? 0) && (c_SignCount c =? 0)) in
  mkCredential (c_ID c) (c_PublicKey c) (c_AttestationType c) (c_AttestationFormat c) (c_Transport c)
    (if stale then c_SignCount c else n) stale.

Definition demo_login (u : WebauthnUser) (session : string) (o : Obj) : option Credential :=
  if bool_decide (text_field "challenge" o = session) then
    demo_count (match Json.field "count" o with Some (JInt n) => n | _ => 0 end) <$>
      List.find (fun c => bool_decide (c_ID c = text_field "id" o)) (WebAuthnCredentials u)
  else None.

Definition demo_webauthn : WebAuthnLib := {|
  SessionData := string;
  zero_session := "";
  session_json s := JMembers [("challenge", JText s)];
  session_of v := match v with JMembers o => Some (text_field "challenge" o) | JNull => Some "" | _ => None end;
  webauthn_New cfg := negb (bool_decide (RPOrigins cfg = []));
  web_BeginRegistration _ _ n := demo_challenge n;
  web_FinishRegistration _ _ session _ body :=
    match body with
    | Some o =>
        if bool_decide (text_field "challenge" o = session) then
          Some (mkCredential (text_field "id" o) ("pk:" +:+ text_field "id" o) "none" "none" ["internal"] 0 false)
        else None
    | None => None
    end;
  web_BeginLogin _ u n := match WebAuthnCredentials u with [] => None | _ => demo_challenge n end;
  web_FinishLogin _ u session _ body := match body with Some o => demo_login u session o | None => None end
|}.

#[export] Instance demo_webauthn_laws : WebAuthnLaws demo_webauthn.
Proof.
  split; [done|done|]. intros cfg u session t [o|] c; simpl; [|done]. unfold demo_login.
  case_bool_decide; [|done]. destruct (List.find _ _) as [c'|] eqn:Hf; [|done]. intros [= <-].
  apply find_some in Hf as [Hin _]. by apply (in_map c_ID) in Hin.
Qed.

Definition demo_local : Local := {|
  rfc3339_local t := fmt_d (t / second);
  like pat v := bool_decide (pat = "%" +:+ v +:+ "%")
|}.

(** A host that resolves to a public address once and to a private one afterwards. *)
Definition demo_network : Network := {|
  url_parse s := if has_prefix "https://" s then Some (mkURL "https" "hooks.example" "hooks.example") else None;
  lookup_ip n _ := if (n <=? 1)%nat then Some [[93; 184; 216; 34]] else Some [[10; 0; 0; 1]];
  exchange _ _ _ := inr 503;
  dial_refused _ _ := "restricted";
  hmac_sha256 k m := k +:+ m
|}.

(** Importing this module makes the concrete choices implicit. *)
Module Choices.
#[export] Existing Instance mem_store.
#[export] Existing Instance toy_ext.
#[export] Existing Instance Toy.lib.
#[export] Existing Instance demo_otp.
#[export] Existing Instance demo_google_lib.
#[export] Existing Instance demo_webauthn.
#[export] Existing Instance demo_local.
#[export] Existing Instance demo_network.
End Choices.

Module Demo.
Import Choices.

Definition t0 : Z := 1700000000 * second.

Definition auth_config : AuthConfig :=
  mkAuthConfig 5 (15 * minute) 8 true 5 (15 * minute) 2 true.

Definition rate_limits : RateLimitConfig :=
  mkRateLimitConfig 10 (15 * minute) 5 hour 3 hour 100 hour 5 hour 3.

Definition jwt_config : JWTConfig :=
  mkJWTConfig (15 * minute) (720 * hour) (15 * minute) (24 * hour) (5 * minute) (5 * minute).

Definition writer : Writer.AsyncAuditWriter := Writer.mkWriter (mkAuditRepository demo_keys 100) false.

Definition totp_service : Totp.TOTPService := Totp.mkTOTPService writer "FinnApiGo" auth_config Toy.manager.

Definition service : AuthService :=
  mkAuthService writer Toy.manager auth_config rate_limits jwt_config totp_service true 3 12.

Definition alice : User.row :=
  User.mk 1 "default" "alice" "alice@finn.io" "$2a$Secret123" "Alice" "user" true true 0 None 0 false 0 t0.

Definition bob : User.row :=
  User.mk 2 "acme" "bob" "bob@acme.io" "$2a$Hunter222" "Bob" "user" true true 0 None 0 false 0 t0.

Definition alice_session : Session.row :=
  Session.mk "s1" "default" 1 "10.0.0.1" "curl" "curl" "Unknown" false t0 (t0 + 720 * hour) t0.

Definition alice_token : RefreshToken.row :=
  RefreshToken.mk 5 1 "r1" (t0 + 720 * hour) false "10.0.0.1" "curl" "curl" "Unknown" t0 "s1" t0.

Definition used_token : RefreshToken.row :=
  RefreshToken.mk 4 1 "r0" (t0 + 720 * hour) true "10.0.0.1" "curl" "curl" "Unknown" t0 "s1" t0.

Definition tenants_ : list Tenant.row := [Tenant.mk "default" "default" true; Tenant.mk "acme" "acme" true].

Definition db : DB :=
  mkDB [alice; bob] [used_token; alice_token] [alice_session] [] [] [] [] [] [] [] tenants_ [] [] [] [] [] [] [] [] [] [] 10.

Definition start : World := mkWorld t0 [] 0 0 db Mem.NewInMemoryStore None [].

(** The claims of an access token of alice's session. *)
Definition claims : Claims :=
  mkClaims 1 "user" "alice@finn.io" TokenTypeAccess 0 0 1 "s1" "default" (Some []) Issuer_ "1" [FinnAudience]
    (Some (t0 + 15 * minute)) (Some t0) (Some t0) "jti-1".

Definition ctx : Ctx := mkCtx "default" None false "" false.

End Demo.
