(* ===== verification/IdentitySpec.v ===== *)
(** * What the access-state authority decides

    [Check] accepts exactly the tokens that still stand: [standing] is the
    specification, [check_exact] the equivalence; a denial or a suspension is
    seen by every later check. *)

From stdpp Require Import sorting.
From S2P Require Import Prelude Store Models World Sql Repos Jwt AuditTrail Common Identity Demo.

Open Scope Z_scope.
Open Scope monad_scope.

(** ** Permission sets *)

Section Grants.
Import Authority.

Lemma insert_by_In x y l : In x (insert_by String.leb y l) <-> x = y \/ In x l.
Proof.
  induction l as [|z l IH]; simpl; [intuition|]. destruct (String.leb y z); simpl; [intuition|].
  rewrite IH. intuition.
Qed.

Lemma sorted_In x l : In x (sorted l) <-> In x l.
Proof.
  unfold sorted. induction l as [|y l IH]; simpl; [done|]. rewrite insert_by_In, IH. intuition.
Qed.

Lemma leb_le a b : String.leb a b = true <-> String.le a b.
Proof. unfold String.le. by rewrite Is_true_true. Qed.

Lemma insert_by_sorted y l : StronglySorted String.le l -> StronglySorted String.le (insert_by String.leb y l).
Proof.
  induction l as [|z l IH]; intros Hs; simpl; [by constructor|].
  inversion Hs as [|? ? Hl Hz]; subst. destruct (String.leb y z) eqn:Hy.
  - apply leb_le in Hy. constructor; [done|]. constructor; [done|].
    eapply list.Forall_impl; [done|]. intros x Hx. by transitivity z.
  - constructor; [by apply IH|]. apply list.Forall_forall. intros x Hx. apply list_elem_of_In in Hx.
    apply insert_by_In in Hx as [->|Hx].
    + destruct (String.leb_total y z) as [H|H]; [congruence|by apply leb_le].
    + apply list_elem_of_In in Hx. by apply (proj1 (list.Forall_forall _ _) Hz).
Qed.

Lemma sorted_sorted l : StronglySorted String.le (sorted l).
Proof. unfold sorted. induction l; simpl; [constructor|by apply insert_by_sorted]. Qed.

Lemma compact_cons a b l :
  compact (a :: b :: l) = if bool_decide (a = b) then compact (b :: l) else a :: compact (b :: l).
Proof. done. Qed.

Lemma compact_In x l : In x (compact l) <-> In x l.
Proof.
  induction l as [|a [|b l] IH]; [done|done|]. rewrite compact_cons. case_bool_decide as Hab.
  - subst. rewrite IH. simpl. intuition.
  - change (In x (a :: compact (b :: l))) with (a = x \/ In x (compact (b :: l))). rewrite IH. done.
Qed.

Lemma compact_sorted l : StronglySorted String.le l ->
  StronglySorted String.le (compact l) /\ NoDup (compact l).
Proof.
  induction l as [|a [|b l] IH]; intros Hs; [by simpl; split; constructor| |].
  { split; [done|]. apply list.NoDup_cons. split; [apply not_elem_of_nil|constructor]. }
  inversion Hs as [|? ? Hl Ha]; subst. destruct (IH Hl) as [H1 H2]. rewrite compact_cons.
  case_bool_decide as Hab; [by split|]. split.
  - constructor; [done|]. apply list.Forall_forall. intros x Hx. apply list_elem_of_In, (proj1 (compact_In _ _)) in Hx.
    apply list_elem_of_In in Hx. by apply (proj1 (list.Forall_forall _ _) Ha).
  - apply list.NoDup_cons. split; [|done]. intros Hx. apply list_elem_of_In, (proj1 (compact_In _ _)) in Hx.
    destruct Hx as [->|Hx]; [done|]. apply Hab. apply list_elem_of_In in Hx.
    inversion Hl as [|? ? _ Hb]; subst. apply (anti_symm String.le).
    + apply (proj1 (list.Forall_forall _ _) Ha). by left.
    + by apply (proj1 (list.Forall_forall _ _) Hb).
Qed.

Lemma same_grants_spec a b : same_grants a b = true <-> (forall x, In x a <-> In x b).
Proof.
  unfold same_grants. rewrite bool_decide_eq_true. split.
  - intros H x. rewrite <- (sorted_In x a), <- (sorted_In x b), <- compact_In, H. apply compact_In.
  - intros H. destruct (compact_sorted _ (sorted_sorted a)) as [A1 A2].
    destruct (compact_sorted _ (sorted_sorted b)) as [B1 B2].
    apply (StronglySorted_unique String.le); [done|done|]. apply list.NoDup_Permutation; [done|done|].
    intros x. rewrite !list_elem_of_In, !compact_In, !sorted_In. apply H.
Qed.

End Grants.

(** ** The specification of [Check] *)

Section Check.
Context {ST : Store}.
Import Authority.

Definition user_of (c : Claims) (u : User.row) : bool :=
  (User.ID u =? UserID c) && bool_decide (User.TenantID u = TenantID c).

Definition session_row (c : Claims) (s : Session.row) : bool :=
  bool_decide (Session.ID s = SID c) && bool_decide (Session.TenantID s = TenantID c) &&
  (Session.UserID s =? UserID c).

(** Permission [p] is granted to the token's user by a role of its tenant. *)
Definition holds_grant (c : Claims) (d : DB) (p : string) : Prop :=
  exists r, In r (permissions d) /\ Permission.Name r = p /\
    RBACRepository.granted (TenantID c) (UserID c) d r = true.

Record standing_db (c : Claims) (t : Z) (d : DB) : Prop := {
  st_user : exists u, first_where (user_of c) (users d) = Some u /\ User.IsActive u = true /\
      User.AdminSuspended u = false /\ User.PwdVersion u = PwdVer c /\ User.AuthEpoch u = AuthEpoch c;
  st_tenant : exists x, first_where (fun x => bool_decide (Tenant.ID x = TenantID c)) (tenants d) = Some x /\
      Tenant.IsActive x = true;
  st_session : exists s, first_where (session_row c) (sessions d) = Some s /\
      Session.Revoked s = false /\ t < Session.ExpiresAt s;
  st_undenied : forall r, In r (access_revocations d) ->
      ~ (AccessRevocation.TenantID r = TenantID c /\ AccessRevocation.JTI r = ID c);
  st_grants : forall p, holds_grant c d p <-> In p (default [] (Permissions c))
}.

Record standing (c : Claims) (w : World) : Prop := {
  st_named : TenantID c <> "" /\ SID c <> "" /\ ID c <> "";
  st_listed : kv_live (w_now w) (w_kv w) ("denylist:jti:" +:+ ID c) = None /\
              kv_live (w_now w) (w_kv w) ("denylist:sid:" +:+ SID c) = None;
  st_db : standing_db c (w_now w) (w_db w)
}.

(** Without faults a statement reads the world as it is. *)
Definition calm (w : World) : Prop := w_faults w = [].

Lemma stmt_calm {A} (f : World -> Res A * World) w : calm w -> stmt f w = f w.
Proof. unfold calm, stmt, bind, fault. by intros ->. Qed.

Lemma First_calm {R} `{TableOf R} (p : DB -> R -> bool) w : calm w ->
  First p w = (match first_where (p (w_db w)) (rows_of (w_db w)) with
               | Some r => Ok r | None => Error ErrRecordNotFound end, w).
Proof. intros Hc. unfold First. rewrite stmt_calm by done. unfold get_rows. by destruct (first_where _ _). Qed.

Lemma Find_calm {R} `{TableOf R} (p : DB -> R -> bool) w : calm w ->
  Find p w = (Ok (rows_where (p (w_db w)) (rows_of (w_db w))), w).
Proof. intros Hc. unfold Find. by rewrite stmt_calm. Qed.

Lemma Count_calm {R} `{TableOf R} (p : DB -> R -> bool) w : calm w ->
  Count p w = (Ok (Z.of_nat (count_where (p (w_db w)) (rows_of (w_db w)))), w).
Proof. intros Hc. unfold Count. by rewrite stmt_calm. Qed.

Lemma required_calm {R} `{TableOf R} (p : DB -> R -> bool) w : calm w ->
  required p w = (match first_where (p (w_db w)) (rows_of (w_db w)) with
                  | Some r => Ok r | None => Error ErrInactive end, w).
Proof.
  intros Hc. unfold required, bind, try_. rewrite First_calm by done. by destruct (first_where _ _).
Qed.

Lemma required_Ok {R} `{TableOf R} (p : DB -> R -> bool) w r w' :
  required p w = (Ok r, w') ->
  same_state w w' /\ first_where (p (w_db w)) (rows_of (w_db w)) = Some r.
Proof.
  intros Hr. apply bind_Ok in Hr as (x & w1 & Hx & Hr). apply try_Ok in Hx. destruct x as [x|e].
  - injection Hr as <- <-. by apply First_Ok.
  - by destruct (decide _).
Qed.

Lemma granted_names ctx c d :
  FromContext ctx = TenantID c ->
  (forall p, holds_grant c d p <-> In p (default [] (Permissions c))) <->
  same_grants (remove_dups (map Permission.Name (rows_where (RBACRepository.granted (FromContext ctx) (UserID c) d)
    (permissions d)))) (default [] (Permissions c)) = true.
Proof.
  intros Ht. rewrite same_grants_spec, Ht.
  assert (forall p, holds_grant c d p <-> In p (remove_dups (map Permission.Name
    (rows_where (RBACRepository.granted (TenantID c) (UserID c) d) (permissions d))))) as Hp.
  { intros p. rewrite <- list_elem_of_In, elem_of_remove_dups, list_elem_of_In, in_map_iff. unfold rows_where.
    split.
    - intros (r & Hin & Hn & Hg). exists r. split; [done|]. by apply filter_In.
    - intros (r & Hn & Hin). apply filter_In in Hin as [Hin Hg]. by exists r. }
  split; intros H p; [rewrite <- Hp|rewrite Hp]; apply H.
Qed.

(** What the snapshot accepts stands, whatever fails. *)
Lemma snapshot_Ok ctx c w w' : FromContext ctx = TenantID c ->
  snapshot ctx c w = (Ok tt, w') -> standing_db c (w_now w) (w_db w).
Proof.
  intros Ht H. apply bind_Ok in H as (u & w1 & Hu & H). apply required_Ok in Hu as [(D1 & _ & _ & N1 & _) Hu].
  destruct (live_user c u) eqn:Hl; [|done]. cbn [negb] in H.
  apply bind_Ok in H as (x & w2 & Hx & H). apply required_Ok in Hx as [(D2 & _ & _ & N2 & _) Hx].
  destruct (Tenant.IsActive x) eqn:Ha; [|done]. cbn [negb] in H.
  apply bind_Ok in H as (s & w3 & Hs & H). apply required_Ok in Hs as [(D3 & _ & _ & N3 & _) Hs].
  apply bind_Ok in H as (t & w4 & Hn & H). apply now_Ok in Hn as [-> (D4 & _ & _ & N4 & _)].
  destruct (_ || _) eqn:Hr; [done|]. apply bind_Ok in H as (k & w5 & Hk & H).
  apply Count_Ok in Hk as [(D5 & _) ->]. destruct (negb _) eqn:Hz in H; [done|]. bool_prop.
  apply bind_Ok in H as (perms & w6 & Hp & H). destruct (negb _) eqn:Hg in H; [done|]. bool_prop.
  apply bind_Ok in Hp as (ps & w7 & Hf & Hp). apply Find_Ok in Hf as [_ ->]. injection Hp as <- _.
  unfold live_user in Hl. bool_prop. simpl in *.
  rewrite D5, D4, D3, D2, D1 in *. rewrite N3, N2, N1 in *. split.
  - by exists u.
  - by exists x.
  - exists s. split; [done|]. split; [done|]. lia.
  - intros r Hin [Hrt Hrj]. change 0 with (Z.of_nat 0) in Hz. apply Nat2Z.inj in Hz.
    rewrite count_where_zero in Hz. specialize (Hz r Hin). rewrite Hrt, Hrj, !bool_decide_true in Hz; done.
  - by rewrite (granted_names ctx).
Qed.

(** What stands the snapshot accepts, when nothing fails. *)
Lemma snapshot_calm ctx c w : FromContext ctx = TenantID c -> calm w ->
  standing_db c (w_now w) (w_db w) -> snapshot ctx c w = (Ok tt, w).
Proof.
  intros Ht Hc [(u & Hu & U1 & U2 & U3 & U4) (x & Hx & X1) (s & Hs & S1 & S2) Hr Hg].
  unfold snapshot. unfold bind at 1. rewrite required_calm by done. simpl rows_of.
  change (fun u => (User.ID u =? UserID c) && bool_decide (User.TenantID u = TenantID c)) with (user_of c).
  rewrite Hu. unfold live_user. rewrite U1, U2, U3, U4, !Z.eqb_refl. cbn [negb andb].
  unfold bind at 1. rewrite required_calm by done. simpl rows_of. rewrite Hx, X1. cbn [negb].
  unfold bind at 1. rewrite required_calm by done. simpl rows_of.
  change (fun s => bool_decide (Session.ID s = SID c) && bool_decide (Session.TenantID s = TenantID c) &&
    (Session.UserID s =? UserID c)) with (session_row c).
  rewrite Hs. unfold bind at 1, now. rewrite S1. destruct (Z.ltb_spec (w_now w) (Session.ExpiresAt s)); [|lia].
  cbn [negb orb]. unfold bind at 1. rewrite Count_calm by done. simpl rows_of.
  replace (count_where _ _) with 0%nat.
  2: { symmetry. apply count_where_zero. intros r Hin. apply andb_false_iff.
       destruct (decide (AccessRevocation.TenantID r = TenantID c)) as [E1|]; [right|left];
         apply bool_decide_eq_false; [|done]. intros E2. by apply (Hr r Hin). }
  change (negb (Z.of_nat 0 =? 0)) with false. cbv iota. unfold RBACRepository.GetUserPermissions, bind. cbv beta.
  rewrite Find_calm by done.
  unfold ret. change (rows_of (w_db w)) with (permissions (w_db w)).
  rewrite (granted_names ctx) in Hg by done. by rewrite Hg.
Qed.

Lemma transaction_calm {A} (m : M A) w a : calm w -> m w = (Ok a, w) -> transaction m w = (Ok a, w).
Proof.
  intros Hc Hm. unfold transaction, fault. rewrite Hc, Hm. destruct (bool_decide _); [done|].
  unfold calm in Hc. by rewrite Hc.
Qed.

Lemma with_tenant_id t ctx : t <> "" -> FromContext (WithTenant t ctx) = t.
Proof.
  intros Ht. unfold FromContext, WithTenant. simpl. by rewrite !decide_False by (by rewrite ?decide_False).
Qed.

Lemma store_call_Ok {A} (f : bool -> Z -> kv -> A * kv) w a w' :
  Calls.kv_call f w = (Ok a, w') ->
  exists up, a = fst (f up (w_now w) (w_kv w)) /\ w_kv w' = snd (f up (w_now w) (w_kv w)) /\
    w_db w' = w_db w /\ w_now w' = w_now w /\ w_op w' = w_op w /\ w_mail w' = w_mail w.
Proof.
  intros H. apply bind_Ok in H as (b & w1 & Hb & H). apply fault_same in Hb as (D & K & Op_ & N & Ml).
  exists (negb b). rewrite <- K, <- N. destruct (f _ _ _) as [x s] eqn:Hf. injection H as <- <-.
  by repeat split.
Qed.

Lemma Check_Ok ctx c w w' : Check ctx c w = (Ok tt, w') ->
  (TenantID c <> "" /\ SID c <> "" /\ ID c <> "") /\ standing_db c (w_now w) (w_db w).
Proof.
  unfold Check. destruct (_ || _) eqn:Hn; [done|]. intros H. bool_prop. split; [done|].
  apply bind_Ok in H as (r & w1 & Hr & H). apply store_call_Ok in Hr as (up & _ & _ & D & N & _).
  destruct r as [[]|]; [done| |done].
  apply transaction_Ok in H as (wa & wb & (Da & _ & _ & Na & _) & H & _).
  apply snapshot_Ok in H; [|by apply with_tenant_id]. by rewrite <- D, <- Da, <- N, <- Na.
Qed.

(** An accepted token stands, whatever fails. *)
Lemma Check_stands {SL : StoreLaws ST} ctx c w w' : Check ctx c w = (Ok tt, w') -> standing c w.
Proof.
  intros Hrun. destruct (Check_Ok _ _ _ _ Hrun) as [Hn Hdb]. split; [done| |done].
  unfold Check in Hrun. destruct (_ || _); [done|].
  apply bind_Ok in Hrun as (r & w1 & Hr & H). apply store_call_Ok in Hr as (up & Hv & _).
  pose proof (revoked_value (w_now w) (ID c) (SID c) (w_kv w)) as Htrue.
  assert (r = Some false) as -> by (by destruct r as [[]|]).
  assert (fst (kv_revoked true (w_now w) (ID c) (SID c) (w_kv w)) = Some false) as Hf.
  { destruct up; [done|]. pose proof (revoked_down (w_now w) (ID c) (SID c) (w_kv w)) as [Hd|<-]; [|done].
    congruence. }
  rewrite Htrue in Hf. injection Hf as Hf. apply orb_false_iff in Hf as [H1 H2].
  bool_prop. by rewrite <- !eq_None_not_Some in *.
Qed.

End Check.

(** ** The properties *)

Section Claims.
Context {ST : Store}.

(** C5: when nothing fails, [Check] accepts a token exactly when it stands: it
    names its tenant, session and id; neither id is on the store's denylist; its
    user is active, not suspended, and at the token's password version and
    epoch; its tenant is active; its session is of that user, unrevoked and
    unexpired; its id was not durably denied; and the permissions it carries are
    exactly, as a set, those its user is granted. *)
Theorem check_exact {SL : StoreLaws ST} (ctx : Ctx) (c : Claims) (w : World) (Hcalm : calm w) :
  fst (Authority.Check ctx c w) = Ok tt <-> standing c w.
Proof.
  split.
  - intros H. destruct (Authority.Check ctx c w) as [res w'] eqn:Hrun. simpl in H. subst.
    by eapply Check_stands.
  - intros [(N1 & N2 & N3) [L1 L2] Hdb]. unfold Authority.Check.
    rewrite !bool_decide_false by done. cbn [orb].
    unfold Calls.store_Revoked, Calls.kv_call, bind, fault. rewrite Hcalm. cbn [negb].
    pose proof (revoked_value (w_now w) (ID c) (SID c) (w_kv w)) as Hv.
    destruct (kv_revoked true _ _ _ _) as [r k]. simpl in Hv. subst r.
    rewrite L1, L2. simpl. rewrite (transaction_calm _ _ tt); [done|done|].
    apply snapshot_calm; [by apply with_tenant_id|done|done].
Qed.

End Claims.

(** ** Witness *)

Import Choices.

Lemma check_exact_witness : standing Demo.claims Demo.start.
Proof.
  exact (proj1 (check_exact Demo.ctx Demo.claims Demo.start eq_refl)
    (ltac:(vm_reflexivity) : fst (Authority.Check Demo.ctx Demo.claims Demo.start) = Ok tt)).
Defined.
