(* ===== verification/Evolve.v ===== *)
(** * How the security state evolves

    One relation between databases that every service operation respects:
    users, sessions and refresh tokens are never dropped or re-identified,
    versions and epochs only grow, a revocation or a suspension is never undone,
    spent tokens and denied access tokens stay on record, a revoked passkey stays
    revoked; and rows of tenants
    outside a set [P] are untouched.  [P] is everything for monotonicity, the
    request's tenant for isolation. *)

From S2P Require Import Prelude Store Models World Sql Repos Jwt AuditTrail Common Identity Totp Auth OAuth Passkey Account Admin AuditSpec.

Open Scope Z_scope.
Open Scope monad_scope.

(** ** Tables that evolve *)

(** Rows change along [r], and every row not [mine] was there before. *)
Record table_ok {R} (r : R -> R -> Prop) (mine : R -> Prop) (l l' : list R) : Prop := {
  rows_evolve : evolves r l l';
  rows_foreign : forall x, In x l' -> mine x \/ In x l
}.

Section Tables.
Context {R : Type} (r : R -> R -> Prop) (mine : R -> Prop) {RP : PreOrder r}.

#[export] Instance table_preorder : PreOrder (table_ok r mine).
Proof.
  split.
  - intros l. split; [apply evolves_refl; typeclasses eauto|by right].
  - intros a b c [E1 F1] [E2 F2]. split; [eapply evolves_trans; eauto; typeclasses eauto|].
    intros x Hx. destruct (F2 x Hx) as [?|Hb]; [by left|by apply F1].
Qed.

Lemma table_update p f l :
  (forall x, p x = true -> mine (f x) /\ r x (f x)) -> table_ok r mine l (update_where p f l).
Proof.
  intros H. split.
  - apply evolves_update; [typeclasses eauto|]. intros x Hx. by apply H.
  - intros x (y & Hy & ->)%update_where_In. destruct (p y) eqn:Ep; [left; by apply H|by right].
Qed.

(** Every row stems from an earlier one, or is new. *)
Definition stems (new : R -> Prop) (l l' : list R) : Prop :=
  forall y, In y l' -> (exists x, In x l /\ r x y) \/ new y.

Lemma stems_refl new l : stems new l l.
Proof. intros y Hy. left. by exists y. Qed.

Lemma stems_update new p f l : (forall x, p x = true -> r x (f x)) -> stems new l (update_where p f l).
Proof.
  intros H y (x & Hx & ->)%update_where_In. left. exists x. split; [done|]. destruct (p x) eqn:Ep; [by apply H|done].
Qed.

Lemma stems_app (new : R -> Prop) l x : new x -> stems new l (l ++ [x]).
Proof. intros Hx y [Hy|[<-|[]]]%in_app_or; [by apply stems_refl|by right]. Qed.

Lemma stems_trans (new new' : R -> Prop) l1 l2 l3 :
  (forall x, new' x -> new x) -> (forall x y, r x y -> new x -> new y) ->
  stems new l1 l2 -> stems new' l2 l3 -> stems new l1 l3.
Proof.
  intros Hn Hr H1 H2 z Hz. destruct (H2 z Hz) as [(y & Hy & Hyz)|Hnew]; [|right; auto].
  destruct (H1 y Hy) as [(x & Hx & Hxy)|Hnew]; [|right; by eapply Hr].
  left. exists x. split; [done|]. by transitivity y.
Qed.

Lemma table_app l x : mine x -> table_ok r mine l (l ++ [x]).
Proof.
  intros Hx. split; [apply evolves_app; typeclasses eauto|].
  intros y [Hy|[<-|[]]]%in_app_or; [by right|by left].
Qed.

End Tables.

(** ** Well-formed tables *)

Section Keys.
Context {R K : Type} (key : R -> K).

Lemma unique_update p f l : (forall x, key (f x) = key x) ->
  NoDup (map key l) -> NoDup (map key (update_where p f l)).
Proof. intros Hf Hn. by rewrite map_update_where. Qed.

Lemma unique_app clash x l : (forall y, key x = key y -> clash x y = true) -> existsb (clash x) l = false ->
  NoDup (map key l) -> NoDup (map key (l ++ [x])).
Proof.
  intros Hk Hc Hn. rewrite map_app. apply NoDup_snoc; [done|]. rewrite in_map_iff. intros (y & Hy & Hin).
  apply not_true_iff_false in Hc. apply Hc, existsb_exists. exists y. split; [done|]. by apply Hk.
Qed.

Lemma unique_delete p l : NoDup (map key l) -> NoDup (map key (delete_where p l)).
Proof.
  unfold delete_where. induction l as [|x l IH]; simpl; [done|]. intros [Hx Hn]%list.NoDup_cons.
  destruct (negb (p x)); simpl; [|auto]. apply list.NoDup_cons. split; [|auto].
  rewrite list_elem_of_In, in_map_iff. intros (y & Hy & [Hin _]%List.filter_In). apply Hx.
  rewrite list_elem_of_In, in_map_iff. eauto.
Qed.

End Keys.

(** Row ids are unique and below the next id to be given. *)
Definition below {R} (id : R -> Z) (n : Z) (l : list R) : Prop :=
  NoDup (map id l) /\ forall r, In r l -> id r < n.

Section Below.
Context {R : Type} (id : R -> Z) (n : Z).

Lemma below_update p f l : (forall x, id (f x) = id x) -> below id n l -> below id n (update_where p f l).
Proof.
  intros Hf [Hn Hl]. split; [by apply unique_update|]. intros r (x & Hx & ->)%update_where_In.
  destruct (p x); rewrite ?Hf; auto.
Qed.

Lemma below_next l : below id n l -> below id (n + 1) l.
Proof. intros [Hn Hl]. split; [done|]. intros r Hr. specialize (Hl r Hr). lia. Qed.

Lemma below_app l x : id x = n -> below id n l -> below id (n + 1) (l ++ [x]).
Proof.
  intros Hx Hl. split.
  - rewrite map_app. apply NoDup_snoc; [apply Hl|]. rewrite in_map_iff. intros (y & Hy & Hin).
    apply (proj2 Hl) in Hin. lia.
  - intros r [Hr|[<-|[]]]%in_app_or; [by apply (proj2 (below_next l Hl))|lia].
Qed.

Lemma below_delete p l : below id n l -> below id n (delete_where p l).
Proof.
  intros [Hn Hl]. split; [by apply unique_delete|]. intros r [Hr _]%List.filter_In. auto.
Qed.

End Below.

Definition denied_key (r : AccessRevocation.row) : string * string :=
  (AccessRevocation.TenantID r, AccessRevocation.JTI r).

Definition identity_key (r : OAuthIdentity.row) : string * string :=
  (OAuthIdentity.Provider r, OAuthIdentity.ProviderUserID r).

(** The primary keys and unique indexes of the identity tables hold. *)
Record typed (d : DB) : Prop := {
  ty_users : below User.ID (next_id d) (users d);
  ty_names : NoDup (map UserRepository.username_key (users d));
  ty_emails : NoDup (map UserRepository.email_key (users d));
  ty_tokens : below RefreshToken.ID (next_id d) (refresh_tokens d);
  ty_hashes : NoDup (map RefreshToken.TokenHash (refresh_tokens d));
  ty_sessions : NoDup (map Session.ID (sessions d));
  ty_devices : NoDup (map TOTPDevice.UserID (totp_devices d));
  ty_used : NoDup (map UsedToken.JTI (used_tokens d));
  ty_denied : NoDup (map denied_key (access_revocations d));
  ty_identities : NoDup (map identity_key (oauth_identities d));
  ty_passkeys : NoDup (map PasskeyCredential.CredentialID (passkey_credentials d));
  ty_trusted : NoDup (map TrustedDevice.DeviceHash (trusted_devices d))
}.

(** A key two rows share is one they clash on. *)
Ltac clash_tac :=
  intros ? Hkey; unfold UserRepository.username_key, UserRepository.email_key, UserRepository.clash,
    RefreshTokenRepository.clash, SessionRepository.clash, TOTPRepository.device_clash,
    UsedTokenRepository.clash, Authority.revocation_clash, denied_key, identity_key,
    OAuthIdentityRepository.clash, PasskeyRepository.clash, TrustedDeviceRepository.clash in *; simpl in *;
  try (injection Hkey as ? ?);
  repeat match goal with |- context [bool_decide (?a = ?b)] => rewrite (bool_decide_true (a = b)) by congruence end;
  rewrite ?orb_true_r; first [done | by apply Z.eqb_eq].

(** One table changed as a primitive changes it. *)
Ltac typed_tac :=
  intros []; split; simpl; try assumption;
  solve [ by apply below_next
        | by apply below_app
        | apply below_update; [intros ?; by repeat case_match|assumption]
        | by apply below_delete
        | apply unique_update; [intros ?; by repeat case_match|assumption]
        | by apply unique_delete
        | eapply unique_app; [|eassumption|assumption]; clash_tac
        | match goal with H : UserRepository.unique _ = true |- _ =>
            unfold UserRepository.unique in H; bool_prop; assumption end ].

(** ** The relation *)

Section Evolution.
Context (P : string -> Prop).

Definition user_step (u v : User.row) : Prop :=
  User.ID v = User.ID u /\ User.TenantID v = User.TenantID u /\ User.PwdVersion u <= User.PwdVersion v /\
  User.AuthEpoch u <= User.AuthEpoch v /\
  (User.AdminSuspended u = true -> User.AdminSuspended v = true) /\
  (~ P (User.TenantID u) -> v = u).

Definition session_step (a b : Session.row) : Prop :=
  Session.ID b = Session.ID a /\ Session.TenantID b = Session.TenantID a /\
  Session.UserID b = Session.UserID a /\ Session.ExpiresAt b = Session.ExpiresAt a /\
  (Session.Revoked a = true -> Session.Revoked b = true) /\ (~ P (Session.TenantID a) -> b = a).

Definition token_step (a b : RefreshToken.row) : Prop :=
  RefreshToken.ID b = RefreshToken.ID a /\ RefreshToken.TokenHash b = RefreshToken.TokenHash a /\
  RefreshToken.UserID b = RefreshToken.UserID a /\ RefreshToken.SessionID b = RefreshToken.SessionID a /\
  (RefreshToken.Revoked a = true -> RefreshToken.Revoked b = true).

Definition passkey_step (a b : PasskeyCredential.row) : Prop :=
  PasskeyCredential.CredentialID b = PasskeyCredential.CredentialID a /\
  PasskeyCredential.UserID b = PasskeyCredential.UserID a /\
  PasskeyCredential.PublicKey b = PasskeyCredential.PublicKey a /\
  (PasskeyCredential.Revoked a = true -> PasskeyCredential.Revoked b = true).

#[export] Instance passkey_step_preorder : PreOrder passkey_step.
Proof.
  split; [by repeat split|].
  intros a b c (A1 & A2 & A3 & A4) (B1 & B2 & B3 & B4).
  do 3 (split; [congruence|]). auto.
Qed.

#[export] Instance user_step_preorder : PreOrder user_step.
Proof.
  split; [intros u; repeat split; done || lia|].
  intros a b c (A1 & A2 & A3 & A4 & A5 & A6) (B1 & B2 & B3 & B4 & B5 & B6).
  split; [congruence|]. split; [congruence|]. split; [lia|]. split; [lia|]. split; [auto|].
  intros Hn. rewrite B6, A6; congruence || done.
Qed.

#[export] Instance session_step_preorder : PreOrder session_step.
Proof.
  split; [by repeat split|].
  intros a b c (A1 & A2 & A3 & A4 & A5 & A6) (B1 & B2 & B3 & B4 & B5 & B6).
  do 4 (split; [congruence|]). split; [auto|]. intros Hn. rewrite B6, A6; congruence || done.
Qed.

#[export] Instance token_step_preorder : PreOrder token_step.
Proof.
  split; [by repeat split|].
  intros a b c (A1 & A2 & A3 & A4 & A5) (B1 & B2 & B3 & B4 & B5).
  do 4 (split; [congruence|]). auto.
Qed.

Definition anyone {R} (_ : R) : Prop := True.

(** A refresh token created after [d]. *)
Definition later (d : DB) (t : RefreshToken.row) : Prop := next_id d <= RefreshToken.ID t.

Lemma later_trans a b c : next_id a <= next_id b ->
  stems token_step (later a) (refresh_tokens a) (refresh_tokens b) ->
  stems token_step (later b) (refresh_tokens b) (refresh_tokens c) ->
  stems token_step (later a) (refresh_tokens a) (refresh_tokens c).
Proof.
  intros Hn. apply stems_trans; [typeclasses eauto|unfold later; intros x; lia|].
  unfold later. intros x y (-> & _). lia.
Qed.

Record evolution (d d' : DB) : Prop := {
  ev_users : table_ok user_step (fun u => P (User.TenantID u)) (users d) (users d');
  ev_sessions : table_ok session_step (fun s => P (Session.TenantID s)) (sessions d) (sessions d');
  ev_tokens : table_ok token_step anyone (refresh_tokens d) (refresh_tokens d');
  ev_passkeys : table_ok passkey_step anyone (passkey_credentials d) (passkey_credentials d');
  ev_used : table_ok eq anyone (used_tokens d) (used_tokens d');
  ev_denied : table_ok eq anyone (access_revocations d) (access_revocations d');
  ev_unique : NoDup (map RefreshToken.TokenHash (refresh_tokens d)) ->
              NoDup (map RefreshToken.TokenHash (refresh_tokens d'));
  ev_typed : typed d -> typed d';
  ev_stems : stems token_step (later d) (refresh_tokens d) (refresh_tokens d');
  ev_next : next_id d <= next_id d'
}.

#[export] Instance evolution_preorder : PreOrder evolution.
Proof.
  split; [intros d; split; try done; apply stems_refl; typeclasses eauto|].
  intros a b c [] []. split; (by etransitivity) || (by eapply (later_trans a b c)) || auto.
Qed.

End Evolution.

(** The request may act on the rows of its tenant. *)
Definition allowed (P : string -> Prop) (ctx : Ctx) : Prop := P (FromContext ctx).

Lemma allowed_actor P id ctx : allowed P ctx -> allowed P (WithActor id ctx).
Proof. done. Qed.

Lemma allowed_async P ctx : allowed P ctx -> allowed P (WithAsyncDelivery ctx).
Proof. done. Qed.

#[export] Hint Resolve allowed_actor allowed_async : keeps.

(** An update or insertion of one table: the others are the same. *)
Ltac row_step :=
  unfold user_step, session_step, token_step, passkey_step, anyone, allowed in *; simpl;
  repeat match goal with |- context [match ?x with Some _ => _ | None => _ end] => destruct x; simpl end;
  repeat match goal with |- _ /\ _ => split end; try done; try lia; try congruence;
  try match goal with
      | Ht : ?t = FromContext _ |- _ => intros Hforeign; exfalso; apply Hforeign; rewrite Ht; assumption
      | Ht : ?t = FromContext _ |- _ => rewrite Ht; assumption
      end.

Ltac evolution_tac :=
  intros; split; simpl; try reflexivity; try (intros ?; assumption);
  first [ typed_tac
        | lia
        | solve [apply stems_refl; typeclasses eauto]
        | apply stems_app; [typeclasses eauto|]; unfold later; simpl; lia
        | apply stems_update; [typeclasses eauto|]; intros ? Hrow; unfold ownedRows in Hrow; bool_prop; row_step
        | intros ?; apply unique_update; [intros ?; by repeat case_match|assumption]
        | intros ?; eapply unique_app; [|eassumption|assumption]; clash_tac
        | apply table_app; simpl; try done
        | apply table_update; [typeclasses eauto|]; intros ? Hrow;
          unfold user_scope, SessionRepository.scope, ownedRows in Hrow; bool_prop; row_step ].

(** ** Every operation respects it *)

Section Operations.
Context {ST : Store} {E : Ext} (P : string -> Prop).

Abbreviation evo m := (keeps (evolution P) m).

Lemma keeps_scope {A} (ctx : Ctx) t (f : string -> M A) :
  evo (f (FromContext ctx)) -> evo (bind (scopeTenant ctx t) f).
Proof.
  intros Hf w. unfold bind, scopeTenant. destruct (_ && _); [done|apply Hf].
Qed.

Lemma keeps_quietly {A} (m : M A) : evo m -> evo (Calls.quietly m).
Proof. intros H. apply keeps_bind; [typeclasses eauto|by apply keeps_try|intros; apply keeps_ret; typeclasses eauto]. Qed.

Lemma keeps_lift {A} (r : Res A) : evo (Calls.lift r).
Proof. destruct r; [apply keeps_ret|apply keeps_fail]; typeclasses eauto. Qed.

Lemma keeps_create_ignore {R} `{TableOf R} clash (mk : Z -> R) :
  evo (Create clash mk) -> evo (Outbox.create_ignore clash mk).
Proof.
  intros Hc. apply keeps_bind; [typeclasses eauto|by apply keeps_try|].
  intros []; [|destruct (decide _)]; (apply keeps_ret || apply keeps_fail); typeclasses eauto.
Qed.

End Operations.

(** One step through a program of repository calls. *)
Ltac evo_step :=
  match goal with
  | |- keeps _ (bind (scopeTenant _ _) _) => apply keeps_scope
  | |- keeps _ (bind _ _) => apply keeps_bind; [typeclasses eauto| |intros ?]
  | |- keeps _ (try_ _) => apply keeps_try
  | |- keeps _ (optional _) => apply keeps_optional; [typeclasses eauto|]
  | |- keeps _ (transaction _) => apply keeps_transaction; [typeclasses eauto|]
  | |- keeps _ (Calls.quietly _) => apply keeps_quietly
  | |- keeps _ (Calls.lift _) => apply keeps_lift
  | |- keeps _ (Outbox.create_ignore _ _) => apply keeps_create_ignore
  | |- keeps _ (updateScoped _ _) => apply keeps_updateScoped; [typeclasses eauto|evolution_tac]
  | |- keeps _ (updateScopedUnique _ _ _) => apply keeps_updateScopedUnique; [typeclasses eauto|evolution_tac]
  | |- keeps _ (Updates _ _) => apply keeps_Updates; [typeclasses eauto|evolution_tac]
  | |- keeps _ (Delete _) => apply keeps_Delete; [typeclasses eauto|evolution_tac]
  | |- keeps _ (Create _ _) => apply keeps_Create; [typeclasses eauto|evolution_tac]
  | |- keeps _ (match ?x with _ => _ end) => destruct x
  | |- keeps _ (let _ := _ in _) => cbv zeta
  | _ => solve [eauto 6 with keeps typeclass_instances]
  end.

Ltac evo_tac := repeat evo_step.

Section Repositories.
Context {ST : Store} {E : Ext} (P : string -> Prop) (ctx : Ctx) (HP : allowed P ctx).

Abbreviation evo m := (keeps (evolution P) m).

Lemma evo_user_Create u : evo (UserRepository.Create ctx u).
Proof. unfold UserRepository.Create. evo_tac. Qed.

Lemma evo_user_FindByID id : evo (UserRepository.FindByID ctx id).
Proof. unfold UserRepository.FindByID. evo_tac. Qed.

Lemma evo_user_FindByEmail e : evo (UserRepository.FindByEmail ctx e).
Proof. unfold UserRepository.FindByEmail. evo_tac. Qed.

Lemma evo_user_FindByUsername n : evo (UserRepository.FindByUsername ctx n).
Proof. unfold UserRepository.FindByUsername. evo_tac. Qed.

Lemma evo_user_Update u : evo (UserRepository.Update ctx u).
Proof. unfold UserRepository.Update. evo_tac. Qed.

Lemma evo_user_UpdateEmail u : evo (UserRepository.UpdateEmail ctx u).
Proof. unfold UserRepository.UpdateEmail. evo_tac. Qed.

Lemma evo_user_Deactivate id : evo (UserRepository.Deactivate ctx id).
Proof. unfold UserRepository.Deactivate. evo_tac. Qed.

Lemma evo_user_Erase u : evo (UserRepository.Erase ctx u).
Proof. unfold UserRepository.Erase. evo_tac. Qed.

Lemma evo_user_UpdatePassword u h : evo (UserRepository.UpdatePassword ctx u h).
Proof. unfold UserRepository.UpdatePassword. evo_tac. Qed.

Lemma evo_user_IncrementFailedAttempts u l : evo (UserRepository.IncrementFailedAttempts ctx u l).
Proof. unfold UserRepository.IncrementFailedAttempts. evo_tac. Qed.

Lemma evo_user_ResetFailedAttempts u : evo (UserRepository.ResetFailedAttempts ctx u).
Proof. unfold UserRepository.ResetFailedAttempts. evo_tac. Qed.

Lemma evo_user_BumpPwdVersion id : evo (UserRepository.BumpPwdVersion ctx id).
Proof. unfold UserRepository.BumpPwdVersion. evo_tac. Qed.

Lemma evo_user_SetEmailVerified u b : evo (UserRepository.SetEmailVerified ctx u b).
Proof. unfold UserRepository.SetEmailVerified. evo_tac. Qed.

Lemma evo_user_SetLock id l : evo (UserRepository.SetLock ctx id l).
Proof. unfold UserRepository.SetLock. evo_tac. Qed.

Lemma evo_refreshtoken_Create r : evo (RefreshTokenRepository.Create ctx r).
Proof. unfold RefreshTokenRepository.Create. evo_tac. Qed.

Lemma evo_refreshtoken_FindByHash h : evo (RefreshTokenRepository.FindByHash ctx h).
Proof. unfold RefreshTokenRepository.FindByHash. evo_tac. Qed.

Lemma evo_refreshtoken_FindActiveByUser id : evo (RefreshTokenRepository.FindActiveByUser ctx id).
Proof. unfold RefreshTokenRepository.FindActiveByUser. evo_tac. Qed.

Lemma evo_refreshtoken_RevokeByID id uid : evo (RefreshTokenRepository.RevokeByID ctx id uid).
Proof. unfold RefreshTokenRepository.RevokeByID. evo_tac. Qed.

Lemma evo_refreshtoken_Revoke r : evo (RefreshTokenRepository.Revoke ctx r).
Proof. unfold RefreshTokenRepository.Revoke. evo_tac. Qed.

Lemma evo_refreshtoken_RevokeAllForUserTx id : evo (RefreshTokenRepository.RevokeAllForUserTx ctx id).
Proof. unfold RefreshTokenRepository.RevokeAllForUserTx. evo_tac. Qed.

Lemma evo_refreshtoken_RevokeAllForUser id : evo (RefreshTokenRepository.RevokeAllForUser ctx id).
Proof. unfold RefreshTokenRepository.RevokeAllForUser. evo_tac. Qed.

Lemma evo_refreshtoken_RevokeBySession s : evo (RefreshTokenRepository.RevokeBySession ctx s).
Proof. unfold RefreshTokenRepository.RevokeBySession. evo_tac. Qed.

Lemma evo_session_Create r : evo (SessionRepository.Create ctx r).
Proof. unfold SessionRepository.Create. evo_tac. Qed.

Lemma evo_session_FindByID id : evo (SessionRepository.FindByID ctx id).
Proof. unfold SessionRepository.FindByID. evo_tac. Qed.

Lemma evo_session_FindActiveByUser id : evo (SessionRepository.FindActiveByUser ctx id).
Proof. unfold SessionRepository.FindActiveByUser. evo_tac. Qed.

Lemma evo_session_FindAllActiveByTenant t : evo (SessionRepository.FindAllActiveByTenant ctx t).
Proof. unfold SessionRepository.FindAllActiveByTenant. evo_tac. Qed.

Lemma evo_session_Touch id ip ua dev loc at_ : evo (SessionRepository.Touch ctx id ip ua dev loc at_).
Proof. unfold SessionRepository.Touch. evo_tac. Qed.

Lemma evo_session_RevokeByID id uid : evo (SessionRepository.RevokeByID ctx id uid).
Proof. unfold SessionRepository.RevokeByID. evo_tac. Qed.

Lemma evo_session_RevokeAllForUserTx id : evo (SessionRepository.RevokeAllForUserTx ctx id).
Proof. unfold SessionRepository.RevokeAllForUserTx. evo_tac. Qed.

Lemma evo_session_RevokeAllForUser id : evo (SessionRepository.RevokeAllForUser ctx id).
Proof. unfold SessionRepository.RevokeAllForUser. evo_tac. Qed.

Lemma evo_totp_Upsert d : evo (TOTPRepository.Upsert ctx d).
Proof. unfold TOTPRepository.Upsert. evo_tac. Qed.

Lemma evo_totp_FindByUserID id : evo (TOTPRepository.FindByUserID ctx id).
Proof. unfold TOTPRepository.FindByUserID. evo_tac. Qed.

Lemma evo_totp_Disable id : evo (TOTPRepository.Disable ctx id).
Proof. unfold TOTPRepository.Disable. evo_tac. Qed.

Lemma evo_totp_ActiveRecoveryCodes id : evo (TOTPRepository.ActiveRecoveryCodes ctx id).
Proof. unfold TOTPRepository.ActiveRecoveryCodes. evo_tac. Qed.

Lemma evo_totp_MarkRecoveryCodeUsed c : evo (TOTPRepository.MarkRecoveryCodeUsed ctx c).
Proof. unfold TOTPRepository.MarkRecoveryCodeUsed. evo_tac. Qed.

Lemma evo_usedtoken_MarkUsed j t u e : evo (UsedTokenRepository.MarkUsed ctx j t u e).
Proof. unfold UsedTokenRepository.MarkUsed. evo_tac. Qed.

Lemma evo_usedtoken_IsUsed j : evo (UsedTokenRepository.IsUsed ctx j).
Proof. unfold UsedTokenRepository.IsUsed. evo_tac. Qed.

Lemma evo_oauthidentity_Create r : evo (OAuthIdentityRepository.Create ctx r).
Proof. unfold OAuthIdentityRepository.Create. evo_tac. Qed.

Lemma evo_oauthidentity_FindByProviderAndProviderUserID p u : evo (OAuthIdentityRepository.FindByProviderAndProviderUserID ctx p u).
Proof. unfold OAuthIdentityRepository.FindByProviderAndProviderUserID. evo_tac. Qed.

Lemma evo_oauthidentity_FindByUserIDAndProvider u p : evo (OAuthIdentityRepository.FindByUserIDAndProvider ctx u p).
Proof. unfold OAuthIdentityRepository.FindByUserIDAndProvider. evo_tac. Qed.

Lemma evo_oauthidentity_DeleteByUserIDAndProvider u p : evo (OAuthIdentityRepository.DeleteByUserIDAndProvider ctx u p).
Proof. unfold OAuthIdentityRepository.DeleteByUserIDAndProvider. evo_tac. Qed.

Lemma evo_oauthidentity_DeleteAllByUserID u : evo (OAuthIdentityRepository.DeleteAllByUserID ctx u).
Proof. unfold OAuthIdentityRepository.DeleteAllByUserID. evo_tac. Qed.

Lemma evo_passkey_Create r : evo (PasskeyRepository.Create ctx r).
Proof. unfold PasskeyRepository.Create. evo_tac. Qed.

Lemma evo_passkey_FindByCredentialID c : evo (PasskeyRepository.FindByCredentialID ctx c).
Proof. unfold PasskeyRepository.FindByCredentialID. evo_tac. Qed.

Lemma evo_passkey_ListByUser u b : evo (PasskeyRepository.ListByUser ctx u b).
Proof. unfold PasskeyRepository.ListByUser. evo_tac. Qed.

Lemma evo_passkey_TouchUsage id n t : evo (PasskeyRepository.TouchUsage ctx id n t).
Proof. unfold PasskeyRepository.TouchUsage. evo_tac. Qed.

Lemma evo_passkey_RevokeByID id u : evo (PasskeyRepository.RevokeByID ctx id u).
Proof. unfold PasskeyRepository.RevokeByID. evo_tac. Qed.

Lemma evo_passkey_RevokeAllForUser u : evo (PasskeyRepository.RevokeAllForUser ctx u).
Proof. unfold PasskeyRepository.RevokeAllForUser. evo_tac. Qed.

Lemma evo_trusteddevice_Create r : evo (TrustedDeviceRepository.Create ctx r).
Proof. unfold TrustedDeviceRepository.Create. evo_tac. Qed.

Lemma evo_trusteddevice_FindByDeviceHash h : evo (TrustedDeviceRepository.FindByDeviceHash ctx h).
Proof. unfold TrustedDeviceRepository.FindByDeviceHash. evo_tac. Qed.

Lemma evo_trusteddevice_TouchUsage id t : evo (TrustedDeviceRepository.TouchUsage ctx id t).
Proof. unfold TrustedDeviceRepository.TouchUsage. evo_tac. Qed.

Lemma evo_trusteddevice_ListByUser u : evo (TrustedDeviceRepository.ListByUser ctx u).
Proof. unfold TrustedDeviceRepository.ListByUser. evo_tac. Qed.

Lemma evo_trusteddevice_Revoke id u : evo (TrustedDeviceRepository.Revoke ctx id u).
Proof. unfold TrustedDeviceRepository.Revoke. evo_tac. Qed.

Lemma evo_rbac_GetUserPermissions u : evo (RBACRepository.GetUserPermissions ctx u).
Proof. unfold RBACRepository.GetUserPermissions. evo_tac. Qed.

Lemma evo_rbac_UserHasPermission u p : evo (RBACRepository.UserHasPermission ctx u p).
Proof. unfold RBACRepository.UserHasPermission. evo_tac. Qed.

Lemma evo_rbac_AssignRoleToUser u r : evo (RBACRepository.AssignRoleToUser ctx u r).
Proof. unfold RBACRepository.AssignRoleToUser. evo_tac. Qed.

Lemma evo_user_CredentialChangeTx id h (m : M unit) : evo m -> evo (UserRepository.CredentialChangeTx ctx id h m).
Proof. intros Hm. unfold UserRepository.CredentialChangeTx. evo_tac. Qed.

Lemma evo_user_SetFirstPassword id h : evo (UserRepository.SetFirstPassword ctx id h).
Proof.
  apply keeps_stmt; [typeclasses eauto|]. intros w. unfold put_rows, get_rows. simpl. evolution_tac.
Qed.

Lemma evo_create_codes l : evo (TOTPRepository.create_codes l).
Proof. induction l; cbn [TOTPRepository.create_codes]; evo_tac. Qed.

Lemma evo_totp_ReplaceRecoveryCodes u l : evo (TOTPRepository.ReplaceRecoveryCodes ctx u l).
Proof. pose proof evo_create_codes. unfold TOTPRepository.ReplaceRecoveryCodes. evo_tac. Qed.

Lemma evo_AnonymizeUser u : evo (Archive.AnonymizeUser ctx u).
Proof. unfold Archive.AnonymizeUser. evo_tac. Qed.

Lemma evo_RevokeAccess j e : evo (Authority.RevokeAccess ctx j e).
Proof. unfold Authority.RevokeAccess. evo_tac. Qed.

Lemma evo_Suspend u : evo (Authority.Suspend ctx u).
Proof. unfold Authority.Suspend. evo_tac. Qed.

End Repositories.

(** *** The audit trail touches only its own tables *)

Section Trail.
Context {ST : Store} {E : Ext} (P : string -> Prop).

Abbreviation evo m := (keeps (evolution P) m).

Lemma evo_Admit r ctx e : evo (Outbox.Admit r ctx e).
Proof.
  unfold Outbox.Admit, Outbox.admit_tx, Trail.Capture, Outbox.or_unavailable. evo_tac.
Qed.

Lemma evo_Claim t : evo (Outbox.Claim t).
Proof. unfold Outbox.Claim, Outbox.save. evo_tac. Qed.

Lemma evo_Deliver r c : evo (Outbox.Deliver r c).
Proof. unfold Outbox.Deliver, Outbox.insert_event. evo_tac. Qed.

Lemma evo_FailClaim c t : evo (Outbox.FailClaim c t).
Proof. unfold Outbox.FailClaim. evo_tac. Qed.

Lemma evo_dispatch r limit : forall n, evo (Outbox.dispatch_loop r limit n).
Proof.
  pose proof evo_Claim. pose proof (evo_Deliver r). pose proof evo_FailClaim.
  induction limit; intros n; cbn [Outbox.dispatch_loop]; evo_tac.
Qed.

Lemma evo_Record wr ctx e : evo (Writer.Record_ wr ctx e).
Proof. pose proof evo_Admit. pose proof evo_dispatch. unfold Writer.Record_, Outbox.Dispatch. evo_tac. Qed.

(** An operation keeps what its body keeps: it commits it or undoes it. *)
Lemma evo_operation {A} wr ctx (fn : Ctx -> M A) :
  evo (fn (WithAsyncDelivery ctx)) -> evo (Calls.runAuditOperation wr ctx fn).
Proof.
  intros Hf w. destruct (Calls.runAuditOperation wr ctx fn w) as [res w'] eqn:H. simpl.
  unfold Calls.runAuditOperation, Writer.AuditOperation in H.
  destruct (w_op w) eqn:Hop.
  { unfold Outbox.AuditOperation in H. rewrite Hop in H. specialize (Hf w). by rewrite H in Hf. }
  apply operation_inv in H as [[_ ->]|(w0 & w1 & Hd & _ & _ & _ & Hr & -> & _)]; [done| |done|done].
  rewrite <- Hd. specialize (Hf w0). by rewrite Hr in Hf.
Qed.

Lemma evo_admitBeforeExternal wr ctx e : evo (Calls.admitBeforeExternal wr ctx e).
Proof.
  unfold Calls.admitBeforeExternal. evo_step; [apply keeps_current_op; typeclasses eauto|].
  evo_step; [evo_tac|]. apply evo_operation, evo_Record.
Qed.

End Trail.

#[export] Hint Resolve evo_user_Create evo_user_FindByID evo_user_FindByEmail evo_user_FindByUsername evo_user_Update
  evo_user_UpdateEmail evo_user_Deactivate evo_user_Erase evo_user_UpdatePassword
  evo_user_IncrementFailedAttempts evo_user_ResetFailedAttempts evo_user_BumpPwdVersion
  evo_user_SetEmailVerified evo_user_SetLock evo_refreshtoken_Create evo_refreshtoken_FindByHash
  evo_refreshtoken_FindActiveByUser evo_refreshtoken_RevokeByID evo_refreshtoken_Revoke
  evo_refreshtoken_RevokeAllForUserTx evo_refreshtoken_RevokeAllForUser
  evo_refreshtoken_RevokeBySession evo_session_Create evo_session_FindByID
  evo_session_FindActiveByUser evo_session_FindAllActiveByTenant evo_session_Touch
  evo_session_RevokeByID evo_session_RevokeAllForUserTx evo_session_RevokeAllForUser evo_totp_Upsert
  evo_totp_FindByUserID evo_totp_Disable evo_totp_ActiveRecoveryCodes evo_totp_MarkRecoveryCodeUsed
  evo_usedtoken_MarkUsed evo_usedtoken_IsUsed evo_oauthidentity_Create
  evo_oauthidentity_FindByProviderAndProviderUserID evo_oauthidentity_FindByUserIDAndProvider
  evo_oauthidentity_DeleteByUserIDAndProvider evo_oauthidentity_DeleteAllByUserID evo_passkey_Create
  evo_passkey_FindByCredentialID evo_passkey_ListByUser evo_passkey_TouchUsage evo_passkey_RevokeByID
  evo_passkey_RevokeAllForUser evo_trusteddevice_Create evo_trusteddevice_FindByDeviceHash
  evo_trusteddevice_TouchUsage evo_trusteddevice_ListByUser evo_trusteddevice_Revoke
  evo_rbac_GetUserPermissions evo_rbac_UserHasPermission evo_rbac_AssignRoleToUser
  evo_user_CredentialChangeTx evo_user_SetFirstPassword evo_totp_ReplaceRecoveryCodes evo_AnonymizeUser
  evo_RevokeAccess evo_Suspend evo_Record evo_admitBeforeExternal : keeps.

(** *** One-time passwords *)

Section Totp.
Context {ST : Store} {E : Ext} {J : JwtLib} {OT : Otp} (P : string -> Prop) (s : Totp.TOTPService).
Import Totp.

Abbreviation evo m := (keeps (evolution P) m).

Lemma evo_store_counter k : evo (Calls.storeCounterValue k).
Proof. unfold Calls.storeCounterValue, Calls.store_Get. evo_tac. Qed.

Lemma evo_failure ctx u d : evo (recordFailure s ctx u d).
Proof. unfold recordFailure, Calls.store_IncrBy. evo_tac. Qed.

Lemma evo_success ctx u n d : evo (recordSuccess s ctx u n d).
Proof. unfold recordSuccess, Calls.store_Delete. evo_tac. Qed.

#[local] Hint Resolve evo_store_counter evo_failure evo_success : keeps.

Lemma evo_refuse {A} ctx u d : evo (refuse (A := A) s ctx u d).
Proof. unfold refuse. evo_tac. Qed.

Lemma evo_guard ctx u : evo (guardBruteForce s ctx u).
Proof. unfold guardBruteForce. evo_tac. Qed.

Lemma evo_replay u c : evo (replayGuard u c).
Proof. unfold replayGuard, Calls.store_SetNX. evo_tac. Qed.

Lemma evo_locked {A} u (m : M A) : evo m -> evo (with_rotation_lock u m).
Proof.
  intros Hm. unfold with_rotation_lock, acquireRotationLock, releaseRotationLock, Calls.store_SetNX,
    Calls.store_Delete. evo_tac.
Qed.

Lemma evo_Encrypt p : evo (Encrypt p).
Proof. unfold Encrypt. evo_tac. Qed.

Lemma evo_random : evo Hash.GenerateRandomBytes.
Proof. unfold Hash.GenerateRandomBytes. evo_tac. Qed.

Lemma evo_sudo t u : evo (verifySudoToken s t u).
Proof. unfold verifySudoToken. evo_tac. Qed.

Lemma evo_valid c x : evo (code_valid c x).
Proof. unfold code_valid. evo_tac. Qed.

#[local] Hint Resolve @evo_refuse evo_guard evo_replay evo_Encrypt evo_random evo_sudo evo_valid : keeps.

Lemma evo_fresh u n : evo (fresh_codes u n).
Proof. induction n; cbn [fresh_codes]; evo_tac. Qed.

#[local] Hint Resolve evo_fresh : keeps.

Context (ctx : Ctx) (HP : allowed P ctx).

Lemma evo_open d : evo (openActiveSecret ctx d).
Proof. unfold openActiveSecret. evo_tac. Qed.

Lemma evo_newcodes u : evo (newRecoveryCodes s ctx u).
Proof. unfold newRecoveryCodes. evo_tac. Qed.

#[local] Hint Resolve evo_open evo_newcodes : keeps.

Lemma evo_enable u e t : evo (Enable s ctx u e t).
Proof. apply evo_operation, evo_locked. evo_tac. Qed.

Lemma evo_activate u c : evo (activate s (WithAsyncDelivery ctx) u c).
Proof. unfold activate. evo_tac. Qed.

Lemma evo_verifyEnable u c : evo (VerifyEnable s ctx u c).
Proof.
  apply evo_operation. unfold verifyEnableAudited. evo_step; [evo_tac|]. apply evo_locked, evo_activate.
Qed.

Lemma evo_recovery c u : evo (use_recovery_code s ctx u c).
Proof. unfold use_recovery_code. evo_tac. Qed.

End Totp.

#[export] Hint Resolve evo_store_counter evo_failure evo_success evo_guard evo_replay evo_Encrypt evo_random
  evo_sudo evo_valid evo_fresh evo_open evo_newcodes evo_recovery : keeps.
#[export] Hint Resolve @evo_refuse : keeps.

Section TotpEntries.
Context {ST : Store} {E : Ext} {J : JwtLib} {OT : Otp} (P : string -> Prop) (s : Totp.TOTPService).
Context (ctx : Ctx) (HP : allowed P ctx).
Import Totp.

Abbreviation evo m := (keeps (evolution P) m).

Lemma evo_Validate u c : evo (Validate s ctx u c).
Proof. apply evo_operation. unfold validateAudited. evo_tac. Qed.

Lemma evo_View u c : evo (ViewRecoveryCodes s ctx u c).
Proof. apply evo_operation. unfold viewRecoveryCodesAudited. evo_tac. Qed.

Lemma evo_Regenerate u : evo (RegenerateRecoveryCodes s ctx u).
Proof. apply evo_operation. unfold regenerateRecoveryCodesAudited. evo_tac. Qed.

End TotpEntries.

#[export] Hint Resolve evo_Validate : keeps.

Lemma evo_Disable {ST : Store} {E : Ext} {J : JwtLib} {OT : Otp} P s ctx u t p c ip :
  allowed P ctx -> keeps (evolution P) (Totp.Disable s ctx u t p c ip).
Proof.
  intros HP. apply evo_operation. unfold Totp.disableAudited, Totp.authorize_disable, Calls.notify. evo_tac.
Qed.

(** *** Sign-in and accounts *)

Section Auth.
Context {ST : Store} {E : Ext} {J : JwtLib} {OT : Otp} (P : string -> Prop) (s : AuthService).
Context (ctx : Ctx) (HP : allowed P ctx).
Import Auth.

Abbreviation evo m := (keeps (evolution P) m).

Lemma evo_record c e : evo (record s c e).
Proof. apply evo_Record. Qed.

Lemma evo_hash p : evo (hashPassword s p).
Proof. unfold hashPassword, Hash.HashPasswordWithCost. evo_tac. Qed.

Lemma evo_denyJTI j : evo (denylistAccessToken s j).
Proof. unfold denylistAccessToken, Calls.store_Set. evo_tac. Qed.

Lemma evo_denySID o : evo (denylistSession s o).
Proof. unfold denylistSession, Calls.store_Set. evo_tac. Qed.

Lemma evo_bump u : evo (bumpPwdVersion ctx u).
Proof. unfold bumpPwdVersion, Calls.store_Delete. evo_tac. Qed.

Lemma evo_consume j ttl : evo (consumeSingleUseToken ctx j ttl).
Proof. unfold consumeSingleUseToken, markTokenUsed, Calls.store_SetNX. evo_tac. Qed.

Lemma evo_durable j t u e : evo (markTokenDurable ctx j t u e).
Proof. unfold markTokenDurable. evo_tac. Qed.

Lemma evo_newIP u ip ua : evo (maybeNotifyNewIPLogin s u ip ua).
Proof. unfold maybeNotifyNewIPLogin, Calls.store_SetNX, Calls.notify. evo_tac. Qed.

Lemma evo_IssueAccessV1 m u r e ttl v ep sid tid ps : evo (IssueAccessV1 m u r e ttl v ep sid tid ps).
Proof. unfold IssueAccessV1. evo_tac. Qed.

Lemma evo_Issue m u r e t ttl tid : evo (Issue m u r e t ttl tid).
Proof. unfold Issue. evo_tac. Qed.

Lemma evo_Check c cl : evo (Authority.Check c cl).
Proof.
  unfold Authority.Check, Authority.snapshot, Authority.required, RBACRepository.GetUserPermissions,
    Calls.store_Revoked. evo_tac.
Qed.

Lemma evo_accessState c cl : evo (Authority.accessState c cl).
Proof. pose proof (evo_Check c cl). unfold Authority.accessState. evo_tac. Qed.

End Auth.

#[export] Hint Resolve evo_record evo_hash evo_denyJTI evo_denySID evo_bump evo_consume evo_durable evo_newIP
  evo_IssueAccessV1 evo_Issue evo_accessState : keeps.

Section AuthEntries.
Context {ST : Store} {E : Ext} {J : JwtLib} {OT : Otp} (P : string -> Prop) (s : AuthService).
Import Auth.

Abbreviation evo m := (keeps (evolution P) m).

Lemma evo_issueTokenPair ctx u ip ua r : allowed P ctx -> evo (issueTokenPair s ctx u ip ua r).
Proof.
  intros HP. unfold issueTokenPair, session_of, access_token, IssueAccessEnterprise, Hash.GenerateOpaqueToken.
  evo_tac.
Qed.

#[local] Hint Resolve evo_issueTokenPair : keeps.

Lemma evo_CheckMFA ctx u ip ua d : allowed P ctx -> evo (CheckMFAOrIssueTokens s ctx u ip ua d).
Proof. intros HP. apply evo_operation. unfold checkMFAOrIssueTokensAudited. evo_tac. Qed.

#[local] Hint Resolve evo_CheckMFA : keeps.

Lemma evo_failAccount e : evo (recordLoginFailAccount s e).
Proof. unfold recordLoginFailAccount, Calls.store_IncrBy. evo_tac. Qed.

Lemma evo_failIP ip : evo (recordLoginFailIP ip).
Proof. unfold recordLoginFailIP, Calls.store_IncrBy. evo_tac. Qed.

#[local] Hint Resolve evo_failAccount evo_failIP : keeps.

Lemma evo_failedLogin ctx u e ip : allowed P ctx -> evo (recordFailedLogin s ctx u e ip).
Proof. intros HP. unfold recordFailedLogin, lockout, Calls.store_IncrBy. evo_tac. Qed.

#[local] Hint Resolve evo_failedLogin : keeps.

Lemma evo_gates e t ip : evo (login_gates s e t ip).
Proof. unfold login_gates. evo_tac. Qed.

#[local] Hint Resolve evo_gates : keeps.

Lemma evo_Login ctx i ip ua : allowed P ctx -> evo (Login s ctx i ip ua).
Proof. intros HP. apply evo_operation. unfold loginAudited, isLocked, Calls.store_Delete. evo_tac. Qed.

Lemma evo_CompleteMFA ctx u c ip ua : allowed P ctx -> evo (CompleteMFALogin s ctx u c ip ua).
Proof. intros HP. apply evo_operation. unfold completeMFALoginAudited. evo_tac. Qed.

Lemma evo_Passkey ctx u ip ua : allowed P ctx -> evo (IssuePasskeyTokenPair s ctx u ip ua).
Proof. intros HP. apply evo_operation. unfold issuePasskeyTokenPairAudited. evo_tac. Qed.

Lemma evo_Logout ctx t j ip : allowed P ctx -> evo (Logout s ctx t j ip).
Proof. intros HP. apply evo_operation. unfold logoutAudited, kill_family. evo_tac. Qed.

Lemma evo_LogoutAll ctx u ip : allowed P ctx -> evo (LogoutAll s ctx u ip).
Proof. intros HP. apply evo_operation. unfold logoutAllAudited. evo_tac. Qed.

Lemma evo_reuse {A} ctx rt ip d : allowed P ctx -> evo (reuse (A := A) s ctx rt ip d).
Proof. intros HP. unfold reuse, handleTokenReuse, notifySecurityAsync, Calls.notify. evo_tac. Qed.

#[local] Hint Resolve @evo_reuse : keeps.

Lemma evo_rotate ctx rt u ip ua : allowed P ctx -> evo (rotate s ctx rt u ip ua).
Proof. intros HP. unfold rotate. evo_tac. Qed.

#[local] Hint Resolve evo_rotate : keeps.

Lemma evo_Refresh ctx t ip ua : allowed P ctx -> evo (Refresh s ctx t ip ua).
Proof. intros HP. apply evo_operation. unfold refreshAudited. evo_tac. Qed.

Lemma evo_RevokeSession ctx i u ip : allowed P ctx -> evo (RevokeSession s ctx i u ip).
Proof. intros HP. apply evo_operation. unfold revokeSessionAudited. evo_tac. Qed.

Lemma evo_ListSessions ctx u c : allowed P ctx -> evo (ListSessions ctx u c).
Proof. intros HP. unfold ListSessions. evo_tac. Qed.

Lemma evo_CurrentPwdVersion ctx u : allowed P ctx -> evo (CurrentPwdVersion ctx u).
Proof. intros HP. unfold CurrentPwdVersion, Calls.store_Get, Calls.store_Set. evo_tac. Qed.

End AuthEntries.

Section AccountEntries.
Context {ST : Store} {E : Ext} {J : JwtLib} {OT : Otp} (P : string -> Prop) (s : AuthService).
Import Auth Account.

Abbreviation evo m := (keeps (evolution P) m).

Lemma evo_over k l w : evo (over k l w).
Proof. unfold over, Calls.store_IncrBy. evo_tac. Qed.

#[local] Hint Resolve evo_over : keeps.

Lemma evo_layer b k l w m : evo m -> evo (layer b k l w m).
Proof. intros Hm. unfold layer. evo_tac. Qed.

Lemma evo_accept pw u e : evo (accept_password s pw u e).
Proof. unfold accept_password, passwordBreached. evo_tac. Qed.

Lemma evo_user ctx u : allowed P ctx -> evo (the_user ctx u).
Proof. intros HP. unfold the_user. evo_tac. Qed.

Lemma evo_everything ctx u : allowed P ctx -> evo (revoke_everything ctx u).
Proof. intros HP. unfold revoke_everything. evo_tac. Qed.

Lemma evo_apply ctx u h : allowed P ctx -> evo (applyCredentialChange ctx u h).
Proof.
  intros HP. unfold applyCredentialChange, Calls.store_Delete. evo_step; [|evo_tac].
  apply evo_user_CredentialChangeTx; [done|]. evo_tac.
Qed.

Lemma evo_sudoOrPassword u t p : evo (verifySudoOrPassword s u t p).
Proof. unfold verifySudoOrPassword. evo_tac. Qed.

Lemma evo_spend ctx c t u : evo (spend ctx c t u).
Proof. unfold spend, jtiStoreTTL. evo_tac. Qed.

Lemma evo_purpose t ty : evo (purpose_token s t ty).
Proof. unfold purpose_token. evo_tac. Qed.

Lemma evo_dup ctx e ip u : evo (handleDuplicateRegistration s ctx e ip u).
Proof. unfold handleDuplicateRegistration, shouldThrottleDuplicateRegisterAlert, Calls.notify. evo_tac. Qed.

#[local] Hint Resolve evo_accept evo_user evo_everything evo_apply evo_sudoOrPassword evo_spend evo_purpose evo_dup : keeps.

Lemma evo_Register ctx i : allowed P ctx -> evo (Register s ctx i).
Proof. intros HP. apply evo_operation. unfold registerAudited, create_account. evo_tac. Qed.

Lemma evo_Forgot ctx e ip : allowed P ctx -> evo (ForgotPassword s ctx e ip).
Proof. intros HP. unfold ForgotPassword. evo_tac. Qed.

Lemma evo_Resend ctx e ip : allowed P ctx -> evo (ResendVerifyEmail s ctx e ip).
Proof.
  intros HP. unfold ResendVerifyEmail, resendVerifyEmailAudited. cbv zeta.
  evo_step; [apply evo_layer; evo_tac|]. evo_step; [apply evo_layer; evo_tac|].
  evo_step; [evo_tac|]. evo_step; [apply evo_layer; evo_tac|]. evo_tac.
Qed.

Lemma evo_ChangePassword ctx u o n ip : allowed P ctx -> evo (ChangePassword s ctx u o n ip).
Proof. intros HP. apply evo_operation. unfold changePasswordAudited. evo_tac. Qed.

Lemma evo_SetPassword ctx u n ip : allowed P ctx -> evo (SetPassword s ctx u n ip).
Proof. intros HP. apply evo_operation. unfold setPasswordAudited. evo_tac. Qed.

Lemma evo_RequestChangeEmail ctx u p n ip : allowed P ctx -> evo (RequestChangeEmail s ctx u p n ip).
Proof.
  intros HP. unfold RequestChangeEmail, requestChangeEmailAudited, Calls.store_Set, Calls.notify. cbv zeta.
  evo_step; [evo_tac|]. evo_step; [evo_tac|]. evo_step; [evo_tac|].
  do 3 (evo_step; [apply evo_layer; evo_tac|]). evo_tac.
Qed.

Lemma evo_ConfirmChangeEmail ctx t ip : allowed P ctx -> evo (ConfirmChangeEmail s ctx t ip).
Proof.
  intros HP. apply evo_operation. unfold confirmChangeEmailAudited, Calls.store_Take, Calls.notify. evo_tac.
Qed.

Lemma evo_Deactivate ctx u t p j ip : allowed P ctx -> evo (DeactivateAccount s ctx u t p j ip).
Proof. intros HP. apply evo_operation. unfold deactivateAccountAudited, Calls.notify. evo_tac. Qed.

Lemma evo_Erase ctx u t p j ip : allowed P ctx -> evo (EraseAccount s ctx u t p j ip).
Proof. intros HP. apply evo_operation. unfold eraseAccountAudited, Calls.notify. evo_tac. Qed.

(** The verified token of a reset or a verification selects the tenant. *)
Lemma purpose_token_Ok t ty w c w' :
  purpose_token s t ty w = (Ok c, w') ->
  Verify (jwt s) (w_now w) t = Ok c /\ Type_ c = ty /\ same_state w w'.
Proof.
  intros H. apply bind_Ok in H as (n & w1 & Hn & H). apply now_Ok in Hn as [-> Hw].
  destruct (Verify _ _ _) as [c'|] eqn:Hv; [|done]. case_bool_decide as Ht; [|done].
  by injection H as <- <-.
Qed.

Lemma keeps_purpose {A} t ty (f : Claims -> M A) :
  (forall n c, Verify (jwt s) n t = Ok c -> evo (f c)) -> evo (bind (purpose_token s t ty) f).
Proof.
  intros Hf. apply keeps_bind_Ok; [typeclasses eauto|apply evo_purpose|].
  intros w c w' (Hv & _)%purpose_token_Ok. by eapply Hf.
Qed.

Definition token_allowed (ctx : Ctx) (t : Token) : Prop :=
  forall n c, Verify (jwt s) n t = Ok c -> allowed P (WithTenant (TenantID c) ctx).

Lemma evo_Reset ctx t n ip : token_allowed ctx t -> evo (ResetPassword s ctx t n ip).
Proof.
  intros HP. apply evo_operation. apply keeps_purpose. intros x c Hc.
  apply HP in Hc. change (allowed P (WithTenant (TenantID c) (WithAsyncDelivery ctx))) in Hc.
  cbv zeta. evo_tac.
Qed.

Lemma evo_VerifyEmail ctx t : token_allowed ctx t -> evo (VerifyEmail s ctx t).
Proof.
  intros HP. apply evo_operation. apply keeps_purpose. intros x c Hc.
  apply HP in Hc. change (allowed P (WithTenant (TenantID c) (WithAsyncDelivery ctx))) in Hc.
  cbv zeta. evo_tac.
Qed.

End AccountEntries.

(** *** Administration, remembered devices, Google *)

Section MoreEntries.
Context {ST : Store} {E : Ext} {J : JwtLib} {OT : Otp} {G : GoogleLib} {L : Local} (P : string -> Prop).
Context (ctx : Ctx) (HP : allowed P ctx).

Abbreviation evo m := (keeps (evolution P) m).

Lemma evo_target u : evo (Admin.target (WithAsyncDelivery ctx) u).
Proof. unfold Admin.target. evo_tac. Qed.

#[local] Hint Resolve evo_target : keeps.

Lemma evo_Lock a u v d ip : evo (Admin.LockUser a ctx u v d ip).
Proof. apply evo_operation. unfold Admin.lockUserAudited. evo_tac. Qed.

Lemma evo_Unlock a u v ip : evo (Admin.UnlockUser a ctx u v ip).
Proof. apply evo_operation. unfold Admin.unlockUserAudited. evo_tac. Qed.

Lemma evo_ForceLogout a u v ip : evo (Admin.ForceLogout a ctx u v ip).
Proof. apply evo_operation. unfold Admin.forceLogoutAudited, Calls.store_Delete. evo_tac. Qed.

Lemma evo_TrustIssue a u n ip : evo (Trusted.Issue a ctx u n ip).
Proof. apply evo_operation. unfold Trusted.issueAudited. evo_tac. Qed.

Lemma evo_TrustValidate a u t : evo (Trusted.Validate a ctx u t).
Proof. apply evo_operation. unfold Trusted.validateAudited. evo_tac. Qed.

Lemma evo_TrustRevoke a i u : evo (Trusted.Revoke a ctx i u).
Proof. apply evo_operation. unfold Trusted.revokeAudited. evo_tac. Qed.

Lemma evo_Begin o c : evo (OAuth.BeginLogin o c).
Proof. unfold OAuth.BeginLogin, OAuth.pkceVerifier, Calls.store_SetNX. evo_tac. Qed.

Lemma evo_identify o cfg c code : evo (OAuth.identify o cfg c code).
Proof. unfold OAuth.identify, OAuth.exchange, OAuth.Verify_. evo_tac. Qed.

Lemma evo_createGoogle c e : evo (OAuth.createGoogleUser ctx c e).
Proof. unfold OAuth.createGoogleUser. evo_tac. Qed.

Lemma evo_link o u c ip : evo (OAuth.linkIdentity o ctx u c ip).
Proof. unfold OAuth.linkIdentity, Calls.notify. evo_tac. Qed.

Lemma evo_Unlink o u p ip : evo (OAuth.Unlink o ctx u p ip).
Proof. apply evo_operation. unfold OAuth.unlinkAudited, Calls.notify. evo_tac. Qed.

End MoreEntries.

Lemma evo_Callback {ST : Store} {E : Ext} {J : JwtLib} {OT : Otp} {G : GoogleLib} P o ctx code state ip ua :
  allowed P ctx -> keeps (evolution P) (OAuth.HandleCallback o ctx code state ip ua).
Proof.
  intros HP. apply evo_operation. pose proof (evo_identify P o). pose proof (evo_createGoogle P _ (allowed_async _ _ HP)).
  pose proof (evo_link P (WithAsyncDelivery ctx) o). pose proof (evo_CheckMFA P (issuer o)).
  unfold OAuth.handleCallbackAudited, OAuth.ConsumeState, OAuth.findOrCreateUser, Calls.store_Take. evo_tac.
Qed.

(** *** Passkeys *)

Section PasskeyEntries.
Context {ST : Store} {E : Ext} {J : JwtLib} {OT : Otp} {WL : WebAuthnLib} (P : string -> Prop).
Context (s : passkeyService).
Import Passkey.

Abbreviation evo m := (keeps (evolution P) m).

Lemma evo_takeJSON {A} k (d : Obj -> option A) : evo (takeJSON k d).
Proof. unfold takeJSON, Calls.store_Take. evo_tac. Qed.

Lemma evo_loadUser ctx u : allowed P ctx -> evo (loadUser ctx u).
Proof. intros HP. unfold loadUser. evo_tac. Qed.

Lemma evo_rowID ctx u c : allowed P ctx -> evo (rowIDByCredential ctx u c).
Proof. intros HP. unfold rowIDByCredential. evo_tac. Qed.

Lemma evo_complete ctx i u r x c : allowed P ctx -> evo (completeAuthentication s i ctx u r x c).
Proof.
  intros HP. pose proof (evo_rowID ctx u (c_ID c) HP). pose proof (fun ip ua => evo_Passkey P i ctx x ip ua HP).
  unfold completeAuthentication, Calls.quietly. evo_tac.
Qed.

Lemma evo_BeginRegistration ctx u n : allowed P ctx -> evo (BeginRegistration s ctx u n).
Proof.
  intros HP. pose proof (evo_loadUser ctx u HP). unfold BeginRegistration, challenge, stageJSON, Calls.store_Set. evo_tac.
Qed.

Lemma evo_BeginAuthentication ctx u : allowed P ctx -> evo (BeginAuthentication s ctx u).
Proof.
  intros HP. pose proof (evo_loadUser ctx u HP). unfold BeginAuthentication, challenge, stageJSON, Calls.store_Set. evo_tac.
Qed.

Lemma evo_FinishRegistration ctx u r : allowed P ctx -> evo (FinishRegistration s ctx u r).
Proof.
  intros HP. apply evo_operation. pose proof (fun k => evo_takeJSON k decode_reg).
  pose proof (evo_loadUser _ u (allowed_async _ _ HP)). unfold finishRegistrationAudited, checked. evo_tac.
Qed.

Lemma evo_FinishAuthentication ctx u r : allowed P ctx -> evo (FinishAuthentication s ctx u r).
Proof.
  intros HP. apply evo_operation. pose proof (fun k => evo_takeJSON k session_field).
  pose proof (evo_loadUser _ u (allowed_async _ _ HP)).
  pose proof (fun i x c => evo_complete _ i u r x c (allowed_async _ _ HP)).
  unfold finishAuthenticationAudited, checked. evo_tac.
Qed.

Lemma evo_PasskeyList ctx u : allowed P ctx -> evo (List_ ctx u).
Proof. intros HP. unfold List_. evo_tac. Qed.

Lemma evo_PasskeyRevoke ctx i u : allowed P ctx -> evo (Revoke s ctx i u).
Proof. intros HP. apply evo_operation. unfold revokeAudited. evo_tac. Qed.

End PasskeyEntries.
