(* ===== verification/Cleanup.v ===== *)
(** * The clean-up job, and what the database keeps across it

    [runOnce] of [startJobs] ([cmd/server/main.go]): the two purges the leader runs
    every five minutes.  [progress]: what every request, every clean-up and every
    change of other tables keep of the identity tables.  Requests satisfy the
    stronger [evolution] of [Evolve]; a clean-up may drop refresh tokens, and the
    record of spent tokens that had expired. *)

From S2P Require Import Prelude Store Models World Sql Repos Jwt AuditTrail Common Identity Totp Auth Evolve.

Open Scope Z_scope.
Open Scope monad_scope.

Section Job.
Context {ST : Store}.

(** [runOnce]: both purges at one instant; an error of the first is not one of the second. *)
Definition runOnce : M unit :=
  let! before := now in
  RefreshTokenRepository.PurgeExpired before ;;;
  UsedTokenRepository.PurgeExpired before ;;;
  ret tt.

End Job.

(** ** What a limited delete leaves *)

Section Delete.
Context {R : Type} (p : R -> bool).

Lemma delete_limit_sublist l : forall n, sublist (fst (delete_limit p n l)) l.
Proof.
  induction l as [|x l IH]; intros n; simpl; [done|]. destruct n as [|n]; [done|]. destruct (p x).
  - specialize (IH n). destruct (delete_limit p n l). by constructor.
  - specialize (IH (S n)). destruct (delete_limit p (S n) l). by constructor.
Qed.

Lemma delete_limit_kept l x : forall n, In x l -> p x = false -> In x (fst (delete_limit p n l)).
Proof.
  induction l as [|y l IH]; intros n Hin Hp; [done|]. simpl. destruct n as [|n]; [done|]. destruct (p y) eqn:Hy.
  - destruct Hin as [->|Hin]; [congruence|]. specialize (IH n Hin Hp). by destruct (delete_limit p n l).
  - specialize (IH (S n)). destruct (delete_limit p (S n) l). destruct Hin as [->|Hin]; [by left|right; by apply IH].
Qed.

Lemma sublist_In (l l' : list R) x : sublist l l' -> In x l -> In x l'.
Proof. induction 1 as [|y l l' H IH|y l l' H IH]; [done| |right; auto]. intros [<-|Hin]; [by left|right; auto]. Qed.

Lemma sublist_unique {K} (key : R -> K) (l l' : list R) : sublist l l' -> NoDup (map key l') -> NoDup (map key l).
Proof.
  induction 1 as [|x l l' H IH|x l l' H IH]; simpl; [done| |].
  - intros [Hx Hn]%list.NoDup_cons. apply list.NoDup_cons. split; [|auto]. intros Hin. apply Hx.
    rewrite list_elem_of_In, in_map_iff in *. destruct Hin as (y & Hy & Hin). exists y. split; [done|].
    by eapply sublist_In.
  - intros [_ Hn]%list.NoDup_cons. auto.
Qed.

Lemma sublist_below (id : R -> Z) n (l l' : list R) : sublist l l' -> below id n l' -> below id n l.
Proof.
  intros Hs [Hn Hl]. split; [by eapply sublist_unique|]. intros x Hx. by eapply Hl, sublist_In.
Qed.

End Delete.

Section Batches.
Context {ST : Store} {R : Type} {T : TableOf R} (Rel : DB -> DB -> Prop) {RP : PreOrder Rel} (p : R -> bool).
Context (Hlimit : forall d n, Rel d (set_rows (fst (delete_limit p n (rows_of d))) d)).

Lemma keeps_DeleteLimit : keeps Rel (DeleteLimit p).
Proof.
  apply keeps_stmt; [typeclasses eauto|]. intros w. unfold get_rows.
  specialize (Hlimit (w_db w) purgeBatchSize). by destruct (delete_limit _ _ _).
Qed.

Lemma keeps_batches fuel : forall total, keeps Rel (batches fuel p total).
Proof.
  induction fuel as [|fuel IH]; intros total; cbn [batches]; [apply keeps_ret; typeclasses eauto|].
  apply keeps_bind; [typeclasses eauto|apply keeps_try, keeps_DeleteLimit|]. intros [k|e].
  - destruct (k <? purgeBatchSize)%nat; [apply keeps_ret; typeclasses eauto|apply IH].
  - apply keeps_ret; typeclasses eauto.
Qed.

Lemma keeps_batchedDelete : keeps Rel (batchedDelete p).
Proof. intros w. apply keeps_batches. Qed.

End Batches.

(** ** Progress *)

(** Tables outside the identity tables change freely: webhooks, roles, tenants, the trail. *)
Record elsewhere (d d' : DB) : Prop := {
  el_users : users d' = users d; el_sessions : sessions d' = sessions d;
  el_tokens : refresh_tokens d' = refresh_tokens d; el_devices : totp_devices d' = totp_devices d;
  el_used : used_tokens d' = used_tokens d; el_denied : access_revocations d' = access_revocations d;
  el_identities : oauth_identities d' = oauth_identities d;
  el_passkeys : passkey_credentials d' = passkey_credentials d;
  el_trusted : trusted_devices d' = trusted_devices d; el_next : next_id d <= next_id d'
}.

Lemma elsewhere_refl d : elsewhere d d.
Proof. by split. Qed.

Section Progress.
Context (P : string -> Prop) (purged : Z -> Prop).

(** The clean-ups ran at times of [purged]. *)
Record progress (d d' : DB) : Prop := {
  pr_users : table_ok (user_step P) (fun u => P (User.TenantID u)) (users d) (users d');
  pr_sessions : table_ok (session_step P) (fun s => P (Session.TenantID s)) (sessions d) (sessions d');
  pr_passkeys : table_ok passkey_step anyone (passkey_credentials d) (passkey_credentials d');
  pr_denied : table_ok eq anyone (access_revocations d) (access_revocations d');
  pr_tokens : stems token_step (later d) (refresh_tokens d) (refresh_tokens d');
  pr_used : forall x, In x (used_tokens d) ->
    In x (used_tokens d') \/ exists t, purged t /\ UsedToken.ExpiresAt x < t;
  pr_next : next_id d <= next_id d';
  pr_unique : NoDup (map RefreshToken.TokenHash (refresh_tokens d)) ->
              NoDup (map RefreshToken.TokenHash (refresh_tokens d'));
  pr_typed : typed d -> typed d'
}.

Lemma evolution_progress d d' : evolution P d d' -> progress d d'.
Proof.
  intros []. split; try done. intros x Hx. left. by destruct (evolves_In _ _ _ _ (rows_evolve _ _ _ _ ev_used) Hx) as (y & Hy & <-).
Qed.

#[export] Instance progress_preorder : PreOrder progress.
Proof.
  split; [intros d; by apply evolution_progress|]. intros a b c [] [].
  split; (by etransitivity) || (by eapply (later_trans a b c)) || auto.
  intros x Hx. destruct (pr_used0 x Hx) as [Hb|?]; [auto|by right].
Qed.

Lemma elsewhere_progress d d' : elsewhere d d' -> progress d d'.
Proof.
  intros []. split; rewrite ?el_users0, ?el_sessions0, ?el_passkeys0, ?el_denied0, ?el_tokens0, ?el_used0; try done.
  - apply stems_refl; typeclasses eauto.
  - auto.
  - assert (forall R (id : R -> Z) l, below id (next_id d) l -> below id (next_id d') l) as Hb.
    { intros R id l [Hn Hl]. split; [done|]. intros x Hx. specialize (Hl x Hx). lia. }
    intros []. split; rewrite ?el_users0, ?el_sessions0, ?el_passkeys0, ?el_denied0, ?el_tokens0, ?el_used0,
      ?el_devices0, ?el_identities0, ?el_trusted0; auto.
Qed.

(** Refresh tokens are dropped. *)
Lemma progress_tokens p d n : progress d (set_rows (fst (delete_limit p n (refresh_tokens d))) d).
Proof.
  pose proof (delete_limit_sublist p (refresh_tokens d) n) as Hs. split; simpl; try done.
  - intros y Hy. left. exists y. split; [by eapply sublist_In|done].
  - auto.
  - by apply sublist_unique.
  - intros []. split; simpl; try done; [by eapply sublist_below|by eapply sublist_unique].
Qed.

(** Spent tokens that expired before a clean-up are dropped. *)
Lemma progress_used t d n : purged t ->
  progress d (set_rows (fst (delete_limit (fun r => UsedToken.ExpiresAt r <? t) n (used_tokens d))) d).
Proof.
  intros Ht. set (p := fun r => _). pose proof (delete_limit_sublist p (used_tokens d) n) as Hs. split; simpl; try done.
  - apply stems_refl; typeclasses eauto.
  - intros x Hx. destruct (p x) eqn:Hp; [right; exists t; split; [done|by apply Z.ltb_lt]|].
    left. by apply delete_limit_kept.
  - intros []. split; simpl; try done. by eapply sublist_unique.
Qed.

Lemma runOnce_progress {ST : Store} (w : World) : purged (w_now w) -> progress (w_db w) (w_db (snd (runOnce w))).
Proof.
  intros Ht. unfold runOnce, bind at 1, now. set (t := w_now w) in *.
  assert (keeps progress (RefreshTokenRepository.PurgeExpired t ;;; UsedTokenRepository.PurgeExpired t ;;; ret tt)) as H;
    [|exact (H w)].
  apply keeps_bind; [typeclasses eauto| |intros _].
  - unfold RefreshTokenRepository.PurgeExpired. apply keeps_bind; [typeclasses eauto| |].
    + apply keeps_batchedDelete; [typeclasses eauto|]. intros d n. apply progress_tokens.
    + intros [k [e|]]; [apply keeps_ret; typeclasses eauto|]. apply keeps_bind; [typeclasses eauto| |].
      * apply keeps_batchedDelete; [typeclasses eauto|]. intros d n. apply progress_tokens.
      * intros []. apply keeps_ret; typeclasses eauto.
  - apply keeps_bind; [typeclasses eauto| |intros; apply keeps_ret; typeclasses eauto].
    apply keeps_batchedDelete; [typeclasses eauto|]. intros d n. by apply progress_used.
Qed.

End Progress.

Lemma progress_weaken P (purged purged' : Z -> Prop) d d' :
  (forall t, purged t -> purged' t) -> progress P purged d d' -> progress P purged' d d'.
Proof. intros Hw []. split; try done. intros x Hx. destruct (pr_used0 x Hx) as [?|(t & ? & ?)]; [auto|right; eauto]. Qed.
