(* ===== verification/Lifetime.v ===== *)
(** * The lifetime of a deployment

    [serve]: one request to any entry point of the services.  [lifetime]: any
    sequence of requests and of runs of the clean-up job, between which anything
    may happen to the store, the clock, the mail and the tables outside the
    identity tables, and any external call may fail.  What is final stays final
    over every lifetime: revocations, suspensions, version bumps, denied tokens,
    and spent tokens until a clean-up after their expiry; and a request changes
    nothing of another tenant. *)

From S2P Require Import Prelude Store Models World Sql Repos Jwt AuditTrail Common Identity Totp Auth OAuth Passkey Account Admin Demo AuditSpec IdentitySpec Evolve Cleanup JwtSpec.

Open Scope Z_scope.
Open Scope monad_scope.

(** ** Requests *)

Inductive Req :=
  | RRegister (i : RegisterInput)
  | RLogin (i : LoginInput) (ip ua : string)
  | RCheckMFA (user : User.row) (ip ua detail : string)
  | RCompleteMFA (userID : Z) (code ip ua : string)
  | RPasskey (user : User.row) (ip ua : string)
  | RRefresh (token ip ua : string)
  | RLogout (token jti ip : string)
  | RLogoutAll (userID : Z) (ip : string)
  | RRevokeSession (sid : string) (userID : Z) (ip : string)
  | RListSessions (userID : Z) (sid : string)
  | RCurrentPwdVersion (userID : Z)
  | RForgotPassword (email ip : string)
  | RResetPassword (token : Token) (password ip : string)
  | RVerifyEmail (token : Token)
  | RResendVerifyEmail (email ip : string)
  | RChangePassword (userID : Z) (old new ip : string)
  | RSetPassword (userID : Z) (new ip : string)
  | RMe (userID : Z)
  | RRequestChangeEmail (userID : Z) (password email ip : string)
  | RConfirmChangeEmail (token ip : string)
  | RDeactivate (userID : Z) (sudo : Token) (password jti ip : string)
  | RErase (userID : Z) (sudo : Token) (password jti ip : string)
  | RTotpEnable (userID : Z) (email : string) (sudo : Token)
  | RTotpVerify (userID : Z) (code : string)
  | RTotpValidate (userID : Z) (code : string)
  | RTotpView (userID : Z) (code : string)
  | RTotpRegenerate (userID : Z)
  | RTotpDisable (userID : Z) (sudo : Token) (password code ip : string)
  | RTotpMethods (userID : Z)
  | RCheck (c : Claims)
  | RRevokeAccess (jti : string) (exp : Z)
  | RSuspend (userID : Z)
  | RAssignRole (userID roleID : Z)
  | RLockUser (adminID userID duration : Z) (ip : string)
  | RUnlockUser (adminID userID : Z) (ip : string)
  | RForceLogout (adminID userID : Z) (ip : string)
  | RTrustIssue (userID : Z) (name ip : string)
  | RTrustValidate (userID : Z) (token : string)
  | RTrustRevoke (id userID : Z)
  | RGoogleBegin (client : option oauth2Config)
  | RGoogleCallback (client : option oauth2Config) (code state ip ua : string)
  | RGoogleUnlink (userID : Z) (provider ip : string)
  | RPasskeyRegister (cfg : PasskeyConfig) (userID : Z) (name : string)
  | RPasskeyRegistered (cfg : PasskeyConfig) (userID : Z) (r : CeremonyRequest)
  | RPasskeyChallenge (cfg : PasskeyConfig) (userID : Z)
  | RPasskeyLogin (cfg : PasskeyConfig) (userID : Z) (r : CeremonyRequest)
  | RPasskeyList (userID : Z)
  | RPasskeyRevoke (cfg : PasskeyConfig) (id userID : Z)
  | RDispatch (limit : nat).

Section Lifetime.
Context {ST : Store} {E : Ext} {J : JwtLib} {OT : Otp} {G : GoogleLib} {WL : WebAuthnLib} {L : Local} (s : AuthService).

(** The Google service of a client. *)
Definition google_of (cfg : option oauth2Config) : OAuthService :=
  mkOAuth s cfg (match cfg with Some c => ClientID c | None => "" end).

(** The passkey service of a relying party. *)
Definition passkey_of (cfg : PasskeyConfig) : passkeyService := mkPasskey cfg (audits s) (Some s).

Definition answered {A} (m : M A) : M unit := m ;;; ret tt.

Definition serve (ctx : Ctx) (r : Req) : M unit :=
  match r with
  | RRegister i => answered (Account.Register s ctx i)
  | RLogin i ip ua => answered (Auth.Login s ctx i ip ua)
  | RCheckMFA u ip ua d => answered (Auth.CheckMFAOrIssueTokens s ctx u ip ua d)
  | RCompleteMFA u c ip ua => answered (Auth.CompleteMFALogin s ctx u c ip ua)
  | RPasskey u ip ua => answered (Auth.IssuePasskeyTokenPair s ctx u ip ua)
  | RRefresh t ip ua => answered (Auth.Refresh s ctx t ip ua)
  | RLogout t j ip => Auth.Logout s ctx t j ip
  | RLogoutAll u ip => Auth.LogoutAll s ctx u ip
  | RRevokeSession i u ip => Auth.RevokeSession s ctx i u ip
  | RListSessions u i => answered (Auth.ListSessions ctx u i)
  | RCurrentPwdVersion u => answered (Auth.CurrentPwdVersion ctx u)
  | RForgotPassword e ip => Account.ForgotPassword s ctx e ip
  | RResetPassword t p ip => Account.ResetPassword s ctx t p ip
  | RVerifyEmail t => Account.VerifyEmail s ctx t
  | RResendVerifyEmail e ip => Account.ResendVerifyEmail s ctx e ip
  | RChangePassword u o n ip => Account.ChangePassword s ctx u o n ip
  | RSetPassword u n ip => Account.SetPassword s ctx u n ip
  | RMe u => answered (Account.Me ctx u)
  | RRequestChangeEmail u p e ip => Account.RequestChangeEmail s ctx u p e ip
  | RConfirmChangeEmail t ip => Account.ConfirmChangeEmail s ctx t ip
  | RDeactivate u t p j ip => Account.DeactivateAccount s ctx u t p j ip
  | RErase u t p j ip => Account.EraseAccount s ctx u t p j ip
  | RTotpEnable u e t => answered (Totp.Enable (totp s) ctx u e t)
  | RTotpVerify u c => answered (Totp.VerifyEnable (totp s) ctx u c)
  | RTotpValidate u c => Totp.Validate (totp s) ctx u c
  | RTotpView u c => answered (Totp.ViewRecoveryCodes (totp s) ctx u c)
  | RTotpRegenerate u => answered (Totp.RegenerateRecoveryCodes (totp s) ctx u)
  | RTotpDisable u t p c ip => Totp.Disable (totp s) ctx u t p c ip
  | RTotpMethods u => answered (Totp.GetMFAMethods ctx u)
  | RCheck c => Authority.Check ctx c
  | RRevokeAccess j e => Authority.RevokeAccess ctx j e
  | RSuspend u => Authority.Suspend ctx u
  | RAssignRole u r => RBACRepository.AssignRoleToUser ctx u r
  | RLockUser a u d ip => Admin.LockUser (audits s) ctx a u d ip
  | RUnlockUser a u ip => Admin.UnlockUser (audits s) ctx a u ip
  | RForceLogout a u ip => Admin.ForceLogout (audits s) ctx a u ip
  | RTrustIssue u n ip => answered (Trusted.Issue (audits s) ctx u n ip)
  | RTrustValidate u t => answered (Trusted.Validate (audits s) ctx u t)
  | RTrustRevoke i u => Trusted.Revoke (audits s) ctx i u
  | RGoogleBegin cfg => answered (OAuth.BeginLogin (google_of cfg) ctx)
  | RGoogleCallback cfg code state ip ua => answered (OAuth.HandleCallback (google_of cfg) ctx code state ip ua)
  | RGoogleUnlink u p ip => OAuth.Unlink (google_of None) ctx u p ip
  | RPasskeyRegister cfg u n => answered (Passkey.BeginRegistration (passkey_of cfg) ctx u n)
  | RPasskeyRegistered cfg u r => answered (Passkey.FinishRegistration (passkey_of cfg) ctx u r)
  | RPasskeyChallenge cfg u => answered (Passkey.BeginAuthentication (passkey_of cfg) ctx u)
  | RPasskeyLogin cfg u r => answered (Passkey.FinishAuthentication (passkey_of cfg) ctx u r)
  | RPasskeyList u => answered (Passkey.List_ ctx u)
  | RPasskeyRevoke cfg i u => Passkey.Revoke (passkey_of cfg) ctx i u
  | RDispatch n => answered (Outbox.Dispatch (Writer.durable (audits s)) n)
  end.

(** The tenant a request acts on: its own, except that a reset or a
    verification acts on the tenant its verified token names. *)
Definition acts_on (ctx : Ctx) (r : Req) (tid : string) : Prop :=
  match r with
  | RResetPassword t _ _ | RVerifyEmail t =>
      exists now c, Verify (jwt s) now t = Ok c /\ tid = FromContext (WithTenant (TenantID c) ctx)
  | _ => tid = FromContext ctx
  end.

(** A lifetime in which every request is one of [may] and every clean-up runs at a
    time of [purged]. *)
Inductive lifetime (may : Ctx -> Req -> Prop) (purged : Z -> Prop) : World -> World -> Prop :=
  | life_here w : lifetime may purged w w
  | life_serve w1 w2 ctx r : lifetime may purged w1 w2 -> may ctx r ->
      lifetime may purged w1 (snd (serve ctx r w2))
  | life_cleanup w1 w2 : lifetime may purged w1 w2 -> purged (w_now w2) ->
      lifetime may purged w1 (snd (runOnce w2))
  | life_else w1 w2 w3 : lifetime may purged w1 w2 -> elsewhere (w_db w2) (w_db w3) ->
      lifetime may purged w1 w3.

Definition any_request (_ : Ctx) (_ : Req) : Prop := True.

Definition any_time (_ : Z) : Prop := True.

(** ** Every request evolves the database *)

Lemma keeps_answered {A} P (m : M A) : keeps (evolution P) m -> keeps (evolution P) (answered m).
Proof. intros H. unfold answered. evo_tac. Qed.

Lemma evo_methods P ctx u : allowed P ctx -> keeps (evolution P) (Totp.GetMFAMethods ctx u).
Proof. intros HP. unfold Totp.GetMFAMethods. evo_tac. Qed.

Lemma serve_evolves P ctx r : (forall tid, acts_on ctx r tid -> P tid) -> keeps (evolution P) (serve ctx r).
Proof.
  intros HP. assert (forall t, r = RVerifyEmail t \/ (exists p ip, r = RResetPassword t p ip) ->
    token_allowed P s ctx t) as Ht.
  { intros t Hr n c Hc. apply HP. destruct Hr as [->|(p & ip & ->)]; by exists n, c. }
  assert (match r with RResetPassword _ _ _ | RVerifyEmail _ => True | _ => allowed P ctx end) as Ha.
  { destruct r; try done; by apply HP. }
  destruct r; simpl; try apply keeps_answered;
    try solve [eauto using evo_Register, evo_Login, evo_CheckMFA, evo_CompleteMFA, evo_Passkey, evo_Refresh,
      evo_Logout, evo_LogoutAll, evo_RevokeSession, evo_ListSessions, evo_CurrentPwdVersion, evo_Forgot,
      evo_VerifyEmail, evo_Resend, evo_ChangePassword, evo_SetPassword, evo_RequestChangeEmail,
      evo_ConfirmChangeEmail, evo_Deactivate, evo_Erase, evo_enable, evo_verifyEnable, evo_Validate, evo_View,
      evo_Regenerate, evo_Disable, evo_methods, evo_Check, evo_RevokeAccess, evo_Suspend,
      evo_rbac_AssignRoleToUser, evo_dispatch, evo_Lock, evo_Unlock, evo_ForceLogout, evo_TrustIssue,
      evo_TrustValidate, evo_TrustRevoke, evo_Begin, evo_Callback, evo_Unlink, evo_BeginRegistration,
      evo_FinishRegistration, evo_BeginAuthentication, evo_FinishAuthentication, evo_PasskeyList, evo_PasskeyRevoke].
  - apply evo_Reset, Ht. eauto.
  - pose proof (evo_user P). unfold Account.Me. evo_tac.
Qed.

Lemma lifetime_progress P may purged w w' :
  (forall ctx r tid, may ctx r -> acts_on ctx r tid -> P tid) ->
  lifetime may purged w w' -> progress P purged (w_db w) (w_db w').
Proof.
  intros HP H. induction H as [w|w1 w2 ctx r _ IH Hm|w1 w2 _ IH Ht|w1 w2 w3 _ IH Hd]; [done|..];
    (etransitivity; [exact IH|]).
  - apply evolution_progress, serve_evolves. eauto.
  - by apply runOnce_progress.
  - by apply elsewhere_progress.
Qed.

Lemma lifetime_any may purged w w' :
  lifetime may purged w w' -> progress (fun _ => True) purged (w_db w) (w_db w').
Proof. by apply lifetime_progress. Qed.

Lemma lifetime_grows may purged w w' :
  lifetime may purged w w' -> progress (fun _ => True) any_time (w_db w) (w_db w').
Proof. intros H%lifetime_any. by eapply progress_weaken. Qed.

End Lifetime.

(** ** What final facts become *)

(** The operation's body ran to success and its database and store are the outcome. *)
Lemma operation_run {ST : Store} {E : Ext} {A} wr ctx (fn : Ctx -> M A) w a w' :
  Calls.runAuditOperation wr ctx fn w = (Ok a, w') ->
  exists w0 w1, w_db w0 = w_db w /\ w_kv w0 = w_kv w /\ w_now w0 = w_now w /\
    fn (WithAsyncDelivery ctx) w0 = (Ok a, w1) /\ w_db w' = w_db w1 /\ w_kv w' = w_kv w1.
Proof.
  intros H. unfold Calls.runAuditOperation, Writer.AuditOperation in H. destruct (w_op w) eqn:Hop.
  - unfold Outbox.AuditOperation in H. rewrite Hop in H. by exists w, w'.
  - apply operation_inv in H as [[? _]|(w0 & w1 & Hd & Hk & Hn & _ & Hr & Hd' & Hk' & _)]; [done| |done|done].
    by exists w0, w1.
Qed.

Lemma operation_Ok {ST : Store} {E : Ext} {A} wr ctx (fn : Ctx -> M A) w a w' :
  Calls.runAuditOperation wr ctx fn w = (Ok a, w') ->
  exists w0 w1, w_db w0 = w_db w /\ w_kv w0 = w_kv w /\ w_now w0 = w_now w /\
    fn (WithAsyncDelivery ctx) w0 = (Ok a, w1) /\ w_db w' = w_db w1.
Proof. intros H. apply operation_run in H as (w0 & w1 & ? & ? & ? & ? & ? & _). by exists w0, w1. Qed.

Section Final.
Context {ST : Store} {E : Ext} {J : JwtLib} {OT : Otp} {G : GoogleLib} {WL : WebAuthnLib} {L : Local}.

Abbreviation evolves_any := (evolution (fun _ => True)).
Abbreviation grows := (progress (fun _ => True) any_time).

(** A request of any tenant. *)
Lemma allow_all ctx : allowed (fun _ => True) ctx.
Proof. done. Qed.

#[local] Hint Resolve allow_all : keeps.

(** The step of one call of a run that succeeded. *)
Lemma run_evolves {A} (m : M A) w r w' : keeps evolves_any m -> m w = (r, w') -> evolves_any (w_db w) (w_db w').
Proof. intros Hm H. specialize (Hm w). by rewrite H in Hm. Qed.

Lemma run_grows {A} (m : M A) w r w' : keeps evolves_any m -> m w = (r, w') -> grows (w_db w) (w_db w').
Proof. intros Hm H. by eapply evolution_progress, run_evolves. Qed.

(** *** Denied access tokens *)

Definition denied (tid jti : string) (d : DB) : Prop :=
  exists r, In r (access_revocations d) /\ AccessRevocation.TenantID r = tid /\ AccessRevocation.JTI r = jti.

Lemma denied_grows tid jti d d' : grows d d' -> denied tid jti d -> denied tid jti d'.
Proof.
  intros Hg (r & Hin & H1 & H2). destruct (evolves_In _ _ _ _ (rows_evolve _ _ _ _ (pr_denied _ _ _ _ Hg)) Hin) as (r' & Hin' & <-).
  by exists r.
Qed.

Lemma denied_final ctx c w : denied (TenantID c) (ID c) (w_db w) -> fst (Authority.Check ctx c w) <> Ok tt.
Proof.
  intros (r & Hin & H1 & H2) H. destruct (Authority.Check ctx c w) as [res w'] eqn:Hrun. simpl in H. subst.
  apply Check_Ok in Hrun as [_ [_ _ _ Hu _]]. by apply (Hu r Hin).
Qed.

Lemma RevokeAccess_Ok ctx jti exp w w' :
  Authority.RevokeAccess ctx jti exp w = (Ok tt, w') -> denied (FromContext ctx) jti (w_db w').
Proof.
  unfold Authority.RevokeAccess. destruct (bool_decide _); [done|]. intros H.
  apply create_ignore_Ok in H as [[H [Hd _]]|H].
  - apply existsb_exists in H as (r & Hin & Hc). unfold Authority.revocation_clash in Hc. bool_prop. simpl in *.
    exists r. rewrite Hd. done.
  - destruct H as [_ [Hd _]]. rewrite Hd. exists (AccessRevocation.mk (FromContext ctx) jti exp).
    split; [|done]. apply in_or_app. right. by left.
Qed.

(** *** The user row of a token *)

(** The first user of id [uid] in [tid], if it satisfies [p]. *)
Definition user_is (tid : string) (uid : Z) (p : User.row -> Prop) (d : DB) : Prop :=
  exists u, first_where (fun u => (User.ID u =? uid) && bool_decide (User.TenantID u = tid)) (users d) = Some u /\ p u.

Lemma user_is_grows tid uid p d d' :
  grows d d' -> (forall u v, user_step (fun _ => True) u v -> p u -> p v) ->
  user_is tid uid p d -> user_is tid uid p d'.
Proof.
  intros [[Hu _]] Hp (u & Hf & Hpu).
  eapply (evolves_first _ _ _ _ _) in Hf as (v & Hv & Hs); [|shelve|exact Hu].
  Unshelve. 2: { intros a b (Hi & Ht & _). cbn beta. by rewrite Hi, Ht. }
  exists v. eauto.
Qed.

Lemma user_final ctx c (p : User.row -> Prop) w :
  user_is (TenantID c) (UserID c) p (w_db w) ->
  (forall u, p u -> User.AdminSuspended u = true \/ PwdVer c < User.PwdVersion u \/ AuthEpoch c < User.AuthEpoch u) ->
  fst (Authority.Check ctx c w) <> Ok tt.
Proof.
  intros (u & Hf & Hpu) Hp H. destruct (Authority.Check ctx c w) as [res w'] eqn:Hrun. simpl in H. subst.
  apply Check_Ok in Hrun as [_ [(v & Hv & _ & H1 & H2 & H3) _ _ _ _]]. unfold user_of in Hv.
  rewrite Hf in Hv. injection Hv as <-. destruct (Hp u Hpu) as [?|[?|?]]; [congruence|lia|lia].
Qed.

(** A scoped update reaches the first row of its scope. *)
Lemma user_is_update ctx uid (p : User.row -> Prop) (f : User.row -> User.row) w w' :
  (forall u, User.ID (f u) = User.ID u /\ User.TenantID (f u) = User.TenantID u) ->
  (forall u, p u -> p (f u)) ->
  updateScoped (user_scope ctx uid) f w = (Ok tt, w') ->
  user_is (FromContext ctx) uid p (w_db w) ->
  user_is (FromContext ctx) uid (fun v => exists u, p u /\ v = f u) (w_db w').
Proof.
  intros Hid Hp H (u & Hf & Hpu). apply updateScoped_Ok in H as [Hd _]. rewrite Hd. simpl.
  unfold user_is. simpl. rewrite first_where_update by (intros r; by destruct (Hid r) as [-> ->]).
  rewrite Hf. simpl. apply first_where_Some in Hf as [_ Hs]. unfold user_scope. rewrite Hs. eauto.
Qed.

(** *** Password versions *)

(** The user's version is above, or at least, [v]. *)
Definition version_above (ctx : Ctx) (uid v : Z) : DB -> Prop :=
  user_is (FromContext ctx) uid (fun u => v < User.PwdVersion u).

Definition version_from (ctx : Ctx) (uid v : Z) : DB -> Prop :=
  user_is (FromContext ctx) uid (fun u => v <= User.PwdVersion u).

Lemma above_grows ctx uid v d d' : grows d d' -> version_above ctx uid v d -> version_above ctx uid v d'.
Proof. intros Hg. apply user_is_grows; [done|]. intros a b (_ & _ & ? & _). lia. Qed.

Lemma from_grows ctx uid v d d' : grows d d' -> version_from ctx uid v d -> version_from ctx uid v d'.
Proof. intros Hg. apply user_is_grows; [done|]. intros a b (_ & _ & ? & _). lia. Qed.

(** An update that raises the version by one. *)
Lemma bump_update ctx uid v f w w' :
  (forall u, User.ID (f u) = User.ID u /\ User.TenantID (f u) = User.TenantID u) ->
  (forall u, User.PwdVersion (f u) = User.PwdVersion u + 1) ->
  updateScoped (user_scope ctx uid) f w = (Ok tt, w') ->
  version_from ctx uid v (w_db w) -> version_above ctx uid v (w_db w').
Proof.
  intros Hid Hf H Hv. eapply user_is_update in Hv as (u & Hu & x & Hx & ->); [|exact Hid| |exact H].
  - exists (f x). split; [done|]. rewrite Hf. lia.
  - intros u. rewrite Hf. lia.
Qed.

Lemma bumpPwdVersion_Ok ctx uid v w w' :
  Auth.bumpPwdVersion ctx uid w = (Ok tt, w') ->
  version_from ctx uid v (w_db w) -> version_above ctx uid v (w_db w').
Proof.
  intros H Hv. apply bind_Ok in H as ([] & w1 & Hb & H). eapply bump_update in Hb; [|done|done|exact Hv].
  eapply above_grows; [|exact Hb]. eapply run_grows; [|exact H]. unfold Calls.store_Delete. evo_tac.
Qed.

Lemma credential_tx_Ok ctx uid v h m w w' :
  keeps evolves_any m -> UserRepository.CredentialChangeTx ctx uid h m w = (Ok tt, w') ->
  version_from ctx uid v (w_db w) -> version_above ctx uid v (w_db w').
Proof.
  intros Hm H Hv. apply transaction_Ok in H as (w0 & w1 & [Hd _] & H & [Hd' _]).
  apply bind_Ok in H as ([] & w2 & Hu & H). rewrite <- Hd in Hv. rewrite Hd'.
  eapply bump_update in Hu; [|done|done|exact Hv]. eapply above_grows; [|exact Hu]. by eapply run_grows.
Qed.

Lemma applyCredentialChange_Ok ctx user h v w w' :
  Account.applyCredentialChange ctx user h w = (Ok tt, w') ->
  version_from ctx (User.ID user) v (w_db w) -> version_above ctx (User.ID user) v (w_db w').
Proof.
  intros H Hv. apply bind_Ok in H as ([] & w1 & Hb & H). eapply credential_tx_Ok in Hb; [|evo_tac|exact Hv].
  eapply above_grows; [|exact Hb]. eapply run_grows; [|exact H]. unfold Calls.store_Delete. evo_tac.
Qed.

Lemma the_user_Ok ctx uid w u w' :
  Account.the_user ctx uid w = (Ok u, w') ->
  same_state w w' /\ first_where (user_scope ctx uid (w_db w)) (users (w_db w)) = Some u /\ User.ID u = uid.
Proof.
  intros H. apply bind_Ok in H as (o & w1 & Ho & H). apply optional_First_Ok in Ho as [Hs Ho].
  destruct o as [x|]; [|done]. injection H as -> ->. split; [done|]. split; [done|].
  apply first_where_Some in Ho as [_ Ho]. unfold user_scope in Ho. by bool_prop.
Qed.

(** *** The operations that raise the version *)

Context (s : AuthService).

Lemma LogoutAll_bumps ctx uid v ip w w' :
  Auth.LogoutAll s ctx uid ip w = (Ok tt, w') ->
  version_from ctx uid v (w_db w) -> version_above ctx uid v (w_db w').
Proof.
  intros H Hv. apply operation_Ok in H as (w0 & w1 & Hd & _ & _ & H & ->). rewrite <- Hd in Hv.
  apply bind_Ok in H as ([] & w2 & H2 & H). apply run_grows in H2; [|evo_tac].
  apply bind_Ok in H as ([] & w3 & H3 & H). apply run_grows in H3; [|evo_tac].
  apply bind_Ok in H as ([] & w4 & H4 & H). apply run_grows in H; [|apply evo_Record].
  eapply above_grows; [exact H|]. eapply bumpPwdVersion_Ok; [exact H4|].
  eapply from_grows; [exact H3|]. by eapply from_grows; [exact H2|].
Qed.

(** The change of password ends in the credential transaction and its event. *)
Lemma change_bumps ctx user v pw e w w' :
  bind (Auth.hashPassword s pw) (fun hashed =>
    bind (Account.applyCredentialChange ctx user hashed) (fun _ => Auth.record s ctx e)) w = (Ok tt, w') ->
  version_from ctx (User.ID user) v (w_db w) -> version_above ctx (User.ID user) v (w_db w').
Proof.
  intros H Hv. apply bind_Ok in H as (h & w1 & H1 & H). apply run_grows in H1; [|evo_tac].
  apply bind_Ok in H as ([] & w2 & H2 & H). apply run_grows in H; [|apply evo_Record].
  eapply above_grows; [exact H|]. eapply applyCredentialChange_Ok; [exact H2|]. by eapply from_grows.
Qed.

Lemma ChangePassword_bumps ctx uid v old new ip w w' :
  Account.ChangePassword s ctx uid old new ip w = (Ok tt, w') ->
  version_from ctx uid v (w_db w) -> version_above ctx uid v (w_db w').
Proof.
  intros H Hv. apply operation_Ok in H as (w0 & w1 & Hd & _ & _ & H & ->). rewrite <- Hd in Hv.
  apply bind_Ok in H as (u & w2 & Hu & H). apply the_user_Ok in Hu as ([Hd2 _] & _ & <-).
  rewrite <- Hd2 in Hv. destruct (negb _); [done|].
  apply bind_Ok in H as ([] & w3 & H3 & H). apply run_grows in H3; [|apply evo_accept].
  eapply (change_bumps (WithAsyncDelivery ctx)); [exact H|]. by eapply from_grows.
Qed.

Lemma SetPassword_bumps ctx uid v new ip w w' :
  Account.SetPassword s ctx uid new ip w = (Ok tt, w') ->
  version_from ctx uid v (w_db w) -> version_above ctx uid v (w_db w').
Proof.
  intros H Hv. apply operation_Ok in H as (w0 & w1 & Hd & _ & _ & H & ->). rewrite <- Hd in Hv.
  apply bind_Ok in H as (u & w2 & Hu & H). apply the_user_Ok in Hu as ([Hd2 _] & _ & <-).
  rewrite <- Hd2 in Hv. destruct (negb _); [done|].
  apply bind_Ok in H as ([] & w3 & H3 & H). apply run_grows in H3; [|apply evo_accept].
  apply bind_Ok in H as (h & w4 & H4 & H). apply run_grows in H4; [|evo_tac].
  apply bind_Ok in H as (set & w5 & H5 & H). apply run_grows in H5; [|evo_tac].
  destruct (negb set); [done|].
  apply bind_Ok in H as ([] & w6 & H6 & H). apply run_grows in H; [|apply evo_Record].
  eapply above_grows; [exact H|]. eapply (bumpPwdVersion_Ok (WithAsyncDelivery ctx)); [exact H6|].
  eapply from_grows; [exact H5|]. eapply from_grows; [exact H4|]. by eapply from_grows; [exact H3|].
Qed.

Lemma ForceLogout_bumps ctx admin uid v ip w w' :
  Admin.ForceLogout (audits s) ctx admin uid ip w = (Ok tt, w') ->
  version_from ctx uid v (w_db w) -> version_above ctx uid v (w_db w').
Proof.
  intros H Hv. apply operation_Ok in H as (w0 & w1 & Hd & _ & _ & H & ->). rewrite <- Hd in Hv.
  apply bind_Ok in H as (u & w2 & H2 & H).
  assert (grows (w_db w0) (w_db w2)) as G2.
  { apply (run_grows _ _ _ _ (evo_target _ ctx uid) H2). }
  apply bind_Ok in H as ([] & w3 & H3 & H). apply run_grows in H3; [|evo_tac].
  apply bind_Ok in H as ([] & w4 & H4 & H). apply run_grows in H4; [|evo_tac].
  apply bind_Ok in H as ([] & w5 & H5 & H). unfold Calls.store_Delete in H. apply run_grows in H; [|evo_tac].
  eapply above_grows; [exact H|].
  eapply (bump_update (WithAsyncDelivery ctx)); [| |exact H5|]; [done|done|].
  eapply from_grows; [exact H4|]. eapply from_grows; [exact H3|]. by eapply from_grows; [exact G2|].
Qed.

End Final.

(** The requests whose success ends every access token the user holds. *)
Inductive ends_tokens (uid : Z) : Req -> Prop :=
  | ends_logout_all ip : ends_tokens uid (RLogoutAll uid ip)
  | ends_change old new ip : ends_tokens uid (RChangePassword uid old new ip)
  | ends_set new ip : ends_tokens uid (RSetPassword uid new ip)
  | ends_forced admin ip : ends_tokens uid (RForceLogout admin uid ip).

(** ** The properties *)

Section Claims.
Context {ST : Store} {E : Ext} {J : JwtLib} {OT : Otp} {G : GoogleLib} {WL : WebAuthnLib} {L : Local} (s : AuthService).

(** C6: over any lifetime of requests and clean-ups no user, session, passkey or
    denied access token disappears or is re-identified; password versions and
    authorization epochs never decrease; a suspension and the revocation of a
    session, of a refresh token or of a passkey are never undone: a refresh token
    that is there later is one of before, as revoked as it was, or was created
    since; and a spent token stays on record unless a clean-up ran after it had
    expired. *)
Theorem security_monotone (w w' : World) (upto : Z) (Hlife : lifetime s any_request (fun t => t <= upto) w w') :
  let d := w_db w in let d' := w_db w' in
  (forall u, In u (users d) -> exists v, In v (users d') /\
     User.ID v = User.ID u /\ User.TenantID v = User.TenantID u /\
     User.PwdVersion u <= User.PwdVersion v /\ User.AuthEpoch u <= User.AuthEpoch v /\
     (User.AdminSuspended u = true -> User.AdminSuspended v = true)) /\
  (forall x, In x (sessions d) -> exists y, In y (sessions d') /\
     Session.ID y = Session.ID x /\ Session.TenantID y = Session.TenantID x /\
     Session.UserID y = Session.UserID x /\ Session.ExpiresAt y = Session.ExpiresAt x /\
     (Session.Revoked x = true -> Session.Revoked y = true)) /\
  (forall y, In y (refresh_tokens d') ->
     (exists x, In x (refresh_tokens d) /\ RefreshToken.ID y = RefreshToken.ID x /\
        RefreshToken.TokenHash y = RefreshToken.TokenHash x /\ RefreshToken.UserID y = RefreshToken.UserID x /\
        RefreshToken.SessionID y = RefreshToken.SessionID x /\
        (RefreshToken.Revoked x = true -> RefreshToken.Revoked y = true)) \/
     next_id d <= RefreshToken.ID y) /\
  (forall x, In x (passkey_credentials d) -> exists y, In y (passkey_credentials d') /\
     PasskeyCredential.CredentialID y = PasskeyCredential.CredentialID x /\
     PasskeyCredential.UserID y = PasskeyCredential.UserID x /\
     PasskeyCredential.PublicKey y = PasskeyCredential.PublicKey x /\
     (PasskeyCredential.Revoked x = true -> PasskeyCredential.Revoked y = true)) /\
  (forall x, In x (used_tokens d) -> upto <= UsedToken.ExpiresAt x -> In x (used_tokens d')) /\
  (forall x, In x (access_revocations d) -> In x (access_revocations d')).
Proof.
  apply lifetime_any in Hlife as [[Hu _] [Hs _] [Hp _] [Ha _] Ht Hk _ _ _]. cbv zeta. split; [|split; [|split; [|split; [|split]]]].
  - intros u Hin. destruct (evolves_In _ _ _ _ Hu Hin) as (v & ? & ? & ? & ? & ? & ? & _). by exists v.
  - intros x Hin. destruct (evolves_In _ _ _ _ Hs Hin) as (y & ? & ? & ? & ? & ? & ? & _). by exists y.
  - intros y Hin. destruct (Ht y Hin) as [(x & ? & ? & ? & ? & ? & ?)|?]; [left; by exists x|by right].
  - intros x Hin. destruct (evolves_In _ _ _ _ Hp Hin) as (y & ? & ? & ? & ? & ?). by exists y.
  - intros x Hin Hx. destruct (Hk x Hin) as [?|(t & ? & ?)]; [done|lia].
  - intros x Hin. by destruct (evolves_In _ _ _ _ Ha Hin) as (y & ? & <-).
Qed.

(** C14: Every request and every clean-up keeps the tables well formed, over any lifetime: row ids
    unique and below the next one, one user per name and per address in a tenant,
    one refresh token per hash, one session per id, one second factor per user, one
    row per spent token, denied token, external identity, passkey and remembered
    device. *)
Theorem tables_typed (w w' : World) (Hlife : lifetime s any_request any_time w w') (Htyped : typed (w_db w)) :
  typed (w_db w').
Proof. by apply lifetime_any, pr_typed in Hlife; auto. Qed.

(** C7: requests that act on other tenants, however many, leave the users and
    the sessions of a tenant exactly as they were. *)
Theorem tenant_isolated (tid : string) (w w' : World)
    (Hlife : lifetime s (fun ctx r => ~ acts_on s ctx r tid) any_time w w') :
  (forall u, User.TenantID u = tid -> (In u (users (w_db w')) <-> In u (users (w_db w)))) /\
  (forall x, Session.TenantID x = tid -> (In x (sessions (w_db w')) <-> In x (sessions (w_db w)))).
Proof.
  apply (lifetime_progress s (fun t => t <> tid)) in Hlife as [[Hu Fu] [Hs Fs]].
  2: { intros ctx r t Hn Ha ->. by apply Hn. }
  split.
  - intros u Ht. split; intros Hin.
    + by destruct (Fu u Hin).
    + destruct (evolves_In _ _ _ _ Hu Hin) as (v & Hv & _ & _ & _ & _ & _ & Hsame).
      rewrite <- Hsame; [done|]. by intros Hn.
  - intros x Ht. split; intros Hin.
    + by destruct (Fs x Hin).
    + destruct (evolves_In _ _ _ _ Hs Hin) as (y & Hy & _ & _ & _ & _ & _ & Hsame).
      rewrite <- Hsame; [done|]. by intros Hn.
Qed.

(** C8: once a logout that names an access token has succeeded, [Check] never
    again accepts that token, whatever happens in between and whatever the
    state of the store. *)
Theorem logout_final (ctx : Ctx) (token jti ip : string) (c : Claims) (w w1 w2 : World) (ctx' : Ctx)
    (Hout : Auth.Logout s ctx token jti ip w = (Ok tt, w1)) (Hjti : jti <> "")
    (Hlife : lifetime s any_request any_time w1 w2) (Hc : ID c = jti /\ TenantID c = FromContext ctx) :
  fst (Authority.Check ctx' c w2) <> Ok tt.
Proof.
  destruct Hc as [Hid Ht]. apply denied_final. rewrite Hid, Ht.
  eapply denied_grows; [by eapply lifetime_grows|].
  apply operation_Ok in Hout as (wa & wb & _ & _ & _ & H & ->).
  apply bind_Ok in H as (t & wc & _ & H). rewrite bool_decide_false in H by done.
  apply bind_Ok in H as ([] & wd & Hr & H).
  apply bind_Ok in Hr as (r & we & Hr & Hd). apply try_Ok in Hr.
  destruct r as [[]|]; [|done]. injection Hd as <-. apply RevokeAccess_Ok in Hr.
  eapply denied_grows; [|exact Hr]. eapply (run_grows _ we); [|exact H].
  pose proof (allow_all (WithAsyncDelivery ctx)). unfold Auth.kill_family. evo_tac.
Qed.

(** C9: once a user has been suspended, [Check] never again accepts a token of
    that user. *)
Theorem suspend_final (ctx : Ctx) (uid : Z) (c : Claims) (w w1 w2 : World) (ctx' : Ctx)
    (Hsus : Authority.Suspend ctx uid w = (Ok tt, w1)) (Hlife : lifetime s any_request any_time w1 w2)
    (Hc : UserID c = uid /\ TenantID c = FromContext ctx) :
  fst (Authority.Check ctx' c w2) <> Ok tt.
Proof.
  destruct Hc as [Hu Ht]. apply (user_final _ _ (fun u => User.AdminSuspended u = true)); [|by left].
  rewrite Hu, Ht. eapply user_is_grows; [by eapply lifetime_grows|intros a b (_ & _ & _ & _ & ? & _); auto|].
  apply transaction_Ok in Hsus as (wa & wb & _ & H & [-> _]).
  apply bind_Ok in H as (n & wc & Hup & H). apply Updates_Ok in Hup as [[Hd _] Hn].
  destruct (negb _) eqn:En; [done|]. bool_prop. apply run_grows in H; [|evo_tac].
  eapply user_is_grows; [exact H|intros a b (_ & _ & _ & _ & ? & _); auto|].
  rewrite Hd. unfold user_is. simpl. rewrite first_where_update by done.
  destruct (first_where _ (users (w_db wa))) as [u|] eqn:Hf.
  - apply first_where_Some in Hf as [_ Hf]. simpl. eexists. split; [reflexivity|]. by rewrite Hf.
  - exfalso. rewrite first_where_None in Hf. subst n. unfold changed in En.
    rewrite (proj2 (count_where_zero _ _)) in En; [done|]. intros r Hin. by rewrite (Hf r Hin).
Qed.

(** C10: once a sign-out everywhere, one forced by an administrator, a change of
    password or a first password has succeeded, [Check] never again accepts a
    token issued to that user at the password version it had, or an earlier one. *)
Theorem credential_change_final (ctx : Ctx) (uid : Z) (r : Req) (u : User.row) (c : Claims)
    (w w1 w2 : World) (ctx' : Ctx)
    (Hr : ends_tokens uid r) (Hrun : serve s ctx r w = (Ok tt, w1))
    (Hu : first_where (user_scope ctx uid (w_db w)) (users (w_db w)) = Some u)
    (Hlife : lifetime s any_request any_time w1 w2)
    (Hc : UserID c = uid /\ TenantID c = FromContext ctx /\ PwdVer c <= User.PwdVersion u) :
  fst (Authority.Check ctx' c w2) <> Ok tt.
Proof.
  destruct Hc as (Hcu & Ht & Hv).
  apply (user_final _ _ (fun x => User.PwdVersion u < User.PwdVersion x)); [|intros; right; left; lia].
  rewrite Hcu, Ht. eapply (above_grows ctx); [by eapply lifetime_grows|].
  assert (version_from ctx uid (User.PwdVersion u) (w_db w)) as Hfrom by (exists u; split; [done|lia]).
  destruct Hr; simpl in Hrun;
    eauto using LogoutAll_bumps, ChangePassword_bumps, SetPassword_bumps, ForceLogout_bumps.
Qed.

End Claims.

(** ** Witnesses *)

Import Choices.

(** A day in the life: alice signs out everywhere, bob changes his password, the
    clean-up runs. *)
Definition demo_served : World :=
  snd (serve Demo.service (mkCtx "acme" None false "" false) (RChangePassword 2 "Hunter222" "Correct7horse" "10.0.0.2")
    (snd (serve Demo.service Demo.ctx (RLogoutAll 1 "10.0.0.1") Demo.start))).

Definition demo_day : World := snd (runOnce demo_served).

Lemma demo_day_lifetime (purged : Z -> Prop) : purged (w_now demo_served) ->
  lifetime Demo.service any_request purged Demo.start demo_day.
Proof.
  intros Ht. apply (life_cleanup _ _ _ _ demo_served); [|exact Ht].
  exact (life_serve _ _ _ _ _ _ _ (life_serve _ _ _ _ _ _ _ (life_here _ _ _ Demo.start) I) I).
Qed.

Lemma security_monotone_witness :
  exists v, In v (users (w_db demo_day)) /\ User.ID v = 1 /\ 0 <= User.PwdVersion v.
Proof.
  destruct (security_monotone Demo.service Demo.start demo_day (w_now demo_served)
    (demo_day_lifetime (fun t => t <= w_now demo_served) (Z.le_refl _))) as [Hu _].
  destruct (Hu Demo.alice (or_introl eq_refl)) as (v & Hin & Hi & _ & Hv & _).
  exact (ex_intro _ v (conj Hin (conj Hi Hv))).
Defined.

Lemma demo_typed : typed (w_db Demo.start).
Proof.
  split; try (refine (bool_decide_eq_true_1 (NoDup _) _); vm_reflexivity);
    (split; [refine (bool_decide_eq_true_1 (NoDup _) _); vm_reflexivity|]; intros r [<-|[<-|[]]]; done).
Qed.

Lemma tables_typed_witness : typed (w_db demo_day).
Proof. exact (tables_typed Demo.service Demo.start demo_day (demo_day_lifetime any_time I) demo_typed). Defined.

Definition demo_logout_all : World := snd (serve Demo.service Demo.ctx (RLogoutAll 1 "10.0.0.1") Demo.start).

(** A request of one tenant, seen from the other. *)
Lemma tenant_isolated_witness :
  is_Ok (fst (serve Demo.service Demo.ctx (RLogoutAll 1 "10.0.0.1") Demo.start)) = true /\
  (In Demo.bob (users (w_db demo_logout_all)) <-> In Demo.bob (users (w_db Demo.start))).
Proof.
  split; [vm_reflexivity|].
  refine (proj1 (tenant_isolated Demo.service "acme" Demo.start demo_logout_all _) Demo.bob eq_refl).
  assert (~ acts_on Demo.service Demo.ctx (RLogoutAll 1 "10.0.0.1") "acme") as Hn
    by (intros Ha; vm_compute in Ha; discriminate Ha).
  exact (life_serve _ (fun c r => ~ acts_on Demo.service c r "acme") _ _ _ _ _ (life_here _ _ _ Demo.start) Hn).
Defined.

Lemma logout_final_witness :
  exists w1, Auth.Logout Demo.service Demo.ctx "r1" "jti-1" "10.0.0.1" Demo.start = (Ok tt, w1) /\
    fst (Authority.Check Demo.ctx Demo.claims Demo.start) = Ok tt /\
    fst (Authority.Check Demo.ctx Demo.claims w1) <> Ok tt.
Proof.
  destruct (ran (Auth.Logout Demo.service Demo.ctx "r1" "jti-1" "10.0.0.1") Demo.start (ltac:(vm_reflexivity)))
    as ([] & w1 & H).
  exists w1. split; [exact H|]. split; [vm_reflexivity|].
  exact (logout_final Demo.service Demo.ctx "r1" "jti-1" "10.0.0.1" Demo.claims Demo.start w1 w1 Demo.ctx H
    (ltac:(done)) (life_here _ _ _ w1) (conj eq_refl eq_refl)).
Defined.

Lemma suspend_final_witness :
  exists w1, Authority.Suspend Demo.ctx 1 Demo.start = (Ok tt, w1) /\
    fst (Authority.Check Demo.ctx Demo.claims w1) <> Ok tt.
Proof.
  destruct (ran (Authority.Suspend Demo.ctx 1) Demo.start (ltac:(vm_reflexivity))) as ([] & w1 & H).
  exists w1. split; [exact H|].
  exact (suspend_final Demo.service Demo.ctx 1 Demo.claims Demo.start w1 w1 Demo.ctx H
    (life_here _ _ _ w1) (conj eq_refl eq_refl)).
Defined.

Lemma credential_change_final_witness :
  exists w1, serve Demo.service Demo.ctx (RChangePassword 1 "Secret123" "Correct7horse" "10.0.0.1") Demo.start = (Ok tt, w1) /\
    fst (Authority.Check Demo.ctx Demo.claims w1) <> Ok tt.
Proof.
  destruct (ran (serve Demo.service Demo.ctx (RChangePassword 1 "Secret123" "Correct7horse" "10.0.0.1")) Demo.start
    (ltac:(vm_reflexivity))) as ([] & w1 & H).
  exists w1. split; [exact H|].
  exact (credential_change_final Demo.service Demo.ctx 1 _ Demo.alice Demo.claims Demo.start w1 w1 Demo.ctx
    (ends_change 1 _ _ _) H eq_refl (life_here _ _ _ w1) (conj eq_refl (conj eq_refl (Z.le_refl 0)))).
Defined.
