(* ===== verification/Frames.v ===== *)
(** * What a call leaves alone

    [holds R]: the calls that move the world along a relation [R]; [steady]: those
    that change neither the operation latch nor the clock, and consume no fault
    when there are none; [same_key]: those
    that leave what is seen of one key of the store.  [audit_only]: the calls that
    write to no table but the trail's.  [Record_] on the latch. *)

From S2P Require Import Prelude Store Models World Sql Repos Jwt AuditTrail Common Identity Totp Auth Account AuditSpec IdentitySpec Evolve.

Open Scope Z_scope.
Open Scope monad_scope.

(** ** Frames *)

(** Only the database, the mail, the draws and the faults left differ. *)
Definition db_only {ST : Store} (w w' : World) : Prop :=
  w_kv w' = w_kv w /\ w_op w' = w_op w /\ w_now w' = w_now w /\ (calm w -> calm w').

(** A relation between worlds that such changes respect. *)
Class Frame {ST : Store} (R : World -> World -> Prop) := {
  frame_preorder :: PreOrder R;
  frame_db : forall w w', db_only w w' -> R w w'
}.

(** Only the draws and the faults left differ. *)
Definition idle {ST : Store} (w w' : World) : Prop :=
  db_only w w' /\ w_db w' = w_db w /\ w_mail w' = w_mail w.

Class Idle {ST : Store} (R : World -> World -> Prop) := {
  idle_preorder :: PreOrder R;
  idle_step : forall w w', idle w w' -> R w w'
}.

#[export] Instance frame_is_idle {ST : Store} (R : World -> World -> Prop) `{!Frame R} : Idle R.
Proof. split; [typeclasses eauto|]. intros w w' [H _]. by apply frame_db. Qed.

(** Whatever the oracle, the call moves the world along [R]. *)
Definition holds {ST : Store} (R : World -> World -> Prop) {A} (m : M A) : Prop := forall w, R w (snd (m w)).

#[export] Instance db_only_frame {ST : Store} : Frame db_only.
Proof.
  split; [|done]. split; [by repeat split|]. intros a b c (A1 & A2 & A3 & A4) (B1 & B2 & B3 & B4).
  repeat split; [congruence..|auto].
Qed.

Section Idle.
Context {ST : Store} (R : World -> World -> Prop) {F : Idle R}.

Lemma holds_idle {A} (m : M A) : (forall w, idle w (snd (m w))) -> holds R m.
Proof. intros H w. by apply idle_step. Qed.

Lemma holds_ret {A} (a : A) : holds R (ret a).
Proof. by apply holds_idle. Qed.

Lemma holds_fail {A} e : holds R (fail (A := A) e).
Proof. by apply holds_idle. Qed.

Lemma holds_bind {A B} (m : M A) (f : A -> M B) : holds R m -> (forall a, holds R (f a)) -> holds R (bind m f).
Proof.
  intros Hm Hf w. unfold bind. specialize (Hm w). destruct (m w) as [[a|e] w1]; [|done].
  etransitivity; [exact Hm|apply Hf].
Qed.

Lemma holds_try {A} (m : M A) : holds R m -> holds R (try_ m).
Proof. intros Hm w. unfold try_. specialize (Hm w). by destruct (m w). Qed.

Lemma holds_now : holds R now.
Proof. by apply holds_idle. Qed.

Lemma holds_current_op : holds R current_op.
Proof. by apply holds_idle. Qed.

Lemma idle_fault w : idle w (snd (fault w)).
Proof. unfold idle, db_only, calm, fault. destruct (w_faults w) eqn:Hw; simpl; by rewrite ?Hw. Qed.

Lemma holds_fault : holds R fault.
Proof. apply holds_idle, idle_fault. Qed.

Lemma holds_uuid `{Ext} : holds R NewUUID.
Proof. by apply holds_idle. Qed.

Lemma holds_draw : holds R draw.
Proof. by apply holds_idle. Qed.

Lemma holds_read {A} (f : World -> Res A * World) : (forall w, idle w (snd (f w))) -> holds R (stmt f).
Proof.
  intros Hf. apply holds_bind; [apply holds_fault|]. intros b. apply holds_idle. by intros w; destruct b.
Qed.

Lemma holds_First {T} `{TableOf T} p : holds R (First (R := T) p).
Proof. apply holds_read. intros w. by destruct (first_where _ _). Qed.

Lemma holds_Find {T} `{TableOf T} p : holds R (Find (R := T) p).
Proof. by apply holds_read. Qed.

Lemma holds_Count {T} `{TableOf T} p : holds R (Count (R := T) p).
Proof. by apply holds_read. Qed.

Lemma holds_run {A} (m : M A) w r w' : holds R m -> m w = (r, w') -> R w w'.
Proof. intros Hm H. specialize (Hm w). by rewrite H in Hm. Qed.

End Idle.

Section Holds.
Context {ST : Store} (R : World -> World -> Prop) {F : Frame R}.

Lemma holds_db {A} (m : M A) : (forall w, db_only w (snd (m w))) -> holds R m.
Proof. intros H w. by apply frame_db. Qed.

Lemma holds_send m : holds R (send m).
Proof. apply holds_bind; [typeclasses eauto|apply holds_fault, _|]. intros b. apply holds_db. by intros w; destruct b. Qed.

Lemma holds_stmt {A} (f : World -> Res A * World) : (forall w, db_only w (snd (f w))) -> holds R (stmt f).
Proof.
  intros Hf. apply holds_bind; [typeclasses eauto|apply holds_fault, _|]. intros b. apply holds_db.
  by intros w; destruct b.
Qed.

Lemma holds_Updates {T} `{TableOf T} (p : DB -> T -> bool) f : holds R (Updates p f).
Proof. by apply holds_stmt. Qed.

Lemma holds_Delete {T} `{TableOf T} (p : DB -> T -> bool) : holds R (Delete p).
Proof. by apply holds_stmt. Qed.

Lemma holds_Create {T} `{TableOf T} clash (mk : Z -> T) : holds R (Create clash mk).
Proof. apply holds_stmt. intros w. cbv zeta. by case_match. Qed.

Lemma holds_transaction {A} (m : M A) : holds R m -> holds R (transaction m).
Proof.
  intros Hm w. unfold transaction. pose proof (holds_fault R w) as Hf.
  assert (forall w0 w1, R w0 w1 -> R w0 (restore w w1)) as Hr.
  { intros w0 w1 H. etransitivity; [exact H|by apply frame_db]. }
  destruct (fault w) as [[[]|] w0]; [done| |]; simpl in Hf; (etransitivity; [exact Hf|]);
    specialize (Hm w0); destruct (m w0) as [[a|err] w1]; try (by apply Hr); destruct (bool_decide _); try done;
    pose proof (holds_fault R w1) as Hg; destruct (fault w1) as [[[]|] w2];
    [apply Hr| | |apply Hr| |]; by etransitivity.
Qed.

End Holds.

(** *** Quiet calls: nothing is written, nothing is sent *)

Section Quiet.
Context {ST : Store}.

Definition quiet_step (w w' : World) : Prop :=
  w_db w' = w_db w /\ w_mail w' = w_mail w /\ w_op w' = w_op w /\ w_now w' = w_now w.

#[export] Instance quiet_idle : Idle quiet_step.
Proof.
  split; [|by intros w w' ((_ & O & N & _) & D & L)]. split; [by repeat split|].
  intros a b c (A1 & A2 & A3 & A4) (B1 & B2 & B3 & B4). repeat split; congruence.
Qed.

Lemma quiet_kv {A} (f : bool -> Z -> kv -> A * kv) : holds quiet_step (Calls.kv_call f).
Proof.
  apply holds_bind; [typeclasses eauto|apply holds_fault; typeclasses eauto|].
  intros b w. by destruct (f _ _ _).
Qed.

Lemma quiet_transaction {A} (m : M A) : holds quiet_step m -> holds quiet_step (transaction m).
Proof.
  intros Hm w. unfold transaction. pose proof (holds_fault quiet_step w) as Hf.
  destruct (fault w) as [[[]|] w0]; [done| |]; simpl in Hf;
    specialize (Hm w0); destruct (m w0) as [[a|err] w1]; simpl in Hm;
    pose proof (holds_fault quiet_step w1) as Hg; destruct (fault w1) as [[[]|] w2]; simpl in Hg;
    repeat case_match; unfold quiet_step in *; simpl; intuition congruence.
Qed.

End Quiet.

Create HintDb frames discriminated.
#[export] Hint Resolve holds_ret holds_fail holds_now holds_current_op holds_fault holds_uuid holds_draw
  holds_send holds_First holds_Find holds_Count holds_Updates holds_Delete holds_Create : frames.

Ltac frame_step :=
  match goal with
  | |- holds _ (bind _ _) => apply holds_bind; [typeclasses eauto| |intros ?]
  | |- holds _ (try_ _) => apply holds_try
  | |- holds _ (optional _) => unfold optional
  | |- holds _ (transaction _) => first [apply quiet_transaction | apply holds_transaction; [typeclasses eauto|]]
  | |- holds _ (updateScoped _ _) => unfold updateScoped
  | |- holds _ (requireOwner _ _) => unfold requireOwner
  | |- holds _ (scopeTenant _ _) => unfold scopeTenant
  | |- holds _ (Calls.quietly _) => unfold Calls.quietly
  | |- holds _ (Calls.notify _) => unfold Calls.notify
  | |- holds _ (Calls.lift ?r) => destruct r; simpl
  | |- holds _ (Outbox.create_ignore _ _) => unfold Outbox.create_ignore
  | |- holds _ (match ?x with _ => _ end) => destruct x
  | |- holds _ (let _ := _ in _) => cbv zeta
  | _ => solve [eauto with frames typeclass_instances]
  end.

Ltac frame_tac := repeat frame_step.

(** *** Steady calls: the latch and the clock are as they were *)

Section Steady.
Context {ST : Store}.

Definition steady_step (w w' : World) : Prop :=
  w_op w' = w_op w /\ w_now w' = w_now w /\ (calm w -> calm w').

#[export] Instance steady_frame : Frame steady_step.
Proof.
  split; [|by intros w w' (_ & H)]. split; [by repeat split|].
  intros a b c (A1 & A2 & A3) (B1 & B2 & B3). repeat split; [congruence|congruence|auto].
Qed.

Lemma steady_kv {A} (f : bool -> Z -> kv -> A * kv) : holds steady_step (Calls.kv_call f).
Proof.
  apply holds_bind; [typeclasses eauto|apply holds_fault; typeclasses eauto|].
  intros b w. by destruct (f _ _ _).
Qed.

Lemma steady_run {A} (m : M A) w r w' : holds steady_step m -> m w = (r, w') -> steady_step w w'.
Proof. apply holds_run. Qed.

End Steady.

Abbreviation steady := (holds steady_step).

#[export] Hint Resolve steady_kv : frames.

#[export] Hint Resolve quiet_kv : frames.

Ltac steady_step := frame_step.
Ltac steady_tac := frame_tac.

(** ** What is seen of one key of the store *)

Section Key.
Context {ST : Store} {SL : StoreLaws ST} {E : Ext} (key : string).

(** The clock is the same, no fault is consumed when there are none, and the key
    reads the same from now on. *)
Definition same_key (w w' : World) : Prop :=
  w_now w' = w_now w /\ (calm w -> calm w') /\
  forall t, w_now w <= t -> kv_live t (w_kv w') key = kv_live t (w_kv w) key.

#[export] Instance same_key_frame : Frame same_key.
Proof.
  split.
  - split; [by repeat split|]. intros a b c (A1 & A2 & A3) (B1 & B2 & B3).
    split; [congruence|]. split; [auto|]. intros t Ht. rewrite B3, A3; [done|done|by rewrite A1].
  - intros w w' (K & _ & N & C). split; [done|]. split; [done|]. intros t _. by rewrite K.
Qed.

(** A store call that leaves what is seen of the key. *)
Lemma key_kv {A} (f : bool -> Z -> kv -> A * kv) :
  (forall up t0 s t, t0 <= t -> kv_live t (snd (f up t0 s)) key = kv_live t s key) ->
  holds same_key (Calls.kv_call f).
Proof.
  intros Hf. apply holds_bind; [typeclasses eauto|apply holds_fault; typeclasses eauto|].
  intros b w. specialize (Hf (negb b) (w_now w) (w_kv w)). destruct (f _ _ _) as [a k].
  split; [done|]. split; [done|]. exact Hf.
Qed.

Lemma key_get k : holds same_key (Calls.store_Get k).
Proof. apply key_kv. intros up t0 s t Ht. by apply get_keeps. Qed.

Lemma key_setnx k v ttl : k <> key -> holds same_key (Calls.store_SetNX k v ttl).
Proof. intros Hk. apply key_kv. intros up t0 s t Ht. apply (setnx_quiet up t0 k v ttl s t key Ht). congruence. Qed.

Lemma key_incr k d ttl : k <> key -> holds same_key (Calls.store_IncrBy k d ttl).
Proof. intros Hk. apply key_kv. intros up t0 s t Ht. apply (incr_quiet up t0 k d ttl s t key Ht). congruence. Qed.

Lemma key_delete k : k <> key -> holds same_key (Calls.store_Delete k).
Proof. intros Hk. apply key_kv. intros up t0 s t Ht. apply delete_keeps. congruence. Qed.

Lemma key_update_op f : holds same_key (update_op f).
Proof. intros w. unfold update_op. simpl. by destruct (w_op w). Qed.

Lemma key_dispatch r limit : forall n, holds same_key (Outbox.dispatch_loop r limit n).
Proof.
  induction limit; intros n; cbn [Outbox.dispatch_loop];
    unfold Outbox.Claim, Outbox.save, Outbox.Deliver, Outbox.insert_event, Outbox.FailClaim; frame_tac.
Qed.

Lemma key_record wr ctx e : holds same_key (Writer.Record_ wr ctx e).
Proof.
  pose proof key_update_op. pose proof key_dispatch.
  unfold Writer.Record_, Outbox.Admit, Outbox.admit_tx, Outbox.or_unavailable, Trail.Capture, Outbox.Dispatch.
  frame_tac.
Qed.

(** Nothing is seen of the key from [t0] on. *)
Definition gone (t0 : Z) (w : World) : Prop := forall t, t0 <= t -> kv_live t (w_kv w) key = None.

Lemma gone_same w w' : same_key w w' -> gone (w_now w) w -> gone (w_now w) w'.
Proof. intros (_ & _ & K) H t Ht. by rewrite K, H. Qed.

Lemma take_Ok w v w' :
  Calls.store_Take key w = (Ok (Some v), w') ->
  kv_live (w_now w) (w_kv w) key = Some v /\ gone (w_now w) w' /\ w_db w' = w_db w /\ w_now w' = w_now w.
Proof.
  intros H. unfold Calls.store_Take, Calls.kv_call in H.
  apply bind_Ok in H as (b & w0 & Hf & H). apply fault_same in Hf as (D & K & _ & N & _).
  destruct (kv_take (negb b) (w_now w0) key (w_kv w0)) as [a k] eqn:Ht. injection H as -> <-. rewrite K, N in Ht.
  pose proof (take_only_live (negb b) (w_now w) key (w_kv w) v) as Hl.
  pose proof (fun t H => take_gone (negb b) (w_now w) key (w_kv w) t v H) as Hg.
  rewrite Ht in Hl, Hg. repeat split; [by apply Hl| |done|done]. intros t Hle. simpl. by apply Hg.
Qed.

End Key.

#[export] Hint Resolve key_get key_record : frames.

Section Facts.
Context {ST : Store} {E : Ext}.


Lemma Admit_latch r ctx in_ w res w' :
  Outbox.Admit r ctx in_ w = (res, w') ->
  w_now w' = w_now w /\ (calm w -> calm w') /\
  w_op w' = (if is_Ok res then op_admitted (AuditLog.Success in_) <$> w_op w else w_op w).
Proof.
  assert (steady (Trail.Capture ctx in_)) as Hcap by (unfold Trail.Capture; steady_tac).
  assert (forall x, steady (transaction (Outbox.admit_tx r x))) as Htx
    by (intros; unfold Outbox.admit_tx, Outbox.or_unavailable; steady_tac).
  unfold Outbox.Admit, bind. unfold Outbox.or_unavailable, bind, try_.
  destruct (Trail.Capture ctx in_ w) as [[e|err] w0] eqn:Hc;
    pose proof (steady_run _ _ _ _ Hcap Hc) as (O1 & N1 & C1); [|by intros [= <- <-]].
  apply Capture_Ok in Hc as (_ & _ & _ & _ & He & _). simpl.
  destruct (transaction (Outbox.admit_tx r e) w0) as [[[]|err] w1] eqn:Ht;
    apply (steady_run _ _ _ _ (Htx e)) in Ht as (O2 & N2 & C2); intros [= <- <-]; simpl;
    [|split; [congruence|split; [auto|congruence]]].
  rewrite <- He, <- O1, <- O2. destruct (w_op w1) eqn:Eo; simpl; rewrite ?Eo; (split; [congruence|auto]).
Qed.

(** *** Runs of a calm world *)

Lemma Updates_calm {R} `{TableOf R} (p : DB -> R -> bool) f w : calm w ->
  Updates p f w = (Ok (changed (p (w_db w)) f (rows_of (w_db w))),
    set_db (set_rows (update_where (p (w_db w)) f (rows_of (w_db w))) (w_db w)) w).
Proof. intros Hc. unfold Updates. by rewrite stmt_calm. Qed.

Lemma optional_First_calm {R} `{TableOf R} (p : DB -> R -> bool) w : calm w ->
  optional (First p) w = (Ok (first_where (p (w_db w)) (rows_of (w_db w))), w).
Proof.
  intros Hc. unfold optional, bind, try_. rewrite First_calm by done. by destruct (first_where _ _).
Qed.

(** A call whose error is dropped always answers. *)
Lemma quietly_run {A} (m : M A) w : Calls.quietly m w = (Ok tt, snd (m w)).
Proof. unfold Calls.quietly, bind, try_. by destruct (m w) as [[a|e] w1]. Qed.

Lemma kv_calm {A} (f : bool -> Z -> kv -> A * kv) w : calm w ->
  Calls.kv_call f w = (Ok (fst (f true (w_now w) (w_kv w))), set_kv (snd (f true (w_now w) (w_kv w))) w).
Proof.
  intros Hc. unfold Calls.kv_call, bind, fault. rewrite Hc. simpl. by destruct (f true (w_now w) (w_kv w)).
Qed.

(** [Record_] inside an operation: admitted, or the operation is to fail. *)
Lemma record_latch wr ctx e w o r w' :
  w_op w = Some o -> Writer.Record_ wr ctx e w = (r, w') ->
  r = Ok tt /\ w_now w' = w_now w /\ (calm w -> calm w') /\
  (w_op w' = Some (op_admitted (AuditLog.Success e) o) \/ w_op w' = Some (op_fail ErrUnavailable o)).
Proof.
  unfold Writer.Record_, bind, try_. intros Ho.
  destruct (Outbox.Admit (Writer.durable wr) ctx e w) as [[[]|err] w1] eqn:Ha;
    apply Admit_latch in Ha as (N1 & C1 & O1); simpl in O1; rewrite Ho in O1; unfold current_op, update_op;
    rewrite O1; simpl.
  - rewrite andb_false_r. intros [= <- <-]. eauto.
  - intros [= <- <-]. simpl. eauto.
Qed.

End Facts.

(** ** The trail writes to its own tables only *)

Record audit_only (d d' : DB) : Prop := {
  ao_users : users d' = users d; ao_tokens : refresh_tokens d' = refresh_tokens d;
  ao_sessions : sessions d' = sessions d; ao_devices : totp_devices d' = totp_devices d;
  ao_codes : recovery_codes d' = recovery_codes d; ao_used : used_tokens d' = used_tokens d;
  ao_denied : access_revocations d' = access_revocations d; ao_tenants : tenants d' = tenants d;
  ao_perms : permissions d' = permissions d; ao_roles : roles d' = roles d;
  ao_passkeys : passkey_credentials d' = passkey_credentials d;
  ao_identities : oauth_identities d' = oauth_identities d;
  ao_grants : role_permissions d' = role_permissions d; ao_user_roles : user_roles d' = user_roles d
}.

#[export] Instance audit_only_preorder : PreOrder audit_only.
Proof. split; [by split|]. intros a b c [] []. split; congruence. Qed.

Ltac audit_step :=
  match goal with
  | |- keeps _ (bind _ _) => apply keeps_bind; [typeclasses eauto| |intros ?]
  | |- keeps _ (try_ _) => apply keeps_try
  | |- keeps _ (transaction _) => apply keeps_transaction; [typeclasses eauto|]
  | |- keeps _ (Outbox.create_ignore _ _) => unfold Outbox.create_ignore
  | |- keeps _ (Outbox.or_unavailable _) => unfold Outbox.or_unavailable
  | |- keeps _ (Updates _ _) => apply keeps_Updates; [typeclasses eauto|by split]
  | |- keeps _ (Create _ _) => apply keeps_Create; [typeclasses eauto|by split]
  | |- keeps _ (match ?x with _ => _ end) => destruct x
  | _ => solve [eauto 6 with keeps typeclass_instances]
  end.

(** What a token stands on is not written. *)
Lemma standing_same c t d d' :
  users d' = users d -> tenants d' = tenants d -> sessions d' = sessions d ->
  access_revocations d' = access_revocations d -> permissions d' = permissions d -> roles d' = roles d ->
  role_permissions d' = role_permissions d -> user_roles d' = user_roles d ->
  standing_db c t d -> standing_db c t d'.
Proof.
  intros Hu Ht Hs Ha Hp Hr Hg Hur [S1 S2 S3 S4 S5].
  split; rewrite ?Hu, ?Ht, ?Hs, ?Ha; [done..|].
  intros p. rewrite <- S5. unfold holds_grant, RBACRepository.granted, RBACRepository.role_in, user_in.
  by rewrite Hu, Hp, Hr, Hg, Hur.
Qed.

Section Trail.
Context {ST : Store} {E : Ext}.

Lemma only_dispatch r limit : forall n, keeps audit_only (Outbox.dispatch_loop r limit n).
Proof.
  induction limit; intros n; cbn [Outbox.dispatch_loop];
    unfold Outbox.Claim, Outbox.save, Outbox.Deliver, Outbox.insert_event, Outbox.FailClaim;
    repeat audit_step.
Qed.

Lemma only_record wr ctx e : keeps audit_only (Writer.Record_ wr ctx e).
Proof.
  pose proof only_dispatch. unfold Writer.Record_, Outbox.Admit, Outbox.admit_tx, Trail.Capture, Outbox.Dispatch.
  repeat audit_step.
Qed.

Lemma only_newIP {J : JwtLib} {OT : Otp} s u ip ua : keeps audit_only (Auth.maybeNotifyNewIPLogin s u ip ua).
Proof.
  unfold Auth.maybeNotifyNewIPLogin, Calls.store_SetNX, Calls.notify, Calls.quietly.
  repeat audit_step.
Qed.

Lemma run_only {A} (m : M A) w r w' : keeps audit_only m -> m w = (r, w') -> audit_only (w_db w) (w_db w').
Proof. intros Hm H. specialize (Hm w). by rewrite H in Hm. Qed.

End Trail.
