(* ===== verification/SignInSpec.v ===== *)
(** * What sign-in and token rotation promise

    A refresh token rotates at most once, into a pair of the same family whose
    access token verifies and stands; a reused one ends its family; a login
    succeeds only with the right password of a live, unlocked account, and never
    past an enabled second factor; lockouts are capped. *)

From S2P Require Import Prelude Store Models World Sql Repos Jwt AuditTrail Common Identity Totp Auth OAuth Passkey Account Admin Demo AuditSpec IdentitySpec Evolve Cleanup JwtSpec Lifetime Frames.

Open Scope Z_scope.
Open Scope monad_scope.

Section Runs.
Context {ST : Store} {E : Ext} {J : JwtLib} {OT : Otp} (s : AuthService).
Import Auth.

Abbreviation grows := (evolution (fun _ => True)).

#[local] Hint Resolve allow_all : keeps.

(** *** Issuing a pair *)

Lemma steady_Check ctx c : steady (Authority.Check ctx c).
Proof.
  unfold Authority.Check, Authority.snapshot, Authority.required, RBACRepository.GetUserPermissions,
    Calls.store_Revoked. steady_tac.
Qed.

Lemma steady_session_of ctx u ip ua r : steady (session_of s ctx u ip ua r).
Proof.
  unfold session_of, SessionRepository.Create, SessionRepository.Touch. steady_tac.
Qed.

Lemma accessState_Ok ctx c w w' :
  Authority.accessState ctx c w = (Ok tt, w') -> standing_db c (w_now w) (w_db w).
Proof.
  intros H. apply bind_Ok in H as (r & w1 & Hr & H). apply try_Ok in Hr.
  destruct r as [[]|e]; [by apply Check_Ok in Hr as [_ Hr]|by destruct (decide _)].
Qed.

(** Reads leave the database as it is. *)
Lemma keeps_eq_Check ctx c : keeps eq (Authority.Check ctx c).
Proof.
  unfold Authority.Check, Authority.snapshot, Authority.required, RBACRepository.GetUserPermissions,
    Calls.store_Revoked, Calls.kv_call.
  repeat (keeps_step || (apply keeps_same; [typeclasses eauto|]; intros w; by destruct (kv_revoked _ _ _ _ _))).
Qed.

Lemma access_token_same ctx user sid perms :
  keeps eq (access_token s ctx user sid perms) /\ steady (access_token s ctx user sid perms).
Proof.
  assert (forall c, keeps eq (Authority.accessState ctx c) /\ steady (Authority.accessState ctx c)) as Ha.
  { intros c. pose proof (keeps_eq_Check ctx c). pose proof (steady_Check ctx c).
    unfold Authority.accessState. split; [keeps_tac|steady_tac]. }
  unfold access_token, IssueAccessEnterprise, IssueAccessV1.
  split; repeat (apply Ha || keeps_step || steady_step).
Qed.

Lemma access_token_Ok ctx user sid perms w tok w' :
  strict (jwt s) = true -> access_token s ctx user sid perms w = (Ok tok, w') ->
  exists c, VerifyAccessV1 (jwt s) (w_now w) tok FinnAudience = Ok c /\ standing_db c (w_now w) (w_db w).
Proof.
  intros Hs H. unfold access_token in H. rewrite Hs in H.
  apply bind_Ok in H as (access & w1 & Hi & H).
  assert (w_db w1 = w_db w /\ w_now w1 = w_now w) as [D1 N1].
  { unfold IssueAccessV1 in Hi. destruct (_ || (MaxAccessTTL <? AccessTTL (jwtCfg s))); [done|].
    by injection Hi as _ <-. }
  apply bind_Ok in H as (t & w2 & Hn & H). apply now_Ok in Hn as [-> (D2 & _ & _ & N2 & _)].
  rewrite N1 in H. destruct (VerifyAccessV1 _ _ _ _) as [c|e] eqn:Hv; [|done].
  apply bind_Ok in H as (r & w3 & Hr & H). apply try_Ok in Hr.
  destruct r as [[]|e]; [|by destruct (decide _)].
  injection H as <- <-. apply accessState_Ok in Hr. rewrite D2, D1, N2, N1 in Hr. eauto.
Qed.

Lemma run_same {A} (m : M A) w r w' : keeps eq m -> m w = (r, w') -> w_db w' = w_db w.
Proof. intros Hm H. specialize (Hm w). by rewrite H in Hm. Qed.

Lemma run_opaque w r w' : Hash.GenerateOpaqueToken w = (r, w') -> w_db w' = w_db w /\ w_now w' = w_now w.
Proof.
  intros H. split.
  - eapply run_same; [|exact H]. unfold Hash.GenerateOpaqueToken, Hash.GenerateRandomBytes. keeps_tac.
  - eapply steady_run; [|exact H]. unfold Hash.GenerateOpaqueToken, Hash.GenerateRandomBytes. steady_tac.
Qed.

Lemma refresh_Create_Ok ctx rt w r w' :
  RefreshTokenRepository.Create ctx rt w = (Ok r, w') ->
  r = RefreshToken.mk (next_id (w_db w)) (RefreshToken.UserID rt) (RefreshToken.TokenHash rt)
        (RefreshToken.ExpiresAt rt) (RefreshToken.Revoked rt) (RefreshToken.IPAddress rt) (RefreshToken.UserAgent rt)
        (RefreshToken.DeviceName rt) (RefreshToken.LocationEstimate rt) (RefreshToken.LastActiveAt rt)
        (RefreshToken.SessionID rt) (w_now w) /\
  w_db w' = set_next_id (next_id (w_db w) + 1) (set_rows (refresh_tokens (w_db w) ++ [r]) (w_db w)) /\
  w_now w' = w_now w.
Proof.
  intros H. apply bind_Ok in H as ([] & w1 & H1 & H).
  apply bind_Ok in H1 as (n & w1' & H1 & H1'). apply Count_Ok in H1 as [(D1 & _ & _ & N1 & _) _].
  destruct (n =? 1); [|done]. injection H1' as <-.
  apply bind_Ok in H as (t & w2 & Hn & H). apply now_Ok in Hn as [-> (D2 & _ & _ & N2 & _)].
  apply Create_Ok in H as (-> & _ & D3 & _ & _ & N3 & _). rewrite D3, D2, D1, N3, N2, N1. done.
Qed.

Lemma steady_newIP u ip ua : steady (maybeNotifyNewIPLogin s u ip ua).
Proof. unfold maybeNotifyNewIPLogin, Calls.store_SetNX. steady_tac. Qed.

(** A row the issue stored. *)
Definition fresh_token (pair : TokenPair) (uid t ttl : Z) (sid : string) (r : RefreshToken.row) : Prop :=
  RefreshToken.TokenHash r = Hash.HashToken (RefreshToken_ pair) /\ RefreshToken.UserID r = uid /\
  RefreshToken.Revoked r = false /\ RefreshToken.ExpiresAt r = t + ttl /\ RefreshToken.SessionID r = sid.

(** The pair verifies and stands. *)
Definition pair_stands (pair : TokenPair) (t : Z) (d : DB) : Prop :=
  exists c, VerifyAccessV1 (jwt s) t (AccessToken pair) FinnAudience = Ok c /\ standing_db c t d.

Lemma issue_Ok ctx user ip ua r w pair w' :
  issueTokenPair s ctx user ip ua r w = (Ok pair, w') ->
  w_now w' = w_now w /\ grows (w_db w) (w_db w') /\
  ExpiresAt_ pair = w_now w + AccessTTL (jwtCfg s) /\
  (exists row sid, In row (refresh_tokens (w_db w')) /\ (r <> "" -> sid = r) /\
     fresh_token pair (User.ID user) (w_now w) (RefreshTTL (jwtCfg s)) sid row) /\
  (strict (jwt s) = true -> User.IsActive user = true /\ User.AdminSuspended user = false /\
     pair_stands pair (w_now w) (w_db w')).
Proof.
  intros H. pose proof (run_evolves _ _ _ _ (evo_issueTokenPair _ s ctx user ip ua r (allow_all ctx)) H) as Hg.
  unfold issueTokenPair in H. destruct (strict (jwt s) && _) eqn:Hst; [done|]. destruct (_ && _) in H; [done|].
  apply bind_Ok in H as (ps & w1 & Hp & H). apply try_Ok in Hp. destruct ps as [perms|]; [|done].
  apply bind_Ok in Hp as (rows & w1' & Hf & Hp). apply Find_Ok in Hf as [(D1 & _ & _ & N1 & _) _].
  injection Hp as _ <-.
  apply bind_Ok in H as (sid & w2 & Hsid & H).
  pose proof (steady_run _ _ _ _ (steady_session_of ctx user ip ua r) Hsid) as (_ & N2 & _).
  assert (r <> "" -> sid = r) as Hr.
  { intros Hne. unfold session_of in Hsid. rewrite bool_decide_false in Hsid by done.
    apply bind_Ok in Hsid as (t & w3 & _ & Hsid). apply bind_Ok in Hsid as ([] & w4 & _ & Hsid).
    by injection Hsid. }
  apply bind_Ok in H as (access & w3 & Ha & H). destruct (access_token_same ctx user sid perms) as [Hk Hs3].
  pose proof (run_same _ _ _ _ Hk Ha) as D3. pose proof (steady_run _ _ _ _ Hs3 Ha) as (_ & N3 & _).
  apply bind_Ok in H as (plain & w4 & Hg4 & H). apply run_opaque in Hg4 as [D4 N4].
  apply bind_Ok in H as (t & w5 & Hn & H). apply now_Ok in Hn as [-> (D5 & _ & _ & N5 & _)].
  apply bind_Ok in H as (row & w6 & Hc & H). apply refresh_Create_Ok in Hc as (-> & D6 & N6).
  apply bind_Ok in H as ([] & w7 & H7 & H). injection H as <- <-.
  pose proof (run_only _ _ _ _ (only_newIP s user ip ua) H7) as A7.
  apply steady_run in H7 as (_ & N7 & _); [|apply steady_newIP]. simpl in *.
  assert (w_now w7 = w_now w) as N by congruence.
  split; [done|]. split; [done|]. split; [congruence|]. split.
  - eexists (RefreshToken.mk _ _ _ _ _ _ _ _ _ _ _ _), sid. split; [|split; [exact Hr|]].
    + rewrite (ao_tokens _ _ A7), D6. simpl. apply in_or_app. right. by left.
    + repeat split; simpl; congruence.
  - intros Hs. rewrite Hs in Hst. simpl in Hst. bool_prop.
    split; [done|]. split; [done|]. apply access_token_Ok in Ha as (c & Hv & Hc); [|done].
    exists c. split; [simpl; congruence|].
    replace (w_now w) with (w_now w2) by congruence.
    rewrite D6 in A7. destruct A7. simpl in *. eapply standing_same; [..|exact Hc]; congruence.
Qed.

(** *** Rotation *)

Lemma reuse_not_Ok {A} ctx rt ip d w (a : A) w' : reuse s ctx rt ip d w <> (Ok a, w').
Proof. intros H. by apply bind_Ok in H as ([] & w1 & _ & H). Qed.

Definition presented (ctx : Ctx) (token : string) (d : DB) : option RefreshToken.row :=
  first_where (ownedRows ctx RefreshToken.UserID
    (fun r => bool_decide (RefreshToken.TokenHash r = Hash.HashToken token)) d) (refresh_tokens d).

Definition live_session (ctx : Ctx) (sid : string) (t : Z) (d : DB) : Prop :=
  sid <> "" -> exists x, first_where (SessionRepository.scope ctx (fun x => bool_decide (Session.ID x = sid)) d)
    (sessions d) = Some x /\ Session.Revoked x = false /\ t <= Session.ExpiresAt x.

(** The compare-and-set that succeeds revokes the row it was given. *)
Lemma Revoke_Ok ctx rt w w' :
  RefreshTokenRepository.Revoke ctx rt w = (Ok tt, w') ->
  user_in (FromContext ctx) (RefreshToken.UserID rt) (w_db w) = true -> RefreshToken.Revoked rt = false ->
  In rt (refresh_tokens (w_db w)) -> In (RefreshToken.set_Revoked true rt) (refresh_tokens (w_db w')).
Proof.
  intros H Hu Hr Hin. apply bind_Ok in H as (n & w1 & Hup & H). apply Updates_Ok in Hup as [[Hd _] _].
  destruct (n =? 0); [done|]. injection H as <-. rewrite Hd. apply update_where_In. exists rt.
  split; [done|]. unfold ownedRows. by rewrite Hu, Hr, Z.eqb_refl.
Qed.

Lemma rotate_Ok ctx rt user ip ua w pair w' :
  rotate s ctx rt user ip ua w = (Ok pair, w') ->
  exists w1 w2, RefreshTokenRepository.Revoke ctx rt w = (Ok tt, w1) /\ w_now w1 = w_now w /\
    issueTokenPair s (WithActor (User.ID user) ctx) user ip ua (RefreshToken.SessionID rt) w1 = (Ok pair, w2) /\
    audit_only (w_db w2) (w_db w').
Proof.
  intros H. apply bind_Ok in H as (r & w1 & Hr & H). apply try_Ok in Hr. destruct r as [[]|e].
  - apply bind_Ok in H as (tokens & w2 & Hi & H). apply bind_Ok in H as ([] & w3 & Hc & H).
    injection H as <- <-. exists w1, w2. split; [done|]. split; [|split; [done|]].
    + eapply steady_run in Hr as (_ & N & _); [done|]. unfold RefreshTokenRepository.Revoke. steady_tac.
    + by eapply run_only; [apply only_record|].
  - destruct (decide _); [|done]. exfalso. by eapply reuse_not_Ok.
Qed.

Lemma refresh_inv ctx token ip ua w pair w' :
  refreshAudited s ctx token ip ua w = (Ok pair, w') ->
  exists rt user w1, presented ctx token (w_db w) = Some rt /\ RefreshToken.Revoked rt = false /\
    w_now w <= RefreshToken.ExpiresAt rt /\
    first_where (user_scope ctx (RefreshToken.UserID rt) (w_db w)) (users (w_db w)) = Some user /\
    User.IsActive user = true /\ User.AdminSuspended user = false /\
    live_session ctx (RefreshToken.SessionID rt) (w_now w) (w_db w) /\
    same_state w w1 /\ rotate s ctx rt user ip ua w1 = (Ok pair, w').
Proof.
  intros H. apply bind_Ok in H as (o & w1 & Hf & H). apply optional_First_Ok in Hf as [S1 Hf].
  destruct o as [rt|]; [|done]. destruct (RefreshToken.Revoked rt) eqn:Hr; [by apply reuse_not_Ok in H|].
  apply bind_Ok in H as (t & w2 & Hn & H). apply now_Ok in Hn as [-> S2].
  destruct (RefreshToken.ExpiresAt rt <? w_now w1) eqn:He.
  { by apply bind_Ok in H as ([] & w3 & _ & H). }
  apply bind_Ok in H as (u & w3 & Hu & H). apply optional_First_Ok in Hu as [S3 Hu].
  destruct u as [user|]; [|done]. destruct (negb (User.IsActive user) || _) eqn:Hl; [done|].
  pose proof (same_trans _ _ _ S1 S2) as S12. pose proof (same_trans _ _ _ S12 S3) as S13.
  pose proof (proj1 S12) as D2. pose proof (proj1 S13) as D3. rewrite D2 in Hu.
  pose proof (proj1 (proj2 (proj2 (proj2 S1)))) as N1. bool_prop. rewrite N1 in *.
  assert (forall w4, same_state w w4 -> rotate s ctx rt user ip ua w4 = (Ok pair, w') ->
    live_session ctx (RefreshToken.SessionID rt) (w_now w) (w_db w) ->
    exists rt user w1, presented ctx token (w_db w) = Some rt /\ RefreshToken.Revoked rt = false /\
    w_now w <= RefreshToken.ExpiresAt rt /\
    first_where (user_scope ctx (RefreshToken.UserID rt) (w_db w)) (users (w_db w)) = Some user /\
    User.IsActive user = true /\ User.AdminSuspended user = false /\
    live_session ctx (RefreshToken.SessionID rt) (w_now w) (w_db w) /\
    same_state w w1 /\ rotate s ctx rt user ip ua w1 = (Ok pair, w')) as Hend.
  { intros w4 S4 Hrot Hlive. exists rt, user, w4. by repeat (split; [done|]). }
  destruct (bool_decide (RefreshToken.SessionID rt = "")) eqn:Hsid; bool_prop.
  { apply (Hend w3); [done|done|]. intros Hne. by destruct Hne. }
  apply bind_Ok in H as (x & w4 & Hs & H). apply optional_First_Ok in Hs as [S4 Hs]. rewrite D3 in Hs.
  destruct x as [x|]; [|done]. destruct (Session.Revoked x || _) eqn:Hx; [by apply reuse_not_Ok in H|].
  apply (Hend w4); [by eapply same_trans|done|]. intros _. bool_prop. exists x. split; [exact Hs|by split].
Qed.

(** *** Reuse *)

(** The family of a token is over: its session, and every token of it. *)
Record family_over (tid : string) (rt : RefreshToken.row) (d : DB) : Prop := {
  over_tokens : forall r, In r (refresh_tokens d) -> RefreshToken.SessionID r = RefreshToken.SessionID rt ->
    user_in tid (RefreshToken.UserID r) d = true -> RefreshToken.Revoked r = true;
  over_session : forall x, In x (sessions d) -> Session.ID x = RefreshToken.SessionID rt ->
    Session.TenantID x = tid -> Session.UserID x = RefreshToken.UserID rt -> Session.Revoked x = true
}.

Lemma family_audit tid rt d d' : audit_only d d' -> family_over tid rt d -> family_over tid rt d'.
Proof.
  intros [Hu Ht Hs _ _ _ _] [H1 H2]. split; [|by rewrite Hs]. unfold user_in. rewrite Ht, Hu. exact H1.
Qed.

Lemma revoke_family ctx rt d :
  let p := SessionRepository.scope ctx (fun x => bool_decide (Session.ID x = RefreshToken.SessionID rt) &&
             (Session.UserID x =? RefreshToken.UserID rt)) d in
  let d1 := set_rows (update_where p (Session.set_Revoked true) (sessions d)) d in
  let q := ownedRows ctx RefreshToken.UserID
             (fun r => bool_decide (RefreshToken.SessionID r = RefreshToken.SessionID rt) &&
                       negb (RefreshToken.Revoked r)) d1 in
  family_over (FromContext ctx) rt
    (set_rows (update_where q (RefreshToken.set_Revoked true) (refresh_tokens d1)) d1).
Proof.
  intros p d1 q. split; simpl.
  - intros r (r0 & Hin & ->)%update_where_In Hs Hu. destruct (q r0) eqn:Eq; [done|].
    unfold q, ownedRows in Eq. change (user_in _ _ _) with (user_in (FromContext ctx) (RefreshToken.UserID r0) d1) in Hu.
    rewrite Hu, bool_decide_true in Eq by done. simpl in Eq. by bool_prop.
  - intros x (x0 & Hin & ->)%update_where_In Hi Ht Hu. destruct (p x0) eqn:Ep; [done|].
    unfold p, SessionRepository.scope in Ep. rewrite !bool_decide_true in Ep by done.
    rewrite Hu, Z.eqb_refl in Ep. done.
Qed.

Lemma steady_session_RevokeByID ctx id uid : steady (SessionRepository.RevokeByID ctx id uid).
Proof. unfold SessionRepository.RevokeByID. steady_tac. Qed.

Lemma steady_denySID o : steady (denylistSession s o).
Proof. unfold denylistSession, Calls.store_Set. steady_tac. Qed.

Lemma steady_alert ctx uid n b : steady (notifySecurityAsync ctx uid n b).
Proof. unfold notifySecurityAsync, UserRepository.FindByID. steady_tac. Qed.

Lemma same_alert ctx uid n b : keeps eq (notifySecurityAsync ctx uid n b).
Proof.
  unfold notifySecurityAsync, UserRepository.FindByID, Calls.notify, Calls.quietly. keeps_tac.
Qed.

Lemma denySID_run o w : exists w', denylistSession s o w = (Ok tt, w') /\ w_db w' = w_db w.
Proof.
  unfold denylistSession. destruct o as [x|]; [|by exists w]. destruct (bool_decide _); [by exists w|].
  unfold Calls.store_Set, Calls.kv_call, bind, now, fault.
  destruct (w_faults w); eexists; split; reflexivity.
Qed.

Lemma alert_run ctx uid n b w : exists w', notifySecurityAsync ctx uid n b w = (Ok tt, w').
Proof.
  unfold notifySecurityAsync, bind, try_. destruct (UserRepository.FindByID ctx uid w) as [[[u|]|] w1]; eauto.
  destruct (bool_decide _); eauto. eexists. apply quietly_run.
Qed.

(** The database after the two revocations of a family. *)
Lemma family_run ctx rt w : calm w ->
  let w1 := snd (SessionRepository.RevokeByID ctx (RefreshToken.SessionID rt) (RefreshToken.UserID rt) w) in
  let w2 := snd (RefreshTokenRepository.RevokeBySession ctx (RefreshToken.SessionID rt) w1) in
  family_over (FromContext ctx) rt (w_db w2) /\ steady_step w w2.
Proof.
  intros Hc w1 w2. pose proof (steady_session_RevokeByID ctx (RefreshToken.SessionID rt) (RefreshToken.UserID rt) w)
    as (O1 & N1 & C1). fold w1 in O1, N1, C1.
  assert (steady (RefreshTokenRepository.RevokeBySession ctx (RefreshToken.SessionID rt))) as H2
    by (unfold RefreshTokenRepository.RevokeBySession; steady_tac).
  specialize (H2 w1). fold w2 in H2. split; [|etransitivity; [|exact H2]; by split]. 
  assert (w_db w2 = set_rows (update_where (ownedRows ctx RefreshToken.UserID
     (fun r => bool_decide (RefreshToken.SessionID r = RefreshToken.SessionID rt) && negb (RefreshToken.Revoked r))
     (w_db w1)) (RefreshToken.set_Revoked true) (refresh_tokens (w_db w1))) (w_db w1)) as D2.
  { unfold w2, RefreshTokenRepository.RevokeBySession, bind. by rewrite Updates_calm by auto. }
  assert (w_db w1 = set_rows (update_where (SessionRepository.scope ctx (fun x =>
     bool_decide (Session.ID x = RefreshToken.SessionID rt) && (Session.UserID x =? RefreshToken.UserID rt)) (w_db w))
     (Session.set_Revoked true) (sessions (w_db w))) (w_db w)) as D1.
  { unfold w1, SessionRepository.RevokeByID, bind. rewrite Updates_calm by done.
    by destruct (changed _ _ _ =? 0). }
  rewrite D2, D1. apply revoke_family.
Qed.

(** Reuse always ends in a refusal, the family over and the event recorded, or
    the operation doomed. *)
Lemma reuse_run ctx rt ip detail w o :
  calm w -> w_op w = Some o -> RefreshToken.SessionID rt <> "" ->
  exists w', reuse (A := TokenPair) s ctx rt ip detail w = (Error ErrInvalidToken, w') /\ calm w' /\
    family_over (FromContext ctx) rt (w_db w') /\
    (w_op w' = Some (op_admitted false o) \/ w_op w' = Some (op_fail ErrUnavailable o)).
Proof.
  intros Hc Ho Hsid.
  enough (exists w', handleTokenReuse s ctx rt ip detail w = (Ok tt, w') /\ calm w' /\
    family_over (FromContext ctx) rt (w_db w') /\
    (w_op w' = Some (op_admitted false o) \/ w_op w' = Some (op_fail ErrUnavailable o))) as (w' & Hw' & H).
  { exists w'. split; [|done]. unfold reuse. by rewrite (bind_run _ _ _ _ _ Hw'). }
  unfold handleTokenReuse. rewrite bool_decide_false by done. cbn [negb].
  erewrite bind_run; [|unfold try_, SessionRepository.FindByID; rewrite optional_First_calm by done; reflexivity].
  cbv zeta. set (sess := first_where _ _).
  erewrite bind_run; [|apply quietly_run]. erewrite bind_run; [|apply quietly_run].
  destruct (family_run ctx rt w Hc) as [Hover (O2 & N2 & C2)]. set (w2 := snd _) in *.
  destruct (denySID_run sess w2) as (w3 & H3 & D3). rewrite (bind_run _ _ _ _ _ H3).
  apply (steady_run _ _ _ _ (steady_denySID sess)) in H3 as (O3 & N3 & C3).
  unfold record. match goal with |- context [Writer.Record_ ?a ?c ?e] =>
    destruct (Writer.Record_ a c e w3) as [r w4] eqn:H4 end.
  assert (audit_only (w_db w3) (w_db w4)) as A4 by (eapply run_only; [|exact H4]; apply only_record).
  apply (record_latch _ _ _ _ o) in H4 as Hr; [|congruence]. destruct Hr as (-> & _ & C4 & O4).
  rewrite (bind_run _ _ _ _ _ H4). rewrite D3 in A4.
  assert (family_over (FromContext ctx) rt (w_db w4)) as Hover4 by (by eapply family_audit).
  change (AuditLog.Success _) with false in O4. assert (calm w4) as C by auto.
  destruct sess; [|by exists w4].
  match goal with |- context [notifySecurityAsync ?c ?u ?n ?b w4] =>
    destruct (alert_run c u n b w4) as (w5 & H5);
    pose proof (run_same _ _ _ _ (same_alert c u n b) H5) as D5;
    pose proof (steady_run _ _ _ _ (steady_alert c u n b) H5) as (O5 & _ & C5) end.
  exists w5. rewrite D5, O5. auto.
Qed.

(** *** Login *)

Definition login_user (ctx : Ctx) (email : string) (d : DB) : option User.row :=
  first_where (fun u => bool_decide (User.Email u = Policy.normalize email) &&
                        bool_decide (User.TenantID u = FromContext ctx)) (users d).

(** The user may sign in with this password at time [t]. *)
Record admitted_user (password : string) (t : Z) (u : User.row) : Prop := {
  au_verified : RequireEmailVerified (cfg s) = true -> User.IsEmailVerified u = true;
  au_active : User.IsActive u = true;
  au_unsuspended : User.AdminSuspended u = false;
  au_unlocked : forall until, User.LockedUntil u = Some until -> until <= t;
  au_password : User.Password u <> "" /\ Hash.CheckPassword (User.Password u) password = true
}.

(** The second factor of the user, as [FindByUserID] reads it. *)
Definition device (ctx : Ctx) (uid : Z) (d : DB) : option TOTPDevice.row :=
  first_where (TOTPRepository.device_of ctx uid d) (totp_devices d).

Lemma steady_gates email tok ip : steady (login_gates s email tok ip).
Proof. unfold login_gates, Calls.storeCounterValue, Calls.store_Get. steady_tac. Qed.

Lemma only_gates email tok ip : keeps audit_only (login_gates s email tok ip).
Proof.
  unfold login_gates, Calls.storeCounterValue, Calls.store_Get. repeat audit_step.
Qed.

(** What [checkMFAOrIssueTokensAudited] answers. *)
Definition mfa_answer (ctx : Ctx) (user : User.row) (d0 : DB) (t : Z) (res : LoginResult) (d' : DB) : Prop :=
  match res with
  | MFAPending _ => Totp.enabled (device ctx (User.ID user) d0) = true /\ refresh_tokens d' = refresh_tokens d0
  | Issued tokens profile =>
      Totp.enabled (device ctx (User.ID user) d0) = false /\ profile = FromUser user /\
      (exists row sid, In row (refresh_tokens d') /\ fresh_token tokens (User.ID user) t (RefreshTTL (jwtCfg s)) sid row) /\
      (strict (jwt s) = true -> pair_stands tokens t d')
  end.

Lemma checkMFA_Ok ctx user ip ua detail w res w' :
  checkMFAOrIssueTokensAudited s ctx user ip ua detail w = (Ok res, w') ->
  mfa_answer ctx user (w_db w) (w_now w) res (w_db w').
Proof.
  unfold checkMFAOrIssueTokensAudited. destruct (_ || _); [done|]. intros H.
  apply bind_Ok in H as (o & w1 & Ho & H). apply optional_First_Ok in Ho as [(D1 & _ & _ & N1 & _) Ho].
  change (device ctx (User.ID user) (w_db w) = o) in Ho.
  destruct (Totp.enabled o) eqn:He.
  - apply bind_Ok in H as (t & w2 & Ht & H). apply bind_Ok in H as ([] & w3 & Hr & H). injection H as <- <-.
    apply run_same in Ht; [|unfold Issue; keeps_tac]. apply run_only in Hr; [|apply only_record].
    simpl. rewrite Ho, (ao_tokens _ _ Hr), Ht, D1. done.
  - apply bind_Ok in H as (pair & w2 & Hi & H). apply bind_Ok in H as ([] & w3 & Hr & H). injection H as <- <-.
    apply issue_Ok in Hi as (_ & _ & _ & (row & sid & Hin & _ & Hf) & Hst). apply run_only in Hr; [|apply only_record].
    rewrite N1 in *. simpl. rewrite Ho. split; [done|]. split; [done|]. split.
    + exists row, sid. by rewrite (ao_tokens _ _ Hr).
    + intros Hs. destruct (Hst Hs) as (_ & _ & c & Hv & Hc). exists c. split; [done|].
      destruct Hr. eapply standing_same; [..|exact Hc]; done.
Qed.

(** Clearing the failure counter changes no identity. *)
Lemma device_reset ctx uid id f d :
  (forall u, User.ID (f u) = User.ID u /\ User.TenantID (f u) = User.TenantID u) ->
  device ctx uid (set_rows (update_where (user_scope ctx id d) f (users d)) d) = device ctx uid d.
Proof.
  intros Hf. unfold device. apply first_where_ext. intros r _. unfold TOTPRepository.device_of, ownedRows, user_in.
  f_equal. simpl. unfold update_where. induction (users d) as [|u l IH]; [done|]. simpl.
  rewrite IH. f_equal. destruct (user_scope _ _ _ u); [|done]. by destruct (Hf u) as [-> ->].
Qed.

Lemma login_inv ctx in_ ip ua w res w' :
  loginAudited s ctx in_ ip ua w = (Ok res, w') ->
  exists user, login_user ctx (l_Email in_) (w_db w) = Some user /\
    admitted_user (l_Password in_) (w_now w) user /\
    mfa_answer ctx (User.set_LockedUntil None (User.set_FailedLoginAttempts 0 user)) (w_db w) (w_now w) res (w_db w').
Proof.
  intros H. apply bind_Ok in H as ([] & w1 & Hg & H).
  pose proof (steady_run _ _ _ _ (steady_gates _ _ _) Hg) as (_ & N1 & _).
  pose proof (run_only _ _ _ _ (only_gates _ _ _) Hg) as G1.
  apply bind_Ok in H as (o & w2 & Ho & H). apply optional_First_Ok in Ho as [(D2 & _ & _ & N2 & _) Ho].
  destruct o as [user|]; [|by apply bind_Ok in H as ([] & w3 & _ & (? & w4 & _ & (? & w5 & _ & H)%bind_Ok)%bind_Ok)].
  destruct (RequireEmailVerified _ && _) eqn:Hv; [done|].
  destruct (negb _ || User.AdminSuspended user) eqn:Ha; [by apply bind_Ok in H as ([] & w3 & _ & H)|].
  apply bind_Ok in H as (locked & w3 & Hl & H). apply bind_Ok in Hl as (t & w4 & Hn & Hl).
  apply now_Ok in Hn as [-> (D4 & _ & _ & N4 & _)]. injection Hl as Hl <-.
  destruct locked; [by apply bind_Ok in H as ([] & w5 & _ & H)|].
  destruct (negb _) eqn:Hp in H; [by apply bind_Ok in H as ([] & w5 & _ & H)|].
  apply bind_Ok in H as (user' & w5 & Hreset & H). apply bind_Ok in Hreset as ([] & w6 & Hu & Hreset).
  injection Hreset as <- <-. 
  pose proof (updateScoped_Ok _ _ _ _ Hu) as (D5 & _ & _ & N5 & _).
  apply bind_Ok in H as ([] & w7 & Hdel & H). apply store_call_Ok in Hdel as (up & _ & _ & D7 & N7 & _).
  apply operation_Ok in H as (w8 & w9 & D8 & _ & N8 & H & D9). apply checkMFA_Ok in H.
  exists user. change (rows_of (w_db w1)) with (users (w_db w1)) in Ho. rewrite (ao_users _ _ G1) in Ho. split; [exact Ho|]. bool_prop. split.
  - apply andb_false_iff in Hv. unfold password_matches in Hp. bool_prop. split; try done.
    + intros Hreq. destruct Hv as [Hv|Hv]; [congruence|by bool_prop].
    + intros lim Hlim. rewrite Hlim in Hl. bool_prop. lia.
  - rewrite N8, N7, N5, N4, N2, N1, D8, D7, D5, D4, D2, <- D9 in H.
    assert (forall uid, device ctx uid (set_rows (update_where (user_scope ctx (User.ID user) (w_db w1))
      (fun u => User.set_LockedUntil None (User.set_FailedLoginAttempts 0 u)) (users (w_db w1))) (w_db w1)) =
      device ctx uid (w_db w)) as Hdev.
    { intros uid. rewrite device_reset by done. unfold device, TOTPRepository.device_of, ownedRows, user_in.
      by rewrite (ao_devices _ _ G1), (ao_users _ _ G1). }
    destruct res; simpl in *; change (device (WithAsyncDelivery ctx)) with (device ctx) in H;
      rewrite Hdev in H; [exact H|]. by rewrite (ao_tokens _ _ G1) in H.
Qed.

End Runs.

(** ** What issuing leaves of the store *)

Section Keys.
Context {ST : Store} {SL : StoreLaws ST} {E : Ext} {J : JwtLib} {OT : Otp} (key : string).
Import Auth.

Lemma key_accessState c cl : holds (same_key key) (Authority.accessState c cl).
Proof.
  assert (forall j f, holds (same_key key) (Calls.store_Revoked j f)) as Hr
    by (intros j f; apply key_kv; intros up t0 w t Ht; by apply revoked_keeps).
  unfold Authority.accessState, Authority.Check, Authority.snapshot, Authority.required,
    RBACRepository.GetUserPermissions. repeat (apply Hr || frame_step).
Qed.

Lemma key_issue s ctx u ip ua r :
  (forall uid ip, knownip_key uid ip <> key) -> holds (same_key key) (issueTokenPair s ctx u ip ua r).
Proof.
  intros Hk. pose proof (fun uid ip v ttl => key_setnx key _ v ttl (Hk uid ip)). pose proof key_accessState.
  unfold issueTokenPair, session_of, access_token, IssueAccessV1, IssueAccessEnterprise, maybeNotifyNewIPLogin,
    SessionRepository.Create, SessionRepository.Touch, RefreshTokenRepository.Create,
    RBACRepository.GetUserPermissions, Hash.GenerateOpaqueToken, Hash.GenerateRandomBytes.
  frame_tac.
Qed.

End Keys.

(** ** The properties *)

Section Claims.
Context {ST : Store} {E : Ext} {J : JwtLib} {OT : Otp} {G : GoogleLib} {WL : WebAuthnLib} {L : Local} (s : AuthService).

Lemma presented_In ctx token d rt :
  presented ctx token d = Some rt -> In rt (refresh_tokens d) /\
  RefreshToken.TokenHash rt = Hash.HashToken token /\
  user_in (FromContext ctx) (RefreshToken.UserID rt) d = true.
Proof.
  intros H. apply first_where_Some in H as [Hin Hp]. unfold ownedRows in Hp. by bool_prop.
Qed.

(** C4: a refresh that answers a pair was given a stored token of the tenant that
    was neither revoked nor expired, whose owner is active and not suspended and
    whose session, if it has one, is neither revoked nor expired; afterwards that
    token is revoked, the new one is stored unrevoked for the same owner and the
    same session with a full lifetime, and, under the strict contract, the new
    access token verifies and stands. *)
Theorem refresh_rotates (ctx : Ctx) (token ip ua : string) (w w' : World) (pair : TokenPair)
    (Hrun : Auth.Refresh s ctx token ip ua w = (Ok pair, w')) :
  exists rt user,
    presented ctx token (w_db w) = Some rt /\ RefreshToken.Revoked rt = false /\
    w_now w <= RefreshToken.ExpiresAt rt /\
    first_where (user_scope ctx (RefreshToken.UserID rt) (w_db w)) (users (w_db w)) = Some user /\
    User.IsActive user = true /\ User.AdminSuspended user = false /\
    live_session ctx (RefreshToken.SessionID rt) (w_now w) (w_db w) /\
    (exists old, In old (refresh_tokens (w_db w')) /\
       RefreshToken.TokenHash old = Hash.HashToken token /\ RefreshToken.Revoked old = true) /\
    (exists new sid, In new (refresh_tokens (w_db w')) /\
       (RefreshToken.SessionID rt <> "" -> sid = RefreshToken.SessionID rt) /\
       fresh_token pair (RefreshToken.UserID rt) (w_now w) (RefreshTTL (jwtCfg s)) sid new) /\
    (strict (jwt s) = true -> pair_stands s pair (w_now w) (w_db w')).
Proof.
  apply operation_Ok in Hrun as (w0 & w1 & Hd & _ & Hn & H & ->).
  apply refresh_inv in H as (rt & user & w2 & Hp & Hr & He & Hu & Ha & Hs & Hl & S2 & H).
  rewrite Hd, Hn in *. pose proof S2 as (D2 & _ & _ & N2 & _). rewrite Hd, Hn in *.
  exists rt, user. do 7 (split; [done|]).
  apply rotate_Ok in H as (w3 & w4 & Hrev & N3 & Hi & [Hao1 Hao2 Hao3 Hao4 Hao5 Hao6 Hao7 Hao8 Hao9 Hao10 Hao11 Hao12]).
  destruct (presented_In _ _ _ _ Hp) as (Hin & Hh & Ho).
  apply Revoke_Ok in Hrev; rewrite ?D2; [|done..].
  apply issue_Ok in Hi as (N4 & Hg & _ & (new & sid & Hnew & Hsid & Hf) & Hstand).
  rewrite Hao2. rewrite N3, N2 in *. split; [|split].
  - destruct Hg as [_ _ [Hg _] _ _ _]. destruct (evolves_In _ _ _ _ Hg Hrev) as (y & Hy & _ & Hy2 & _ & _ & Hy5).
    exists y. split; [done|]. split; [by rewrite Hy2|by apply Hy5].
  - exists new, sid. split; [done|]. split; [done|].
    apply first_where_Some in Hu as [_ Hu]. apply andb_true_iff in Hu as [Hu _].
    apply Z.eqb_eq in Hu. by rewrite <- Hu.
  - intros Hs'. destruct (Hstand Hs') as (_ & _ & c & Hv & Hc). exists c. split; [done|].
    eapply standing_same; [..|exact Hc]; done.
Qed.

(** C1: a refresh token that rotated once never rotates again: whatever requests
    and clean-ups come in between, every later refresh with it is refused, whether
    its revoked row is still there or was purged.  The random source is not to
    have issued the same text a second time: no row created since carries its
    digest. *)
Theorem refresh_once (ctx ctx' : Ctx) (token ip ua ip' ua' : string) (pair : TokenPair) (w w1 w2 : World)
    (Hunique : NoDup (map RefreshToken.TokenHash (refresh_tokens (w_db w))))
    (Hrun : Auth.Refresh s ctx token ip ua w = (Ok pair, w1))
    (Hlife : lifetime s any_request any_time w1 w2)
    (Hrandom : forall x, In x (refresh_tokens (w_db w2)) ->
       RefreshToken.TokenHash x = Hash.HashToken token -> RefreshToken.ID x < next_id (w_db w1)) :
  forall pair', fst (Auth.Refresh s ctx' token ip' ua' w2) <> Ok pair'.
Proof.
  intros pair' Hagain.
  pose proof (evo_Refresh (fun _ => True) s ctx token ip ua (allow_all ctx)) as Hk.
  pose proof (ev_unique _ _ _ (run_evolves _ _ _ _ Hk Hrun) Hunique) as Hnd. apply lifetime_any in Hlife as Hg.
  apply operation_Ok in Hrun as (w0 & wa & Hd & _ & _ & H & Hda).
  apply refresh_inv in H as (rt & user & wb & Hp & Hr & _ & _ & _ & _ & _ & (Db & _) & H).
  apply rotate_Ok in H as (wc & wd & Hrev & _ & Hi & Ha).
  destruct (presented_In _ _ _ _ Hp) as (Hin & Hh & Ho). apply Revoke_Ok in Hrev; rewrite ?Db; [|done..].
  apply issue_Ok in Hi as (_ & Hi & _).
  destruct (evolves_In _ _ _ _ (rows_evolve _ _ _ _ (ev_tokens _ _ _ Hi)) Hrev) as (y & Hy & _ & Hy2 & _ & _ & Hy5).
  rewrite <- (ao_tokens _ _ Ha), <- Hda in Hy.
  apply run_snd in Hagain. apply operation_Ok in Hagain as (we & wf & Hde & _ & _ & H & _).
  apply refresh_inv in H as (rt' & _ & _ & Hp' & Hr' & _). rewrite Hde in Hp'.
  destruct (presented_In _ _ _ _ Hp') as (Hin' & Hh' & _).
  destruct (pr_tokens _ _ _ _ Hg rt' Hin') as [(x & Hx & _ & Hxh & _ & _ & Hxr)|Hlate].
  - assert (x = y) as ->.
    { apply (NoDup_map_inj RefreshToken.TokenHash _ _ _ Hnd Hx Hy). simpl in Hy2. congruence. }
    rewrite Hxr in Hr'; [done|by apply Hy5].
  - specialize (Hrandom rt' Hin' Hh'). unfold later in Hlate. lia.
Qed.

(** C2: when no call fails, presenting a revoked refresh token of a session is
    refused, and, unless the audit trail does not admit the event (the answer is then
    that it is unavailable, and the database is as before), its whole family is over: the session is revoked and so is every refresh token
    of it.  (The revocations are best effort: a failed one is ignored.) *)
Theorem reuse_contained (ctx : Ctx) (token ip ua : string) (rt : RefreshToken.row) (w : World)
    (Hcalm : calm w) (Hop : w_op w = None) (Hrt : presented ctx token (w_db w) = Some rt)
    (Hused : RefreshToken.Revoked rt = true /\ RefreshToken.SessionID rt <> "") :
  let (r, w') := Auth.Refresh s ctx token ip ua w in
  (r = Error ErrUnavailable /\ w_db w' = w_db w) \/
  (r = Error ErrInvalidToken /\ family_over (FromContext ctx) rt (w_db w')).
Proof.
  destruct Hused as [Hrev Hsid].
  unfold Auth.Refresh, Calls.runAuditOperation, Writer.AuditOperation, Outbox.AuditOperation.
  rewrite Hop. unfold fault at 1. rewrite Hcalm. set (w0 := set_op (Some BindOperation) w).
  assert (calm w0) as Hc0 by done.
  unfold Auth.refreshAudited. erewrite bind_run.
  2: { unfold RefreshTokenRepository.FindByHash. rewrite optional_First_calm by done. reflexivity. }
  change (first_where _ _) with (presented ctx token (w_db w)). rewrite Hrt, Hrev.
  destruct (reuse_run s (WithAsyncDelivery ctx) rt ip "revoked refresh token presented" w0
    BindOperation Hc0 eq_refl Hsid) as (w1 & -> & C1 & Hover & Hlatch).
  destruct Hlatch as [-> | ->]; simpl; [|by left].
  unfold fault, set_op. simpl. rewrite C1. by right.
Qed.

(** C3: a login that succeeds found the user of that email in its tenant, active,
    not suspended, not locked, verified where verification is required, and was
    given that user's password, which is not empty; if a second factor is
    enabled it answers a pending token only and stores no refresh token;
    otherwise it answers a pair, whose refresh token is stored and whose access
    token, under the strict contract, verifies and stands. *)
Theorem login_sound (ctx : Ctx) (in_ : LoginInput) (ip ua : string) (w w' : World) (res : LoginResult)
    (Hrun : Auth.Login s ctx in_ ip ua w = (Ok res, w')) :
  exists user, login_user ctx (l_Email in_) (w_db w) = Some user /\
    admitted_user s (l_Password in_) (w_now w) user /\
    mfa_answer s ctx user (w_db w) (w_now w) res (w_db w').
Proof.
  apply operation_Ok in Hrun as (w0 & w1 & Hd & _ & Hn & H & ->).
  apply login_inv in H as (user & Hu & Ha & Hm). rewrite Hd, Hn in *. exists user. by destruct res.
Qed.

(** C11: a failed attempt starts a lockout exactly when it is at least the last
    attempt allowed, and the lockout lasts at least the base duration and at most
    the base duration times the greatest multiplier, whatever the store counts. *)
Theorem lockout_bounded (user : User.row) (w w' : World) (o : option Z)
    (Hdur : 0 <= LoginLockoutDuration (cfg s)) 
    (Hmax : LoginLockoutDuration (cfg s) * Z.max 1 (MaxLockoutMultiplier (cfg s)) < 2 ^ 63)
    (Hrun : Auth.lockout s user w = (Ok o, w')) :
  (o = None <-> User.FailedLoginAttempts user + 1 < MaxLoginAttempts (cfg s)) /\
  forall until_, o = Some until_ ->
    w_now w + LoginLockoutDuration (cfg s) <= until_ <=
    w_now w + LoginLockoutDuration (cfg s) * Z.max 1 (MaxLockoutMultiplier (cfg s)).
Proof.
  unfold Auth.lockout in Hrun. destruct (Z.leb_spec (MaxLoginAttempts (cfg s)) (User.FailedLoginAttempts user + 1)).
  - apply bind_Ok in Hrun as (m & w1 & Hm & H1).
    assert (w_now w1 = w_now w /\ 1 <= m <= Z.max 1 (MaxLockoutMultiplier (cfg s))) as [N1 Hb].
    { destruct (Z.ltb_spec 0 (MaxLockoutMultiplier (cfg s))); [|by injection Hm as <- <-; split; [done|lia]].
      apply bind_Ok in Hm as (n & w2 & Hn & Hm). apply store_call_Ok in Hn as (_ & _ & _ & _ & N & _).
      injection Hm as <- <-. split; [done|].
      repeat match goal with |- context [?a <? ?b] => destruct (Z.ltb_spec a b) end; lia. }
    injection H1 as <- <-. rewrite int64_id by nia. rewrite N1. split; [split; [done|lia]|].
    intros u [= <-]. nia.
  - injection Hrun as <- <-. split; [by split|done].
Qed.

End Claims.

(** ** Witnesses *)

Import Choices.

Lemma refresh_rotates_witness :
  exists tokens w1, Auth.Refresh Demo.service Demo.ctx "r1" "10.0.0.1" "curl" Demo.start = (Ok tokens, w1) /\
    exists new sid, In new (refresh_tokens (w_db w1)) /\
      fresh_token tokens 1 (w_now Demo.start) (720 * hour) sid new.
Proof.
  destruct (ran (Auth.Refresh Demo.service Demo.ctx "r1" "10.0.0.1" "curl") Demo.start (ltac:(vm_reflexivity)))
    as (tokens & w1 & H).
  exists tokens, w1. split; [exact H|].
  destruct (refresh_rotates Demo.service Demo.ctx "r1" "10.0.0.1" "curl" Demo.start w1 tokens H)
    as (rt & user & Hp & _ & _ & _ & _ & _ & _ & _ & (new & sid & Hin & _ & Hf) & _).
  injection Hp as <-. exists new, sid. exact (conj Hin Hf).
Defined.

Definition demo_refreshed : World := snd (Auth.Refresh Demo.service Demo.ctx "r1" "10.0.0.1" "curl" Demo.start).

(** The clean-up drops the row of the token, and it still does not rotate. *)
Lemma refresh_once_witness :
  exists tokens, Auth.Refresh Demo.service Demo.ctx "r1" "10.0.0.1" "curl" Demo.start = (Ok tokens, demo_refreshed) /\
    first_where (fun x => bool_decide (RefreshToken.TokenHash x = Hash.HashToken "r1"))
      (refresh_tokens (w_db (snd (runOnce demo_refreshed)))) = None /\
    forall again, fst (Auth.Refresh Demo.service Demo.ctx "r1" "10.0.0.1" "curl" (snd (runOnce demo_refreshed))) <> Ok again.
Proof.
  destruct (ran (Auth.Refresh Demo.service Demo.ctx "r1" "10.0.0.1" "curl") Demo.start (ltac:(vm_reflexivity)))
    as (tokens & w1 & H).
  assert (w1 = demo_refreshed) as -> by (unfold demo_refreshed; by rewrite H).
  assert (first_where (fun x => bool_decide (RefreshToken.TokenHash x = Hash.HashToken "r1"))
    (refresh_tokens (w_db (snd (runOnce demo_refreshed)))) = None) as Hgone by vm_reflexivity.
  exists tokens. split; [exact H|]. split; [exact Hgone|].
  refine (refresh_once Demo.service Demo.ctx Demo.ctx "r1" "10.0.0.1" "curl" "10.0.0.1" "curl" tokens Demo.start
    demo_refreshed (snd (runOnce demo_refreshed)) _ H
    (life_cleanup _ _ _ _ demo_refreshed (life_here _ _ _ demo_refreshed) I) _).
  - refine (proj1 (bool_decide_eq_true (NoDup (map RefreshToken.TokenHash (refresh_tokens (w_db Demo.start))))) _).
    vm_reflexivity.
  - intros x Hin Hx. pose proof (proj1 (first_where_None _ _) Hgone x Hin) as Hno.
    apply bool_decide_eq_false in Hno. destruct (Hno Hx).
Defined.

Definition demo_reuse := Auth.Refresh Demo.service Demo.ctx "r0" "10.0.0.1" "curl" Demo.start.

Lemma reuse_contained_witness :
  match fst demo_reuse with Error ErrInvalidToken => true | _ => false end = true /\
  let (r, w') := Auth.Refresh Demo.service Demo.ctx "r0" "10.0.0.1" "curl" Demo.start in
  (r = Error ErrUnavailable /\ w_db w' = w_db Demo.start) \/
  (r = Error ErrInvalidToken /\ family_over (FromContext Demo.ctx) Demo.used_token (w_db w')).
Proof.
  split; [vm_reflexivity|].
  assert (presented Demo.ctx "r0" (w_db Demo.start) = Some Demo.used_token) as Hp by vm_reflexivity.
  assert (RefreshToken.Revoked Demo.used_token = true /\ RefreshToken.SessionID Demo.used_token <> "") as Hu by done.
  pose proof (reuse_contained Demo.service Demo.ctx "r0" "10.0.0.1" "curl" Demo.used_token Demo.start eq_refl eq_refl
    Hp Hu) as H.
  exact H.
Defined.

Lemma login_sound_witness :
  exists res w1, Auth.Login Demo.service Demo.ctx (mkLogin " Alice@finn.io" "Secret123" "") "10.0.0.1" "curl" Demo.start
      = (Ok res, w1) /\
    mfa_answer Demo.service Demo.ctx Demo.alice (w_db Demo.start) (w_now Demo.start) res (w_db w1).
Proof.
  destruct (ran (Auth.Login Demo.service Demo.ctx (mkLogin " Alice@finn.io" "Secret123" "") "10.0.0.1" "curl") Demo.start
    (ltac:(vm_reflexivity))) as (res & w1 & H).
  exists res, w1. split; [exact H|].
  destruct (login_sound Demo.service Demo.ctx (mkLogin " Alice@finn.io" "Secret123" "") "10.0.0.1" "curl" Demo.start w1 res H)
    as (user & Hu & _ & Hm).
  assert (user = Demo.alice) as -> by (vm_compute in Hu; by injection Hu as <-). exact Hm.
Defined.

Definition demo_tried : User.row := User.set_FailedLoginAttempts 4 Demo.alice.

Lemma lockout_bounded_witness :
  exists o w1, Auth.lockout Demo.service demo_tried Demo.start = (Ok o, w1) /\
    (o = None <-> 5 < 5) /\
    forall u, o = Some u -> w_now Demo.start + 15 * minute <= u <= w_now Demo.start + 15 * minute * 8.
Proof.
  destruct (ran (Auth.lockout Demo.service demo_tried) Demo.start (ltac:(vm_reflexivity))) as (o & w1 & H).
  exists o, w1. split; [exact H|].
  exact (lockout_bounded Demo.service demo_tried Demo.start w1 o (ltac:(done)) (ltac:(done)) H).
Defined.
