(* ===== verification/AccountSpec.v ===== *)
(** * What the account operations promise

    A reset or verification token works once; a change of password verifies the
    old one, installs the new one and ends every session and token; a staged
    change of email reads back as it was staged; registration creates at most
    one unverified account. *)

From S2P Require Import Prelude Store Models World Sql Repos Jwt AuditTrail Common Identity Totp Auth OAuth Passkey Account Admin Demo AuditSpec IdentitySpec Evolve Cleanup JwtSpec Lifetime Frames SignInSpec.

Open Scope Z_scope.
Open Scope monad_scope.

(** The users are as they were. *)
Definition same_users (d d' : DB) : Prop := users d' = users d.

#[export] Instance same_users_preorder : PreOrder same_users.
Proof. split; [done|]. intros a b c H1 H2. unfold same_users in *. by rewrite H2. Qed.

(** ** Single-use tokens *)

(** A token has one set of claims, whenever and under whichever key it verifies. *)
Section Claims_of.
Context {J : JwtLib}.

Definition parsed (now : Z) (t : Token) (c : Claims) : Prop :=
  exists key o, ParseWithClaims key o now t = Some c.

Lemma parse_parsed m now t key c : parse m now t key = Ok c -> parsed now t c.
Proof.
  unfold parse. destruct (ParseWithClaims _ _ _ _) as [c'|] eqn:E; [|done].
  repeat case_match; intros [= <-]; by eexists _, _.
Qed.

Lemma parse_any_parsed m now t kids err c : parse_any m now t kids err = Ok c -> parsed now t c.
Proof.
  induction kids as [|kid kids IH]; simpl; [done|].
  destruct (parse m now t (default "" (key_of m kid))) eqn:E; [|done].
  intros [= ->]. by eapply parse_parsed.
Qed.

Lemma verify_parsed m now t c : Verify m now t = Ok c -> parsed now t c.
Proof.
  unfold Verify. repeat case_match; intros; simplify_eq; eauto using parse_parsed, parse_any_parsed.
Qed.

Lemma parse_expiry {JL : JwtLaws J} m now t key c :
  parse m now t key = Ok c -> exists e, ExpiresAt c = Some e /\ now < e + MaxSkew.
Proof.
  unfold parse. destruct (ParseWithClaims _ _ _ _) as [c'|] eqn:E; [|done].
  apply parse_sound in E as (_ & _ & (e & He & Hlt) & _). intros H. assert (c' = c) as -> by (repeat case_match; congruence).
  exists e. split; [done|]. unfold parser_options in Hlt. assert (0 < MaxSkew) by done. destruct (strict m); simpl in Hlt; lia.
Qed.

Lemma parse_any_expiry {JL : JwtLaws J} m now t kids err c :
  parse_any m now t kids err = Ok c -> exists e, ExpiresAt c = Some e /\ now < e + MaxSkew.
Proof.
  induction kids as [|kid kids IH]; simpl; [done|].
  destruct (parse m now t (default "" (key_of m kid))) eqn:E'; [|done]. intros [= ->]. by eapply parse_expiry.
Qed.

Lemma verify_expiry {JL : JwtLaws J} m now t c :
  Verify m now t = Ok c -> exists e, ExpiresAt c = Some e /\ now < e + MaxSkew.
Proof.
  unfold Verify. repeat case_match; intros; simplify_eq; eauto using parse_expiry, parse_any_expiry.
Qed.

Lemma verify_same {JL : JwtLaws J} m m' n n' t c c' : Verify m n t = Ok c -> Verify m' n' t = Ok c' -> c = c'.
Proof.
  intros (key & o & H)%verify_parsed (key' & o' & H')%verify_parsed. eapply parse_decode; eauto.
Qed.

End Claims_of.

Section Spent.
Context {ST : Store} {E : Ext} {J : JwtLib} {OT : Otp} (s : AuthService).
Import Auth Account.

Definition spent (jti : string) (d : DB) : Prop := exists r, In r (used_tokens d) /\ UsedToken.JTI r = jti.

Lemma spent_grows jti d d' : evolution (fun _ => True) d d' -> spent jti d -> spent jti d'.
Proof.
  intros [_ _ _ _ [Hv _] _ _] (r & Hin & Hj). destruct (evolves_In _ _ _ _ Hv Hin) as (y & Hy & <-). by exists r.
Qed.

(** Spent, on record until [e]. *)
Definition spent_until (jti : string) (e : Z) (d : DB) : Prop :=
  exists r, In r (used_tokens d) /\ UsedToken.JTI r = jti /\ UsedToken.ExpiresAt r = e.

Lemma spent_until_spent jti e d : spent_until jti e d -> spent jti d.
Proof. intros (r & ? & ? & _). by exists r. Qed.

Lemma until_grows jti e d d' : evolution (fun _ => True) d d' -> spent_until jti e d -> spent_until jti e d'.
Proof.
  intros [_ _ _ _ [Hv _] _ _] (r & Hin & Hj). destruct (evolves_In _ _ _ _ Hv Hin) as (y & Hy & <-). by exists r.
Qed.

(** No clean-up after the expiry: the record is still there. *)
Lemma until_lasts jti e upto d d' :
  progress (fun _ => True) (fun t => t <= upto) d d' -> upto <= e -> spent_until jti e d -> spent jti d'.
Proof.
  intros Hg Hu (r & Hin & Hj & He). exists r. split; [|done].
  destruct (pr_used _ _ _ _ Hg r Hin) as [?|(t & ? & ?)]; [done|lia].
Qed.

Lemma IsUsed_Ok ctx jti w b w' :
  UsedTokenRepository.IsUsed ctx jti w = (Ok b, w') -> b = false -> ~ spent jti (w_db w).
Proof.
  intros H -> (r & Hin & Hj). apply bind_Ok in H as (x & w1 & Hx & H). apply try_Ok in Hx.
  destruct x as [x|e]; [done|]. destruct (decide _) as [->|]; [|done].
  apply First_NotFound in Hx as [_ Hx]. rewrite first_where_None in Hx. apply Hx in Hin.
  by rewrite bool_decide_true in Hin.
Qed.

Lemma MarkUsed_Ok ctx jti ty uid e w b w' :
  UsedTokenRepository.MarkUsed ctx jti ty uid e w = (Ok b, w') -> ~ spent jti (w_db w) ->
  spent_until jti e (w_db w').
Proof.
  intros H Hfree. apply bind_Ok in H as (x & w1 & Hx & H). apply try_Ok in Hx. destruct x as [x|err].
  - injection H as <- <-. apply Create_Ok in Hx as (-> & _ & D & _). rewrite D. eexists. split.
    + apply in_or_app. right. by left.
    + done.
  - destruct (decide _) as [->|]; [|done]. injection H as <- <-.
    apply Create_dup in Hx as [[D _] Hx]. apply existsb_exists in Hx as (r & Hin & Hc).
    unfold UsedTokenRepository.clash in Hc. bool_prop. destruct Hfree. by exists r.
Qed.

(** The key under which the store marks a token. *)
Definition mark_of (c : Claims) : string := "jti:" +:+ ID c.

(** The store let the token be marked. *)
Definition marked (c : Claims) (now_ : Z) (k : kv) : Prop :=
  exists up v ttl, fst (kv_setnx up now_ (mark_of c) v ttl k) = true.

Lemma spend_Ok ctx c ty uid w w' :
  spend ctx c ty uid w = (Ok tt, w') ->
  marked c (w_now w) (w_kv w) /\ ~ spent (ID c) (w_db w) /\
  spent_until (ID c) (default 0 (ExpiresAt c)) (w_db w').
Proof.
  intros H. apply bind_Ok in H as (ttl & w1 & Ht & H).
  apply bind_Ok in Ht as (t & w1' & Hn & Ht). apply now_Ok in Hn as [-> (D1 & K1 & _ & N1 & _)]. injection Ht as _ <-.
  apply bind_Ok in H as (fresh & w2 & Hc & H). destruct fresh; [|done].
  apply bind_Ok in Hc as (f & w3 & Hm & Hc).
  apply store_call_Ok in Hm as (up & Hm & _ & D3 & _). destruct f; [|done].
  apply bind_Ok in Hc as (u & w4 & Hu & Hc). apply try_Ok in Hu.
  destruct u as [u|]; [|done]. injection Hc as Hu' <-. apply negb_true_iff in Hu' as ->.
  assert (w_db w4 = w_db w) as D4.
  { apply bind_Ok in Hu as (x & w5 & Hx & Hu'). apply try_Ok in Hx. destruct x as [x|er]; [done|].
    destruct (decide _) as [->|]; [|done]. injection Hu' as <-. apply First_NotFound in Hx as [[D _] _]. congruence. }
  apply IsUsed_Ok in Hu; [|done]. rewrite D3, D1 in Hu. split; [|split; [done|]].
  - rewrite <- K1, <- N1. unfold marked. eauto.
  - apply bind_Ok in H as (b & w5 & Hb & H). injection H as <-. eapply MarkUsed_Ok; [exact Hb|]. by rewrite D4.
Qed.

Lemma accept_Ok pw u e w w' :
  accept_password s pw u e w = (Ok tt, w') ->
  w_db w' = w_db w /\ Policy.validatePassword pw (minPasswordScore s) [u; Policy.emailLocalPart e] = None.
Proof.
  unfold accept_password. destruct (Policy.validatePassword _ _ _); [done|]. intros H. split; [|done].
  eapply run_same; [|exact H]. unfold passwordBreached. keeps_tac.
Qed.

Lemma run_users {A} (m : M A) w r w' : keeps same_users m -> m w = (r, w') -> users (w_db w') = users (w_db w).
Proof. intros Hm H. specialize (Hm w). by rewrite H in Hm. Qed.

Lemma spend_users ctx c ty uid w w' :
  spend ctx c ty uid w = (Ok tt, w') -> users (w_db w') = users (w_db w).
Proof.
  apply run_users.
  unfold spend, jtiStoreTTL, consumeSingleUseToken, markTokenUsed, markTokenDurable, UsedTokenRepository.MarkUsed,
    UsedTokenRepository.IsUsed, Calls.store_SetNX.
  repeat (keeps_step || (apply keeps_Create; [typeclasses eauto|done])).
Qed.

Lemma accept_kv pw u e w w' :
  accept_password s pw u e w = (Ok tt, w') -> w_kv w' = w_kv w /\ w_now w' = w_now w.
Proof.
  unfold accept_password, passwordBreached. destruct (Policy.validatePassword _ _ _); [done|].
  intros H. apply bind_Ok in H as (b & w1 & Hb & H). destruct b; [done|]. injection H as <-.
  destruct (negb (breached s)); [by injection Hb as <-|].
  apply bind_Ok in Hb as (f & w2 & Hf & Hb). apply fault_same in Hf as (_ & K & _ & N & _). by injection Hb as _ <-.
Qed.

(** The claims of a reset that succeeded, and what it spent. *)
Lemma reset_inv ctx token pw ip w w' :
  ResetPassword s ctx token pw ip w = (Ok tt, w') ->
  exists c, Verify (jwt s) (w_now w) token = Ok c /\ Type_ c = TokenTypeReset /\
    marked c (w_now w) (w_kv w) /\
    ~ spent (ID c) (w_db w) /\ spent_until (ID c) (default 0 (ExpiresAt c)) (w_db w').
Proof.
  intros H. apply operation_run in H as (w0 & w1 & Hd & Hk & Hn & H & -> & _).
  apply bind_Ok in H as (c & w2 & Hc & H). apply purpose_token_Ok in Hc as (Hv & Ht & (D2 & K2 & _ & N2 & _)).
  rewrite Hn in Hv. exists c. split; [done|]. split; [done|].
  apply bind_Ok in H as (u & w3 & Hu & H). apply the_user_Ok in Hu as ((D3 & K3 & _ & N3 & _) & _).
  apply bind_Ok in H as ([] & w4 & Ha & H). pose proof (accept_kv _ _ _ _ _ Ha) as [K4 N4].
  apply bind_Ok in H as ([] & w5 & Hs & H). apply spend_Ok in Hs as (Hs0 & Hs1 & Hs2). split; [|split].
  - by rewrite K4, K3, K2, Hk, N4, N3, N2, Hn in Hs0.
  - intros Hs. apply Hs1. eapply spent_grows; [eapply run_evolves; [|exact Ha]; apply evo_accept|].
    by rewrite D3, D2, Hd.
  - eapply until_grows; [|exact Hs2]. eapply run_evolves; [|exact H].
    apply keeps_bind; [typeclasses eauto|evo_tac|intros h].
    apply keeps_bind; [typeclasses eauto|apply evo_apply, allow_all|intros []]. apply evo_Record.
Qed.

End Spent.

(** ** The staged change of email *)

Section Payload.

Lemma split_on_more sep s t :
  split_on sep (s +:+ String sep t) = split_on sep s ++ split_on sep t.
Proof.
  induction s as [|a s IH]; simpl; [by rewrite decide_True|].
  destruct (decide (a = sep)); [by rewrite IH|]. rewrite IH.
  destruct (split_on sep s) as [|x xs] eqn:E; [|done]. destruct s; simpl in E; [done|].
  by repeat case_match.
Qed.

Lemma split_on_length sep s : (1 <= length (split_on sep s))%nat.
Proof. destruct s; simpl; [lia|]. repeat case_match; simpl; lia. Qed.

Lemma split_on_one sep s x : split_on sep s = [x] -> x = s /\ no_byte sep s.
Proof.
  revert x. unfold no_byte. induction s as [|a s IH]; intros x; simpl; [by intros [= <-]|].
  destruct (decide (a = sep)).
  - intros [= _ H]. pose proof (split_on_length sep s) as Hl. rewrite H in Hl. simpl in Hl. lia.
  - destruct (split_on sep s) as [|y ys] eqn:E; [|intros [= <- ->]; destruct (IH y eq_refl) as [-> ->]];
      [pose proof (split_on_length sep s) as Hl; rewrite E in Hl; simpl in Hl; lia|].
    by rewrite bool_decide_false.
Qed.

Lemma fmt_uint_back z : 0 <= z < 2 ^ 64 -> Account.parse_uint64 (fmt_d z) = Some z.
Proof.
  intros Hz. unfold Account.parse_uint64, fmt_d. destruct z as [|p|p]; [done| |lia]. simpl.
  rewrite DecimalString.NilZero.usu by apply DecimalPos.Unsigned.to_uint_nonnil.
  assert (Z.of_uint (Pos.to_uint p) = Z.pos p) as -> by apply (DecimalZ.of_to (Z.pos p)).
  by destruct (Z.ltb_spec (Z.pos p) (2 ^ 64)); [|lia].
Qed.

Lemma fmt_no_colon z : 0 <= z -> no_byte ":" (fmt_d z).
Proof.
  intros Hz. apply fmt_d_forall; [done|]. intros c Hc. by repeat destruct Hc as [<-|Hc].
Qed.

End Payload.

(** ** What a change of email leaves *)

(** The columns a change of email writes, by user. *)
Definition mail_key (u : User.row) : Z * string * string * bool :=
  (User.ID u, User.TenantID u, User.Email u, User.IsEmailVerified u).

Definition same_mail (d d' : DB) : Prop := map mail_key (users d') = map mail_key (users d).

#[export] Instance same_mail_preorder : PreOrder same_mail.
Proof. split; [done|]. intros a b c H1 H2. unfold same_mail in *. by rewrite H2. Qed.

Lemma same_mail_In d d' u : same_mail d d' -> In u (users d) -> exists v, In v (users d') /\ mail_key v = mail_key u.
Proof.
  intros H Hin. assert (In (mail_key u) (map mail_key (users d'))) as Hk by (rewrite H; by apply in_map).
  apply in_map_iff in Hk as (v & Hv & Hin'). eauto.
Qed.

Ltac mail_step :=
  match goal with
  | |- keeps _ (bind _ _) => apply keeps_bind; [typeclasses eauto| |intros ?]
  | |- keeps _ (try_ _) => apply keeps_try
  | |- keeps _ (Calls.quietly _) => unfold Calls.quietly
  | |- keeps _ (Calls.notify _) => unfold Calls.notify
  | |- keeps _ (Updates _ _) => apply keeps_Updates; [typeclasses eauto|]
  | |- keeps _ (updateScoped _ _) => apply keeps_updateScoped; [typeclasses eauto|]
  | |- forall _ : DB, _ => intros ?; unfold same_mail; simpl; rewrite ?map_update_where by done; done
  | |- keeps _ (match ?x with _ => _ end) => destruct x
  | _ => solve [eauto with keeps typeclass_instances]
  end.

Section Mail.
Context {ST : Store} {E : Ext} {J : JwtLib} {OT : Otp}.

Lemma mail_everything ctx uid : keeps same_mail (Account.revoke_everything ctx uid).
Proof.
  unfold Account.revoke_everything, RefreshTokenRepository.RevokeAllForUser, SessionRepository.RevokeAllForUser,
    Auth.bumpPwdVersion, UserRepository.BumpPwdVersion, Calls.store_Delete.
  repeat mail_step.
Qed.

Lemma mail_notify m : keeps same_mail (Calls.notify m).
Proof. repeat mail_step. Qed.

Lemma mail_record s ctx e : keeps same_mail (Auth.record s ctx e).
Proof.
  intros w. pose proof (only_record (audits s) ctx e w) as H. unfold same_mail, Auth.record.
  by rewrite (ao_users _ _ H).
Qed.

Lemma run_mail {A} (m : M A) w r w' : keeps same_mail m -> m w = (r, w') -> same_mail (w_db w) (w_db w').
Proof. intros Hm H. specialize (Hm w). by rewrite H in Hm. Qed.

End Mail.

(** ** What a change of credentials leaves *)

Section Credentials.
Context {ST : Store} {E : Ext} {EL : ExtLaws E} {J : JwtLib} {OT : Otp} (s : AuthService).
Import Auth Account.

(** User [uid] of the tenant has the password and a clean slate, and none of its
    sessions or refresh tokens is left. *)
Record replaced (tid : string) (uid : Z) (password : string) (d : DB) : Prop := {
  re_user : exists v, In v (users d) /\ User.ID v = uid /\ User.TenantID v = tid /\
    Hash.CheckPassword (User.Password v) password = true /\
    User.FailedLoginAttempts v = 0 /\ User.LockedUntil v = None;
  re_tokens : forall r, In r (refresh_tokens d) -> RefreshToken.UserID r = uid -> RefreshToken.Revoked r = true;
  re_sessions : forall x, In x (sessions d) -> Session.UserID x = uid -> Session.TenantID x = tid ->
    Session.Revoked x = true
}.

Lemma replaced_audit tid uid pw d d' : audit_only d d' -> replaced tid uid pw d -> replaced tid uid pw d'.
Proof. intros [Hu Ht Hs _ _ _ _] [H1 H2 H3]. split; by rewrite ?Hu, ?Ht, ?Hs. Qed.

Lemma hashPassword_Ok pw w h w' :
  hashPassword s pw w = (Ok h, w') -> same_state w w' /\ Hash.CheckPassword h pw = true.
Proof.
  unfold hashPassword, Hash.HashPasswordWithCost, Hash.CheckPassword.
  destruct (Hash.MaxPasswordBytes <? str_len pw); [done|]. intros H.
  apply bind_Ok in H as (b & w1 & Hb & H). apply fault_same in Hb. destruct b; [done|].
  apply bind_Ok in H as (n & w2 & Hn & H). apply draw_Ok in Hn. injection H as <- <-.
  split; [by eapply same_trans|]. by apply bcrypt_correct.
Qed.

Lemma user_in_update tid id p f l :
  (forall u, User.ID (f u) = User.ID u /\ User.TenantID (f u) = User.TenantID u) ->
  existsb (fun u => (User.ID u =? id) && bool_decide (User.TenantID u = tid)) (update_where p f l) =
  existsb (fun u => (User.ID u =? id) && bool_decide (User.TenantID u = tid)) l.
Proof.
  intros Hf. unfold update_where. induction l as [|u l IH]; [done|]. simpl. rewrite IH. f_equal.
  destruct (p u); [|done]. by destruct (Hf u) as [-> ->].
Qed.

(** The credential transaction, on the user it was given. *)
Lemma credentials_replaced ctx user pw h w w' :
  applyCredentialChange ctx user h w = (Ok tt, w') -> Hash.CheckPassword h pw = true ->
  In user (users (w_db w)) -> User.TenantID user = FromContext ctx ->
  replaced (FromContext ctx) (User.ID user) pw (w_db w').
Proof.
  intros H Hh Hin Ht. apply bind_Ok in H as ([] & w1 & Htx & H).
  apply store_call_Ok in H as (_ & _ & _ & -> & _).
  apply transaction_Ok in Htx as (wa & wb & [Da _] & H & [-> _]).
  apply bind_Ok in H as ([] & w2 & Hu & H). apply updateScoped_Ok in Hu as [D2 _].
  apply bind_Ok in H as ([] & w3 & H3 & H).
  apply bind_Ok in H3 as (n & w3' & H3 & He). apply Updates_Ok in H3 as [[D3 _] _]. injection He as <-.
  apply bind_Ok in H as (k & w4 & H4 & He). apply Updates_Ok in H4 as [[D4 _] _]. injection He as <-.
  assert (user_scope ctx (User.ID user) (w_db wa) user = true) as Hsc.
  { unfold user_scope. by rewrite Z.eqb_refl, bool_decide_true. }
  assert (user_in (FromContext ctx) (User.ID user) (w_db w2) = true) as Hown.
  { unfold user_in. rewrite D2. simpl. rewrite user_in_update by done. apply existsb_exists.
    exists user. rewrite Da. split; [done|]. by rewrite Z.eqb_refl, bool_decide_true. }
  rewrite D4. split; simpl; rewrite D3; simpl.
  - eexists. split; [rewrite D2; apply update_where_In; exists user; rewrite Da; split; [done|reflexivity]|].
    rewrite Da in Hsc. by rewrite Hsc.
  - intros r (r0 & Hr & ->)%update_where_In Hid. destruct (ownedRows _ _ _ _ r0) eqn:Eq; [done|].
    unfold ownedRows in Eq. rewrite Hid, Hown, Z.eqb_refl in Eq. simpl in Eq. by bool_prop.
  - intros x (x0 & Hx & ->)%update_where_In Hid Htn. destruct (SessionRepository.scope _ _ _ x0) eqn:Eq; [done|].
    unfold SessionRepository.scope in Eq. rewrite Hid, Htn, Z.eqb_refl, bool_decide_true in Eq by done.
    simpl in Eq. by bool_prop.
Qed.

(** The common end of the password operations. *)
Lemma change_replaces ctx user pw e w w' :
  bind (hashPassword s pw) (fun hashed =>
    bind (applyCredentialChange ctx user hashed) (fun _ => record s ctx e)) w = (Ok tt, w') ->
  In user (users (w_db w)) -> User.TenantID user = FromContext ctx ->
  replaced (FromContext ctx) (User.ID user) pw (w_db w').
Proof.
  intros H Hin Ht. apply bind_Ok in H as (h & w1 & Hh & H). apply hashPassword_Ok in Hh as [[D1 _] Hh].
  apply bind_Ok in H as ([] & w2 & Ha & H). apply run_only in H; [|apply only_record].
  eapply replaced_audit; [exact H|]. eapply credentials_replaced; [exact Ha|done|by rewrite D1|done].
Qed.

End Credentials.

(** ** Registration *)

Section Register.
Context {ST : Store} {E : Ext} {EL : ExtLaws E} {J : JwtLib} {OT : Otp} (s : AuthService).
Import Auth Account.

Lemma users_record ctx e : keeps same_users (record s ctx e).
Proof. intros w. pose proof (only_record (audits s) ctx e w) as [H _ _ _ _ _ _]. exact H. Qed.

#[local] Hint Resolve users_record : keeps.

Lemma users_over k l win : keeps same_users (over k l win).
Proof. unfold over, Calls.store_IncrBy. keeps_tac. Qed.

#[local] Hint Resolve users_over : keeps.

Lemma users_notify m : keeps same_users (Calls.notify m).
Proof. unfold Calls.notify, Calls.quietly. keeps_tac. Qed.

#[local] Hint Resolve users_notify : keeps.

Lemma users_dup ctx e ip n : keeps same_users (handleDuplicateRegistration s ctx e ip n).
Proof. unfold handleDuplicateRegistration, shouldThrottleDuplicateRegisterAlert. keeps_tac. Qed.

Lemma dup_Ok ctx e ip n w p w' :
  handleDuplicateRegistration s ctx e ip n w = (Ok p, w') -> users (w_db w') = users (w_db w) /\ p_ID p = 0.
Proof.
  intros H. split; [eapply run_users; [apply users_dup|exact H]|].
  apply bind_Ok in H as ([] & w1 & _ & H). apply bind_Ok in H as (b & w2 & _ & H).
  apply bind_Ok in H as ([] & w3 & _ & H). by injection H as <- _.
Qed.

(** The account a registration creates. *)
Definition registered (ctx : Ctx) (in_ : RegisterInput) (u : User.row) : Prop :=
  User.TenantID u = FromContext ctx /\ User.Username u = trim_space (r_Username in_) /\
  User.Email u = Policy.normalize (r_Email in_) /\ User.Role u = "user" /\
  User.IsActive u = true /\ User.IsEmailVerified u = false /\ User.AdminSuspended u = false /\
  Hash.CheckPassword (User.Password u) (r_Password in_) = true.

(** No account of the tenant has the name or the address. *)
Definition unclaimed (ctx : Ctx) (in_ : RegisterInput) (d : DB) : Prop :=
  forall u, In u (users d) -> User.TenantID u = FromContext ctx ->
    User.Email u <> Policy.normalize (r_Email in_) /\ User.Username u <> trim_space (r_Username in_).

Lemma create_account_Ok ctx in_ hashed w p w' :
  create_account s ctx in_ (trim_space (r_Username in_)) (Policy.normalize (r_Email in_)) hashed w = (Ok p, w') ->
  Hash.CheckPassword hashed (r_Password in_) = true ->
  (exists u, users (w_db w') = users (w_db w) ++ [u] /\ registered ctx in_ u /\ p = FromUser u) \/
  (users (w_db w') = users (w_db w) /\ p_ID p = 0).
Proof.
  intros H Hh. apply bind_Ok in H as (t & w1 & Hn & H). apply now_Ok in Hn as [-> [D1 _]].
  apply bind_Ok in H as (r & w2 & Hc & H). apply try_Ok in Hc. destruct r as [u|e].
  - left. apply bind_Ok in Hc as (tid & w3 & Ht & Hc). unfold scopeTenant in Ht. simpl in Ht. injection Ht as <- <-.
    apply bind_Ok in Hc as (t & w4 & Hn & Hc). apply now_Ok in Hn as [-> [D4 _]].
    apply Create_Ok in Hc as (Hu & _ & D2 & _). rewrite D4, D1 in Hu, D2.
    apply bind_Ok in H as ([] & w5 & H5 & H). apply run_users in H5; [|keeps_tac].
    apply bind_Ok in H as (tok & w6 & H6 & H). apply run_users in H6; [|unfold Issue; keeps_tac].
    apply bind_Ok in H as (sent & w7 & H7 & H). apply run_users in H7; [|keeps_tac].
    apply bind_Ok in H as ([] & w8 & H8 & H). apply run_users in H8; [|keeps_tac]. injection H as <- <-.
    exists u. split; [by rewrite H8, H7, H6, H5, D2|]. split; [|done]. rewrite Hu.
    unfold registered. simpl. by repeat (split; [done|]).
  - destruct (decide _) as [->|]; [|done]. right. apply dup_Ok in H as [Hu Hp]. split; [|done]. rewrite Hu.
    apply bind_Error in Hc as [Hc|(tid & w3 & Hs & Hc)].
    { unfold scopeTenant in Hc. simpl in Hc. done. }
    unfold scopeTenant in Hs. simpl in Hs. injection Hs as <- <-.
    apply bind_Error in Hc as [Hc|(t & w4 & Hn & Hc)]; [done|]. apply now_Ok in Hn as [-> [D4 _]].
    apply Create_Error in Hc. by rewrite Hc, D4, D1.
Qed.

Lemma register_inv ctx in_ w p w' :
  registerAudited s ctx in_ w = (Ok p, w') ->
  Policy.validatePassword (r_Password in_) (minPasswordScore s)
    [trim_space (r_Username in_); Policy.emailLocalPart (Policy.normalize (r_Email in_))] = None /\
  ((exists u, users (w_db w') = users (w_db w) ++ [u] /\ registered ctx in_ u /\ p = FromUser u /\
      unclaimed ctx in_ (w_db w)) \/
   (users (w_db w') = users (w_db w) /\ p_ID p = 0)).
Proof.
  intros H. apply bind_Ok in H as ([] & w1 & Hacc & H). apply accept_Ok in Hacc as [D1 Hpol]. split; [done|].
  apply bind_Ok in H as ([] & w2 & H2 & H). apply run_users in H2; [|keeps_tac].
  destruct (Policy.isDisposableEmail _); [done|].
  apply bind_Ok in H as (o & w3 & Ho & H). apply optional_First_Ok in Ho as [[D3 _] Ho].
  destruct o as [x|].
  { right. apply dup_Ok in H as [Hu Hp]. split; [|done]. by rewrite Hu, D3, H2, D1. }
  apply bind_Ok in H as (o & w4 & Ho' & H). apply optional_First_Ok in Ho' as [[D4 _] Ho'].
  destruct o as [x|].
  { right. apply dup_Ok in H as [Hu Hp]. split; [|done]. by rewrite Hu, D4, D3, H2, D1. }
  apply bind_Ok in H as (h & w5 & Hh & H). apply hashPassword_Ok in Hh as [[D5 _] Hh].
  apply create_account_Ok in H as [(u & Hu & Hr & Hp)|[Hu Hp]]; [|right|done].
  2: { split; [|done]. by rewrite Hu, D5, D4, D3, H2, D1. }
  left. exists u. split; [by rewrite Hu, D5, D4, D3, H2, D1|]. split; [done|]. split; [done|].
  intros y Hin Ht. rewrite D3 in Ho'. simpl in Ho, Ho'. rewrite H2, D1 in Ho, Ho'.
  rewrite first_where_None in Ho, Ho'. specialize (Ho y Hin). specialize (Ho' y Hin).
  apply andb_false_iff in Ho as [Ho|Ho], Ho' as [Ho'|Ho']; bool_prop; done.
Qed.

End Register.

(** ** The properties *)

Section Claims.
Context {ST : Store} {E : Ext} {J : JwtLib} {OT : Otp} {G : GoogleLib} {WL : WebAuthnLib} {L : Local} (s : AuthService).
Import Auth Account.

(** C22: a password-reset token works once: after a reset that succeeded, whatever
    requests and clean-ups come in between, a later reset with that token is
    refused, with any new password, if no clean-up ran after the token expired, or
    the store still holds its mark, or the token is past its expiry and the
    permitted skew.  (In between, within the skew after the expiry, a clean-up may
    have dropped the record of a token the store has forgotten: [reset_gap].) *)
Theorem reset_once {JL : JwtLaws J} {SL : StoreLaws ST} (ctx ctx' : Ctx) (token : Token) (c : Claims)
    (pw pw' ip ip' : string) (upto : Z) (w w1 w2 : World)
    (Hc : Verify (jwt s) (w_now w) token = Ok c)
    (Hrun : ResetPassword s ctx token pw ip w = (Ok tt, w1))
    (Hlife : lifetime s any_request (fun t => t <= upto) w1 w2)
    (Hguard : upto <= default 0 (ExpiresAt c) \/
              is_Some (kv_live (w_now w2) (w_kv w2) (mark_of c)) \/
              default 0 (ExpiresAt c) + MaxSkew <= w_now w2) :
  fst (ResetPassword s ctx' token pw' ip' w2) <> Ok tt.
Proof.
  intros Hagain%run_snd. apply reset_inv in Hrun as (c1 & Hv & _ & _ & _ & Hs).
  apply reset_inv in Hagain as (c2 & Hv' & _ & (up & v & ttl & Hm) & Hs' & _).
  assert (c1 = c) as -> by congruence.
  assert (c2 = c) as -> by (symmetry; by eapply verify_same).
  destruct Hguard as [Hu|[[x Hx]|Hpast]].
  - apply Hs'. eapply until_lasts; [by eapply lifetime_any|exact Hu|exact Hs].
  - apply setnx_wins in Hm. congruence.
  - apply verify_expiry in Hv' as (e & He & Hlt). rewrite He in Hpast. simpl in Hpast. lia.
Qed.

(** The payload of a staged change of email reads back as the user, the old
    and the new address exactly when neither address holds a colon, and is
    refused otherwise: it never reads back as another change. *)
Theorem change_email_payload_exact (uid : Z) (oldEmail newEmail : string) (Huid : 0 <= uid < 2 ^ 64) :
  parse_change_email (Some (VStr (change_email_payload uid oldEmail newEmail))) =
  if bool_decide (no_byte ":" oldEmail /\ no_byte ":" newEmail) then Some (uid, oldEmail, newEmail) else None.
Proof.
  unfold parse_change_email, change_email_payload.
  assert (forall x y, x +:+ ":" +:+ y = x +:+ String ":" y) as Hsep by done. rewrite !Hsep.
  rewrite split_on_app by (apply fmt_no_colon; lia). rewrite split_on_more. case_bool_decide as Hb.
  - destruct Hb as [Ho Hn]. rewrite !split_on_no_byte by done. simpl. by rewrite fmt_uint_back.
  - destruct (split_on ":" oldEmail) as [|a [|b l]] eqn:Ea; destruct (split_on ":" newEmail) as [|c [|d k]] eqn:Ec;
      simpl; try done; try (pose proof (split_on_length ":" oldEmail); rewrite Ea in *; simpl in *; lia);
      try (pose proof (split_on_length ":" newEmail); rewrite Ec in *; simpl in *; lia).
    + apply split_on_one in Ea as [_ Ha], Ec as [_ Hc]. by destruct Hb.
    + by destruct l.
    + by destruct l.
Qed.

(** A confirmation of a change of email that succeeds took a staged change from
    the store, live under its token; the new address belonged to no other user of
    the tenant; and the user of the staged change now has it, verified. *)
Theorem confirm_change_email {SL : StoreLaws ST} (ctx : Ctx) (token ip : string) (w w' : World)
    (Hrun : ConfirmChangeEmail s ctx token ip w = (Ok tt, w')) :
  exists v uid oldEmail newEmail,
    kv_live (w_now w) (w_kv w) ("change_email:" +:+ token) = Some v /\
    parse_change_email (Some v) = Some (uid, oldEmail, newEmail) /\
    (forall x, first_where (fun u => bool_decide (User.Email u = newEmail) &&
       bool_decide (User.TenantID u = FromContext ctx)) (users (w_db w)) = Some x -> User.ID x = uid) /\
    exists u, In u (users (w_db w')) /\ mail_key u = (uid, FromContext ctx, newEmail, true).
Proof.
  apply operation_Ok in Hrun as (w0 & w1 & Hd & Hk & Hn & H & ->). unfold confirmChangeEmailAudited in H.
  destruct (bool_decide (token = "")); [done|].
  apply bind_Ok in H as (v & w2 & Ht & H). apply store_call_Ok in Ht as (up & -> & _ & D2 & N2 & _).
  destruct (fst _) as [v|] eqn:Hv; [|done]. apply take_only_live in Hv. rewrite Hn, Hk in Hv.
  destruct (parse_change_email (Some v)) as [[[uid old] new]|] eqn:Hp; [|done].
  exists v, uid, old, new. split; [done|]. split; [done|].
  apply bind_Ok in H as (o & w3 & Ho & H). apply optional_First_Ok in Ho as [(D3 & _) Ho].
  rewrite D2, Hd in Ho. destruct (match o with Some x => _ | None => _ end) eqn:Hx in H; [done|]. split.
  { intros x Hf. assert (o = Some x) as -> by (rewrite <- Ho; exact Hf). simpl in Hx. by bool_prop. }
  apply bind_Ok in H as (u & w4 & Hu & H). apply the_user_Ok in Hu as ((D4 & _) & Hf & Hid).
  apply bind_Ok in H as ([] & w5 & Hup & H). apply bind_Ok in Hup as (tid & w6 & Hs & Hup).
  assert (w6 = w4) as ->.
  { unfold scopeTenant in Hs. destruct (_ && _) in Hs; [done|]. by injection Hs. }
  apply updateScopedUnique_Ok in Hup as [[D5 _] _].
  apply bind_Ok in H as ([] & w7 & H7 & H). apply run_mail in H7; [|apply mail_everything].
  apply bind_Ok in H as ([] & w8 & H8 & H). apply run_mail in H8; [|apply mail_notify].
  apply run_mail in H; [|apply mail_record].
  assert (same_mail (w_db w5) (w_db w1)) as Hm by (etransitivity; [exact H7|etransitivity; eauto]).
  apply first_where_Some in Hf as [Hin Hsc].
  assert (user_scope (WithAsyncDelivery ctx) (User.ID u) (w_db w4) u = true) as Hsc'
    by (by rewrite Hid).
  destruct (same_mail_In _ _ (User.set_IsEmailVerified true (User.set_Email new u)) Hm) as (x & Hx' & Hkx).
  { rewrite D5. apply update_where_In. exists u. rewrite D4. split; [exact Hin|].
    unfold user_scope in *. simpl. bool_prop. by rewrite Z.eqb_refl, bool_decide_true. }
  exists x. split; [done|]. rewrite Hkx. apply andb_true_iff in Hsc as [_ Hsc].
  apply bool_decide_eq_true in Hsc. unfold mail_key. simpl. rewrite Hid, Hsc. done.
Qed.

(** A change of password that succeeds was given the user's current password
    and an acceptable new one; afterwards the stored hash verifies the new
    password, the failure counter and the lock are cleared, and every session and
    every refresh token of the user is revoked. *)
Theorem change_password_sound {EL : ExtLaws E} (ctx : Ctx) (uid : Z) (old new ip : string) (w w' : World)
    (Hrun : ChangePassword s ctx uid old new ip w = (Ok tt, w')) :
  exists user, first_where (user_scope ctx uid (w_db w)) (users (w_db w)) = Some user /\
    Hash.CheckPassword (User.Password user) old = true /\
    Policy.validatePassword new (minPasswordScore s)
      [User.Username user; Policy.emailLocalPart (User.Email user)] = None /\
    replaced (FromContext ctx) uid new (w_db w').
Proof.
  apply operation_Ok in Hrun as (w0 & w1 & Hd & _ & _ & H & ->).
  apply bind_Ok in H as (u & w2 & Hu & H). apply the_user_Ok in Hu as ([D2 _] & Hf & Hid). rewrite Hd in Hf.
  destruct (negb (Hash.CheckPassword (User.Password u) old)) eqn:Hold; [done|].
  apply bind_Ok in H as ([] & w3 & Hacc & H). apply accept_Ok in Hacc as [D3 Hpol].
  exists u. split; [done|]. split; [by apply negb_false_iff|]. split; [done|].
  apply first_where_Some in Hf as [Hin Hsc]. apply andb_true_iff in Hsc as [_ Hsc]. apply bool_decide_eq_true in Hsc.
  rewrite <- Hid. eapply (change_replaces s (WithAsyncDelivery ctx)); [exact H| |exact Hsc].
  by rewrite D3, D2, Hd.
Qed.

(** C21: a password reset that succeeds was given a verified reset token that had
    not been spent; afterwards the token is spent, the user the token names, in
    the tenant it names, has the new password and a clean slate, and every
    session and refresh token of that user is revoked. *)
Theorem reset_password_sound {EL : ExtLaws E} (ctx : Ctx) (token : Token) (new ip : string) (w w' : World)
    (Hrun : ResetPassword s ctx token new ip w = (Ok tt, w')) :
  exists c, Verify (jwt s) (w_now w) token = Ok c /\ Type_ c = TokenTypeReset /\
    ~ spent (ID c) (w_db w) /\ spent (ID c) (w_db w') /\
    replaced (FromContext (WithTenant (TenantID c) ctx)) (UserID c) new (w_db w').
Proof.
  destruct (reset_inv s _ _ _ _ _ _ Hrun) as (c & Hv & Hty & _ & Hs1 & Hs2).
  apply spent_until_spent in Hs2. exists c. do 4 (split; [done|]).
  apply operation_Ok in Hrun as (w0 & w1 & Hd & _ & Hn & H & ->).
  apply bind_Ok in H as (c' & w2 & Hc & H). apply purpose_token_Ok in Hc as (Hv' & _ & [D2 _]).
  rewrite Hn, Hv in Hv'. injection Hv' as <-.
  apply bind_Ok in H as (u & w3 & Hu & H). apply the_user_Ok in Hu as ([D3 _] & Hf & Hid).
  apply bind_Ok in H as ([] & w4 & Hacc & H). apply accept_Ok in Hacc as [D4 _].
  apply bind_Ok in H as ([] & w5 & Hsp & H). apply spend_users in Hsp.
  apply first_where_Some in Hf as [Hin Hsc]. apply andb_true_iff in Hsc as [_ Hsc]. apply bool_decide_eq_true in Hsc.
  rewrite <- Hid. eapply (change_replaces s (WithTenant (TenantID c) (WithAsyncDelivery ctx))); [exact H| |exact Hsc].
  by rewrite Hsp, D4, D3.
Qed.

(** A registration that answers a profile was given an acceptable password; it
    either creates exactly one account, in the request's tenant, active,
    unverified and of the plain role, whose hash verifies that password, and then
    no account of the tenant had the name or the address; or it changes no account
    and answers a profile of no id. *)
Theorem register_outcome {EL : ExtLaws E} (ctx : Ctx) (in_ : RegisterInput) (w w' : World) (p : UserProfile)
    (Hrun : Register s ctx in_ w = (Ok p, w')) :
  Policy.validatePassword (r_Password in_) (minPasswordScore s)
    [trim_space (r_Username in_); Policy.emailLocalPart (Policy.normalize (r_Email in_))] = None /\
  ((exists u, users (w_db w') = users (w_db w) ++ [u] /\ registered ctx in_ u /\ p = FromUser u /\
      unclaimed ctx in_ (w_db w)) \/
   (users (w_db w') = users (w_db w) /\ p_ID p = 0)).
Proof.
  apply operation_Ok in Hrun as (w0 & w1 & Hd & _ & _ & H & ->). rewrite <- Hd. by apply register_inv in H.
Qed.

End Claims.

(** ** Witnesses *)

Import Choices.

Definition demo_token : Token :=
  match fst (Issue Toy.manager 1 "user" "alice@finn.io" TokenTypeReset (15 * minute) "default" Demo.start) with
  | Ok t => t | Error _ => Text "" end.

Definition demo_claims : Claims :=
  match Verify Toy.manager (w_now Demo.start) demo_token with Ok c => c | Error _ => Demo.claims end.

Definition demo_expiry : Z := default 0 (ExpiresAt demo_claims).

Definition reset_at (pw : string) (w : World) := Account.ResetPassword Demo.service Demo.ctx demo_token pw "10.0.0.1" w.

Definition demo_reset : World := snd (reset_at "Correct7horse" Demo.start).

(** The clean-up runs before the token expires. *)
Lemma reset_once_witness :
  reset_at "Correct7horse" Demo.start = (Ok tt, demo_reset) /\
  fst (reset_at "Other9password" (snd (runOnce demo_reset))) <> Ok tt.
Proof.
  assert (reset_at "Correct7horse" Demo.start = (Ok tt, demo_reset)) as H.
  { exact (run_snd (reset_at "Correct7horse") Demo.start (Ok tt) (ltac:(vm_reflexivity))). }
  assert (Verify Toy.manager (w_now Demo.start) demo_token = Ok demo_claims) as Hc by vm_reflexivity.
  assert ((w_now demo_reset <=? demo_expiry) = true) as Ht by vm_reflexivity.
  split; [exact H|].
  exact (reset_once (JL := Toy.laws) (SL := MemFacts.mem_laws) Demo.service Demo.ctx Demo.ctx demo_token demo_claims
    "Correct7horse" "Other9password" "10.0.0.1" "10.0.0.1" demo_expiry Demo.start demo_reset (snd (runOnce demo_reset)) Hc H
    (life_cleanup _ _ (fun t => t <= demo_expiry) _ demo_reset (life_here _ _ _ demo_reset) (proj1 (Z.leb_le _ _) Ht))
    (or_introl (Z.le_refl _))).
Defined.

(** Ten seconds after the expiry, the store restarted. *)
Definition demo_later : World :=
  mkWorld (demo_expiry + 10 * second) [] (w_uuid demo_reset) (w_rand demo_reset) (w_db demo_reset)
    Mem.NewInMemoryStore None [].

(** The one gap: the clean-up dropped the record of a token that still verifies
    within the skew, the store forgot its mark, and the token resets again. *)
Lemma reset_gap :
  lifetime Demo.service any_request any_time demo_reset (snd (runOnce demo_later)) /\
  fst (reset_at "Other9password" (snd (runOnce demo_later))) = Ok tt.
Proof.
  split; [|vm_reflexivity]. apply (life_cleanup _ _ _ _ demo_later); [|exact I].
  apply (life_else _ _ _ _ demo_reset); [apply life_here|].
  change (w_db demo_later) with (w_db demo_reset). apply elsewhere_refl.
Qed.

Lemma reset_password_sound_witness :
  exists w1, Account.ResetPassword Demo.service Demo.ctx demo_token "Correct7horse" "10.0.0.1" Demo.start = (Ok tt, w1) /\
    exists c, Verify Toy.manager (w_now Demo.start) demo_token = Ok c /\ spent (ID c) (w_db w1).
Proof.
  destruct (ran (Account.ResetPassword Demo.service Demo.ctx demo_token "Correct7horse" "10.0.0.1") Demo.start
    (ltac:(vm_reflexivity))) as ([] & w1 & H).
  exists w1. split; [exact H|].
  destruct (reset_password_sound (EL := toy_laws) Demo.service Demo.ctx demo_token "Correct7horse" "10.0.0.1" Demo.start w1 H)
    as (c & Hv & _ & _ & Hs & _).
  exists c. exact (conj Hv Hs).
Defined.

Lemma change_password_sound_witness :
  exists w1, Account.ChangePassword Demo.service Demo.ctx 1 "Secret123" "Correct7horse" "10.0.0.1" Demo.start = (Ok tt, w1) /\
    replaced (FromContext Demo.ctx) 1 "Correct7horse" (w_db w1).
Proof.
  destruct (ran (Account.ChangePassword Demo.service Demo.ctx 1 "Secret123" "Correct7horse" "10.0.0.1") Demo.start
    (ltac:(vm_reflexivity))) as ([] & w1 & H).
  exists w1. split; [exact H|].
  destruct (change_password_sound (EL := toy_laws) Demo.service Demo.ctx 1 "Secret123" "Correct7horse" "10.0.0.1"
    Demo.start w1 H) as (user & _ & _ & _ & Hr).
  exact Hr.
Defined.

Lemma change_email_payload_exact_witness :
  Account.parse_change_email (Some (VStr (Account.change_email_payload 1 "alice@finn.io" "al@finn.io"))) =
  Some (1, "alice@finn.io", "al@finn.io").
Proof.
  exact (change_email_payload_exact 1 "alice@finn.io" "al@finn.io" (ltac:(done))).
Defined.

(** A change of email staged for alice. *)
Definition demo_staged : World :=
  set_kv (kv_set true Demo.t0 "change_email:tok" (VStr (Account.change_email_payload 1 "alice@finn.io" "al@finn.io")) hour
    (w_kv Demo.start)) Demo.start.

Lemma confirm_change_email_witness :
  exists w1, Account.ConfirmChangeEmail Demo.service Demo.ctx "tok" "10.0.0.1" demo_staged = (Ok tt, w1) /\
    exists uid email u, In u (users (w_db w1)) /\ mail_key u = (uid, FromContext Demo.ctx, email, true).
Proof.
  destruct (ran (Account.ConfirmChangeEmail Demo.service Demo.ctx "tok" "10.0.0.1") demo_staged (ltac:(vm_reflexivity)))
    as ([] & w1 & H).
  exists w1. split; [exact H|].
  destruct (confirm_change_email Demo.service Demo.ctx "tok" "10.0.0.1" demo_staged w1 H)
    as (v & uid & old & new & _ & _ & _ & u & Hu).
  exists uid, new, u. exact Hu.
Defined.

Definition demo_input : RegisterInput := mkRegister "carol" "Carol@finn.io" "Correct7horse" "Carol" "10.0.0.3".

Lemma register_outcome_witness :
  exists p w1, Account.Register Demo.service Demo.ctx demo_input Demo.start = (Ok p, w1) /\
    ((exists u, users (w_db w1) = users (w_db Demo.start) ++ [u] /\ registered Demo.ctx demo_input u /\
        p = FromUser u /\ unclaimed Demo.ctx demo_input (w_db Demo.start)) \/
     (users (w_db w1) = users (w_db Demo.start) /\ p_ID p = 0)).
Proof.
  destruct (ran (Account.Register Demo.service Demo.ctx demo_input) Demo.start (ltac:(vm_reflexivity)))
    as (p & w1 & H).
  exists p, w1. split; [exact H|].
  exact (proj2 (register_outcome (EL := toy_laws) Demo.service Demo.ctx demo_input Demo.start w1 p H)).
Defined.

(** A registration under a taken user name answers the address of its owner. *)
Lemma register_username_leak :
  match fst (Account.Register Demo.service Demo.ctx
    (mkRegister "alice" "mallory@evil.io" "Correct7horse" "Mallory" "10.0.0.9") Demo.start) with
  | Ok p => p_Email p | Error _ => "" end = "alice@finn.io".
Proof. vm_reflexivity. Qed.
