(* ===== verification/TotpSpec.v ===== *)
(** * What the second factor promises

    A bounded number of guesses, no replay of a code within its window, and each
    recovery code at most once. *)

From S2P Require Import Prelude Store Models World Sql Repos Jwt AuditTrail Common Identity Totp Auth Account Demo AuditSpec IdentitySpec Evolve JwtSpec Lifetime Frames SignInSpec.

Open Scope Z_scope.
Open Scope monad_scope.

(** ** Calls that never answer a given error *)

Definition never {ST : Store} (e : Err) {A} (m : M A) : Prop := forall w, fst (m w) <> Error e.

Section Never.
Context {ST : Store} (e : Err) (He : e <> EInfra) (Hr : e <> ErrRecordNotFound) (Hd : e <> ErrDuplicateKey).

Lemma never_ret {A} (a : A) : never e (ret a).
Proof. done. Qed.

Lemma never_now : never e now.
Proof. done. Qed.

Lemma never_draw : never e draw.
Proof. done. Qed.

Lemma never_fail {A} e' : e' <> e -> never e (fail (A := A) e').
Proof. intros Hne w H. apply Hne. by injection H. Qed.

Lemma never_bind {A B} (m : M A) (f : A -> M B) : never e m -> (forall a, never e (f a)) -> never e (bind m f).
Proof.
  intros Hm Hf w. unfold bind. specialize (Hm w). destruct (m w) as [[a|e'] w1]; [apply Hf|].
  simpl in *. intros [= ->]. by apply Hm.
Qed.

Lemma never_try {A} (m : M A) : never e (try_ m).
Proof. intros w. unfold try_. by destruct (m w). Qed.

Lemma never_stmt {A} (f : World -> Res A * World) : (forall w, fst (f w) <> Error e) -> never e (stmt f).
Proof.
  intros Hf. apply never_bind; [intros w; unfold fault; by destruct (w_faults w)|].
  intros b w. destruct b; [|apply Hf]. simpl. congruence.
Qed.

Lemma never_First {T} `{TableOf T} p : never e (First (R := T) p).
Proof. apply never_stmt. intros w. destruct (first_where _ _); [done|]. simpl. congruence. Qed.

Lemma never_Find {T} `{TableOf T} p : never e (Find (R := T) p).
Proof. by apply never_stmt. Qed.

Lemma never_Count {T} `{TableOf T} p : never e (Count (R := T) p).
Proof. by apply never_stmt. Qed.

Lemma never_Updates {T} `{TableOf T} (p : DB -> T -> bool) f : never e (Updates p f).
Proof. by apply never_stmt. Qed.

Lemma never_Delete {T} `{TableOf T} (p : DB -> T -> bool) : never e (Delete p).
Proof. by apply never_stmt. Qed.

Lemma never_Create {T} `{TableOf T} clash (mk : Z -> T) : never e (Create clash mk).
Proof. apply never_stmt. intros w. cbv zeta. case_match; [|done]. simpl. congruence. Qed.

Lemma never_transaction {A} (m : M A) : never e m -> never e (transaction m).
Proof.
  intros Hm w. unfold transaction, fault. destruct (w_faults w) as [|[] l]; [| |];
    try (simpl; congruence);
    (match goal with |- context [m ?x] => specialize (Hm x); destruct (m x) as [[a|e'] w1] end);
    try exact Hm; (destruct (bool_decide _); [done|]); destruct (w_faults w1) as [|[] l1]; simpl; congruence.
Qed.

Lemma never_optional {A} (m : M A) : never e m -> never e (optional m).
Proof.
  intros Hm w. unfold optional, bind, try_. specialize (Hm w). destruct (m w) as [[a|e'] w1]; [done|].
  destruct (decide _); [done|]. simpl in *. intros [= ->]. by apply Hm.
Qed.

Lemma never_fault : never e fault.
Proof. intros w. unfold fault. by destruct (w_faults w). Qed.

Lemma never_kv {A} (f : bool -> Z -> kv -> A * kv) : never e (Calls.kv_call f).
Proof. apply never_bind; [apply never_fault|]. intros b w. by destruct (f _ _ _). Qed.

End Never.

#[export] Hint Resolve never_ret never_now never_draw never_try never_First never_Find never_Count never_Updates never_Delete
  never_Create never_optional never_fault never_kv : frames.

Ltac never_step :=
  match goal with
  | |- never _ (fail _) => apply never_fail; congruence
  | |- never _ (bind _ _) => apply never_bind; [|intros ?]
  | |- never _ (try_ _) => apply never_try
  | |- never _ (transaction _) => apply never_transaction; [congruence|]
  | |- never _ (updateScoped _ _) => unfold updateScoped
  | |- never _ (requireOwner _ _) => unfold requireOwner
  | |- never _ (Calls.quietly _) => unfold Calls.quietly
  | |- never _ (match ?x with _ => _ end) => destruct x
  | |- never _ (let _ := _ in _) => cbv zeta
  | _ => solve [eauto with frames nocore | auto with frames; congruence]
  end.

Ltac never_tac := repeat never_step.

(** ** Operations in a calm world *)

(** What an operation answers and leaves in the store, when no call fails. *)
Lemma operation_calm {ST : Store} {E : Ext} {A} wr ctx (fn : Ctx -> M A) w r w' :
  w_op w = None -> calm w -> Calls.runAuditOperation wr ctx fn w = (r, w') ->
  exists r1 w1, fn (WithAsyncDelivery ctx) (set_op (Some BindOperation) w) = (r1, w1) /\
    (calm w1 -> (r = r1 \/ r = Error ErrUnavailable) /\ w_kv w' = w_kv w1 /\ w_now w' = w_now w1 /\
       w_op w' = None /\ calm w').
Proof.
  intros Ho Hc. unfold Calls.runAuditOperation, Writer.AuditOperation, Outbox.AuditOperation.
  rewrite Ho. unfold fault at 1. rewrite Hc. destruct (fn _ _) as [r1 w1].
  intros H. exists r1, w1. split; [done|]. intros C1. unfold fault, set_op in H. simpl in H. rewrite C1 in H.
  destruct (failure _); [|destruct r1; [|destruct (_ || _)]]; injection H as <- <-; (split; [auto|done]).
Qed.

(** ** Guessing *)

Section Guess.
Import Totp.
Context {ST : Store} {SL : StoreLaws ST} {E : Ext} {J : JwtLib} {OT : Otp} (s : Totp.TOTPService) (uid D : Z).
Context (Hms : TOTPAttemptWindow (cfg s) mod millisecond = 0).

Abbreviation key := (fail_key uid).

(** The failure counter stands at [k], until [D]. *)
Definition counted (n k : Z) (w : World) : Prop :=
  w_now w = n /\
  0 <= k < 2 ^ 62 /\ n < D <= n + TOTPAttemptWindow (cfg s) /\
  forall t, n <= t < D -> kv_live t (w_kv w) key = if k =? 0 then None else Some (kv_read (VInt64 k)).

(** Where a call that starts at count [k] may end: a wrong code is counted, and
    no refusal takes the count back. *)
Definition outcome (n k : Z) {A} (x : Res A * World) : Prop :=
  let (r, w) := x in
  calm w /\
  match r with
  | Ok _ => True
  | Error e => counted n (k + 1) w \/ (e <> ErrInvalidCode /\ counted n k w)
  end.

Lemma counted_key n k w w' : same_key key w w' -> counted n k w -> counted n k w'.
Proof.
  intros (N & _ & L) (Hn & Hk & Hd & Hc). split; [congruence|]. do 2 (split; [done|]).
  intros t Ht. rewrite L by lia. auto.
Qed.

Lemma counter_value n k w : calm w -> counted n k w ->
  exists w', Calls.storeCounterValue key w = (Ok k, w') /\ calm w' /\ counted n k w'.
Proof.
  intros Hc Hk. unfold Calls.storeCounterValue.
  pose proof (key_get key key w) as Hs. unfold Calls.store_Get in *. rewrite kv_calm in Hs by done.
  unfold bind. rewrite kv_calm by done. rewrite get_value. simpl in Hs. eexists. split.
  - destruct Hk as (Hn & Hr & Hd & Hl). rewrite Hl by lia. destruct (Z.eqb_spec k 0) as [->|]; [done|].
    unfold ret. rewrite read_counter by lia. done.
  - destruct Hs as (N & C & L). split; [by apply C|]. by eapply (counted_key n k w).
Qed.

(** Recording is total, and quiet at the counter. *)
Lemma record_key n k ctx e w : calm w -> counted n k w ->
  exists w', Writer.Record_ (audits s) ctx e w = (Ok tt, w') /\ calm w' /\ counted n k w'.
Proof.
  intros Hc Hk. pose proof (key_record key (audits s) ctx e w) as Hs.
  destruct (Writer.Record_ (audits s) ctx e w) as [r w'] eqn:Hr. simpl in Hs.
  exists w'. split; [|split; [by apply Hs|by eapply counted_key]]. f_equal.
  unfold Writer.Record_, bind, try_ in Hr. destruct (Outbox.Admit _ _ _ w) as [[[]|err] w1];
    [|by injection Hr as <- _]. unfold current_op in Hr. destruct (_ && _); [|by injection Hr as <- _].
  destruct (Outbox.Dispatch _ _ _). by injection Hr as <- _.
Qed.

Lemma failure_counts n k ctx d w : k + 1 < 2 ^ 62 -> calm w -> counted n k w ->
  exists w', recordFailure s ctx uid d w = (Ok tt, w') /\ calm w' /\ counted n (k + 1) w'.
Proof.
  intros Hmax Hc (Hn & Hk & Hd & Hl). unfold recordFailure, Calls.store_IncrBy.
  erewrite bind_run; [|apply kv_calm; exact Hc]. apply record_key; [done|].
  split; [done|]. split; [lia|]. split; [done|]. intros t Ht. destruct (Z.eqb_spec (k + 1) 0); [lia|].
  simpl in *. destruct (Z.eqb_spec k 0) as [->|].
  - destruct (incr_fresh (w_now w) key 1 (TOTPAttemptWindow (cfg s)) (w_kv w) t Hms) as [_ ->];
      [lia|by apply Hl; lia|lia|]. unfold seen. destruct (Z.leb_spec t (w_now w + TOTPAttemptWindow (cfg s))); [|lia].
    by rewrite orb_true_r.
  - destruct (incr_next (w_now w) key 1 (TOTPAttemptWindow (cfg s)) (w_kv w) k) as [_ Hv];
      [done|by apply Hl; lia|lia|lia|]. by rewrite Hv, Hl by lia.
Qed.

(** From count [k], a call ends as [outcome] says. *)
Definition tries (n k : Z) {A} (m : M A) : Prop := forall w, calm w -> counted n k w -> outcome n k (m w).

Section Tries.
Context (n k : Z) (Hmax : k + 1 < 2 ^ 62).

Lemma tries_quiet {A} (m : M A) : holds (same_key key) m -> never ErrInvalidCode m -> tries n k m.
Proof.
  intros Hm Hn w Hc Hk. specialize (Hm w). specialize (Hn w). unfold outcome. destruct (m w) as [[a|e] w1].
  - split; [by apply Hm|done].
  - split; [by apply Hm|]. right. split; [by intros ->|by eapply counted_key].
Qed.

Lemma tries_bind {A B} (m : M A) (f : A -> M B) :
  holds (same_key key) m -> never ErrInvalidCode m -> (forall a, tries n k (f a)) -> tries n k (bind m f).
Proof.
  intros Hm Hn Hf w Hc Hk. pose proof (tries_quiet m Hm Hn w Hc Hk) as Ho. specialize (Hm w).
  unfold bind. destruct (m w) as [[a|e] w1]; [|done].
  apply Hf; [by apply Ho|by eapply counted_key].
Qed.

Lemma tries_refuse {A} ctx d : tries n k (refuse (A := A) s ctx uid d).
Proof.
  intros w Hc Hk. destruct (failure_counts n k ctx d w Hmax Hc Hk) as (w1 & H1 & C1 & K1).
  unfold refuse, bind. rewrite H1. split; [done|]. by left.
Qed.

Lemma tries_success ctx name d : tries n k (recordSuccess s ctx uid name d).
Proof.
  intros w Hc Hk. unfold recordSuccess, Calls.store_Delete. erewrite bind_run; [|apply kv_calm; exact Hc].
  pose proof (key_record key (audits s) (WithActor uid ctx) (Calls.event (Some uid) "" name "" true d)
    (set_kv (kv_delete true key (w_kv w)) w)) as Hs.
  simpl. destruct (Writer.Record_ _ _ _ _) as [r w1] eqn:Hr. split; [by apply Hs|].
  destruct r as [|err]; [done|]. exfalso. unfold Writer.Record_, bind, try_ in Hr.
  destruct (Outbox.Admit _ _ _ _) as [[[]|e'] w2]; [|done]. unfold current_op in Hr. destruct (_ && _); [|done].
  by destruct (Outbox.Dispatch _ _ _).
Qed.

(** The calls of the service that only read and write tables. *)
Lemma key_upsert ctx d : holds (same_key key) (TOTPRepository.Upsert ctx d).
Proof. unfold TOTPRepository.Upsert. frame_tac. Qed.

Lemma key_secret ctx d : holds (same_key key) (openActiveSecret ctx d).
Proof. pose proof key_upsert. unfold openActiveSecret, Encrypt. frame_tac. Qed.

Lemma never_secret ctx d : never ErrInvalidCode (openActiveSecret ctx d).
Proof. unfold openActiveSecret, Encrypt, TOTPRepository.Upsert. never_tac. Qed.

Lemma key_codes c : holds (same_key key) (fresh_codes uid c).
Proof.
  induction c; cbn [fresh_codes]; unfold Hash.GenerateRandomBytes, Encrypt; frame_tac.
Qed.

Lemma key_new_codes ctx : holds (same_key key) (newRecoveryCodes s ctx uid).
Proof.
  pose proof key_codes. unfold newRecoveryCodes, TOTPRepository.ReplaceRecoveryCodes.
  assert (forall l, holds (same_key key) (TOTPRepository.create_codes l))
    by (induction l; cbn [TOTPRepository.create_codes]; frame_tac).
  frame_tac.
Qed.

Lemma key_replay code : holds (same_key key) (replayGuard uid code).
Proof. apply key_setnx. unfold replay_key, fail_key. by intros [=]. Qed.

(** A call whose answer [r] is kept, after the lock is released. *)
Lemma tries_lock {A} (m : M A) : tries n k m -> tries n k (with_rotation_lock uid m).
Proof.
  intros Hm. unfold with_rotation_lock.
  apply tries_bind; [apply key_setnx; by intros [=]|apply never_kv|]. intros [|]; simpl.
  2: { by apply tries_quiet; [apply holds_fail; typeclasses eauto|apply never_fail]. }
  intros w Hc Hk. unfold bind, try_. specialize (Hm w Hc Hk). destruct (m w) as [r w1].
  destruct Hm as [C1 Ho]. unfold releaseRotationLock.
  pose proof (key_delete key (lock_key uid)) as Hd. unfold Calls.store_Delete in *.
  specialize (Hd (ltac:(by intros [=])) w1). rewrite kv_calm in * by done. simpl in Hd.
  unfold Calls.lift. destruct r as [a|e]; simpl; (split; [done|]); [done|].
  destruct Ho as [Ho|[He Ho]]; [left|right; split; [done|]]; by eapply counted_key.
Qed.

#[local] Hint Resolve key_upsert key_secret key_new_codes key_replay never_secret : frames.

(** A call whose error is looked at. *)
Lemma tries_try {A B} (m : M A) (f : Res A -> M B) :
  holds (same_key key) m -> never ErrInvalidCode m ->
  (forall a, tries n k (f (Ok a))) -> (forall e, e <> ErrInvalidCode -> tries n k (f (Error e))) ->
  tries n k (bind (try_ m) f).
Proof.
  intros Hm Hn Ha He w Hc Hk. specialize (Hm w). specialize (Hn w). unfold bind, try_.
  destruct (m w) as [[a|e] w1]; [apply Ha|apply He]; try by apply Hm.
  - by eapply counted_key.
  - by intros ->.
  - by eapply counted_key.
Qed.

(** A success followed by the answer. *)
Lemma tries_done {A} ctx name d (a : A) : tries n k (recordSuccess s ctx uid name d ;;; ret a).
Proof.
  intros w Hc Hk. pose proof (tries_success ctx name d w Hc Hk) as Ho. unfold bind.
  by destruct (recordSuccess _ _ _ _ _ w) as [[[]|e] w1].
Qed.

Lemma key_mark ctx c : holds (same_key key) (TOTPRepository.MarkRecoveryCodeUsed ctx c).
Proof. unfold TOTPRepository.MarkRecoveryCodeUsed. frame_tac. Qed.

Lemma never_mark ctx c : never ErrInvalidCode (TOTPRepository.MarkRecoveryCodeUsed ctx c).
Proof. unfold TOTPRepository.MarkRecoveryCodeUsed. never_tac. Qed.

Lemma never_codes c : never ErrInvalidCode (fresh_codes uid c).
Proof. induction c; cbn [fresh_codes]; unfold Hash.GenerateRandomBytes, Encrypt; never_tac. Qed.

Lemma never_new_codes ctx : never ErrInvalidCode (newRecoveryCodes s ctx uid).
Proof.
  pose proof never_codes. unfold newRecoveryCodes, TOTPRepository.ReplaceRecoveryCodes.
  assert (forall l, never ErrInvalidCode (TOTPRepository.create_codes l))
    by (induction l; cbn [TOTPRepository.create_codes]; never_tac).
  never_tac.
Qed.

Lemma never_upsert ctx d : never ErrInvalidCode (TOTPRepository.Upsert ctx d).
Proof. unfold TOTPRepository.Upsert. never_tac. Qed.

#[local] Hint Resolve key_mark never_mark never_upsert never_new_codes : frames.

Ltac tries_step :=
  match goal with
  | |- tries _ _ (bind (try_ _) _) => apply tries_try; [| |intros ?|intros ? ?]
  | |- tries _ _ (bind (recordSuccess _ _ _ _ _) (fun _ => ret _)) => apply tries_done
  | |- tries _ _ (bind _ _) => apply tries_bind; [| |intros ?]
  | |- tries _ _ (refuse _ _ _ _) => apply tries_refuse
  | |- tries _ _ (recordSuccess _ _ _ _ _) => apply tries_success
  | |- tries _ _ (fail _) => apply tries_quiet
  | |- tries _ _ (ret _) => apply tries_quiet
  | |- tries _ _ (match ?x with _ => _ end) => destruct x
  | |- tries _ _ (let _ := _ in _) => cbv zeta
  | |- never _ _ => solve [never_tac]
  | |- holds _ _ => solve [frame_tac]
  | _ => solve [eauto with frames]
  end.

Lemma tries_recovery ctx code : tries n k (use_recovery_code s ctx uid code).
Proof. unfold use_recovery_code, TOTPRepository.ActiveRecoveryCodes. repeat tries_step. Qed.

Lemma tries_activate ctx code : tries n k (activate s ctx uid code).
Proof. unfold activate, TOTPRepository.FindByUserID, code_valid. repeat tries_step. Qed.

(** Behind the guard, a code is looked at only below the limit. *)
Definition guarded {A} (m : M A) : Prop := forall w, calm w -> counted n k w ->
  outcome n k (m w) /\ (fst (m w) = Error ErrInvalidCode -> k < TOTPMaxAttempts (cfg s)).

Lemma guarded_by {A} ctx (m : M A) : tries n k m -> guarded (guardBruteForce s ctx uid ;;; m).
Proof.
  intros Hm w Hc Hk. destruct (counter_value n k w Hc Hk) as (w1 & H1 & C1 & K1).
  unfold guardBruteForce, bind. rewrite H1. destruct (Z.leb_spec (TOTPMaxAttempts (cfg s)) k).
  - destruct (failure_counts n k ctx "brute-force lockout" w1 Hmax C1 K1) as (w2 & H2 & C2 & K2).
    rewrite H2. split; [|done]. split; [done|]. by left.
  - split; [by apply Hm|]. lia.
Qed.

Lemma guarded_validate ctx code : guarded (validateAudited s ctx uid code).
Proof.
  pose proof tries_recovery. apply guarded_by. unfold TOTPRepository.FindByUserID, code_valid. repeat tries_step.
Qed.

Lemma guarded_view ctx code : guarded (viewRecoveryCodesAudited s ctx uid code).
Proof.
  apply guarded_by. unfold TOTPRepository.FindByUserID, TOTPRepository.ActiveRecoveryCodes, code_valid.
  repeat tries_step.
Qed.

Lemma guarded_enable ctx code : guarded (verifyEnableAudited s ctx uid code).
Proof. apply guarded_by, tries_lock, tries_activate. Qed.

End Tries.

(** *** Sequences of guesses *)

Definition set_now (t : Z) (w : World) : World :=
  mkWorld t (w_faults w) (w_uuid w) (w_rand w) (w_db w) (w_kv w) (w_op w) (w_mail w).

(** The calls that take a code. *)
Inductive Guess :=
  | GValidate (code : string)
  | GVerifyEnable (code : string)
  | GViewRecoveryCodes (code : string).

Definition ask (ctx : Ctx) (g : Guess) : M unit :=
  match g with
  | GValidate code => Validate s ctx uid code
  | GVerifyEnable code => VerifyEnable s ctx uid code ;;; ret tt
  | GViewRecoveryCodes code => ViewRecoveryCodes s ctx uid code ;;; ret tt
  end.

(** The refusals a run of guesses gets, each at its time and from any client,
    until one is right or the trail is unavailable. *)
Fixpoint refusals (gs : list (Z * Ctx * Guess)) (w : World) : list Err :=
  match gs with
  | [] => []
  | (t, ctx, g) :: gs =>
      match ask ctx g (set_now t w) with
      | (Ok _, _) => []
      | (Error e, w') => if decide (e = ErrUnavailable) then [] else e :: refusals gs w'
      end
  end.

Definition invalid (es : list Err) : Z := Z.of_nat (length (filter (fun e => e = ErrInvalidCode) es)).

(** The times never decrease and stay below [D]. *)
Fixpoint on_time (t : Z) (gs : list (Z * Ctx * Guess)) : Prop :=
  match gs with
  | [] => True
  | (t', _, _) :: gs => t <= t' < D /\ on_time t' gs
  end.

Lemma counted_later n k t w : counted n k w -> n <= t < D -> counted t k (set_now t w).
Proof.
  intros (Hn & Hk & Hd & Hl) Ht. split; [done|]. split; [done|]. split; [lia|].
  intros t' Ht'. apply Hl. lia.
Qed.

Lemma counted_same n k w w' : w_kv w' = w_kv w -> w_now w' = w_now w -> counted n k w -> counted n k w'.
Proof. intros Hk Hn H. unfold counted. by rewrite Hk, Hn. Qed.

(** What is left after a refusal. *)
Definition refused (n k : Z) (e : Err) (w' : World) : Prop :=
  w_op w' = None /\ calm w' /\
  ((e <> ErrInvalidCode /\ counted n k w') \/
   (counted n (k + 1) w' /\ (e = ErrInvalidCode -> k < TOTPMaxAttempts (cfg s)))).

Lemma operation_refused {A} n k (f : Ctx -> M A) ctx w e w' :
  guarded n k (f (WithAsyncDelivery ctx)) -> w_op w = None -> calm w -> counted n k w ->
  Calls.runAuditOperation (audits s) ctx f w = (Error e, w') -> e <> ErrUnavailable -> refused n k e w'.
Proof.
  intros Hf Ho Hc Hk H He. apply operation_calm in H as (r1 & w1 & H & Hw); [|done..].
  destruct (Hf (set_op (Some BindOperation) w) Hc Hk) as [Hout Hlim]. rewrite H in *. destruct Hout as [C1 Hout].
  destruct (Hw C1) as ([<-|[=]] & K & N & O & C); [|done]. split; [done|]. split; [done|].
  destruct Hout as [Hout|[Hne Hout]]; [right|left; split; [done|]; by eapply counted_same].
  split; [by eapply counted_same|]. intros ->. by apply Hlim.
Qed.

Lemma ask_refused n k ctx g w e w' : k + 1 < 2 ^ 62 -> w_op w = None -> calm w -> counted n k w ->
  ask ctx g w = (Error e, w') -> e <> ErrUnavailable -> refused n k e w'.
Proof.
  intros Hmax Ho Hc Hk. destruct g as [code|code|code]; cbn [ask]; intros H; [|apply bind_Error in H as [H|(a & w1 & _ & H)]; [|done]..];
    (eapply operation_refused; [|done..|exact H]).
  - by apply guarded_validate.
  - by apply guarded_enable.
  - by apply guarded_view.
Qed.

(** The budget: what is left of the limit. *)
Lemma refusals_bounded gs : forall n k w, k + Z.of_nat (length gs) < 2 ^ 62 -> on_time n gs ->
  w_op w = None -> calm w -> counted n k w -> invalid (refusals gs w) <= Z.max 0 (TOTPMaxAttempts (cfg s) - k).
Proof.
  induction gs as [|[[t ctx] g] gs IH]; intros n k w Hmax Ht Ho Hc Hk; cbn [refusals]; [unfold invalid; simpl; lia|].
  destruct Ht as [Ht Hts]. simpl in Hmax. destruct (ask ctx g (set_now t w)) as [[[]|e] w1] eqn:Ha; [unfold invalid; simpl; lia|].
  destruct (decide _) as [|He]; [unfold invalid; simpl; lia|].
  pose proof (counted_later n k t w Hk Ht) as Hk'.
  apply (ask_refused t k) in Ha as (O1 & C1 & Hout); [|lia|done..].
  unfold invalid in *. rewrite filter_cons. destruct Hout as [[Hne K1]|[K1 Hlim]].
  - rewrite decide_False by done. apply (IH t); [lia|done..].
  - specialize (IH t (k + 1) w1). destruct (decide (e = ErrInvalidCode)) as [->|]; simpl; [specialize (Hlim eq_refl)|].
    + assert (Z.of_nat (length (filter (fun e => e = ErrInvalidCode) (refusals gs w1))) <=
        Z.max 0 (TOTPMaxAttempts (cfg s) - (k + 1))) by (apply IH; [lia|done..]). lia.
    + assert (Z.of_nat (length (filter (fun e => e = ErrInvalidCode) (refusals gs w1))) <=
        Z.max 0 (TOTPMaxAttempts (cfg s) - (k + 1))) by (apply IH; [lia|done..]). lia.
Qed.

End Guess.

(** ** Replay *)

Lemma operation_store {ST : Store} {E : Ext} {A} wr ctx (fn : Ctx -> M A) w a w' :
  Calls.runAuditOperation wr ctx fn w = (Ok a, w') ->
  exists w0 w1, w_db w0 = w_db w /\ w_kv w0 = w_kv w /\ w_now w0 = w_now w /\
    fn (WithAsyncDelivery ctx) w0 = (Ok a, w1) /\ w_db w' = w_db w1 /\ w_kv w' = w_kv w1 /\ w_now w' = w_now w1.
Proof.
  unfold Calls.runAuditOperation, Writer.AuditOperation, Outbox.AuditOperation.
  destruct (w_op w) eqn:Ho; [intros H; by exists w, w'|].
  destruct (fault_cases w) as (w0 & (D0 & K0 & _ & N0 & _) & [-> | ->]); [done|].
  destruct (fn _ _) as [r w1] eqn:Hf. destruct (failure _); [done|].
  destruct r as [b|e]; [|destruct (_ || _); [done|by destruct (fault _) as [[[]|] ?]]].
  destruct (fault_cases (set_op None w1)) as (w2 & (D2 & K2 & _ & N2 & _) & [-> | ->]); [done|].
  intros [= -> <-]. exists (set_op (Some BindOperation) w0), w1. by repeat (split; [done|]).
Qed.

Section Replay.
Import Totp.
Context {ST : Store} {SL : StoreLaws ST} {E : Ext} {J : JwtLib} {OT : Otp} (s : Totp.TOTPService) (uid : Z) (code : string).

Abbreviation rkey := (replay_key uid code).

Lemma replay_failure ctx d : holds (same_key rkey) (recordFailure s ctx uid d).
Proof. unfold recordFailure. pose proof (key_incr rkey (fail_key uid)). frame_tac. Qed.

Lemma replay_guard ctx : holds (same_key rkey) (guardBruteForce s ctx uid).
Proof. pose proof replay_failure. unfold guardBruteForce, Calls.storeCounterValue. frame_tac. Qed.

Lemma replay_secret ctx d : holds (same_key rkey) (openActiveSecret ctx d).
Proof. unfold openActiveSecret, Encrypt, TOTPRepository.Upsert. frame_tac. Qed.

Lemma replay_success ctx name d : holds (same_key rkey) (recordSuccess s ctx uid name d).
Proof. unfold recordSuccess. pose proof (key_delete rkey (fail_key uid)). frame_tac. Qed.

(** The step of the key over a run. *)
Lemma run_key {A} k (m : M A) w r w' : holds (same_key k) m -> m w = (r, w') -> same_key k w w'.
Proof. apply holds_run. Qed.

(** What follows the guard in both calls that take a six-digit code. *)
Definition taken (w w' : World) : Prop :=
  exists up w1 w2, same_key rkey w w1 /\
    kv_setnx up (w_now w1) rkey (VStr "1") totpReplayTTL (w_kv w1) = (true, w_kv w2) /\
    w_now w2 = w_now w1 /\ same_key rkey w2 w'.

Lemma refuse_Ok {A} ctx d w (a : A) w' : refuse s ctx uid d w = (Ok a, w') -> False.
Proof. intros H. by apply bind_Ok in H as (? & ? & _ & ?). Qed.

Lemma fresh_taken w w' : replayGuard uid code w = (Ok true, w') ->
  exists up w1, same_key rkey w w1 /\
    kv_setnx up (w_now w1) rkey (VStr "1") totpReplayTTL (w_kv w1) = (true, w_kv w') /\ w_now w' = w_now w1.
Proof.
  intros H. apply bind_Ok in H as (b & w1 & Hb & H). exists (negb b), w1.
  apply (run_key rkey) in Hb; [|apply holds_fault; typeclasses eauto]. split; [done|].
  destruct (kv_setnx _ _ _ _ _ _) as [a k]. by injection H as -> <-.
Qed.

Lemma validate_taken ctx w w' : str_len code = 6 -> validateAudited s ctx uid code w = (Ok tt, w') -> taken w w'.
Proof.
  intros Hlen H. unfold validateAudited in H. rewrite Hlen in H. simpl in H.
  apply bind_Ok in H as ([] & w1 & H1 & H). apply (run_key rkey) in H1; [|apply replay_guard].
  apply bind_Ok in H as (d & w2 & H2 & H). apply (run_key rkey) in H2; [|unfold TOTPRepository.FindByUserID; frame_tac].
  destruct d as [d|]; [|by apply refuse_Ok in H]. destruct (negb (TOTPDevice.Enabled d)); [by apply refuse_Ok in H|].
  apply bind_Ok in H as ([secret d'] & w3 & H3 & H). apply (run_key rkey) in H3; [|apply replay_secret].
  apply bind_Ok in H as ([] & w4 & H4 & H); [|by apply refuse_Ok in H]. simpl in H.
  apply (run_key rkey) in H4; [|unfold code_valid; frame_tac].
  apply bind_Ok in H as ([] & w5 & H5 & H); [|by apply refuse_Ok in H]. simpl in H.
  apply (run_key rkey) in H; [|apply replay_success].
  apply fresh_taken in H5 as (up & w4' & K4 & Hs & Hn). exists up, w4', w5.
  split; [|done]. do 3 (etransitivity; [eassumption|]). by etransitivity.
Qed.

Lemma view_taken ctx w l w' : viewRecoveryCodesAudited s ctx uid code w = (Ok l, w') -> taken w w'.
Proof.
  intros H. unfold viewRecoveryCodesAudited in H.
  apply bind_Ok in H as ([] & w1 & H1 & H). apply (run_key rkey) in H1; [|apply replay_guard].
  apply bind_Ok in H as (d & w2 & H2 & H). apply (run_key rkey) in H2; [|unfold TOTPRepository.FindByUserID; frame_tac].
  destruct d as [d|]; [|by apply refuse_Ok in H]. destruct (negb (TOTPDevice.Enabled d)); [by apply refuse_Ok in H|].
  apply bind_Ok in H as ([secret d'] & w3 & H3 & H). apply (run_key rkey) in H3; [|apply replay_secret].
  apply bind_Ok in H as (v & w4 & H4 & H). apply (run_key rkey) in H4; [|unfold code_valid; frame_tac].
  destruct (_ || _); [by apply refuse_Ok in H|].
  apply bind_Ok in H as ([] & w5 & H5 & H); [|by apply refuse_Ok in H]. cbn [negb] in H.
  apply run_key with (k := rkey) in H; [|pose proof replay_success; unfold TOTPRepository.ActiveRecoveryCodes; frame_tac].
  apply fresh_taken in H5 as (up & w4' & K4 & Hs & Hn). exists up, w4', w5.
  split; [|done]. do 3 (etransitivity; [eassumption|]). by etransitivity.
Qed.

(** A code is taken only when it is free, and then it is held. *)
Lemma taken_free w w' : taken w w' -> kv_live (w_now w) (w_kv w) rkey = None.
Proof.
  intros (up & w1 & w2 & (N & _ & L) & Hs & _). rewrite <- L by done. rewrite <- N.
  eapply (setnx_wins up). by rewrite Hs.
Qed.

Lemma taken_held w w' t : taken w w' -> w_now w <= t <= w_now w + totpReplayTTL ->
  kv_live t (w_kv w') rkey = Some (VStr "1").
Proof.
  intros (up & w1 & w2 & (N & _ & _) & Hs & N2 & (_ & _ & L)) Ht. rewrite L by lia.
  pose proof (setnx_value up (w_now w1) rkey (VStr "1") totpReplayTTL (w_kv w1) t) as Hv. rewrite Hs in Hv.
  simpl in Hv. rewrite Hv; [|done|lia|done]. rewrite read_str. unfold seen.
  destruct (Z.leb_spec t (w_now w1 + totpReplayTTL)); [by rewrite orb_true_r|lia].
Qed.

End Replay.

(** ** Recovery codes *)

(** No unused code appears, none comes back. *)
Definition no_new_codes (d d' : DB) : Prop :=
  forall r, In r (recovery_codes d') -> RecoveryCode.UsedAt r = None -> In r (recovery_codes d).

Section Recovery.
Import Totp.
Context {ST : Store} {E : Ext} {J : JwtLib} {OT : Otp} (s : Totp.TOTPService) (uid : Z) (code : string).

(** The user's unused codes. *)
Definition unused (d : DB) : list RecoveryCode.row :=
  rows_where (fun r => (RecoveryCode.UserID r =? uid) && bool_decide (RecoveryCode.UsedAt r = None)) (recovery_codes d).

(** Same codes. *)
Definition same_codes (d d' : DB) : Prop := recovery_codes d' = recovery_codes d.

#[export] Instance same_codes_preorder : PreOrder same_codes.
Proof. split; [done|]. intros a b c H1 H2. unfold same_codes in *. congruence. Qed.

Lemma codes_record ctx e : keeps same_codes (Writer.Record_ (audits s) ctx e).
Proof. intros w. by destruct (only_record (audits s) ctx e w). Qed.

#[local] Hint Resolve codes_record : keeps.

Lemma codes_failure ctx d : keeps same_codes (recordFailure s ctx uid d).
Proof. unfold recordFailure, Calls.store_IncrBy. keeps_tac. Qed.

Lemma codes_guard ctx : keeps same_codes (guardBruteForce s ctx uid).
Proof. pose proof codes_failure. unfold guardBruteForce, Calls.storeCounterValue, Calls.store_Get. keeps_tac. Qed.

Lemma codes_success ctx name d : keeps same_codes (recordSuccess s ctx uid name d).
Proof. unfold recordSuccess, Calls.store_Delete. keeps_tac. Qed.

Lemma run_codes {A} (m : M A) w r w' : keeps same_codes m -> m w = (r, w') -> same_codes (w_db w) (w_db w').
Proof. intros Hm H. specialize (Hm w). by rewrite H in Hm. Qed.

(** The unused code of the user the candidate is. *)
Definition matching (d : DB) (c : RecoveryCode.row) : Prop :=
  In c (recovery_codes d) /\ RecoveryCode.UserID c = uid /\ RecoveryCode.UsedAt c = None /\
  RecoveryCode.CodeHash c = Hash.HashRecoveryCode code.

Lemma index_of_Some want l i : Hash.index_of want l = Some i -> l !! i = Some want.
Proof.
  revert i. induction l as [|h l IH]; intros i; simpl; [done|]. case_bool_decide as Hh; [by intros [= <-]; subst|].
  destruct (Hash.index_of want l) as [j|] eqn:Hj; [|done]. intros [= <-]. by apply IH.
Qed.

(** A code used is a matching one, marked. *)
Lemma use_recovery_Ok ctx w w' : use_recovery_code s ctx uid code w = (Ok tt, w') ->
  exists c, matching (w_db w) c /\
    forall r, In r (recovery_codes (w_db w')) -> RecoveryCode.UsedAt r = None ->
      In r (recovery_codes (w_db w)) /\ ~ (RecoveryCode.ID r = RecoveryCode.ID c /\ RecoveryCode.UserID r = uid).
Proof.
  intros H. apply bind_Ok in H as (codes & w1 & H1 & H). apply Find_Ok in H1 as [[D1 _] ->].
  destruct (Hash.MatchRecoveryCode _ _) as [i|] eqn:Hm; [|by apply refuse_Ok in H].
  apply index_of_Some in Hm. rewrite list_lookup_fmap in Hm.
  destruct (_ !! i) as [c|] eqn:Hc; [|done]. injection Hm as Hhash.
  apply list_elem_of_lookup_2, list_elem_of_In, filter_In in Hc as [Hin Hp].
  apply bind_Ok in H as (r & w2 & H2 & H). apply try_Ok in H2.
  destruct r as [[]|e]; [|destruct (decide _); [by apply refuse_Ok in H|done]].
  apply run_codes in H; [|apply codes_success].
  apply bind_Ok in H2 as (t & w3 & H3 & H2). apply now_Ok in H3 as [-> [D3 _]].
  apply bind_Ok in H2 as (n & w4 & H4 & H2). apply Updates_Ok in H4 as [[D4 _] _].
  assert (w4 = w2) as -> by (destruct (n =? 0); [done|by injection H2]).
  unfold ownedRows in Hp. bool_prop. exists c. split; [done|].
  rewrite H, D4, D3, D1. intros r Hr Hu. apply update_where_In in Hr as (x & Hx & ->).
  destruct (ownedRows _ _ _ _ x) eqn:Hq; [done|]. split; [done|]. intros [Hi Hid].
  unfold ownedRows in Hq. rewrite Hi, Hid, Z.eqb_refl, bool_decide_true, !andb_true_r in Hq by done. congruence.
Qed.

Lemma validate_recovery ctx w w' : str_len code <> 6 -> validateAudited s ctx uid code w = (Ok tt, w') ->
  exists c, matching (w_db w) c /\
    forall r, In r (recovery_codes (w_db w')) -> RecoveryCode.UsedAt r = None ->
      In r (recovery_codes (w_db w)) /\ ~ (RecoveryCode.ID r = RecoveryCode.ID c /\ RecoveryCode.UserID r = uid).
Proof.
  intros Hlen H. apply Z.eqb_neq in Hlen. unfold validateAudited in H. rewrite Hlen in H.
  apply bind_Ok in H as ([] & w1 & H1 & H). apply run_codes in H1; [|apply codes_guard].
  apply bind_Ok in H as (d & w2 & H2 & H). apply optional_First_Ok in H2 as [[D2 _] _].
  destruct d as [d|]; [|by apply refuse_Ok in H]. destruct (negb (TOTPDevice.Enabled d)); [by apply refuse_Ok in H|].
  apply use_recovery_Ok in H as (c & Hc & Hr). unfold matching in *.
  rewrite D2, H1 in *. by exists c.
Qed.

(** No unused code of the user is the candidate. *)
Definition exhausted (d : DB) : Prop := forall c, ~ matching d c.

Lemma recovery_exhausts ctx w w' : str_len code <> 6 -> NoDup (map RecoveryCode.CodeHash (unused (w_db w))) ->
  validateAudited s ctx uid code w = (Ok tt, w') -> exhausted (w_db w').
Proof.
  intros Hlen Hnd H c' (Hin' & Hu' & Hn' & Hh').
  apply validate_recovery in H as (c & (Hin & Hu & Hn & Hh) & Hr); [|done].
  destruct (Hr c' Hin' Hn') as [Hin0 Hne]. apply Hne. split; [|done]. f_equal.
  apply (NoDup_map_inj RecoveryCode.CodeHash (unused (w_db w))); [done| | |congruence];
    apply filter_In; (split; [done|]); by rewrite ?Hu', ?Hu, Z.eqb_refl, bool_decide_true.
Qed.

Lemma exhausted_later d d' : no_new_codes d d' -> exhausted d -> exhausted d'.
Proof. intros Hn He c (Hin & Hu & Hx & Hh). apply (He c). by repeat split; [apply Hn|..]. Qed.

Lemma exhausted_refused ctx w : str_len code <> 6 -> exhausted (w_db w) ->
  fst (validateAudited s ctx uid code w) <> Ok tt.
Proof. intros Hlen He H%run_snd. apply validate_recovery in H as (c & Hc & _); [|done]. by apply (He c). Qed.

End Recovery.

(** ** The properties *)

Section Claims.
Context {ST : Store} {SL : StoreLaws ST} {E : Ext} {J : JwtLib} {OT : Otp} (s : Totp.TOTPService) (uid : Z).
Import Totp.

(** C23: guesses are budgeted.  When no call fails, from a failure counter at [k],
    and for as long as the attempt window, a client that asks for validations, confirmations and the
    list of recovery codes, in any order, with any codes and at any times, is told
    "invalid code" at most as often as the limit exceeds [k] before it gets a code
    right (which clears the counter) or the audit trail is unavailable: further
    attempts are refused without looking at the code. *)
Theorem guess_budget (D n k : Z) (gs : list (Z * Ctx * Guess)) (w : World)
    (Hms : TOTPAttemptWindow (cfg s) mod millisecond = 0) (Hcalm : calm w) (Hop : w_op w = None)
    (Hcount : counted s uid D n k w) (Htimes : on_time D n gs) (Hsize : k + Z.of_nat (length gs) < 2 ^ 62) :
  invalid (refusals s uid gs w) <= Z.max 0 (TOTPMaxAttempts (cfg s) - k).
Proof. by apply (refusals_bounded s uid D Hms gs n). Qed.

(** C24: a one-time code is not replayed.  After a validation with a six-digit code
    has succeeded, no validation and no listing of the recovery codes succeeds with
    that code of that user for the time a code can be valid, on any instance that
    sees the key the store then holds, whatever else fails. *)
Theorem totp_no_replay (ctx ctx' : Ctx) (code : string) (w w1 w2 : World) (Hlen : str_len code = 6)
    (Hrun : Validate s ctx uid code w = (Ok tt, w1))
    (Htime : w_now w <= w_now w2 <= w_now w + totpReplayTTL)
    (Hkey : kv_live (w_now w2) (w_kv w2) (replay_key uid code) = kv_live (w_now w2) (w_kv w1) (replay_key uid code)) :
  fst (Validate s ctx' uid code w2) <> Ok tt /\
  forall l, fst (ViewRecoveryCodes s ctx' uid code w2) <> Ok l.
Proof.
  apply operation_store in Hrun as (w0 & w1' & _ & _ & Hn & H & _ & Hk & _).
  apply (validate_taken s uid code) in H; [|done]. apply (taken_held _ _ _ _ (w_now w2)) in H; [|by rewrite Hn].
  rewrite Hk, H in Hkey. split.
  - intros Hagain%run_snd. apply operation_store in Hagain as (w3 & w4 & _ & Hk3 & Hn3 & H3 & _).
    apply (validate_taken s uid code), taken_free in H3; [|done]. rewrite Hk3, Hn3 in H3. congruence.
  - intros l Hagain%run_snd. apply operation_store in Hagain as (w3 & w4 & _ & Hk3 & Hn3 & H3 & _).
    apply (view_taken s uid code), taken_free in H3. rewrite Hk3, Hn3 in H3. congruence.
Qed.

(** A recovery code works once.  After a validation with a recovery code has
    succeeded, and until new codes are generated, no validation of the user
    succeeds with that code, whatever fails. *)
Theorem recovery_code_once (ctx ctx' : Ctx) (code : string) (w w1 w2 : World) (Hlen : str_len code <> 6)
    (Hdistinct : NoDup (map RecoveryCode.CodeHash (unused uid (w_db w))))
    (Hrun : Validate s ctx uid code w = (Ok tt, w1)) (Hcodes : no_new_codes (w_db w1) (w_db w2)) :
  fst (Validate s ctx' uid code w2) <> Ok tt.
Proof.
  apply operation_Ok in Hrun as (w0 & w1' & Hd & _ & _ & H & Hd'). rewrite <- Hd in Hdistinct.
  apply recovery_exhausts in H; [|done..]. intros Hagain%run_snd.
  apply operation_Ok in Hagain as (w3 & w4 & Hd3 & _ & _ & H3 & _).
  eapply (exhausted_refused s uid code); [exact Hlen| |by rewrite H3].
  rewrite Hd3. eapply exhausted_later; [exact Hcodes|]. by rewrite Hd'.
Qed.

End Claims.

(** ** Witnesses *)

Import Choices.

(** Alice with a confirmed device and two recovery codes. *)
Definition demo_mfa : World :=
  set_db (set_rows [TOTPDevice.mk 1 1 "" "sealed:secret0" "" true]
    (set_rows [RecoveryCode.mk 1 1 (Hash.HashRecoveryCode "ABCD-1234") "" None;
               RecoveryCode.mk 2 1 (Hash.HashRecoveryCode "EFGH-5678") "" None] Demo.db)) Demo.start.

Definition demo_guesses : list (Z * Ctx * Guess) :=
  map (fun n => (Demo.t0 + Z.of_nat n * minute, Demo.ctx, GValidate "000000")) (seq 0 8).

Lemma guess_budget_witness :
  invalid (refusals Demo.totp_service 1 demo_guesses demo_mfa) = 5 /\
  invalid (refusals Demo.totp_service 1 demo_guesses demo_mfa) <= 5.
Proof.
  split; [vm_reflexivity|].
  apply (guess_budget Demo.totp_service 1 (Demo.t0 + 15 * minute) Demo.t0 0 demo_guesses demo_mfa); try done.
Defined.

Lemma totp_no_replay_witness :
  exists w1, Totp.Validate Demo.totp_service Demo.ctx 1 "123456" demo_mfa = (Ok tt, w1) /\
    fst (Totp.Validate Demo.totp_service Demo.ctx 1 "123456" w1) <> Ok tt.
Proof.
  destruct (ran (Totp.Validate Demo.totp_service Demo.ctx 1 "123456") demo_mfa (ltac:(vm_reflexivity))) as ([] & w1 & H).
  exists w1. split; [exact H|].
  assert (w_now w1 = Demo.t0) as Hn.
  { transitivity (w_now (snd (Totp.Validate Demo.totp_service Demo.ctx 1 "123456" demo_mfa)));
      [by rewrite H|vm_reflexivity]. }
  refine (proj1 (totp_no_replay Demo.totp_service 1 Demo.ctx Demo.ctx "123456" demo_mfa w1 w1 eq_refl H _ eq_refl)).
  rewrite Hn. by split.
Defined.

Lemma recovery_code_once_witness :
  exists w1, Totp.Validate Demo.totp_service Demo.ctx 1 "ABCD-1234" demo_mfa = (Ok tt, w1) /\
    fst (Totp.Validate Demo.totp_service Demo.ctx 1 "ABCD-1234" w1) <> Ok tt.
Proof.
  destruct (ran (Totp.Validate Demo.totp_service Demo.ctx 1 "ABCD-1234") demo_mfa (ltac:(vm_reflexivity))) as ([] & w1 & H).
  exists w1. split; [exact H|].
  refine (recovery_code_once Demo.totp_service 1 Demo.ctx Demo.ctx "ABCD-1234" demo_mfa w1 w1 _ _ H (fun r Hr _ => Hr)).
  - vm_compute. done.
  - vm_compute. apply (bool_decide_unpack _). done.
Defined.
