(* ===== verification/PurgeSpec.v ===== *)
(** * The purge jobs end, and remove what they should

    [batchedDelete] and the jobs over it: every loop ends within one batch per row,
    and its batches together are one [DELETE .. LIMIT]. *)

From S2P Require Import Prelude Store Models World Sql Repos Jwt JwtSpec AuditTrail AuditSpec Common Identity Totp Auth Account Demo IdentitySpec.

Open Scope Z_scope.

(** Reading back what was written. *)
Class TableLaws (R : Type) {T : TableOf R} : Prop := {
  rows_set : forall l d, rows_of (set_rows l d) = l;
  set_set : forall l l' d, set_rows l (set_rows l' d) = set_rows l d;
  set_rows_of : forall d, set_rows (rows_of d) d = d
}.

#[export] Instance token_laws : TableLaws RefreshToken.row.
Proof. split; [done|done|by intros []]. Qed.

#[export] Instance used_laws : TableLaws UsedToken.row.
Proof. split; [done|done|by intros []]. Qed.

(** ** One batch *)

Section Batch.
Context {R : Type} (p : R -> bool).

Lemma delete_limit_facts l : forall n, let (l', k) := delete_limit p n l in
  (k <= n)%nat /\ length l = (length l' + k)%nat /\
  ((k < n)%nat -> l' = delete_where p l /\ k = count_where p l).
Proof.
  induction l as [|r l IH]; intros [|n]; simpl; [repeat split; lia| | |].
  - repeat split; try lia; done.
  - repeat split; lia.
  - destruct (p r) eqn:Hp.
    + specialize (IH n). destruct (delete_limit p n l) as [l' k]. destruct IH as (H1 & H2 & H3).
      split; [lia|]. split; [lia|]. intros Hk. destruct H3 as [-> ->]; [lia|].
      unfold delete_where, count_where, rows_where. simpl. by rewrite Hp.
    + specialize (IH (S n)). destruct (delete_limit p (S n) l) as [l' k]. destruct IH as (H1 & H2 & H3).
      split; [lia|]. split; [simpl; lia|]. intros Hk. destruct H3 as [-> ->]; [lia|].
      unfold delete_where, count_where, rows_where. simpl. by rewrite Hp.
Qed.

(** Two limits in a row, the first one used up, are their sum. *)
Lemma delete_limit_add m l : forall n l1, delete_limit p n l = (l1, n) ->
  delete_limit p (n + m) l = (fst (delete_limit p m l1), (n + snd (delete_limit p m l1))%nat).
Proof.
  induction l as [|r l IH]; intros n l1.
  - simpl. intros [= <- <-]. by destruct m.
  - destruct n as [|n]; [intros [= <-]; rewrite !Nat.add_0_l; by destruct (delete_limit p m (r :: l))|].
    simpl. destruct (p r) eqn:Hp.
    + destruct (delete_limit p n l) as [l' k] eqn:Hd. intros [= <- <-].
      rewrite (IH _ _ Hd). by destruct (delete_limit p m l').
    + destruct (delete_limit p (S n) l) as [l' k] eqn:Hd. intros [= <- ->].
      change (S (n + m)) with (S n + m)%nat. rewrite (IH _ _ Hd).
      destruct m as [|m]; simpl; [|by rewrite Hp; destruct (delete_limit p (S m) l')].
      by destruct l'.
Qed.

(** What a limit removes is what it removes of the matching rows. *)
Lemma delete_limit_part l : forall n l1, delete_limit p n l = (l1, n) ->
  delete_where p l = delete_where p l1 /\ count_where p l = (n + count_where p l1)%nat.
Proof.
  unfold delete_where, count_where, rows_where.
  induction l as [|r l IH]; intros [|n] l1; simpl; [by intros [= <-]|done|by intros [= <-]|].
  destruct (p r) eqn:Hp.
  - destruct (delete_limit p n l) as [l' k] eqn:Hd. intros [= <- <-]. destruct (IH _ _ Hd) as [-> Hc].
    simpl. split; [done|]. simpl. lia.
  - destruct (delete_limit p (S n) l) as [l' k] eqn:Hd. intros [= <- ->]. destruct (IH _ _ Hd) as [-> Hc].
    simpl. rewrite Hp. simpl. split; [done|]. done.
Qed.

Lemma delete_limit_all l : delete_limit p (count_where p l) l = (delete_where p l, count_where p l).
Proof.
  unfold delete_where, count_where, rows_where. induction l as [|r l IH]; simpl; [done|].
  destruct (p r) eqn:Hp; simpl; [by rewrite IH|]. destruct (length _) eqn:Hn; [|by rewrite IH].
  f_equal. f_equal. rewrite (List.filter_ext_in _ (fun _ => true)); [by rewrite filter_true|].
  intros x Hx. destruct (p x) eqn:Hpx; [|done]. exfalso.
  assert (In x (List.filter p l)) as Hin by (by apply List.filter_In). by destruct (List.filter p l).
Qed.

Lemma delete_limit_0 l : delete_limit p 0 l = (l, 0%nat).
Proof. by destruct l. Qed.

End Batch.

(** ** The loop *)

Section Loop.
Context {ST : Store} {R : Type} {T : TableOf R} {TL : TableLaws R} (p : R -> bool).

(** A batch fails and changes nothing, or removes what its limit says. *)
Lemma DeleteLimit_run w : exists w1, w_db w1 = w_db w /\ (calm w -> calm w1) /\
  (DeleteLimit p w = (Error EInfra, w1) /\ ~ calm w \/
   DeleteLimit p w = (Ok (snd (delete_limit p purgeBatchSize (get_rows w))),
     set_db (set_rows (fst (delete_limit p purgeBatchSize (get_rows w))) (w_db w)) w1)).
Proof.
  unfold DeleteLimit, stmt, bind, fault, calm. destruct (w_faults w) as [|[] l] eqn:Hf.
  - exists w. rewrite Hf. split; [done|]. split; [done|]. right. by destruct (delete_limit _ _ _).
  - eexists. split; [|split; [|left; split; [reflexivity|]]]; done.
  - eexists. split; [|split; [|right]]; [| |unfold get_rows; simpl; destruct (delete_limit _ _ _); reflexivity]; done.
Qed.

(** More fuel than rows changes nothing. *)
Lemma batches_fuel f1 : forall f2 total w, (length (rows_of (w_db w)) < f1)%nat ->
  (length (rows_of (w_db w)) < f2)%nat -> batches f1 p total w = batches f2 p total w.
Proof.
  induction f1 as [|f1 IH]; intros [|f2] total w H1 H2; try lia. simpl. unfold bind, try_.
  destruct (DeleteLimit_run w) as (w1 & _ & _ & [[-> _] | ->]); [done|].
  unfold get_rows. pose proof (delete_limit_facts p (rows_of (w_db w)) purgeBatchSize) as Hd.
  destruct (delete_limit p purgeBatchSize _) as [l k]. destruct Hd as (Hk & Hl & _). cbn [fst snd].
  destruct (Nat.ltb_spec k purgeBatchSize); [done|]. unfold purgeBatchSize in *.
  apply IH; simpl; rewrite rows_set; lia.
Qed.

(** The batches together are one limit. *)
Lemma batches_run f : forall total w, (length (rows_of (w_db w)) < f)%nat ->
  exists k err w', batches f p total w = (Ok ((total + k)%nat, err), w') /\
    snd (delete_limit p k (rows_of (w_db w))) = k /\
    w_db w' = set_rows (fst (delete_limit p k (rows_of (w_db w)))) (w_db w) /\
    (err = None -> fst (delete_limit p k (rows_of (w_db w))) = delete_where p (rows_of (w_db w)) /\
                   k = count_where p (rows_of (w_db w))) /\
    (calm w -> err = None).
Proof.
  induction f as [|f IH]; intros total w Hf; [lia|]. simpl. unfold bind, try_.
  destruct (DeleteLimit_run w) as (w1 & D1 & C1 & [[-> Hc] | ->]).
  { exists 0%nat, (Some EInfra), w1. rewrite Nat.add_0_r, delete_limit_0. simpl.
    split; [done|]. split; [done|]. split; [by rewrite D1, set_rows_of|]. by split. }
  unfold get_rows. pose proof (delete_limit_facts p (rows_of (w_db w)) purgeBatchSize) as Hd.
  destruct (delete_limit p purgeBatchSize _) as [l k] eqn:Hl. destruct Hd as (Hk & Hlen & Hall). cbn [fst snd].
  destruct (Nat.ltb_spec k purgeBatchSize) as [Hlt|Hge].
  - destruct (Hall Hlt) as [-> ->]. eexists _, None, _. split; [reflexivity|].
    assert (delete_limit p (count_where p (rows_of (w_db w))) (rows_of (w_db w)) =
      (delete_where p (rows_of (w_db w)), count_where p (rows_of (w_db w)))) as -> by apply delete_limit_all.
    done.
  - assert (k = purgeBatchSize) as -> by lia.
    destruct (IH (total + purgeBatchSize)%nat (set_db (set_rows l (w_db w)) w1)) as (k & err & w' & Hr & Hs & Hd & He & Hc).
    { simpl. rewrite rows_set. unfold purgeBatchSize in *. lia. }
    simpl in *. rewrite rows_set in *. exists (purgeBatchSize + k)%nat, err, w'.
    rewrite Hr, Nat.add_assoc. rewrite (delete_limit_add p k _ _ _ Hl). cbn [fst snd].
    split; [done|]. split; [by rewrite Hs|]. split; [by rewrite Hd, set_set|].
    destruct (delete_limit_part p _ _ _ Hl) as [Hw Hn]. split; [|auto].
    intros Hnone. destruct (He Hnone) as [-> Hk']. by rewrite Hw, Hn, Hk'.
Qed.

End Loop.

(** ** The property *)

Section Claims.
Context {ST : Store} {R : Type} {T : TableOf R} {TL : TableLaws R}.

(** C17: A purge of any table ends: every fuel above the number of rows gives the
    same run.  What its batches removed together is what one [DELETE .. LIMIT] of
    their count would have, from that table only; without an error every row of
    the condition is gone and every other row is where it was; an error means a
    statement failed. *)
Theorem purge_terminates (p : R -> bool) (w : World) :
  exists k err w', batchedDelete p w = (Ok (k, err), w') /\
    (forall fuel, (length (rows_of (w_db w)) < fuel)%nat -> batches fuel p 0 w = batchedDelete p w) /\
    w_db w' = set_rows (fst (delete_limit p k (rows_of (w_db w)))) (w_db w) /\
    snd (delete_limit p k (rows_of (w_db w))) = k /\
    (err = None -> rows_of (w_db w') = delete_where p (rows_of (w_db w)) /\ k = count_where p (rows_of (w_db w))) /\
    (calm w -> err = None).
Proof.
  destruct (batches_run p (S (length (get_rows (R := R) w))) 0 w) as (k & err & w' & Hr & Hs & Hd & He & Hc).
  { unfold get_rows. lia. }
  exists k, err, w'. split; [exact Hr|]. split; [intros fuel Hf; apply batches_fuel; unfold get_rows; lia|].
  split; [done|]. split; [done|]. split; [|done]. intros Hn. rewrite Hd, rows_set. by apply He.
Qed.

End Claims.

(** ** Witness: the used refresh token goes *)

Import Choices.

Lemma purge_terminates_witness :
  exists w', batchedDelete RefreshToken.Revoked Demo.start = (Ok (1%nat, None), w') /\
    refresh_tokens (w_db w') = [Demo.alice_token].
Proof.
  destruct (purge_terminates RefreshToken.Revoked Demo.start) as (k & err & w' & H & _ & _ & _ & He & Hc).
  rewrite (Hc eq_refl) in H, He. destruct (He eq_refl) as [Hrows ->]. exists w'. split; [exact H|exact Hrows].
Defined.
