(* ===== verification/HttpSpec.v ===== *)
(** * What the router lets through

    [policy] says what each endpoint demands, everything not listed as public
    demanding a bearer token; [http_guards] that a request reaches its handler only
    with what the policy demands, bound to the tenant and user of the token, and
    that a request stopped before has written nothing and sent nothing. *)

From S2P Require Import Prelude Store Models NetIP World Sql Repos Jwt JwtSpec AuditTrail AuditSpec Common Identity Totp Auth OAuth Passkey Account Admin Http Handlers OAuthHandler PasskeyHandler Webhook Endpoints Routes Demo IdentitySpec Evolve Frames.

Open Scope Z_scope.
Open Scope monad_scope.

(** ** The policy *)

(** What a request must show. *)
Inductive Access := Public | Pending | Bearer | BearerSudo | Granted (permission : string).

Definition public_endpoints : list (string * list string) :=
  [ ("GET", ["healthz"]); ("GET", ["readyz"]); ("POST", ["api"; "v1"; "identity"; "introspect"]);
    ("GET", ["api"; "v1"; "auth"; "google"; "login"]);
    ("GET", ["api"; "v1"; "auth"; "google"; "callback"]) ] ++
  map (fun p => ("POST", ["api"; "v1"; "auth"] ++ p))
    [ ["register"]; ["login"]; ["refresh-token"]; ["forgot-password"]; ["reset-password"]; ["verify-email"];
      ["resend-verification"]; ["change-email"; "confirm"] ].

Definition policy (meth : string) (path : list string) : Access :=
  if bool_decide ((meth, path) ∈ public_endpoints) then Public else
  if bool_decide (path = ["api"; "v1"; "auth"; "mfa"; "login-verify"]) then Pending else
  if bool_decide (path = ["api"; "v1"; "auth"; "mfa"; "totp"; "recovery-codes"; "regenerate"]) then BearerSudo else
  match path with
  | _ :: _ :: _ :: "mfa" :: "passkeys" :: _ :: _ => BearerSudo
  | _ :: _ :: "admin" :: "sessions" :: _ => Granted "sessions:read"
  | _ :: _ :: "admin" :: "audit-log" :: _ => Granted "audit:export"
  | _ :: _ :: "admin" :: "webhooks" :: _ => Granted "webhooks:write"
  | _ :: _ :: "admin" :: _ => Granted (if bool_decide (meth = "GET") then "users:read" else "users:write")
  | _ => Bearer
  end.

Section Guards.
Context {ST : Store} {SL : StoreLaws ST} {E : Ext} {J : JwtLib} {OT : Otp} {G : GoogleLib} {WL : WebAuthnLib} {W : Wire} {L : Local} {NW : Network} (deps : Deps).
Import Middleware Routes.

Abbreviation mgr := (jwt (d_auth deps)).

(** The verified token of this type a text stands for. *)
Definition bearing (ty : string) (w : World) (text : string) (cl : Claims) : Prop :=
  Verify mgr (w_now w) (token_of text) = Ok cl /\ Type_ cl = ty.

(** The handler's context is that of the token [cl]. *)
Record bound (cl : Claims) (c : GinCtx) : Prop := {
  bd_user : g_user c = Some (UserID cl);
  bd_tenant : g_tenant c = Some (tenant_of cl);
  bd_ctx : FromContext (g_ctx c) = tenant_of cl
}.

(** The request carries an access token that stands, and the context is its. *)
Record cleared (w : World) (r : Request) (c : GinCtx) (cl : Claims) : Prop := {
  cl_token : exists text, bearer r = inr text /\ bearing TokenTypeAccess w text cl;
  cl_stands : standing cl w;
  cl_bound : bound cl c;
  cl_perms : g_perms c = Some (default [] (Permissions cl))
}.

Definition sudo_shown (w : World) (r : Request) (cl : Claims) : Prop :=
  exists sc, bearing TokenTypeSudo w (GetHeader SudoHeader r) sc /\ UserID sc = UserID cl /\
    (strict mgr = true -> TenantID sc = tenant_of cl).

Definition shown (w : World) (a : Access) (r : Request) (c : GinCtx) : Prop :=
  match a with
  | Public => True
  | Pending => exists text cl, bearer r = inr text /\ bearing TokenTypeMFAPending w text cl /\ bound cl c
  | Bearer => exists cl, cleared w r c cl
  | BearerSudo => exists cl, cleared w r c cl /\ sudo_shown w r cl
  | Granted p => exists cl, cleared w r c cl /\ holds_grant cl (w_db w) p
  end.

(** Answered without reaching the handler. *)
Definition refused (w : World) (res : Res Response) (w' : World) : Prop :=
  quiet_step w w' /\ exists resp, res = Ok resp /\ data resp = DNone /\ code resp ∈ [204; 401; 403; 404; 429; 503].

(** ** Chains of middlewares *)

(** The chain refuses, or hands on a context in relation [Q]. *)
Definition guarded (ms : list Middleware) (Q : World -> GinCtx -> GinCtx -> Prop) : Prop :=
  forall h c w res w', chain ms h c w = (res, w') ->
    refused w res w' \/ exists c' w1, quiet_step w w1 /\ Q w c c' /\ h c' w1 = (res, w').

Lemma refused_Respond c n msg w : n ∈ [204; 401; 403; 404; 429; 503] ->
  refused w (fst (Respond c n msg DNone w)) w.
Proof. intros Hn. split; [done|]. by eexists. Qed.

Lemma respond_refused c n msg w w0 res w' : quiet_step w0 w -> Respond c n msg DNone w = (res, w') ->
  n ∈ [204; 401; 403; 404; 429; 503] -> refused w0 res w'.
Proof. intros Hq [= <- <-] Hn. split; [done|]. by eexists. Qed.

(** The answer [H] is a refusal. *)
Ltac refuse H := left; eapply respond_refused; [try done; reflexivity|exact H|set_solver].

Lemma refused_quiet w w1 res w' : quiet_step w w1 -> refused w1 res w' -> refused w res w'.
Proof. intros Hq [Hr H]. split; [by etransitivity|done]. Qed.

Lemma guarded_nil : guarded [] (fun _ c c' => c' = c).
Proof. intros h c w res w' H. right. by exists c, w. Qed.

Lemma guarded_app ms1 ms2 Q1 Q2 : guarded ms1 Q1 -> guarded ms2 Q2 ->
  guarded (ms1 ++ ms2) (fun w c c' => exists c1 w1, quiet_step w w1 /\ Q1 w c c1 /\ Q2 w1 c1 c').
Proof.
  intros H1 H2 h c w res w' H. unfold chain in H. rewrite foldr_app in H.
  apply H1 in H as [H|(c1 & w1 & Hq & HQ & H)]; [by left|].
  apply H2 in H as [H|(c2 & w2 & Hq2 & HQ2 & H)]; [left; by eapply refused_quiet|].
  right. exists c2, w2. split; [by etransitivity|]. split; [by exists c1, w1|done].
Qed.

Lemma guarded_mono ms (Q Q' : World -> GinCtx -> GinCtx -> Prop) : guarded ms Q ->
  (forall w c c', Q w c c' -> Q' w c c') -> guarded ms Q'.
Proof. intros H HQ h c w res w' Hr. apply H in Hr as [?|(c' & w1 & ? & ? & ?)]; [by left|right]. exists c', w1. auto. Qed.

(** A middleware that hands its context on. *)
Abbreviation plain ms := (guarded ms (fun _ c c' => c' = c)).

Lemma plain_app ms1 ms2 : plain ms1 -> plain ms2 -> plain (ms1 ++ ms2).
Proof.
  intros H1 H2. eapply guarded_mono; [by apply guarded_app|]. by intros w c c' (c1 & w1 & _ & -> & ->).
Qed.

Lemma quiet_run {A} (m : M A) w r w' : holds quiet_step m -> m w = (r, w') -> quiet_step w w'.
Proof. apply holds_run. Qed.

Lemma kv_run {A} (f : bool -> Z -> kv -> A * kv) w :
  exists a w1, Calls.kv_call f w = (Ok a, w1) /\ quiet_step w w1.
Proof.
  pose proof (quiet_kv f w) as Hq. destruct (Calls.kv_call f w) as [[a|e] w1] eqn:H; [by eauto|].
  revert H. unfold Calls.kv_call, bind, fault. destruct (w_faults w); simpl; by destruct (f _ _ _).
Qed.

Lemma plain_limited : plain [limited deps].
Proof.
  intros h c w res w' H.
  assert (exists n w1, (if shared (d_rate deps)
    then Calls.store_IncrBy ("rate:ip:" +:+ Net.CanonicalIP (r_client_ip (g_req c))) 1 (window (d_rate deps))
    else ret 0) w = (Ok n, w1) /\ quiet_step w w1) as (n & w1 & Hn & Hq).
  { destruct (shared _); [apply kv_run|by exists 0, w]. }
  unfold chain, limited, RateLimit in H. simpl in H. unfold bind at 1 in H. rewrite Hn in H.
  destruct (0 <? n); [destruct (_ <? _)|unfold bind, now in H; destruct (negb _)];
    [refuse H|right; by exists c, w1
    |refuse H|right; by exists c, w1].
Qed.

Lemma plain_gate : plain (totp_gate deps).
Proof.
  unfold totp_gate. destruct (d_totp_free deps) as [[|n]|]; [| |apply guarded_nil];
    intros h c w res w' H; simpl in H.
  - refuse H.
  - right. by exists c, w.
Qed.

Lemma quiet_Check ctx cl : holds quiet_step (Authority.Check ctx cl).
Proof.
  unfold Authority.Check, Authority.snapshot, Authority.required, RBACRepository.GetUserPermissions,
    Calls.store_Revoked. frame_tac.
Qed.

Lemma tenant_bound cl ctx : FromContext (WithTenant (tenant_of cl) ctx) = tenant_of cl.
Proof. unfold FromContext, tenant_of, DefaultTenantID. simpl. by repeat case_bool_decide || case_decide. Qed.

Lemma guarded_auth : guarded [authMW deps] (fun w c c' => exists cl, cleared w (g_req c) c' cl /\ g_req c' = g_req c).
Proof.
  intros h c w res w' H. unfold chain, authMW, AuthMiddleware in H. simpl in H.
  destruct (bearer (g_req c)) as [msg|text] eqn:Hb; [refuse H|].
  unfold bind at 1, now at 1 in H.
  destruct (Verify _ _ _) as [cl|e] eqn:Hv; [|refuse H].
  destruct (negb _) eqn:Ht in H; [refuse H|]. bool_prop.
  unfold bind at 1, check_state in H. simpl in H. unfold bind at 1, try_ in H.
  destruct (Authority.Check _ cl w) as [r w1] eqn:Hc in H.
  pose proof (quiet_run _ _ _ _ (quiet_Check _ _) Hc) as Hq.
  destruct r as [[]|e]; simpl in H.
  - right. eexists _, w1. split; [done|]. split; [|exact H]. exists cl. split; [|done].
    split; [by exists text|by eapply Check_stands|split; [done|done|apply tenant_bound]|done].
  - destruct (decide (e = ErrInactive)); refuse H.
Qed.

Lemma guarded_pending : guarded [MFAPendingMiddleware mgr] (fun w c c' => shown w Pending (g_req c) c').
Proof.
  intros h c w res w' H. unfold chain, MFAPendingMiddleware in H. simpl in H.
  destruct (bearer (g_req c)) as [msg|text] eqn:Hb; [refuse H|].
  unfold bind at 1, now at 1 in H.
  destruct (Verify _ _ _) as [cl|e] eqn:Hv; [|refuse H].
  destruct (negb _) eqn:Ht in H; [refuse H|]. bool_prop.
  right. eexists _, w. split; [done|]. split; [|exact H]. exists text, cl.
  split; [done|]. split; [done|]. split; [done|done|apply tenant_bound].
Qed.

Lemma guarded_sudo : guarded [sudo deps] (fun w c c' => exists e, c' = with_sudo e c /\
  forall cl, g_user c = Some (UserID cl) -> g_tenant c = Some (tenant_of cl) -> sudo_shown w (g_req c) cl).
Proof.
  intros h c w res w' H. unfold chain, sudo, SudoMiddleware in H. simpl in H.
  destruct (bool_decide _) eqn:He in H; [refuse H|].
  unfold bind at 1, now at 1 in H.
  destruct (Verify _ _ _) as [sc|e] eqn:Hv; [|refuse H].
  destruct (negb _ || _) eqn:Ht in H; [refuse H|].
  destruct (negb _) eqn:Hu in H; [refuse H|].
  destruct (ExpiresAt sc) as [exp|]; [|refuse H].
  right. eexists _, w. split; [done|]. split; [|exact H]. eexists. split; [done|]. intros cl Hcu Hct.
  exists sc. apply orb_false_iff in Ht as [Ht Hs]. bool_prop. rewrite Hcu in Hu. rewrite Hct in Hs.
  split; [done|]. split; [congruence|]. intros Hstrict. rewrite Hstrict in Hs. simpl in Hs. by bool_prop.
Qed.

Lemma guarded_permission p : guarded [RequirePermission p] (fun _ c c' => c' = c /\ p ∈ default [] (g_perms c)).
Proof.
  intros h c w res w' H. unfold chain, RequirePermission in H. simpl in H.
  destruct (g_user c) as [uid|]; [|refuse H].
  destruct (uid =? 0); [refuse H|].
  case_bool_decide; [|refuse H].
  right. by exists c, w.
Qed.

(** ** The table *)

(** A route's middlewares ask for what the policy says. *)
Definition routed (rt : Route) : Prop :=
  guarded (rt_through rt) (fun w c c' => shown w (policy (rt_method rt) (rt_path rt)) (g_req c) c').

Lemma routed_authed meth path through h : plain through -> policy meth (auth_path path) = Bearer ->
  routed (authed deps meth path through h).
Proof.
  intros Hp Hpol. unfold routed. change (policy (rt_method _) (rt_path _)) with (policy meth (auth_path path)). rewrite Hpol.
  eapply guarded_mono; [exact (guarded_app [authMW deps] through _ _ guarded_auth Hp)|].
  intros w c c' (c1 & w1 & _ & (cl & Hc & _) & ->). by exists cl.
Qed.

Lemma routed_admin meth path p h : policy meth (admin_path path) = Granted p ->
  routed (admin deps meth path p h).
Proof.
  intros Hpol. unfold routed. change (policy (rt_method _) (rt_path _)) with (policy meth (admin_path path)). rewrite Hpol.
  eapply guarded_mono.
  - apply (guarded_app [authMW deps; limited deps] [RequirePermission p]).
    + apply (guarded_app [authMW deps] [limited deps]); [apply guarded_auth|apply plain_limited].
    + apply guarded_permission.
  - intros w c c' (c1 & w1 & _ & (c2 & w2 & _ & (cl & Hc & _) & ->) & -> & Hp). exists cl. split; [done|].
    rewrite (cl_perms _ _ _ _ Hc) in Hp. simpl in Hp.
    apply (st_grants _ _ _ (st_db _ _ (cl_stands _ _ _ _ Hc))). by apply list_elem_of_In.
Qed.

Lemma routed_sudo meth path h : policy meth (auth_path path) = BearerSudo ->
  routed (authed deps meth path [limited deps; sudo deps] h).
Proof.
  intros Hpol. unfold routed. change (policy (rt_method _) (rt_path _)) with (policy meth (auth_path path)). rewrite Hpol.
  eapply guarded_mono.
  - apply (guarded_app [authMW deps; limited deps] [sudo deps]).
    + apply (guarded_app [authMW deps] [limited deps]); [apply guarded_auth|apply plain_limited].
    + apply guarded_sudo.
  - intros w c c' (c1 & w1 & Hq & (c2 & w2 & Hq2 & (cl & Hc & Hr) & ->) & (e & -> & Hs)).
    exists cl. destruct Hc as [Ht Hst [B1 B2 B3] Hp]. split; [constructor; [exact Ht|exact Hst|by constructor|exact Hp]|].
    destruct (Hs cl B1 B2) as (sc & [Hv Hty] & Hu). exists sc. rewrite Hr in Hv.
    destruct Hq as (_ & _ & _ & Hn). rewrite Hn in Hv. done.
Qed.

Lemma routed_pending through h :
  plain through ->
  routed (mkRoute "POST" (auth_path ["mfa"; "login-verify"]) (MFAPendingMiddleware mgr :: through) h).
Proof.
  intros Hp. unfold routed. change (policy (rt_method _) (rt_path _)) with Pending. eapply guarded_mono.
  - exact (guarded_app [MFAPendingMiddleware mgr] through _ _ guarded_pending Hp).
  - by intros w c c' (c1 & w1 & _ & Hs & ->).
Qed.

Lemma routed_public meth path through h : plain through -> policy meth path = Public ->
  routed (mkRoute meth path through h).
Proof.
  intros Hp Hpol. unfold routed. change (policy (rt_method _) (rt_path _)) with (policy meth path). rewrite Hpol.
  eapply guarded_mono; [exact Hp|done].
Qed.

Lemma plain_limited_gate : plain (limited deps :: totp_gate deps).
Proof. apply (plain_app [limited deps]); [apply plain_limited|apply plain_gate]. Qed.

Ltac routes tac := repeat first [apply Forall_nil_2 | apply Forall_cons_2; [tac|]].

Lemma all_routed : Forall routed (Register_ deps).
Proof.
  unfold Register_. rewrite !Forall_app. split_and!.
  - unfold operational. routes ltac:(apply routed_public; [apply guarded_nil|vm_reflexivity]).
  - unfold identity_routes. routes ltac:(apply routed_public; [apply guarded_nil|vm_reflexivity]).
  - unfold public_routes, public. routes ltac:(apply routed_public; [apply plain_limited|vm_reflexivity]).
  - unfold google_routes. destruct (google deps); [|done].
    routes ltac:(apply routed_public; [apply plain_limited|vm_reflexivity]).
  - unfold authed_routes. routes ltac:(apply routed_authed;
      [first [exact guarded_nil | exact plain_limited]|vm_reflexivity]).
  - unfold google_authed_routes. destruct (google deps); [|done].
    routes ltac:(apply routed_authed; [exact plain_limited|vm_reflexivity]).
  - unfold mfa_pending_routes. routes ltac:(apply routed_pending, plain_limited_gate).
  - unfold mfa_routes.
    repeat (apply Forall_cons_2; [solve [apply routed_authed;
      [first [exact plain_limited_gate | exact plain_limited]|vm_reflexivity]]|]).
    routes ltac:(apply routed_sudo; vm_reflexivity).
  - unfold passkey_routes. destruct (passkeys deps); [|done].
    routes ltac:(first [apply routed_authed; [first [exact plain_limited | exact guarded_nil]|vm_reflexivity]
                       | apply routed_sudo; vm_reflexivity]).
  - unfold admin_routes. routes ltac:(apply routed_admin; vm_reflexivity).
Qed.

(** ** Requests *)

(** The request a handler sees: that of the connection, its body capped. *)
Definition carries (r : Request) (c : GinCtx) : Prop := r_headers (g_req c) = r_headers r.

Lemma shown_same w w1 a r r1 c : quiet_step w w1 -> w_kv w1 = w_kv w -> r_headers r1 = r_headers r ->
  shown w1 a r1 c -> shown w a r c.
Proof.
  intros (D & _ & _ & N) K Hr.
  assert (bearer r1 = bearer r) as Hb by (unfold bearer, GetHeader; by rewrite Hr).
  assert (GetHeader SudoHeader r1 = GetHeader SudoHeader r) as Hg by (unfold GetHeader; by rewrite Hr).
  assert (forall ty x cl, bearing ty w1 x cl -> bearing ty w x cl) as Hv by (unfold bearing; by rewrite N).
  assert (forall cl, cleared w1 r1 c cl -> cleared w r c cl) as Hc.
  { intros cl [(x & Hx & Ht) [Sn Sl Sd] Hbd Hp]. rewrite Hb in Hx. rewrite N, K in Sl. rewrite N, D in Sd.
    split; [by eauto|by split|done|done]. }
  destruct a; simpl; [done| | | |].
  - intros (x & cl & Hx & Ht & Hbd). exists x, cl. rewrite <- Hb. split; [done|]. split; [by apply Hv|done].
  - intros (cl & H). exists cl. by apply Hc.
  - intros (cl & H & sc & Ht & Hu). rewrite Hg in Ht. exists cl. split; [by apply Hc|]. exists sc.
    split; [by apply Hv|done].
  - intros (cl & H & Hgr). rewrite D in Hgr. exists cl. split; [by apply Hc|done].
Qed.

Lemma cors_inv origins next c w res w' : CORS origins next c w = (res, w') ->
  refused w res w' \/ exists c', g_req c' = g_req c /\ next c' w = (res, w').
Proof.
  unfold CORS. cbv zeta.
  destruct (bool_decide _); [right; by exists c|]. destruct (negb _); [right; by exists c|].
  destruct (_ && _); [intros H; refuse H|]. intros H.
  right. eexists. split; [|exact H]. done.
Qed.

Lemma chain_cons m ms h : chain (m :: ms) h = m (chain ms h).
Proof. done. Qed.

Lemma chain_app ms1 ms2 h : chain (ms1 ++ ms2) h = chain ms1 (chain ms2 h).
Proof. apply foldr_app. Qed.

(** The middlewares after CORS. *)
Lemma inner_inv h r c w res w' : carries r c ->
  chain [requestLogger; SecurityHeaders (d_hsts deps); MaxBytes (d_max_body deps)] h c w = (res, w') ->
  exists c w1, quiet_step w w1 /\ w_kv w1 = w_kv w /\ carries r c /\ h c w1 = (res, w').
Proof.
  intros Hc. rewrite chain_cons. unfold requestLogger, NewUUID, bind. rewrite chain_cons. unfold SecurityHeaders.
  rewrite chain_cons. unfold MaxBytes. cbv zeta. intros H. eexists _, _. split; [|split; [|split; [|exact H]]]; [done|done|].
  unfold carries. by repeat case_match.
Qed.

Lemma outer_inv h r w res w' : chain (global deps) h (start r) w = (res, w') ->
  refused w res w' \/ exists c w1, quiet_step w w1 /\ w_kv w1 = w_kv w /\ carries r c /\ h c w1 = (res, w').
Proof.
  unfold global. rewrite chain_cons, chain_app. unfold TenantMiddleware.
  set (c := bind_tenant _ _). assert (carries r c) as Hc by done. clearbody c.
  destruct (d_cors deps) as [|o origins]; intros H; [right; by eapply inner_inv|].
  apply cors_inv in H as [H|(c' & Hc' & H)]; [by left|]. right. eapply inner_inv; [|exact H].
  unfold carries. by rewrite Hc'.
Qed.

Lemma find_route_In rs meth path rt p : find_route rs meth path = Some (rt, p) -> In rt rs.
Proof.
  induction rs as [|x rs IH]; simpl; [done|]. repeat case_match; intros ?; simplify_eq; auto.
Qed.

(** C12: Whatever the request and whatever fails, it is either answered with a
    refusal, nothing written to the database and nothing sent (the limiter of a route
    counts in the store), or handed to the handler of the
    route it matches with what the policy demands of it: on every route but the
    listed public ones a bearer token that verifies and stands, the handler's
    context bound to the token's user and tenant; on the administration routes the
    permission of the route, granted to that user by the database; for new recovery codes and the
    removal of a passkey a sudo token of the same user as well; on the second step of a login a token of the
    pending type. *)
Theorem http_guards (r : Request) (w : World) :
  let (res, w') := serve_http deps r w in
  refused w res w' \/
  exists rt param c w1, find_route (Register_ deps) (r_method r) (r_path r) = Some (rt, param) /\
    quiet_step w w1 /\ shown w (policy (rt_method rt) (rt_path rt)) r c /\ rt_handler rt c w1 = (res, w').
Proof.
  destruct (serve_http deps r w) as [res w'] eqn:H.
  unfold serve_http in H. apply outer_inv in H as [H|(c & w1 & Hq & K & Hc & H)]; [by left|].
  unfold route_handler in H. destruct (find_route _ _ _) as [[rt param]|] eqn:Hf.
  2: { left. eapply refused_quiet; [exact Hq|]. eapply respond_refused; [|exact H|set_solver]. done. }
  pose proof (find_route_In _ _ _ _ _ Hf) as Hin.
  pose proof (proj1 (List.Forall_forall _ _) all_routed rt Hin) as Hr.
  apply Hr in H as [H|(c' & w2 & Hq2 & Hs & H)]; [left; by eapply refused_quiet|].
  right. exists rt, param, c', w2. split; [done|]. split; [by etransitivity|]. split; [|done].
  eapply shown_same; [exact Hq|exact K| |exact Hs]. exact Hc.
Qed.

End Guards.

(** ** Witnesses *)

Import Choices.

Module HttpDemo.

(** An access token of alice's session. *)
Definition access : Token :=
  match fst (IssueAccessV1 Toy.manager 1 "user" "alice@finn.io" (15 * minute) 0 0 "s1" "default" [] Demo.start) with
  | Ok t => t | Error _ => Text "" end.

#[export] Instance wire : Wire := {|
  token_of s := if bool_decide (s = "alice-access") then access else Text s;
  valid_email s := str_exists (fun a => Ascii.eqb a "@"%char) s;
  bind_message _ := "invalid request body";
  bucket_allow _ _ := true
|}.

Definition deps : Deps :=
  mkDeps Demo.service false (Middleware.mkRateLimiter 10 second true) (Some 4%nat) 65536 0 ["https://app.finn.io"] (Some demo_google)
    (mkPasskeyConfig "Finn" "finn.io" ["https://app.finn.io"] "none")
    (Boot.KeyMaterial.mkServiceKeys "s1" "service-key" "" "" 0).

Definition request (meth : string) (path : list string) (headers : list (string * string)) (body : option Obj) : Request :=
  mkRequest meth path headers [] [] "localhost:8080" "10.0.0.1" "10.0.0.1:4711" false (mkBody 100 body None).

Definition me : Request :=
  request "GET" ["api"; "v1"; "auth"; "me"] [("Authorization", "Bearer alice-access")] None.

End HttpDemo.

Import HttpDemo.

Lemma http_guards_witness :
  exists (rt : Routes.Route) (c : GinCtx) (w1 : World), shown deps Demo.start Bearer me c /\
    Routes.rt_handler rt c w1 = Routes.serve_http deps me Demo.start.
Proof.
  pose proof (http_guards deps me Demo.start) as H.
  destruct (Routes.serve_http deps me Demo.start) as [res w'] eqn:Hr.
  assert (code <$> (match res with Ok x => Some x | Error _ => None end) = Some 200) as Hc.
  { change res with (fst (res, w')). rewrite <- Hr. vm_reflexivity. }
  destruct H as [(_ & resp & -> & _ & Hin)|(rt & p & c & w1 & Hf & _ & Hs & Hh)].
  - exfalso. simpl in Hc. injection Hc as Hc. rewrite Hc in Hin. apply list_elem_of_In in Hin. simpl in Hin. lia.
  - assert (Some (policy (Routes.rt_method rt) (Routes.rt_path rt)) = Some Bearer) as [= Hp].
    { change (((fun x => policy (Routes.rt_method (fst x)) (Routes.rt_path (fst x))) <$> Some (rt, p)) = Some Bearer).
      rewrite <- Hf. vm_reflexivity. }
    rewrite Hp in Hs. exists rt, c, w1. split; [exact Hs|exact Hh].
Defined.
