(* ===== verification/OAuthSpec.v ===== *)
(** * What the Google sign-in promises

    A callback that signs somebody in has spent a staged state, holds an identity
    token Google issued for this client and this attempt with a verified address,
    and signs in the user linked to that identity, the user who had verified that
    address, or a new one; unlinking leaves a way to sign in. *)

From S2P Require Import Prelude Store Models World Json JsonSpec Sql Repos Jwt AuditTrail Common Identity Totp Auth OAuth Account Admin Demo AuditSpec IdentitySpec Evolve JwtSpec Lifetime Frames SignInSpec.

Open Scope Z_scope.
Open Scope monad_scope.

(** ** The staged text *)

Lemma unmarshal_marshal c : OAuth.unmarshal (OAuth.marshal c) = Some c.
Proof.
  unfold OAuth.unmarshal, OAuth.marshal, Json.object. rewrite parse_text by done. by destruct c.
Qed.

Section Runs.
Context {ST : Store} {SL : StoreLaws ST} {E : Ext} {J : JwtLib} {OT : Otp} {G : GoogleLib} (o : OAuthService).
Import OAuth.

(** ** The state is spent *)

Definition spent (state : string) : Z -> World -> Prop := gone (oauthChallengeKey state).

Lemma ConsumeState_Ok state w c w' :
  ConsumeState state w = (Ok c, w') ->
  state <> "" /\ staged (kv_live (w_now w) (w_kv w) (oauthChallengeKey state)) = Some c /\
  spent state (w_now w) w' /\ w_db w' = w_db w /\ w_now w' = w_now w.
Proof.
  unfold ConsumeState. case_bool_decide as Hs; [done|]. intros H.
  apply bind_Ok in H as ([v|] & w1 & Hv & H); [|done]. apply take_Ok in Hv as (-> & Hg & D & N).
  destruct (staged (Some v)) as [c'|] eqn:Hc; [|done]. injection H as <- <-. by repeat split.
Qed.

(** ** The identity is proven *)

(** At time [t] Google exchanged the code, under the staged verifier, for an
    identity token valid for this client, which carries the staged nonce and a
    verified address. *)
Record proven (t : Z) (cfg : oauth2Config) (ch : oauthChallenge) (code : string) (claims : GoogleIDTokenClaims) : Prop := {
  pv_token : exists token raw p, Exchange cfg t code [("code_verifier", Verifier ch)] = Some token /\
    id_token_of token = Some raw /\ idtoken_Validate t raw (clientID_ o) = Some p /\ claims = google_claims p;
  pv_nonce : Nonce claims = ch_Nonce ch /\ Nonce claims <> "";
  pv_email : EmailVerified claims = true
}.

Lemma identify_Ok cfg ch code w claims w' :
  identify o cfg ch code w = (Ok claims, w') -> same_state w w' /\ proven (w_now w) cfg ch code claims.
Proof.
  intros H. apply bind_Ok in H as (token & w1 & Hx & H).
  apply bind_Ok in Hx as (b & w2 & Hb & Hx). apply fault_same in Hb.
  apply bind_Ok in Hx as (t & w3 & Hn & Hx). apply now_Ok in Hn as [-> S3].
  destruct b; [done|]. destruct (Exchange _ _ _ _) as [tok|] eqn:He; [|done]. injection Hx as <- <-.
  destruct (id_token_of tok) as [raw|] eqn:Hraw; [|done].
  apply bind_Ok in H as (cl & w4 & Hv & H).
  apply bind_Ok in Hv as (b & w5 & Hb5 & Hv). apply fault_same in Hb5.
  apply bind_Ok in Hv as (t & w6 & Hn & Hv). apply now_Ok in Hn as [-> S6].
  destruct b; [done|]. destruct (idtoken_Validate _ _ _) as [p|] eqn:Hp; [|done]. injection Hv as <- <-.
  destruct (_ || _) eqn:Hnonce in H; [done|]. destruct (negb (EmailVerified _)) eqn:Hem in H; [done|].
  injection H as <- <-. bool_prop.
  pose proof (same_trans _ _ _ Hb S3) as S03. pose proof (same_trans _ _ _ S03 Hb5) as S05.
  split; [by eapply same_trans|].
  assert (w_now w2 = w_now w /\ w_now w5 = w_now w) as [N2 N5]
    by (unfold same_state in *; intuition congruence).
  rewrite N2 in He. rewrite N5 in Hp. split; [by exists tok, raw, p|done|done].
Qed.

(** ** Who signs in *)

Definition linked_identity (ctx : Ctx) (claims : GoogleIDTokenClaims) (d : DB) : option OAuthIdentity.row :=
  first_where (ownedRows ctx OAuthIdentity.UserID
    (fun r => bool_decide (OAuthIdentity.Provider r = oauthProviderGoogle) &&
              bool_decide (OAuthIdentity.ProviderUserID r = Sub claims)) d) (oauth_identities d).

Definition is_linked (claims : GoogleIDTokenClaims) (uid : Z) (d : DB) : Prop :=
  exists i, In i (oauth_identities d) /\ OAuthIdentity.UserID i = uid /\
    OAuthIdentity.Provider i = oauthProviderGoogle /\ OAuthIdentity.ProviderUserID i = Sub claims.

(** The row of a provisioned user. *)
Definition provisioned (ctx : Ctx) (claims : GoogleIDTokenClaims) (u : User.row) : Prop :=
  User.TenantID u = FromContext ctx /\ User.Email u = Policy.normalize (g_Email claims) /\ User.Password u = "" /\
  User.Role u = "user" /\ User.IsEmailVerified u = true /\ User.AdminSuspended u = false.

(** The user a proven identity resolves to, and the database after: the stored
    link wins; failing that a user who has verified the address is linked;
    failing that a user without a password is created and linked. *)
Inductive resolved (ctx : Ctx) (claims : GoogleIDTokenClaims) (d d' : DB) (u : User.row) : Prop :=
  | by_link i : linked_identity ctx claims d = Some i ->
      first_where (user_scope ctx (OAuthIdentity.UserID i) d) (users d) = Some u -> d' = d ->
      resolved ctx claims d d' u
  | by_address : linked_identity ctx claims d = None -> login_user ctx (g_Email claims) d = Some u ->
      User.IsEmailVerified u = true -> users d' = users d -> is_linked claims (User.ID u) d' ->
      resolved ctx claims d d' u
  | by_creation : linked_identity ctx claims d = None -> login_user ctx (g_Email claims) d = None ->
      provisioned ctx claims u -> users d' = users d ++ [u] -> is_linked claims (User.ID u) d' ->
      resolved ctx claims d d' u.

(** Only the tenant of the context matters. *)
Lemma resolved_async ctx claims d d' u : resolved (WithAsyncDelivery ctx) claims d d' u -> resolved ctx claims d d' u.
Proof. intros []; [by eapply by_link|by apply by_address|by apply by_creation]. Qed.

Lemma link_Ok ctx u claims ip w w' :
  linkIdentity o ctx u claims ip w = (Ok tt, w') ->
  users (w_db w') = users (w_db w) /\ w_now w' = w_now w /\
  ((exists i, linked_identity ctx claims (w_db w) = Some i /\ w_db w' = w_db w) \/ is_linked claims (User.ID u) (w_db w')).
Proof.
  intros H. apply bind_Ok in H as (x & w1 & Hx & H). apply optional_First_Ok in Hx as [(D1 & _ & _ & N1 & _) Hx].
  destruct x as [i|].
  { injection H as <-. rewrite D1, N1. split; [done|]. split; [done|]. left. by exists i. }
  apply bind_Ok in H as (r & w2 & Hc & H). apply bind_Ok in Hc as ([] & w3 & Ho & Hc).
  apply bind_Ok in Ho as (n & w4 & Hn & Ho). apply Count_Ok in Hn as [(D4 & _ & _ & N4 & _) _].
  destruct (n =? 1); [|done]. injection Ho as <-.
  apply Create_Ok in Hc as (-> & _ & D2 & _ & _ & N2 & _).
  apply bind_Ok in H as ([] & w5 & Hr & H). pose proof (run_only _ _ _ _ (only_record _ _ _) Hr) as A5.
  apply (holds_run (same_key (oauthChallengeKey ""))) in Hr as (N5 & _); [|apply key_record].
  apply bind_Ok in H as (x & w6 & Hx6 & H). injection H as <-. apply try_Ok in Hx6.
  pose proof (run_same _ _ _ _ (keeps_send eq _) Hx6) as D6.
  pose proof (holds_run steady_step _ _ _ _ (holds_send _ _) Hx6) as (_ & N6 & _).
  destruct A5. rewrite D6, ao_users, D2, D4, D1. split; [done|]. split; [congruence|]. right.
  eexists. rewrite ao_identities, D2. split; [apply in_or_app; right; by left|done].
Qed.

Lemma createGoogle_Ok ctx claims w u w' :
  createGoogleUser ctx claims (Policy.normalize (g_Email claims)) w = (Ok u, w') ->
  provisioned ctx claims u /\ users (w_db w') = users (w_db w) ++ [u] /\
  oauth_identities (w_db w') = oauth_identities (w_db w) /\ w_now w' = w_now w.
Proof.
  intros H. apply bind_Ok in H as (x & w1 & Hx & H). apply optional_First_Ok in Hx as [(D1 & _ & _ & N1 & _) _].
  apply bind_Ok in H as (name & w2 & Hn & H).
  assert (quiet_step w1 w2) as (D2 & _ & _ & N2).
  { eapply (holds_run quiet_step); [|exact Hn]. unfold Hash.GenerateRandomBytes. frame_tac. }
  apply bind_Ok in H as (t & w3 & Ht & H). apply now_Ok in Ht as [_ (D3 & _ & _ & N3 & _)].
  apply bind_Ok in H as (r & w4 & Hc & H). apply try_Ok in Hc. destruct r as [r|e]; [|done].
  injection H as <- <-. apply bind_Ok in Hc as (tid & w5 & Hs & Hc).
  assert (tid = FromContext ctx /\ w5 = w3) as [-> ->] by (by injection Hs as <- <-).
  apply bind_Ok in Hc as (t' & w6 & Ht & Hc). apply now_Ok in Ht as [_ (D6 & _ & _ & N6 & _)].
  apply Create_Ok in Hc as (-> & _ & D4 & _ & _ & N4 & _). rewrite D4. simpl.
  assert (w_db w6 = w_db w) as -> by congruence. repeat split; congruence.
Qed.

(** A link found after the creation of a user that was not there before is the
    new user's. *)
Lemma linked_after ctx claims d d' u i :
  users d' = users d ++ [u] -> oauth_identities d' = oauth_identities d ->
  linked_identity ctx claims d = None -> linked_identity ctx claims d' = Some i -> is_linked claims (User.ID u) d'.
Proof.
  unfold linked_identity. intros Hu Hi Hn Hs. apply first_where_Some in Hs as [Hin Hp]. rewrite first_where_None in Hn. rewrite Hi in Hin.
  specialize (Hn i Hin). unfold ownedRows in Hn, Hp. apply andb_true_iff in Hp as [Hown Hk]. rewrite Hk in Hn.
  rewrite andb_true_r in Hn. unfold user_in in Hn, Hown. rewrite Hu, existsb_app, Hn in Hown. simpl in Hown.
  rewrite orb_false_r in Hown. bool_prop. exists i. rewrite Hi. by repeat split.
Qed.

Lemma findOrCreate_Ok ctx claims ip w u w' :
  findOrCreateUser o ctx claims (Policy.normalize (g_Email claims)) ip w = (Ok u, w') ->
  resolved ctx claims (w_db w) (w_db w') u /\ w_now w' = w_now w.
Proof.
  intros H. apply bind_Ok in H as (x & w1 & Hx & H). apply optional_First_Ok in Hx as [(D1 & _ & _ & N1 & _) Hx].
  change (linked_identity ctx claims (w_db w) = x) in Hx. destruct x as [i|].
  { apply bind_Ok in H as (y & w2 & Hy & H). apply optional_First_Ok in Hy as [(D2 & _ & _ & N2 & _) Hy].
    destruct y as [v|]; [|done]. injection H as <- <-. rewrite D1 in Hy. split; [|congruence].
    eapply by_link; [exact Hx|exact Hy|congruence]. }
  apply bind_Ok in H as (y & w2 & Hy & H). apply optional_First_Ok in Hy as [(D2 & _ & _ & N2 & _) Hy].
  rewrite D1 in Hy. change (login_user ctx (g_Email claims) (w_db w) = y) in Hy.
  apply bind_Ok in H as (v & w3 & Hv & H). apply bind_Ok in H as ([] & w4 & Hl & H). injection H as <- <-.
  apply link_Ok in Hl as (Hu & N4 & Hl). destruct y as [v'|].
  - destruct (negb (User.IsEmailVerified v')) eqn:He; [done|]. injection Hv as -> ->. bool_prop.
    assert (w_db w3 = w_db w) as D3 by congruence. rewrite D3 in *. split; [|congruence].
    destruct Hl as [(i & Hi & _)|Hl]; [congruence|]. by apply by_address.
  - apply createGoogle_Ok in Hv as (Hp & Hu3 & Hi3 & N3). assert (w_db w2 = w_db w) as D20 by congruence.
    rewrite D20 in *. split; [|congruence]. apply by_creation; [done|done|done|congruence|].
    destruct Hl as [(i & Hi & D4)|Hl]; [|done]. rewrite D4. by eapply linked_after.
Qed.

(** ** Issuing leaves users, links and the state alone *)

Definition same_links (d d' : DB) : Prop := users d' = users d /\ oauth_identities d' = oauth_identities d.

#[export] Instance same_links_preorder : PreOrder same_links.
Proof. split; [by split|]. intros a b c [] []. split; congruence. Qed.

Lemma audit_links d d' : audit_only d d' -> same_links d d'.
Proof. by intros []. Qed.

Lemma links_record wr ctx e : keeps same_links (Writer.Record_ wr ctx e).
Proof. intros w. apply audit_links, only_record. Qed.

Lemma links_newIP s u ip ua : keeps same_links (Auth.maybeNotifyNewIPLogin s u ip ua).
Proof. intros w. apply audit_links, only_newIP. Qed.

Lemma links_access s ctx user sid perms : keeps same_links (Auth.access_token s ctx user sid perms).
Proof. intros w. rewrite <- (proj1 (access_token_same s ctx user sid perms) w). done. Qed.

Lemma links_CheckMFA s ctx u ip ua d : keeps same_links (Auth.checkMFAOrIssueTokensAudited s ctx u ip ua d).
Proof.
  pose proof links_record. pose proof links_newIP. pose proof links_access.
  unfold Auth.checkMFAOrIssueTokensAudited, Auth.issueTokenPair, Auth.session_of, Auth.record,
    SessionRepository.Create, SessionRepository.Touch, updateScoped, RefreshTokenRepository.Create,
    RBACRepository.GetUserPermissions, TOTPRepository.FindByUserID, Issue, Calls.quietly,
    Hash.GenerateOpaqueToken, Hash.GenerateRandomBytes.
  repeat (keeps_step || audit_step).
Qed.

Lemma key_CheckMFA key s ctx u ip ua d :
  (forall uid ip, Auth.knownip_key uid ip <> key) ->
  holds (same_key key) (Auth.checkMFAOrIssueTokensAudited s ctx u ip ua d).
Proof.
  intros Hk. pose proof (key_record key). pose proof (fun ctx r => key_issue key s ctx u ip ua r Hk).
  unfold Auth.checkMFAOrIssueTokensAudited, Auth.record, TOTPRepository.FindByUserID, Issue. frame_tac.
Qed.

Lemma key_findOrCreate key ctx claims email ip : holds (same_key key) (findOrCreateUser o ctx claims email ip).
Proof.
  pose proof (key_record key).
  unfold findOrCreateUser, createGoogleUser, linkIdentity, Hash.GenerateRandomBytes, UserRepository.Create,
    UserRepository.FindByID, UserRepository.FindByEmail, UserRepository.FindByUsername,
    OAuthIdentityRepository.Create, OAuthIdentityRepository.FindByProviderAndProviderUserID. frame_tac.
Qed.

End Runs.

(** ** The properties *)

Section Claims.
Context {ST : Store} {SL : StoreLaws ST} {E : Ext} {J : JwtLib} {OT : Otp} {G : GoogleLib} (o : OAuthService).
Import OAuth.

Lemma callback_inv ctx code state ip ua w res w' :
  handleCallbackAudited o ctx code state ip ua w = (Ok res, w') ->
  exists cfg ch claims user d1,
    client o = Some cfg /\ state <> "" /\
    staged (kv_live (w_now w) (w_kv w) (oauthChallengeKey state)) = Some ch /\
    proven o (w_now w) cfg ch code claims /\
    resolved ctx claims (w_db w) d1 user /\ User.IsActive user = true /\ User.AdminSuspended user = false /\
    same_links d1 (w_db w') /\ mfa_answer (issuer o) ctx user d1 (w_now w) res (w_db w') /\ spent state (w_now w) w'.
Proof.
  intros H. apply bind_Ok in H as (ch & w1 & Hc & H). apply ConsumeState_Ok in Hc as (Hne & Hst & Hsp & D1 & N1).
  destruct (client o) as [cfg|] eqn:Hcl; [|done].
  apply bind_Ok in H as (claims & w2 & Hi & H). apply identify_Ok in Hi as [(D2 & K2 & _ & N2 & _) Hp].
  apply bind_Ok in H as (user & w3 & Hf & H).
  pose proof (holds_run _ _ _ _ _ (key_findOrCreate o (oauthChallengeKey state) ctx claims _ ip) Hf) as (_ & _ & K3).
  apply findOrCreate_Ok in Hf as [Hr N3]. destruct (negb (User.IsActive user)) eqn:Ha; [done|].
  apply operation_run in H as (w4 & w5 & D4 & K4 & N4 & H & D5 & K5).
  pose proof (links_CheckMFA (issuer o) (WithAsyncDelivery ctx) user ip ua "google-oauth" w4) as L5.
  rewrite H in L5. simpl in L5.
  assert (forall uid ip, Auth.knownip_key uid ip <> oauthChallengeKey state) as Hkey by (intros; discriminate).
  pose proof (holds_run _ _ _ _ _ (key_CheckMFA (oauthChallengeKey state) _ _ _ _ _ _ Hkey) H) as (_ & _ & K6).
  assert (User.AdminSuspended user = false) as Hs.
  { unfold Auth.checkMFAOrIssueTokensAudited in H. destruct (_ || _) eqn:E1 in H; [done|]. by bool_prop. }
  apply checkMFA_Ok in H. exists cfg, ch, claims, user, (w_db w3). bool_prop.
  rewrite D2, D1 in Hr. rewrite N1 in Hp. rewrite D4 in *. rewrite N4 in *.
  assert (w_now w3 = w_now w) as N30 by congruence. rewrite N30 in *. rewrite D5.
  do 3 (split; [done|]). split; [done|]. split; [done|]. do 2 (split; [done|]). split; [exact L5|].
  split; [exact H|]. intros t Ht. rewrite K5, K6, K4 by done. rewrite K3, K2 by (rewrite N2, N1; done). by apply Hsp.
Qed.

(** C18: A Google callback that signs somebody in presents a state staged by
    [BeginLogin] and still live, and spends it: the same state is refused ever
    after.  Google exchanged the code, under the staged PKCE verifier, for an
    identity token valid for this client that carries the staged nonce and a
    verified address; and who signs in is the user already linked to that Google
    account, or failing that the user who had verified that address, or failing
    that a new user without a password, the last two now linked; active, not
    suspended, and stopped at an enabled second factor like any other login. *)
Theorem oauth_sound (ctx : Ctx) (code state ip ua : string) (w : World) (res : LoginResult) (w' : World)
    (Hrun : HandleCallback o ctx code state ip ua w = (Ok res, w')) :
  (exists cfg ch claims user d1,
    client o = Some cfg /\
    staged (kv_live (w_now w) (w_kv w) (oauthChallengeKey state)) = Some ch /\
    proven o (w_now w) cfg ch code claims /\
    resolved ctx claims (w_db w) d1 user /\ User.IsActive user = true /\ User.AdminSuspended user = false /\
    same_links d1 (w_db w') /\ mfa_answer (issuer o) ctx user d1 (w_now w) res (w_db w')) /\
  (forall ctx2 code2 ip2 ua2 w2, w_kv w2 = w_kv w' -> w_now w <= w_now w2 ->
     is_Ok (fst (HandleCallback o ctx2 code2 state ip2 ua2 w2)) = false).
Proof.
  apply operation_run in Hrun as (w0 & w1 & D0 & K0 & N0 & H & D1 & K1).
  apply callback_inv in H as (cfg & ch & claims & user & d1 & H1 & _ & H2 & H3 & H4 & H5 & H6 & H7 & H8 & H9).
  apply resolved_async in H4. rewrite D0, K0, N0, <- D1 in *. split; [by exists cfg, ch, claims, user, d1|].
  intros ctx2 code2 ip2 ua2 w2 Hk Hn. destruct (HandleCallback _ _ _ _ _ _ w2) as [[r|e] w3] eqn:Hr; [|done].
  apply operation_run in Hr as (w4 & w5 & _ & K4 & N4 & Hr & _).
  apply callback_inv in Hr as (? & ? & ? & ? & ? & _ & _ & Hst & _).
  rewrite K4, N4, Hk, K1, H9 in Hst by done. done.
Qed.

(** Unlinking a provider that succeeds removes every link of the user to it, and
    never the last way to sign in: the user has a password, or a passkey that is
    not revoked. *)
Theorem unlink_keeps_login (ctx : Ctx) (uid : Z) (provider ip : string) (w w' : World)
    (Hrun : Unlink o ctx uid provider ip w = (Ok tt, w')) :
  (exists user, first_where (user_scope ctx uid (w_db w)) (users (w_db w)) = Some user /\
     (User.Password user <> "" \/
      exists p, In p (passkey_credentials (w_db w')) /\ PasskeyCredential.UserID p = uid /\
        PasskeyCredential.Revoked p = false)) /\
  users (w_db w') = users (w_db w) /\
  (forall i, In i (oauth_identities (w_db w')) <->
     In i (oauth_identities (w_db w)) /\
     ~ (OAuthIdentity.UserID i = uid /\ OAuthIdentity.Provider i = provider)).
Proof.
  apply operation_run in Hrun as (w0 & w1 & D0 & _ & _ & H & -> & _). rewrite <- D0. clear D0.
  apply bind_Ok in H as (x & w2 & Hx & H). apply optional_First_Ok in Hx as [[D2 _] _].
  destruct x as [i|]; [|done].
  apply bind_Ok in H as (y & w3 & Hy & H). apply optional_First_Ok in Hy as [[D3 _] Hy].
  destruct y as [user|]; [|done]. rewrite D2 in Hy.
  apply bind_Ok in H as (pks & w4 & Hp & H). apply try_Ok in Hp.
  assert (holds quiet_step (PasskeyRepository.ListByUser (WithAsyncDelivery ctx) uid false)) as Hq
    by (unfold PasskeyRepository.ListByUser; frame_tac).
  pose proof (holds_run quiet_step _ _ _ _ Hq Hp) as [D4 _].
  assert (w_db w4 = w_db w0) as D40 by congruence.
  cbv zeta in H. destruct (negb (negb _) && _) eqn:Hm in H; [done|].
  apply bind_Ok in H as ([] & w5 & Hd & H).
  apply bind_Ok in Hd as (n & w6 & Hd & H'). injection H' as <-. apply Delete_Ok in Hd as [[D6 _] _].
  apply bind_Ok in H as ([] & w7 & Hr & H). pose proof (run_only _ _ _ _ (only_record _ _ _) Hr) as [].
  apply bind_Ok in H as (z & w8 & Hz & H). injection H as <-. apply try_Ok in Hz.
  pose proof (run_same _ _ _ _ (keeps_send eq _) Hz) as D8.
  rewrite D8, ao_users, ao_identities, ao_passkeys, D6, D40. simpl. split; [|split; [done|]].
  - exists user. split; [done|]. apply andb_false_iff in Hm as [Hm|Hm]; [left; by bool_prop|right].
    destruct pks as [[|p l]|]; [done| |done]. apply bind_Ok in Hp as (rows & w9 & Hf & Hp).
    apply Find_Ok in Hf as [_ ->]. injection Hp as Hp _.
    assert (In p (rows_where (ownedRows (WithAsyncDelivery ctx) PasskeyCredential.UserID
      (fun r => (PasskeyCredential.UserID r =? uid) && negb (PasskeyCredential.Revoked r)) (w_db w3))
      (passkey_credentials (w_db w3)))) as Hin.
    { apply (order_by_In (newest PasskeyCredential.ID)). rewrite Hp. by left. }
    apply List.filter_In in Hin as [Hin Hp2]. unfold ownedRows in Hp2. bool_prop. exists p.
    rewrite D3, D2 in Hin. by split.
  - intros j. unfold delete_where. rewrite List.filter_In. apply first_where_Some in Hy as [Huin Hus].
    assert (user_in (FromContext ctx) uid (w_db w0) = true) as Hown.
    { unfold user_in. apply existsb_exists. exists user. by split. }
    split; intros [Hj Hk]; (split; [done|]).
    + intros [Hu Hp']. unfold ownedRows in Hk. change (FromContext (WithAsyncDelivery ctx)) with (FromContext ctx) in Hk.
      rewrite Hu, Hown, Z.eqb_refl, bool_decide_true in Hk; done.
    + unfold ownedRows. apply negb_true_iff, andb_false_iff. right. apply andb_false_iff.
      destruct (Z.eqb_spec (OAuthIdentity.UserID j) uid); [right|by left].
      apply bool_decide_false. auto.
Qed.

End Claims.

(** ** Witnesses *)

Import Choices.

Module OAuthDemo.

Definition service : OAuthService := mkOAuth Demo.service (Some demo_google) (ClientID demo_google).

(** Carol has begun a login. *)
Definition begun : World := snd (OAuth.BeginLogin service Demo.ctx Demo.start).

Definition state : string :=
  match fst (OAuth.BeginLogin service Demo.ctx Demo.start) with Ok (state, _) => state | Error _ => "" end.

(** Her nonce is the second random text. *)
Definition code : string := "carol:" +:+ rand_hex 2.

(** The callback creates her account. *)
Definition signed_in : World := snd (OAuth.HandleCallback service Demo.ctx code state "10.0.0.3" "curl" begun).

(** Alice, whose address is verified, signs in with Google too. *)
Definition alice_linked : World :=
  snd (OAuth.HandleCallback service Demo.ctx ("alice:" +:+ rand_hex 2) state "10.0.0.1" "curl" begun).

End OAuthDemo.

Lemma oauth_sound_witness :
  exists res u, OAuth.HandleCallback OAuthDemo.service Demo.ctx OAuthDemo.code OAuthDemo.state "10.0.0.3" "curl"
      OAuthDemo.begun = (Ok res, OAuthDemo.signed_in) /\
    In u (users (w_db OAuthDemo.signed_in)) /\ User.Email u = "carol@finn.io" /\
    is_Ok (fst (OAuth.HandleCallback OAuthDemo.service Demo.ctx OAuthDemo.code OAuthDemo.state "10.0.0.3" "curl"
      OAuthDemo.signed_in)) = false.
Proof.
  destruct (ran (OAuth.HandleCallback OAuthDemo.service Demo.ctx OAuthDemo.code OAuthDemo.state "10.0.0.3" "curl")
    OAuthDemo.begun (ltac:(vm_reflexivity))) as (res & w1 & H).
  assert (OAuthDemo.signed_in = w1) as Hw by (unfold OAuthDemo.signed_in; by rewrite H).
  destruct (oauth_sound OAuthDemo.service Demo.ctx OAuthDemo.code OAuthDemo.state "10.0.0.3" "curl" OAuthDemo.begun
    res w1 H) as [_ Hagain].
  assert (exists u, In u (users (w_db OAuthDemo.signed_in)) /\ User.Email u = "carol@finn.io") as (u & Hin & He).
  { assert (existsb (fun u => bool_decide (User.Email u = "carol@finn.io")) (users (w_db OAuthDemo.signed_in)) = true)
      as Hx by vm_reflexivity. apply existsb_exists in Hx as (u & Hin & Hx). exists u. split; [exact Hin|by bool_prop]. }
  exists res, u. rewrite Hw. split; [exact H|]. split; [rewrite <- Hw; exact Hin|]. split; [exact He|].
  assert (w_now OAuthDemo.begun <= w_now w1) as Hn by (rewrite <- Hw; by vm_compute).
  exact (Hagain Demo.ctx OAuthDemo.code "10.0.0.3" "curl" w1 eq_refl Hn).
Defined.

(** Alice has a password, so Google can go. *)
Lemma unlink_keeps_login_witness :
  exists w1, OAuth.Unlink OAuthDemo.service Demo.ctx 1 "google" "10.0.0.1" OAuthDemo.alice_linked = (Ok tt, w1) /\
    (exists i, In i (oauth_identities (w_db OAuthDemo.alice_linked)) /\ OAuthIdentity.UserID i = 1) /\
    forall i, In i (oauth_identities (w_db w1)) -> OAuthIdentity.Provider i = "google" -> OAuthIdentity.UserID i <> 1.
Proof.
  destruct (ran (OAuth.Unlink OAuthDemo.service Demo.ctx 1 "google" "10.0.0.1") OAuthDemo.alice_linked
    (ltac:(vm_reflexivity))) as ([] & w1 & H).
  exists w1. split; [exact H|]. split.
  - assert (existsb (fun i => OAuthIdentity.UserID i =? 1) (oauth_identities (w_db OAuthDemo.alice_linked)) = true)
      as Hx by vm_reflexivity. apply existsb_exists in Hx as (i & Hin & Hx). exists i. split; [exact Hin|by bool_prop].
  - intros i Hin Hp Hu.
    destruct (unlink_keeps_login OAuthDemo.service Demo.ctx 1 "google" "10.0.0.1" OAuthDemo.alice_linked w1 H) as (_ & _ & Hl).
    apply Hl in Hin as [_ Hin].
    exact (Hin (conj Hu Hp)).
Defined.
