(* ===== verification/PasskeySpec.v ===== *)
(** * What the passkey ceremonies promise

    A challenge reads back for its minute and only once; a passkey login spends the
    challenge of its user, was checked against the unrevoked credentials of that
    user, and is refused to a clone, whose credential is revoked for good. *)

From S2P Require Import Prelude Store Models World Json JsonSpec Sql Repos Jwt AuditTrail Common Identity Totp Auth OAuth Passkey Account Admin Demo AuditSpec IdentitySpec Evolve Cleanup JwtSpec Lifetime Frames SignInSpec.

Open Scope Z_scope.
Open Scope monad_scope.

Section Runs.
Context {ST : Store} {SL : StoreLaws ST} {E : Ext} {J : JwtLib} {OT : Otp} {WL : WebAuthnLib} {WLL : WebAuthnLaws WL}.
Context (s : passkeyService).
Import Passkey.

(** ** Staged texts *)

Lemma staged_text {A} (decode : Obj -> option A) o : Json.whole (JMembers o) = true ->
  staged decode (Some (VStr (Json.text (JMembers o)))) = decode o.
Proof. intros H. unfold staged, Json.object. by rewrite parse_text. Qed.

Lemma auth_session_back session : staged session_field (Some (VStr (Json.text (authSession session)))) = Some session.
Proof.
  unfold authSession. rewrite staged_text by (simpl; by rewrite session_whole). unfold session_field, Json.field. simpl.
  apply session_back.
Qed.

Lemma reg_session_back session name :
  staged decode_reg (Some (VStr (Json.text (regSession session name)))) = Some (session, name).
Proof.
  unfold regSession. rewrite staged_text by (simpl; by rewrite session_whole).
  unfold decode_reg, session_field, Json.field. simpl. by rewrite session_back.
Qed.

Lemma takeJSON_Ok {A} key (decode : Obj -> option A) w a w' :
  takeJSON key decode w = (Ok a, w') ->
  staged decode (kv_live (w_now w) (w_kv w) key) = Some a /\ gone key (w_now w) w' /\
  w_db w' = w_db w /\ w_now w' = w_now w.
Proof.
  intros H. apply bind_Ok in H as ([v|] & w1 & Hv & H); [|done]. apply take_Ok in Hv as (-> & Hg & D & N).
  destruct (staged decode (Some v)) as [a'|] eqn:Ha; [|done]. injection H as <- <-. done.
Qed.

(** ** The user of a ceremony *)

(** The unrevoked credentials of a user, as the library sees them. *)
Definition usable (uid : Z) (d : DB) (row : PasskeyCredential.row) : Prop :=
  In row (passkey_credentials d) /\ PasskeyCredential.UserID row = uid /\ PasskeyCredential.Revoked row = false.

Lemma ListByUser_Ok ctx uid w rows w' :
  PasskeyRepository.ListByUser ctx uid false w = (Ok rows, w') ->
  same_state w w' /\ forall row, In row rows -> usable uid (w_db w) row.
Proof.
  intros H. apply bind_Ok in H as (l & w1 & Hf & H). apply Find_Ok in Hf as [Hs ->]. injection H as <- <-.
  split; [done|]. intros row Hin. apply order_by_In in Hin. apply List.filter_In in Hin as [Hin Hp].
  unfold ownedRows in Hp. simpl in Hp. bool_prop. by repeat split.
Qed.

Lemma loadUser_Ok ctx uid w u user w' :
  loadUser ctx uid w = (Ok (u, user), w') ->
  same_state w w' /\ first_where (user_scope ctx uid (w_db w)) (users (w_db w)) = Some u /\
  User.IsActive u = true /\
  exists rows, user = webauthnUser u (map credentialFromRow rows) /\ forall row, In row rows -> usable uid (w_db w) row.
Proof.
  intros H. apply bind_Ok in H as (x & w1 & Hx & H). apply optional_First_Ok in Hx as [S1 Hx].
  destruct x as [v|]; [|done]. destruct (negb (User.IsActive v)) eqn:Ha; [done|].
  apply bind_Ok in H as (rows & w2 & Hl & H). apply ListByUser_Ok in Hl as [S2 Hl]. injection H as <- <- <-.
  rewrite (proj1 S1) in Hl. bool_prop. split; [by eapply same_trans|]. split; [done|]. split; [done|]. by exists rows.
Qed.

Lemma credential_row user rows cred :
  In (c_ID cred) (map c_ID (WebAuthnCredentials (webauthnUser user (map credentialFromRow rows)))) ->
  exists row, In row rows /\ PasskeyCredential.CredentialID row = c_ID cred.
Proof.
  simpl. rewrite map_map. intros (row & Hr & Hin)%in_map_iff. by exists row.
Qed.

Lemma checked_Ok f w cred w' : checked f w = (Ok cred, w') -> w' = w /\ f (w_now w) = Some cred.
Proof.
  intros H. apply bind_Ok in H as (t & w1 & Hn & H). unfold now in Hn. injection Hn as <- <-.
  destruct (f _) as [c|]; [|done]. by injection H as <- <-.
Qed.

(** Issuing keeps what is seen of any key but the ones it writes. *)
Lemma key_issuePasskey key i ctx u ip ua :
  (forall uid ip, Auth.knownip_key uid ip <> key) ->
  holds (same_key key) (Auth.issuePasskeyTokenPairAudited i ctx u ip ua).
Proof.
  intros Hk. pose proof (key_record key). pose proof (fun ctx r => key_issue key i ctx u ip ua r Hk).
  unfold Auth.issuePasskeyTokenPairAudited, Auth.record. frame_tac.
Qed.

(** The pair of a passkey login. *)
Definition signed_in (issuer : AuthService) (u : User.row) (pair : TokenPair) (t : Z) (d : DB) : Prop :=
  User.AdminSuspended u = false /\
  (exists new sid, In new (refresh_tokens d) /\
     fresh_token pair (User.ID u) t (RefreshTTL (jwtCfg issuer)) sid new) /\
  (strict (jwt issuer) = true -> pair_stands issuer pair t d).

Lemma signed_in_audit issuer u pair t d d' : audit_only d d' -> signed_in issuer u pair t d -> signed_in issuer u pair t d'.
Proof.
  intros [] (Hs & (new & sid & Hin & Hf) & Hp). split; [done|]. split; [exists new, sid; by rewrite ao_tokens|].
  intros Hst. destruct (Hp Hst) as (c & Hv & Hc). exists c. split; [done|]. eapply standing_same; [..|exact Hc]; done.
Qed.

Lemma issuePasskey_Ok issuer ctx u ip ua w pair profile w' :
  Auth.IssuePasskeyTokenPair issuer ctx u ip ua w = (Ok (pair, profile), w') ->
  profile = FromUser u /\ signed_in issuer u pair (w_now w) (w_db w') /\
  (forall key, (forall uid ip, Auth.knownip_key uid ip <> key) ->
     forall t, w_now w <= t -> kv_live t (w_kv w') key = kv_live t (w_kv w) key).
Proof.
  intros H. apply operation_run in H as (w0 & w1 & D0 & K0 & N0 & H & D1 & K1).
  assert (forall key, (forall uid ip, Auth.knownip_key uid ip <> key) -> same_key key w0 w1) as Hkey.
  { intros key Hk. exact (holds_run _ _ _ _ _ (key_issuePasskey key issuer _ u ip ua Hk) H). }
  revert H Hkey. rewrite D1, K1, <- K0, <- N0. clear D0 K0 N0 D1 K1. intros H Hkey.
  split; [|split; [|intros key Hk; by apply Hkey]].
  - unfold Auth.issuePasskeyTokenPairAudited in H. destruct (_ || _); [done|].
    apply bind_Ok in H as (p & w2 & _ & H). apply bind_Ok in H as ([] & w3 & _ & H). by injection H.
  - unfold Auth.issuePasskeyTokenPairAudited in H. destruct (_ || _) eqn:Ha in H; [done|]. bool_prop.
    apply bind_Ok in H as (p & w2 & Hi & H). apply bind_Ok in H as ([] & w3 & Hr & H). injection H as -> _ ->.
    eapply signed_in_audit; [by eapply run_only; [apply only_record|]|].
    apply issue_Ok in Hi as (_ & _ & _ & (row & sid & Hrow & _ & Hf) & Hp). split; [done|].
    split; [by exists row, sid|]. intros Hst. by apply Hp.
Qed.

Lemma rowID_Ok ctx uid id w r w' :
  rowIDByCredential ctx uid id w = (Ok r, w') -> w_db w' = w_db w /\ w_now w' = w_now w.
Proof.
  intros H. assert (holds quiet_step (rowIDByCredential ctx uid id)) as Hq
    by (unfold rowIDByCredential, PasskeyRepository.FindByCredentialID; frame_tac).
  by destruct (holds_run _ _ _ _ _ Hq H) as (D & _ & _ & N).
Qed.

Lemma complete_Ok issuer ctx uid r u cred w pair profile w' :
  completeAuthentication s issuer ctx uid r u cred w = (Ok (pair, profile), w') ->
  c_CloneWarning cred = false /\ profile = FromUser u /\ signed_in issuer u pair (w_now w) (w_db w') /\
  (forall key, (forall uid ip, Auth.knownip_key uid ip <> key) -> gone key (w_now w) w -> gone key (w_now w) w').
Proof.
  unfold completeAuthentication. destruct (c_CloneWarning cred); intros H.
  { apply bind_Ok in H as (id & w1 & _ & H). apply bind_Ok in H as ([] & w2 & _ & H).
    by apply bind_Ok in H as ([] & w3 & _ & H). }
  split; [done|].
  apply bind_Ok in H as (id & w1 & H1 & H). apply bind_Ok in H as (t & w2 & H2 & H).
  apply bind_Ok in H as ([] & w3 & H3 & H). apply bind_Ok in H as ([] & w4 & H4 & H).
  assert (forall key, same_key key w w4) as Hkey.
  { intros key. pose proof (key_record key) as Hr.
    assert (holds (same_key key) (rowIDByCredential ctx uid (c_ID cred))) as K1
      by (unfold rowIDByCredential, PasskeyRepository.FindByCredentialID; frame_tac).
    assert (holds (same_key key) (Calls.quietly (PasskeyRepository.TouchUsage ctx id (c_SignCount cred) t))) as K3
      by (unfold PasskeyRepository.TouchUsage; frame_tac).
    etransitivity; [exact (holds_run _ _ _ _ _ K1 H1)|]. etransitivity; [exact (holds_run _ _ _ _ _ (holds_now _) H2)|].
    etransitivity; [exact (holds_run _ _ _ _ _ K3 H3)|exact (holds_run _ _ _ _ _ (Hr _ _ _) H4)]. }
  destruct (Hkey "") as (N4 & _).
  apply issuePasskey_Ok in H as (Hp & Hs & Hk). rewrite N4 in *. split; [done|]. split; [done|].
  intros key Hkn Hg t' Ht'. rewrite Hk by done. destruct (Hkey key) as (_ & _ & K). rewrite K by done. by apply Hg.
Qed.

(** ** A login *)

(** The answer was checked, now, against the session staged for this user and
    the user's unrevoked credentials, and names one of them. *)
Record proven_passkey (ctx : Ctx) (uid : Z) (r : CeremonyRequest) (w : World) (u : User.row) (cred : Credential)
    (row : PasskeyCredential.row) : Prop := {
  pp_user : first_where (user_scope ctx uid (w_db w)) (users (w_db w)) = Some u;
  pp_active : User.IsActive u = true;
  pp_row : usable uid (w_db w) row /\ PasskeyCredential.CredentialID row = c_ID cred;
  pp_checked : exists session rows,
    staged session_field (kv_live (w_now w) (w_kv w) (authSessionKey uid)) = Some session /\
    (forall x, In x rows -> usable uid (w_db w) x) /\
    web_FinishLogin (web s) (webauthnUser u (map credentialFromRow rows)) session (w_now w) (cr_body r) = Some cred
}.

Lemma knownip_not_auth uid0 uid ip : Auth.knownip_key uid ip <> authSessionKey uid0.
Proof. done. Qed.

Lemma finish_inv ctx uid r w pair profile w' :
  finishAuthenticationAudited s ctx uid r w = (Ok (pair, profile), w') ->
  exists issuer u cred row, tokens s = Some issuer /\ proven_passkey ctx uid r w u cred row /\
    c_CloneWarning cred = false /\ profile = FromUser u /\ signed_in issuer u pair (w_now w) (w_db w') /\
    gone (authSessionKey uid) (w_now w) w'.
Proof.
  unfold finishAuthenticationAudited. destruct (tokens s) as [issuer|]; [|done]. intros H.
  apply bind_Ok in H as (session & w1 & Ht & H). apply takeJSON_Ok in Ht as (Hst & Hg & D1 & N1).
  apply bind_Ok in H as ([u user] & w2 & Hl & H).
  apply loadUser_Ok in Hl as ((D2 & K2 & _ & N2 & _) & Hu & Ha & rows & -> & Hrows).
  apply bind_Ok in H as (cred & w3 & Hc & H). apply checked_Ok in Hc as [-> Hc].
  apply complete_Ok in H as (Hcl & Hp & Hs & Hk).
  destruct (credential_row u rows cred (login_credential _ _ _ _ _ _ Hc)) as (row & Hin & Hid).
  rewrite D1 in *. assert (w_now w2 = w_now w) as N by congruence. rewrite N in *.
  exists issuer, u, cred, row. split; [done|]. split.
  { split; [done|done|split; [by apply Hrows|done]|]. by exists session, rows. }
  split; [done|]. split; [done|]. split; [done|]. apply Hk; [apply knownip_not_auth|].
  intros t Hle. rewrite K2. by apply Hg.
Qed.

(** ** Clones *)

(** The rows a ceremony of the user lists. *)
Definition listed (ctx : Ctx) (uid : Z) (d : DB) : list PasskeyCredential.row :=
  order_by (newest PasskeyCredential.ID) (rows_where (ownedRows ctx PasskeyCredential.UserID
    (fun r => (PasskeyCredential.UserID r =? uid) && (false || negb (PasskeyCredential.Revoked r))) d) (passkey_credentials d)).

Lemma listed_In ctx uid d row : In row (listed ctx uid d) ->
  usable uid d row /\ user_in (FromContext ctx) uid d = true.
Proof.
  intros Hin. apply order_by_In in Hin. apply List.filter_In in Hin as [Hin Hp].
  unfold ownedRows in Hp. simpl in Hp. bool_prop. subst uid. by repeat split.
Qed.

Lemma loadUser_calm ctx uid w u : calm w ->
  first_where (user_scope ctx uid (w_db w)) (users (w_db w)) = Some u -> User.IsActive u = true ->
  loadUser ctx uid w = (Ok (u, webauthnUser u (map credentialFromRow (listed ctx uid (w_db w)))), w).
Proof.
  intros Hc Hu Ha. unfold loadUser, UserRepository.FindByID.
  erewrite bind_run; [|rewrite optional_First_calm by done; reflexivity].
  change (rows_of (w_db w)) with (users (w_db w)). change (first_where _ _) with (first_where (user_scope ctx uid (w_db w)) (users (w_db w))).
  rewrite Hu, Ha. cbn [negb]. unfold PasskeyRepository.ListByUser, Find.
  erewrite bind_run; [reflexivity|]. erewrite bind_run; [reflexivity|]. by rewrite stmt_calm.
Qed.

Lemma rowID_calm ctx uid row w : calm w -> NoDup (map PasskeyCredential.CredentialID (passkey_credentials (w_db w))) ->
  In row (listed ctx uid (w_db w)) ->
  rowIDByCredential ctx uid (PasskeyCredential.CredentialID row) w = (Ok (PasskeyCredential.ID row), w).
Proof.
  intros Hc Hn Hin. apply listed_In in Hin as [(Hin & Hu & _) Ho]. unfold rowIDByCredential, PasskeyRepository.FindByCredentialID.
  erewrite bind_run; [|unfold try_; rewrite optional_First_calm by done; reflexivity].
  change (rows_of (w_db w)) with (passkey_credentials (w_db w)).
  destruct (first_where _ _) as [x|] eqn:Hf.
  - apply first_where_Some in Hf as [Hx Hp]. unfold ownedRows in Hp. bool_prop.
    assert (x = row) as -> by (by eapply (NoDup_map_inj PasskeyCredential.CredentialID)).
    by rewrite Hu, Z.eqb_refl.
  - rewrite first_where_None in Hf. specialize (Hf row Hin). unfold ownedRows in Hf. rewrite Hu, Ho, bool_decide_true in Hf; done.
Qed.

(** A row of the credential is revoked. *)
Definition dead (c : string) (d : DB) : Prop :=
  exists x, In x (passkey_credentials d) /\ PasskeyCredential.CredentialID x = c /\ PasskeyCredential.Revoked x = true.

Lemma dead_grows c d d' : progress (fun _ => True) any_time d d' -> dead c d -> dead c d'.
Proof.
  intros Hg (x & Hin & Hc & Hr). destruct (evolves_In _ _ _ _ (rows_evolve _ _ _ _ (pr_passkeys _ _ _ _ Hg)) Hin)
    as (y & Hy & Hc' & _ & _ & Hr'). exists y. split; [done|]. split; [congruence|auto].
Qed.

Lemma dead_unusable c d uid row : typed d -> dead c d -> usable uid d row -> PasskeyCredential.CredentialID row <> c.
Proof.
  intros Ht (x & Hin & Hc & Hr) (Hrow & _ & Hu) He.
  assert (x = row) as -> by (eapply (NoDup_map_inj PasskeyCredential.CredentialID); [by apply ty_passkeys|done|done|congruence]).
  congruence.
Qed.

Lemma revoke_run ctx uid row w : calm w -> In row (listed ctx uid (w_db w)) ->
  let w1 := snd (PasskeyRepository.RevokeByID ctx (PasskeyCredential.ID row) uid w) in
  dead (PasskeyCredential.CredentialID row) (w_db w1) /\ steady_step w w1 /\
  refresh_tokens (w_db w1) = refresh_tokens (w_db w) /\ sessions (w_db w1) = sessions (w_db w).
Proof.
  intros Hc Hin w1. apply listed_In in Hin as [(Hin & Hu & Hr) Ho].
  assert (steady (PasskeyRepository.RevokeByID ctx (PasskeyCredential.ID row) uid)) as Hs
    by (unfold PasskeyRepository.RevokeByID; steady_tac).
  specialize (Hs w). fold w1 in Hs. split; [|split; [done|]];
    unfold w1, PasskeyRepository.RevokeByID, bind; rewrite Updates_calm by done; destruct (changed _ _ _ =? 0); simpl; try done.
  all: exists (PasskeyCredential.set_Revoked true row); split; [|done];
    apply update_where_In; exists row; split; [done|];
    unfold ownedRows; by rewrite Hu, Ho, Hr, !Z.eqb_refl.
Qed.

Lemma clone_run issuer ctx uid r u cred row w o :
  calm w -> w_op w = Some o -> c_CloneWarning cred = true -> In row (listed ctx uid (w_db w)) ->
  NoDup (map PasskeyCredential.CredentialID (passkey_credentials (w_db w))) ->
  PasskeyCredential.CredentialID row = c_ID cred ->
  exists w', completeAuthentication s issuer ctx uid r u cred w = (Error ErrPasskeyCredentialRevoked, w') /\ calm w' /\
    dead (c_ID cred) (w_db w') /\ refresh_tokens (w_db w') = refresh_tokens (w_db w) /\
    sessions (w_db w') = sessions (w_db w) /\
    (w_op w' = Some (op_admitted false o) \/ w_op w' = Some (op_fail ErrUnavailable o)).
Proof.
  intros Hc Ho Hcl Hin Hn Hid. unfold completeAuthentication. rewrite Hcl, <- Hid.
  rewrite (bind_run _ _ _ _ _ (rowID_calm ctx uid row w Hc Hn Hin)).
  rewrite (bind_run _ _ _ _ _ (quietly_run _ w)).
  destruct (revoke_run ctx uid row w Hc Hin) as (Hd & (O1 & N1 & C1) & T1 & S1). set (w1 := snd _) in *.
  match goal with |- context [Writer.Record_ ?a ?c ?e] => destruct (Writer.Record_ a c e w1) as [r' w2] eqn:H2 end.
  assert (audit_only (w_db w1) (w_db w2)) as A2 by (eapply run_only; [|exact H2]; apply only_record).
  apply (record_latch _ _ _ _ o) in H2 as Hr; [|congruence]. destruct Hr as (-> & _ & C2 & O2).
  rewrite (bind_run _ _ _ _ _ H2). exists w2. destruct A2. split; [done|]. split; [auto|].
  split; [destruct Hd as (x & Hx); exists x; by rewrite ao_passkeys|].
  split; [congruence|]. split; [congruence|]. exact O2.
Qed.

End Runs.

(** ** The properties *)

Section Claims.
Context {ST : Store} {SL : StoreLaws ST} {E : Ext} {J : JwtLib} {OT : Otp} {G : GoogleLib} {L : Local}.
Context {WL : WebAuthnLib} {WLL : WebAuthnLaws WL} (s : passkeyService).
Import Passkey.

(** C19: A passkey login that succeeds was answered with the challenge staged for that
    user and still live, which it spends: no later login of the user succeeds
    without a new challenge.  The library accepted the answer against credentials
    of the user that are not revoked, it names one of them and reports no clone;
    the user is active and not suspended, and gets a pair whose refresh token is
    stored and whose access token, under the strict contract, verifies and
    stands. *)
Theorem passkey_login_sound (ctx : Ctx) (uid : Z) (r : CeremonyRequest) (w w' : World) (pair : TokenPair)
    (profile : UserProfile) (Hrun : FinishAuthentication s ctx uid r w = (Ok (pair, profile), w')) :
  (exists issuer u cred row, tokens s = Some issuer /\ proven_passkey s ctx uid r w u cred row /\
     c_CloneWarning cred = false /\ profile = FromUser u /\ signed_in issuer u pair (w_now w) (w_db w')) /\
  (forall ctx2 r2 w2, w_kv w2 = w_kv w' -> w_now w <= w_now w2 ->
     is_Ok (fst (FinishAuthentication s ctx2 uid r2 w2)) = false).
Proof.
  apply operation_run in Hrun as (w0 & w1 & D0 & K0 & N0 & H & D1 & K1).
  apply finish_inv in H as (issuer & u & cred & row & Hi & [P1 P2 P3 P4] & Hc & Hp & Hs & Hg).
  rewrite D0, K0, N0, <- D1 in *. split.
  { exists issuer, u, cred, row. split; [done|]. by split. }
  intros ctx2 r2 w2 Hk Hn. destruct (FinishAuthentication s ctx2 uid r2 w2) as [[[p2 q2]|e] w3] eqn:Hr; [|done].
  apply operation_run in Hr as (w4 & w5 & _ & K4 & N4 & Hr & _).
  apply finish_inv in Hr as (? & ? & ? & ? & _ & [_ _ _ (session & _ & Hst & _)] & _).
  rewrite K4, N4, Hk, K1, Hg in Hst by done. done.
Qed.

Lemma takeJSON_calm {A} key (decode : Obj -> option A) w a : calm w ->
  staged decode (kv_live (w_now w) (w_kv w) key) = Some a ->
  takeJSON key decode w = (Ok a, set_kv (snd (kv_take true (w_now w) key (w_kv w))) w).
Proof.
  intros Hc Hs. unfold takeJSON, Calls.store_Take. erewrite bind_run; [|by apply kv_calm].
  cbv beta. rewrite take_value, Hs. done.
Qed.

(** A flagged answer, whatever the oracle of the commit. *)
Lemma clone_finish issuer ctx uid r w session u cred :
  tokens s = Some issuer -> calm w -> w_op w = None -> typed (w_db w) ->
  staged session_field (kv_live (w_now w) (w_kv w) (authSessionKey uid)) = Some session ->
  first_where (user_scope ctx uid (w_db w)) (users (w_db w)) = Some u -> User.IsActive u = true ->
  web_FinishLogin (web s) (webauthnUser u (map credentialFromRow (listed ctx uid (w_db w)))) session
    (w_now w) (cr_body r) = Some cred -> c_CloneWarning cred = true ->
  let (res, w') := FinishAuthentication s ctx uid r w in
  (res = Error ErrUnavailable /\ w_db w' = w_db w) \/
  (res = Error ErrPasskeyCredentialRevoked /\ refresh_tokens (w_db w') = refresh_tokens (w_db w) /\
   sessions (w_db w') = sessions (w_db w) /\ dead (c_ID cred) (w_db w')).
Proof.
  intros Hwired Hcalm Hop Htyped Hstaged Hu Ha Hlogin Hclone.
  destruct (credential_row u _ cred (login_credential _ _ _ _ _ _ Hlogin)) as (row & Hin & Hid).
  unfold FinishAuthentication, Calls.runAuditOperation, Writer.AuditOperation, Outbox.AuditOperation.
  rewrite Hop. unfold fault at 1. rewrite Hcalm. set (w0 := set_op (Some BindOperation) w).
  unfold finishAuthenticationAudited. rewrite Hwired.
  erewrite bind_run; [|by apply (takeJSON_calm _ session_field w0)]. set (w1 := set_kv _ w0).
  erewrite bind_run; [|by apply (loadUser_calm (WithAsyncDelivery ctx) uid w1 u)].
  cbv beta iota. erewrite bind_run.
  2: { unfold checked. erewrite bind_run; [|reflexivity]. change (w_now w1) with (w_now w).
       change (listed (WithAsyncDelivery ctx) uid (w_db w1)) with (listed ctx uid (w_db w)). by rewrite Hlogin. }
  destruct (clone_run s issuer (WithAsyncDelivery ctx) uid r u cred row w1 BindOperation) as
    (w2 & -> & C2 & Hd & T2 & S2 & Hlatch); [done|done|done|done|exact (ty_passkeys _ Htyped)|done|].
  destruct Hlatch as [-> | ->]; simpl; [|by left].
  unfold fault, set_op. simpl. rewrite C2. by right.
Qed.

(** C20: When no call fails, a passkey answer the library flags as a clone's (its
    signature counter did not grow) is refused, no token and no session stored;
    and, unless the audit trail does not admit the event (the answer is then that it
    is unavailable, and the database is as before), the credential is revoked for good:
    whatever happens later, no unrevoked passkey of any user carries its id, so
    that no login is ever checked against it again. *)
Theorem clone_contained (issuer : AuthService) (ctx : Ctx) (uid : Z) (r : CeremonyRequest) (w : World)
    (session : SessionData) (u : User.row) (cred : Credential)
    (Hwired : tokens s = Some issuer) (Hcalm : calm w) (Hop : w_op w = None) (Htyped : typed (w_db w))
    (Hstaged : staged session_field (kv_live (w_now w) (w_kv w) (authSessionKey uid)) = Some session)
    (Huser : first_where (user_scope ctx uid (w_db w)) (users (w_db w)) = Some u /\ User.IsActive u = true)
    (Hlogin : web_FinishLogin (web s) (webauthnUser u (map credentialFromRow (listed ctx uid (w_db w)))) session
                (w_now w) (cr_body r) = Some cred)
    (Hclone : c_CloneWarning cred = true) :
  let (res, w') := FinishAuthentication s ctx uid r w in
  (res = Error ErrUnavailable /\ w_db w' = w_db w) \/
  (res = Error ErrPasskeyCredentialRevoked /\ refresh_tokens (w_db w') = refresh_tokens (w_db w) /\
   sessions (w_db w') = sessions (w_db w) /\
   forall w2, lifetime issuer any_request any_time w' w2 -> forall uid2 row,
     usable uid2 (w_db w2) row -> PasskeyCredential.CredentialID row <> c_ID cred).
Proof.
  destruct Huser as [Hu Ha].
  pose proof (evo_FinishAuthentication (fun _ => True) s ctx uid r (allow_all ctx) w) as Hg.
  pose proof (clone_finish issuer ctx uid r w session u cred Hwired Hcalm Hop Htyped Hstaged Hu Ha Hlogin Hclone) as H.
  destruct (FinishAuthentication s ctx uid r w) as [res w']. simpl in Hg.
  destruct H as [H|(Hr & Ht & Hs & Hd)]; [by left|right]. split; [done|]. split; [done|]. split; [done|].
  intros w2 Hl uid2 row Hrow. apply lifetime_any in Hl.
  eapply dead_unusable; [|by eapply dead_grows|exact Hrow]. by apply (pr_typed _ _ _ _ Hl), (ev_typed _ _ _ Hg).
Qed.

(** What a staged value reads as, from now on. *)
Lemma stage_Ok {A} (decode : Obj -> option A) key o w u w' : calm w -> Json.whole (JMembers o) = true ->
  stageJSON key (JMembers o) w = (Ok u, w') -> forall t, w_now w <= t ->
  staged decode (kv_live t (w_kv w') key) = if seen (w_now w) challengeTTL t then decode o else None.
Proof.
  intros Hc Hw H t Ht. unfold stageJSON, Calls.store_Set in H. rewrite kv_calm in H by done. injection H as _ <-.
  simpl. rewrite set_value by done. destruct (seen _ _ _); [|done]. rewrite read_str. by apply staged_text.
Qed.

Lemma challenge_Ok f w options session w' : challenge f w = (Ok (options, session), w') ->
  same_state w w' /\ exists n, f n = Some (options, session).
Proof.
  intros H. apply bind_Ok in H as (b & w1 & Hb & H). apply fault_same in Hb.
  apply bind_Ok in H as (n & w2 & Hn & H). apply draw_Ok in Hn. destruct b; [done|].
  destruct (f n) as [c|] eqn:Hf; [|done]. injection H as -> ->. split; [by eapply same_trans|by exists n].
Qed.

(** Both ceremonies begin the same way. *)
Lemma begin_inv {A} ctx uid key f g (decode : Obj -> option A) back w options w' :
  calm w -> (forall session, Json.whole (JMembers (g session)) = true /\ decode (g session) = Some (back session)) ->
  (let! p := loadUser ctx uid in
   let (_, user) := p : User.row * WebauthnUser in
   let! c := challenge (f user) in
   let (options, session) := c : JV * SessionData in
   stageJSON key (JMembers (g session)) ;;; ret options) w = (Ok options, w') ->
  exists user n session, f user n = Some (options, session) /\ forall t, w_now w <= t ->
    staged decode (kv_live t (w_kv w') key) = if seen (w_now w) challengeTTL t then Some (back session) else None.
Proof.
  intros Hc Hg H. apply bind_Ok in H as ([u user] & w1 & Hl & H).
  assert (steady (loadUser ctx uid)) as Q1
    by (unfold loadUser, UserRepository.FindByID, PasskeyRepository.ListByUser; steady_tac).
  apply (steady_run _ _ _ _ Q1) in Hl as (_ & N1 & C1).
  apply bind_Ok in H as ([opts session] & w2 & Hch & H).
  assert (steady (challenge (f user))) as Q2 by (unfold challenge; steady_tac).
  apply (steady_run _ _ _ _ Q2) in Hch as S2. destruct S2 as (_ & N2 & C2). apply challenge_Ok in Hch as [_ (n & Hn)].
  apply bind_Ok in H as ([] & w3 & Hs & H). injection H as <- <-. destruct (Hg session) as [Hw Hb].
  rewrite N1 in N2.
  exists user, n, session. split; [done|]. intros t Ht. rewrite (stage_Ok decode key _ _ _ _ (C2 (C1 Hc)) Hw Hs) by (by rewrite N2).
  by rewrite N2, Hb.
Qed.

(** The challenge a ceremony begins with reads back exactly, session and
    display name, until its minute has passed, and not after: the JSON text
    staged in the store is a faithful copy of what the library handed out. *)
Theorem challenge_round_trip (ctx : Ctx) (uid : Z) (name : string) (options : JV) (w w' : World) (Hcalm : calm w) :
  (BeginAuthentication s ctx uid w = (Ok options, w') ->
   exists user n session, web_BeginLogin (web s) user n = Some (options, session) /\ forall t, w_now w <= t ->
     staged session_field (kv_live t (w_kv w') (authSessionKey uid)) =
     if seen (w_now w) challengeTTL t then Some session else None) /\
  (BeginRegistration s ctx uid name w = (Ok options, w') ->
   exists user n session, web_BeginRegistration (web s) user n = Some (options, session) /\ forall t, w_now w <= t ->
     staged decode_reg (kv_live t (w_kv w') (regSessionKey uid)) =
     if seen (w_now w) challengeTTL t then Some (session, name) else None).
Proof.
  split; intros H.
  - eapply (begin_inv ctx uid _ _ (fun x => [("session", session_json x)]) session_field (fun x => x)) in H; [exact H|done|].
    intros x. split; [simpl; by rewrite session_whole|apply session_back].
  - eapply (begin_inv ctx uid _ _ (fun x => [("session", session_json x); ("displayName", JText name)]) decode_reg
      (fun x => (x, name))) in H; [exact H|done|].
    intros x. split; [simpl; by rewrite session_whole|]. unfold decode_reg, session_field, Json.field. simpl.
    by rewrite session_back.
Qed.

End Claims.

(** ** Witnesses *)

Import Choices.

Module PasskeyDemo.

Definition service : passkeyService :=
  mkPasskey (mkPasskeyConfig "Finn" "finn.io" ["https://app.finn.io"] "none") Demo.writer (Some Demo.service).

(** Alice has registered a passkey whose counter stands at 5. *)
Definition key : PasskeyCredential.row :=
  PasskeyCredential.mk 6 1 "k1" "pk:k1" 5 "laptop" "[]" "none" None false.

Definition registered : World := set_db (set_rows [key] (w_db Demo.start)) Demo.start.

Definition begun : World := snd (Passkey.BeginAuthentication service Demo.ctx 1 registered).

(** The answer of the authenticator of a challenge, with a counter. *)
Definition answer (count : Z) : CeremonyRequest :=
  mkCeremony (Some [("challenge", JText "challenge-0"); ("id", JText "k1"); ("count", JInt count)]) "10.0.0.1:4711" "curl".

Definition signed : World := snd (Passkey.FinishAuthentication service Demo.ctx 1 (answer 6) begun).
Definition cloned : World := snd (Passkey.FinishAuthentication service Demo.ctx 1 (answer 5) begun).

End PasskeyDemo.

Import PasskeyDemo.

Lemma passkey_login_sound_witness :
  exists toks profile, Passkey.FinishAuthentication service Demo.ctx 1 (answer 6) begun = (Ok (toks, profile), signed) /\
    is_Ok (fst (Passkey.FinishAuthentication service Demo.ctx 1 (answer 7) signed)) = false.
Proof.
  destruct (ran (Passkey.FinishAuthentication service Demo.ctx 1 (answer 6)) begun (ltac:(vm_reflexivity)))
    as ([toks profile] & w1 & H).
  assert (signed = w1) as Hw by (unfold signed; by rewrite H).
  destruct (passkey_login_sound service Demo.ctx 1 (answer 6) begun w1 toks profile H) as [_ Hagain].
  exists toks, profile. rewrite Hw. split; [exact H|].
  assert (w_now begun <= w_now w1) as Hn by (rewrite <- Hw; by vm_compute).
  exact (Hagain Demo.ctx (answer 7) w1 eq_refl Hn).
Defined.

(** A counter that did not grow: the same answer as before. *)
Lemma clone_contained_witness :
  fst (Passkey.FinishAuthentication service Demo.ctx 1 (answer 5) begun) = Error ErrPasskeyCredentialRevoked /\
  w_db cloned <> w_db begun /\
  forall w2, lifetime Demo.service any_request any_time cloned w2 -> forall uid row,
    usable uid (w_db w2) row -> PasskeyCredential.CredentialID row <> "k1".
Proof.
  assert (typed (w_db begun)) as Ht.
  { split; try (refine (bool_decide_eq_true_1 (NoDup _) _); vm_reflexivity);
      (split; [refine (bool_decide_eq_true_1 (NoDup _) _); vm_reflexivity|]; intros r [<-|[<-|[]]]; done). }
  assert (Passkey.staged Passkey.session_field
    (kv_live (w_now begun) (w_kv begun) (Passkey.authSessionKey 1)) = Some "challenge-0") as Hs by vm_reflexivity.
  assert (first_where (user_scope Demo.ctx 1 (w_db begun)) (users (w_db begun)) = Some Demo.alice) as Hu by vm_reflexivity.
  set (flagged := mkCredential "k1" "pk:k1" "none" "" [] 5 true).
  assert (web_FinishLogin (web service)
    (Passkey.webauthnUser Demo.alice (map Passkey.credentialFromRow (listed Demo.ctx 1 (w_db begun)))) "challenge-0"
    (w_now begun) (cr_body (answer 5)) = Some flagged) as Hl by vm_reflexivity.
  pose proof (clone_contained service Demo.service Demo.ctx 1 (answer 5) begun "challenge-0" Demo.alice flagged
    eq_refl eq_refl eq_refl Ht Hs (conj Hu eq_refl) Hl eq_refl) as H.
  assert (fst (Passkey.FinishAuthentication service Demo.ctx 1 (answer 5) begun) = Error ErrPasskeyCredentialRevoked)
    as Hf by vm_reflexivity.
  assert (snd (Passkey.FinishAuthentication service Demo.ctx 1 (answer 5) begun) = cloned) as Hc by exact eq_refl.
  assert (bool_decide (length (audit_outbox (w_db cloned)) = length (audit_outbox (w_db begun))) = false) as Hn
    by vm_reflexivity.
  destruct (Passkey.FinishAuthentication service Demo.ctx 1 (answer 5) begun) as [res w'].
  simpl in Hf, Hc. subst res w'. destruct H as [[H _]|(_ & _ & _ & H)]; [discriminate H|].
  split; [exact eq_refl|]. split; [|exact H].
  intros He. rewrite He in Hn. apply bool_decide_eq_false in Hn. exact (Hn eq_refl).
Defined.

(** A challenge of alice's passkey, a second later and two minutes later. *)
Lemma challenge_round_trip_witness :
  calm registered /\
  exists session, Passkey.staged Passkey.session_field
      (kv_live (Demo.t0 + second) (w_kv begun) (Passkey.authSessionKey 1)) = Some session /\
    Passkey.staged Passkey.session_field
      (kv_live (Demo.t0 + 2 * minute) (w_kv begun) (Passkey.authSessionKey 1)) = None.
Proof.
  split; [exact eq_refl|].
  destruct (ran (Passkey.BeginAuthentication service Demo.ctx 1) registered (ltac:(vm_reflexivity))) as (options & w' & H).
  assert (begun = w') as Hw by (unfold begun; by rewrite H).
  destruct (proj1 (challenge_round_trip service Demo.ctx 1 "" options registered w' eq_refl) H) as (user & n & session & _ & Hread).
  exists session. rewrite Hw.
  assert (w_now registered <= Demo.t0 + second /\ w_now registered <= Demo.t0 + 2 * minute) as [H1 H2] by (by vm_compute).
  rewrite (Hread _ H1), (Hread _ H2). exact (conj eq_refl eq_refl).
Defined.
