(* ===== verification/AnswersSpec.v ===== *)
(** * What an anonymous caller can learn

    The answers of the sign-in and recovery endpoints: one login that does not show
    the password of a user who may sign in is answered alike in two worlds that
    differ in their users only, as is a reset request.  [blind]: the calls that see
    the store and the clock only. *)

From S2P Require Import Prelude Store Models World Sql Repos Jwt AuditTrail Common Identity Totp Auth OAuth Account Admin Http Handlers Routes Demo IdentitySpec Evolve Lifetime Frames SignInSpec HttpSpec.

Open Scope Z_scope.
Open Scope monad_scope.

Section Errors.
Context {ST : Store} {E : Ext} {J : JwtLib} {OT : Otp}.

(** *** No fault appears on the way *)

Definition calm_step (w w' : World) : Prop := calm w -> calm w'.

#[export] Instance calm_frame : Frame calm_step.
Proof.
  split; [|by intros w w' (_ & _ & _ & H)]. split; [by intros w H|]. intros a b c H1 H2 H. by apply H2, H1.
Qed.

Lemma calm_kv {A} (f : bool -> Z -> kv -> A * kv) : holds calm_step (Calls.kv_call f).
Proof.
  apply holds_bind; [typeclasses eauto|apply holds_fault; typeclasses eauto|].
  intros b w Hc. by destruct (f _ _ _).
Qed.

Lemma calm_latch f : holds calm_step (update_op f).
Proof. intros w Hc. unfold update_op, calm in *. simpl. by destruct (w_op w). Qed.

Lemma calm_dispatch r limit : forall n, holds calm_step (Outbox.dispatch_loop r limit n).
Proof.
  induction limit; intros n; cbn [Outbox.dispatch_loop];
    unfold Outbox.Claim, Outbox.save, Outbox.Deliver, Outbox.insert_event, Outbox.FailClaim; frame_tac.
Qed.

Lemma calm_record wr ctx e : holds calm_step (Writer.Record_ wr ctx e).
Proof.
  pose proof calm_latch. pose proof calm_dispatch.
  unfold Writer.Record_, Outbox.Admit, Outbox.admit_tx, Outbox.or_unavailable, Trail.Capture, Outbox.Dispatch.
  frame_tac.
Qed.

(** The error of a service call is that of its body, unless the trail failed. *)
Lemma operation_Error {A} wr ctx (fn : Ctx -> M A) w r w' :
  calm w -> w_op w = None -> Calls.runAuditOperation wr ctx fn w = (r, w') ->
  exists b w1, fn (WithAsyncDelivery ctx) (set_op (Some BindOperation) w) = (b, w1) /\
    (r = Error ErrUnavailable \/
     forall e, b = Error e -> calm w1 -> r = Error e).
Proof.
  unfold calm. intros Hc Ho. unfold Calls.runAuditOperation, Writer.AuditOperation, Outbox.AuditOperation.
  rewrite Ho. unfold fault at 1. rewrite Hc.
  destruct (fn _ _) as [b w1] eqn:Hfn. cbv zeta. intros H. exists b, w1. split; [done|].
  destruct (failure _) in H; [injection H as <- _; by left|]. right. intros e -> Hc1.
  destruct (_ || _) in H; [by injection H as <- _|].
  unfold fault in H. simpl in H. rewrite Hc1 in H. by injection H as <- _.
Qed.

(** *** Calls that see the store and the clock only *)

Definition alike (w w2 : World) : Prop :=
  w_kv w2 = w_kv w /\ w_now w2 = w_now w /\ calm w /\ calm w2.

Definition blind {A} (m : M A) : Prop := forall w w2, alike w w2 ->
  fst (m w2) = fst (m w) /\ alike (snd (m w)) (snd (m w2)).

Lemma blind_ret {A} (a : A) : blind (ret a).
Proof. done. Qed.

Lemma blind_fail {A} e : blind (fail (A := A) e).
Proof. done. Qed.

Lemma blind_bind {A B} (m : M A) (f : A -> M B) : blind m -> (forall a, blind (f a)) -> blind (bind m f).
Proof.
  intros Hm Hf w w2 H. unfold bind. destruct (Hm w w2 H) as [Ha H1].
  destruct (m w) as [[a|e] w'], (m w2) as [[a2|e2] w2']; simpl in *; simplify_eq; [by apply Hf|done].
Qed.

Lemma blind_fault : blind fault.
Proof. intros w w2 (K & N & C & C2). unfold fault, calm in *. rewrite C, C2. done. Qed.

Lemma blind_kv {A} (f : bool -> Z -> kv -> A * kv) : blind (Calls.kv_call f).
Proof.
  apply blind_bind; [apply blind_fault|]. intros b w w2 (K & N & C & C2). rewrite K, N.
  destruct (f _ _ _) as [a k]. done.
Qed.

(** Calls that always answer. *)
Definition total {A} (m : M A) : Prop := forall w, exists a w', m w = (Ok a, w').

Lemma total_bind {A B} (m : M A) (f : A -> M B) : total m -> (forall a, total (f a)) -> total (bind m f).
Proof. intros Hm Hf w. unfold bind. destruct (Hm w) as (a & w1 & ->). apply Hf. Qed.

Lemma total_ret {A} (a : A) : total (ret a).
Proof. by intros w; exists a, w. Qed.

Lemma total_try {A} (m : M A) : total (try_ m).
Proof. intros w. unfold try_. destruct (m w) as [r w1]. by exists r, w1. Qed.

Lemma total_kv {A} (f : bool -> Z -> kv -> A * kv) : total (Calls.kv_call f).
Proof.
  intros w. unfold Calls.kv_call, bind. destruct (fault_cases w) as (w0 & _ & [-> | ->]);
    destruct (f _ _ _) as [a k]; by eexists _, _.
Qed.

Lemma total_now : total now.
Proof. by intros w; exists (w_now w), w. Qed.

Lemma total_op : total current_op.
Proof. by intros w; exists (w_op w), w. Qed.

Lemma total_latch f : total (update_op f).
Proof. by intros w; eexists _, _. Qed.

Lemma total_quietly {A} (m : M A) : total (Calls.quietly m).
Proof. intros w. eexists _, _. apply quietly_run. Qed.

End Errors.

Create HintDb total discriminated.
#[export] Hint Resolve total_ret total_try total_kv total_now total_op total_latch total_quietly : total.

Ltac total_tac := repeat first
  [ solve [eauto with total]
  | apply total_bind; [|intros ?]
  | match goal with |- total (match ?x with _ => _ end) => destruct x end
  | progress cbv zeta ].

Ltac refused_tac := apply list_elem_of_In; simpl; tauto.

Section Login.
Context {ST : Store} {E : Ext} {J : JwtLib} {OT : Otp} (s : AuthService).
Import Auth.

Lemma total_record ctx e : total (record s ctx e).
Proof. unfold record, Writer.Record_. total_tac. Qed.

Lemma total_failIP ip : total (recordLoginFailIP ip).
Proof. unfold recordLoginFailIP, Calls.store_IncrBy. total_tac. Qed.

Lemma total_failAccount email : total (recordLoginFailAccount s email).
Proof. unfold recordLoginFailAccount, Calls.store_IncrBy. total_tac. Qed.

Lemma total_failedLogin ctx u email ip : total (recordFailedLogin s ctx u email ip).
Proof.
  pose proof total_record. pose proof total_failIP. pose proof total_failAccount.
  unfold recordFailedLogin, lockout, Calls.store_IncrBy. total_tac.
Qed.

Lemma total_counter k : total (Calls.storeCounterValue k).
Proof. unfold Calls.storeCounterValue, Calls.store_Get. total_tac. Qed.

Lemma total_Error {A} (m : M A) w e w' : total m -> m w <> (Error e, w').
Proof. intros Hm H. destruct (Hm w) as (a & w1 & Ha). congruence. Qed.

(** The velocity limit and the captcha do not look at the database. *)
Lemma blind_gates email token ip : blind (login_gates s email token ip).
Proof.
  assert (forall k, blind (Calls.storeCounterValue k)) as Hc.
  { intros k. apply blind_bind; [apply blind_kv|intros; apply blind_ret]. }
  unfold login_gates. apply blind_bind; [|intros _].
  - destruct (_ && _); [|apply blind_ret]. apply blind_bind; [apply Hc|intros n].
    destruct (_ <=? _); [apply blind_fail|apply blind_ret].
  - destruct (_ <? _); [|apply blind_ret]. apply blind_bind; [apply Hc|intros n].
    destruct (_ <=? _); [|apply blind_ret]. apply blind_bind; [apply blind_fault|intros b].
    destruct (_ || _); [apply blind_fail|apply blind_ret].
Qed.

Lemma gates_Error email token ip w e w' : login_gates s email token ip w = (Error e, w') ->
  e = ErrRateLimited \/ e = ErrCaptchaRequired.
Proof.
  unfold login_gates. intros H. apply bind_Error in H as [H|(a & w1 & _ & H)].
  - destruct (_ && _); [|done]. apply bind_Error in H as [H|(n & w2 & _ & H)];
      [by apply total_Error in H; [|apply total_counter]|].
    destruct (_ <=? _); [|done]. injection H as <- _. by left.
  - destruct (_ <? _); [|done]. apply bind_Error in H as [H|(n & w2 & _ & H)];
      [by apply total_Error in H; [|apply total_counter]|].
    destruct (_ <=? _); [|done]. apply bind_Error in H as [H|(b & w3 & _ & H)].
    + destruct (fault_cases w2) as (w3 & _ & [Hf|Hf]); rewrite Hf in H; done.
    + destruct (_ || _); [|done]. injection H as <- _. by right.
Qed.

(** The errors of a login past the gates. *)
Definition refused : list Err := [ErrInvalidCredentials; ErrEmailNotVerified; ErrAccountDisabled; ErrAccountLocked].

(** The credentials shown are those of a user who may sign in. *)
Definition shows (ctx : Ctx) (email password : string) (w : World) : Prop :=
  exists user, login_user ctx email (w_db w) = Some user /\ admitted_user s password (w_now w) user.

#[local] Hint Resolve calm_kv calm_record : frames.

Lemma calm_failedLogin ctx u email ip : holds calm_step (recordFailedLogin s ctx u email ip).
Proof.
  unfold recordFailedLogin, lockout, record, recordLoginFailIP, recordLoginFailAccount, Calls.store_IncrBy,
    UserRepository.IncrementFailedAttempts. frame_tac.
Qed.

(** A refusal, after calls that always answer. *)
Lemma refusal {A B} (m : M A) (e : Err) w (r : Res B) w' : total m -> holds calm_step m ->
  (m ;;; fail e) w = (r, w') -> calm w -> r = Error e /\ calm w'.
Proof.
  intros Ht Hm H Hc. destruct (Ht w) as (a & w1 & Ha). unfold bind in H. rewrite Ha in H. injection H as <- <-.
  split; [done|]. by apply (holds_run _ _ _ _ _ Hm Ha).
Qed.

Lemma FindByEmail_Error ctx email w e w' : UserRepository.FindByEmail ctx email w = (Error e, w') -> e = EInfra.
Proof.
  unfold UserRepository.FindByEmail, optional, First, stmt, bind, try_.
  destruct (fault_cases w) as (w0 & _ & [-> | ->]); simpl.
  - unfold fail. by intros [= <- _].
  - by destruct (first_where _ _).
Qed.

Lemma FindByEmail_calm ctx email w : calm w ->
  UserRepository.FindByEmail ctx (Policy.normalize email) w = (Ok (login_user ctx email (w_db w)), w).
Proof.
  intros Hc. unfold UserRepository.FindByEmail, optional, bind, try_. rewrite First_calm by done.
  change (rows_of (w_db w)) with (users (w_db w)). unfold login_user. by destruct (first_where _ _).
Qed.

(** Without the credentials of a user who may sign in, a login fails: at the gates
    with their error, past them with one of [refused]. *)
Lemma login_refused ctx in_ ip ua w r w' :
  calm w -> loginAudited s ctx in_ ip ua w = (r, w') -> ~ shows ctx (l_Email in_) (l_Password in_) w ->
  calm w' /\ exists e, r = Error e /\
    match fst (login_gates s (Policy.normalize (l_Email in_)) (l_CaptchaToken in_) ip w) with
    | Error g => e = g
    | Ok _ => e ∈ refused
    end.
Proof.
  unfold loginAudited. cbv zeta. intros Hc H Hno. unfold bind at 1 in H.
  destruct (login_gates _ _ _ _ w) as [[[]|g] w1] eqn:Hg; simpl;
    pose proof (steady_run _ _ _ _ (steady_gates s _ _ _) Hg) as (_ & N1 & C1);
    [|injection H as <- <-; split; [auto|]; by exists g].
  pose proof (run_only _ _ _ _ (only_gates s _ _ _) Hg) as G1. specialize (C1 Hc).
  assert (forall (m : M unit) (e0 : Err), total m -> holds calm_step m -> (m ;;; fail (A := LoginResult) e0) w1 = (r, w') -> e0 ∈ refused ->
    calm w' /\ exists e, r = Error e /\ e ∈ refused) as Hrefuse.
  { intros m e0 Ht Hm Hr He. apply refusal in Hr as [-> Hc']; [|done..]. split; [done|]. by exists e0. }
  unfold bind at 1 in H. rewrite FindByEmail_calm in H by done.
  destruct (login_user _ _ _) as [user|] eqn:Ho.
  2: { apply (Hrefuse (recordLoginFailIP ip ;;; recordLoginFailAccount s (Policy.normalize (l_Email in_)) ;;;
         record s ctx (login_event None (Policy.normalize (l_Email in_)) ip "unknown user")) ErrInvalidCredentials).
       - apply total_bind; [apply total_failIP|intros _]. apply total_bind; [apply total_failAccount|intros _].
         apply total_record.
       - unfold record, recordLoginFailIP, recordLoginFailAccount, Calls.store_IncrBy. frame_tac.
       - revert H. unfold bind. by repeat case_match.
       - refused_tac. }
  destruct (RequireEmailVerified _ && _) eqn:Hv.
  { injection H as <- <-. split; [done|]. eexists. split; [done|]. refused_tac. }
  destruct (negb _ || User.AdminSuspended user) eqn:Ha.
  { eapply Hrefuse; [apply total_record|unfold record; frame_tac|exact H|refused_tac]. }
  unfold bind at 1 in H. change (isLocked user w1) with
    (Ok (A := bool) (match User.LockedUntil user with Some u => w_now w1 <? u | None => false end), w1) in H.
  cbv iota beta in H.
  destruct (match User.LockedUntil user with Some _ => _ | None => _ end) eqn:Hl.
  { eapply Hrefuse; [apply total_record|unfold record; frame_tac|exact H|refused_tac]. }
  destruct (negb _) eqn:Hp in H.
  { eapply Hrefuse; [apply total_failedLogin|apply calm_failedLogin|exact H|refused_tac]. }
  exfalso. apply Hno. exists user. unfold login_user in *. rewrite <- (ao_users _ _ G1). split; [exact Ho|].
  bool_prop. apply andb_false_iff in Hv. unfold password_matches in Hp. bool_prop. split; try done.
  - intros Hreq. destruct Hv as [Hv|Hv]; [congruence|by bool_prop].
  - intros lim Hlim. rewrite Hlim in Hl. bool_prop. lia.
Qed.

End Login.

(** ** The property *)

Section Claims.
Context {ST : Store} {E : Ext} {J : JwtLib} {OT : Otp} {W : Wire} (s : AuthService).

Lemma call_run {A} c (m : M A) k w : Handlers.call c m k w =
  match m w with (Ok a, w1) => k a w1 | (Error e, w1) => Errors.respondError c e w1 end.
Proof. unfold Handlers.call, bind, try_. by destruct (m w) as [[a|e] w1]. Qed.

(** The trail did not admit. *)
Definition unavailable {A} (r : Res A) : bool :=
  match r with Error e => bool_decide (e = ErrUnavailable) | Ok _ => false end.

(** What is told of a refused login. *)
Definition refusals : list (Z * string) :=
  [ (401, "invalid email or password"); (400, "captcha verification required");
    (429, "rate limit exceeded, please try again later"); (500, "internal server error");
    (503, "durable audit unavailable") ].

(** How the refusal of a login reads: by the gate that stopped it, and past the
    gates as one and the same 401. *)
Definition refusal_reads (g : Res unit) (c : GinCtx) : Response :=
  match g with
  | Error ErrRateLimited => mkResponse 429 (g_headers c) "rate limit exceeded, please try again later" DNone
  | Error _ => mkResponse 400 (g_headers c) "captcha verification required" DNone
  | Ok _ => mkResponse 401 (g_headers c) "invalid email or password" DNone
  end.

Definition login_gate (c : GinCtx) (email captcha : string) (w : World) : Res unit :=
  fst (Auth.login_gates s (Policy.normalize email) captcha (Handlers.ip c) w).

Lemma gate_blind c email captcha w w2 : alike w w2 -> login_gate c email captcha w2 = login_gate c email captcha w.
Proof. intros H. by apply blind_gates. Qed.

Lemma login_told (c : GinCtx) (w : World) (email password captcha : string) :
  Bind.fields Bind.LoginRequest (r_body (g_req c)) = Some [email; password; captcha] ->
  calm w -> w_op w = None -> ~ shows s (g_ctx c) email password w ->
  fst (Handlers.Login s c w) = Ok (mkResponse 503 (g_headers c) "durable audit unavailable" DNone) \/
  fst (Handlers.Login s c w) = Ok (refusal_reads (login_gate c email captcha w) c).
Proof.
  intros Hb Hc Ho Hno. unfold Handlers.Login, Bind.ShouldBindJSON. rewrite Hb, call_run.
  destruct (Auth.Login s (g_ctx c) (mkLogin email password captcha) (Handlers.ip c) (Handlers.ua c) w) as [r w1] eqn:Hr.
  apply operation_Error in Hr as (b & w2 & Hfn & Hr); [|done..].
  apply login_refused in Hfn as (Hc2 & e & -> & He); [|done..].
  destruct Hr as [-> |Hr]; [left|right; rewrite (Hr e eq_refl Hc2)].
  - done.
  - rewrite <- (gate_blind c email captcha _ (set_op (Some BindOperation) w)) by done. unfold login_gate.
    destruct (fst _) as [[]|g] eqn:Hg; simpl in He.
    + apply list_elem_of_In in He. simpl in He. by destruct_or! He; subst e.
    + subst e. destruct (Auth.login_gates _ _ _ _ _) as [r1 w3] eqn:Hw in Hg. simpl in Hg. subst r1.
      apply gates_Error in Hw as [-> | ->]. all: done.
Qed.

Lemma Issue_Error u r e ty ttl tid w err w' : Issue (jwt s) u r e ty ttl tid w = (Error err, w') -> err = ErrJwtInvalid.
Proof.
  unfold Issue. destruct (_ && _); [by intros [= <- _]|]. intros H. apply bind_Error in H as [H|(t & w1 & _ & H)]; [done|].
  cbv zeta in H. destruct (_ && _) in H; [by injection H|]. destruct (_ || _); [|done].
  by apply bind_Error in H as [H|(? & ? & _ & H)].
Qed.

Lemma send_Error m w e w' : send m w = (Error e, w') -> e = EInfra.
Proof.
  unfold send, bind. destruct (fault_cases w) as (w0 & _ & [-> | ->]); [by intros [= <- _]|done].
Qed.

(** What follows the admission of a reset request never reads as the trail's
    failure. *)
Lemma forgot_told ctx email ip w : 
  exists r w', Account.ForgotPassword s ctx email ip w = (r, w') /\
    unavailable r = unavailable (fst (Calls.admitBeforeExternal (audits s) ctx
                      (Calls.event None "" "password_reset_requested" "" true "") w)).
Proof.
  destruct (Account.ForgotPassword s ctx email ip w) as [r w'] eqn:H. exists r, w'. split; [done|].
  unfold Account.ForgotPassword in H. cbv zeta in H. unfold bind at 1 in H.
  destruct (Calls.admitBeforeExternal _ _ _ w) as [[[]|e] w1]; simpl; [|by injection H as <- _].
  destruct r as [[]|e]; [done|]. apply bool_decide_eq_false. intros ->. apply bind_Error in H as [H|(o & w2 & _ & H)]; [by apply FindByEmail_Error in H|].
  destruct o as [u|]; [|done]. apply bind_Error in H as [H|(t & w3 & _ & H)];
    [by apply Issue_Error in H|by apply send_Error in H].
Qed.

(** C13: One answer does not tell what accounts there are, when no call fails.  Two
    worlds with the same store and clock, whatever users each has, answer the same
    login alike, if in neither it shows the password of a user who may sign in: by
    the velocity limit (429), by the captcha (400), and past them always by the same
    401, for unknown addresses, wrong passwords, unverified, disabled and locked
    accounts; unless the trail of one of them is not available (503).  The answer to
    a reset request, even with failing calls, depends on nothing but whether the
    trail admitted the request.  Over several requests the counters the gates read
    can tell accounts apart: only unknown addresses and wrong passwords feed them. *)
Theorem anonymous_uniform (c : GinCtx) (w : World) :
  (forall email password captcha w2,
     Bind.fields Bind.LoginRequest (r_body (g_req c)) = Some [email; password; captcha] ->
     alike w w2 -> w_op w = None -> w_op w2 = None ->
     ~ shows s (g_ctx c) email password w -> ~ shows s (g_ctx c) email password w2 ->
     let unavailable := Ok (mkResponse 503 (g_headers c) "durable audit unavailable" DNone) in
     let refused := Ok (refusal_reads (login_gate c email captcha w) c) in
     fst (Handlers.Login s c w) = unavailable \/ fst (Handlers.Login s c w2) = unavailable \/
     (fst (Handlers.Login s c w) = refused /\ fst (Handlers.Login s c w2) = refused)) /\
  (forall email,
     Bind.fields Bind.ForgotPasswordRequest (r_body (g_req c)) = Some [email] ->
     fst (Handlers.ForgotPassword s c w) = Ok (
       if unavailable (fst (Calls.admitBeforeExternal (audits s) (g_ctx c)
                              (Calls.event None "" "password_reset_requested" "" true "") w))
       then mkResponse 503 (g_headers c) "durable audit unavailable" DNone
       else mkResponse 200 (g_headers c) "if the email exists, a reset link has been sent" DNone)).
Proof.
  split.
  { intros email password captcha w2 Hb Ha Ho Ho2 Hn Hn2. cbv zeta. pose proof Ha as (_ & _ & Hc & Hc2).
    destruct (login_told c w email password captcha Hb Hc Ho Hn) as [H|H]; [by left|].
    destruct (login_told c w2 email password captcha Hb Hc2 Ho2 Hn2) as [H2|H2]; [by right; left|].
    rewrite (gate_blind _ _ _ _ _ Ha) in H2. by right; right. }
  intros email Hb.
  unfold Handlers.ForgotPassword, Bind.ShouldBindJSON. rewrite Hb. unfold bind, try_.
  destruct (forgot_told (g_ctx c) email (Handlers.ip c) w) as (r & w' & -> & Hr).
  rewrite <- Hr. destruct r as [[]|e]; [done|]. simpl. destruct (decide (e = ErrUnavailable)) as [->|He]; [done|].
  by rewrite bool_decide_false.
Qed.

End Claims.

(** ** Witness *)

Import Choices HttpDemo.

(** A login with a wrong password. *)
Definition demo_login : GinCtx :=
  Routes.start (HttpDemo.request "POST" ["api"; "v1"; "auth"; "login"] []
    (Some [("email", JText "alice@finn.io"); ("password", JText "Secret124")])).

(** The same service without any user. *)
Definition nobody : World := set_db (set_rows ([] : list User.row) Demo.db) Demo.start.

Definition reads (r : Res Response * World) : Z := match fst r with Ok x => code x | Error _ => 0 end.

Lemma anonymous_uniform_witness :
  fst (Handlers.Login Demo.service demo_login Demo.start) =
    Ok (mkResponse 401 (g_headers demo_login) "invalid email or password" DNone) /\
  fst (Handlers.Login Demo.service demo_login nobody) =
    Ok (mkResponse 401 (g_headers demo_login) "invalid email or password" DNone).
Proof.
  destruct (proj1 (anonymous_uniform Demo.service demo_login Demo.start) "alice@finn.io" "Secret124" "" nobody)
    as [H|[H|H]].
  - vm_reflexivity.
  - repeat split.
  - reflexivity.
  - reflexivity.
  - intros (u & Hu & [_ _ _ _ [_ Hp]]). assert (u = Demo.alice) as -> by (vm_compute in Hu; by injection Hu as <-).
    by vm_compute in Hp.
  - intros (u & Hu & _). by vm_compute in Hu.
  - exfalso. assert (reads (Handlers.Login Demo.service demo_login Demo.start) = 401) as Hc by vm_reflexivity.
    unfold reads in Hc. by rewrite H in Hc.
  - exfalso. assert (reads (Handlers.Login Demo.service demo_login nobody) = 401) as Hc by vm_reflexivity.
    unfold reads in Hc. by rewrite H in Hc.
  - exact H.
Defined.
