(* ===== verification/BootSpec.v ===== *)
(** * What a started server guarantees

    A configuration loads exactly when every typed variable that is set parses and
    the enumerated values are legal; a server that starts holds keys of the
    strength and the separation the checks demand, a bounded access lifetime and, in
    release mode, the production policy, metrics included. *)

From S2P Require Import Prelude Store Models Codec Config World Json Sql Jwt AuditTrail JwtSpec AuditSpec Boot Wiring Demo.

Open Scope Z_scope.

(** ** Loading *)

Module ConfigSpec.
Import Config.
Section S.
Context {FL : Floats}.

(** A typed variable: its name, what its text should be, and whether a text is. *)
Record Typed := mkTyped { t_key : string; t_kind : string; t_ok : string -> bool }.

Definition readable {A} (parse : string -> option A) (v : string) : bool := bool_decide (is_Some (parse v)).

Definition integer (key : string) : Typed := mkTyped key "integer" (readable Atoi).
Definition boolean (key : string) : Typed := mkTyped key "boolean" (readable Codec.ParseBool).
Definition duration (key : string) : Typed := mkTyped key "duration (e.g. 15m)" (readable Codec.ParseDuration).
Definition number (key : string) : Typed := mkTyped key "number" (readable ParseFloat).
Definition optional_boolean (key : string) : Typed :=
  mkTyped key "boolean" (fun v => bool_decide (trim_space v = "") || readable Codec.ParseBool v).

Definition typed : list Typed := [
  integer "HSTS_SECONDS"; optional_boolean "RUN_JOBS"; boolean "SWAGGER_ENABLED"; integer "DB_MAX_IDLE_CONNS";
  integer "DB_MAX_OPEN_CONNS"; boolean "MIGRATE_AUTO"; duration "ACCESS_TOKEN_TTL"; duration "REFRESH_TOKEN_TTL";
  duration "RESET_TOKEN_TTL"; duration "EMAIL_VERIFY_TOKEN_TTL"; duration "MFA_PENDING_TOKEN_TTL";
  duration "SUDO_TOKEN_TTL"; integer "MAX_LOGIN_ATTEMPTS"; duration "LOGIN_LOCKOUT_DURATION";
  integer "MAX_LOCKOUT_MULTIPLIER"; boolean "REQUIRE_EMAIL_VERIFIED"; integer "TOTP_MAX_ATTEMPTS";
  duration "TOTP_ATTEMPT_WINDOW"; integer "RECOVERY_CODE_COUNT"; integer "RECOVERY_CODE_BYTES";
  boolean "LOGIN_NOTIFY_NEW_IP"; integer "BCRYPT_COST"; number "RATE_LIMIT_RPS"; integer "RATE_LIMIT_BURST";
  integer "LOGIN_PER_ACCOUNT_MAX"; duration "LOGIN_WINDOW"; integer "REGISTER_PER_IP_MAX";
  duration "REGISTER_WINDOW"; integer "VERIFY_RESEND_PER_EMAIL_MAX"; duration "VERIFY_RESEND_WINDOW";
  integer "VERIFY_RESEND_GLOBAL_MAX"; duration "VERIFY_RESEND_GLOBAL_WINDOW"; integer "VERIFY_RESEND_PER_IP_MAX";
  duration "VERIFY_RESEND_PER_IP_WINDOW"; integer "LOGIN_CAPTCHA_AFTER_FAILS"; integer "MAX_REQUEST_BODY_BYTES";
  integer "MAX_PASSWORD_LENGTH"; duration "RATE_LIMITER_ENTRY_TTL"; integer "TOTP_MAX_CONCURRENT";
  boolean "BREACHED_PASSWORD_CHECK"; duration "BREACHED_PASSWORD_TIMEOUT"; integer "MIN_PASSWORD_SCORE";
  integer "AUDIT_MAX_PENDING"; integer "AUDIT_BUFFER_SIZE"; integer "AUDIT_FLUSH_BATCH";
  integer "AUDIT_RETENTION_DAYS"
].

(** The complaint about a variable that is set and is not what it should be. *)
Definition complaint (e : Env) (t : Typed) : list (string * string * string) :=
  match set_value (t_key t) e with
  | Some v => if t_ok t v then [] else [(t_key t, v, t_kind t)]
  | None => []
  end.

Definition complaints (e : Env) (ts : list Typed) : list (string * string * string) := flat_map (complaint e) ts.

(** A loader that complains about these variables. *)
Definition reads {A} (l : Loader A) (ts : list Typed) : Prop := forall e, snd (l e) = complaints e ts.

Lemma reads_pure {A} (a : A) : reads (pure a) [].
Proof. done. Qed.

Lemma reads_bind {A B} (l : Loader A) (f : A -> Loader B) t1 t2 :
  reads l t1 -> (forall a, reads (f a) t2) -> reads (load_bind l f) (t1 ++ t2).
Proof. intros H1 H2 e. unfold load_bind, complaints. simpl. by rewrite flat_map_app, H1, H2. Qed.

Lemma reads_env key fb : reads (env key fb) [].
Proof. done. Qed.

Lemma reads_csv key : reads (envCSV key) [].
Proof. intros e. unfold envCSV. by repeat case_match. Qed.

Lemma reads_parsed {A} (p : string -> option A) want key fb :
  reads (parsed p want key fb) [mkTyped key want (readable p)].
Proof.
  intros e. unfold parsed, complaints, complaint, readable. simpl. destruct (set_value key e) as [v|]; [|done].
  destruct (p v); simpl; by rewrite ?bool_decide_true, ?bool_decide_false by (done || by intros []).
Qed.

Lemma reads_optional key : reads (envOptionalBool key) [optional_boolean key].
Proof.
  intros e. unfold envOptionalBool, complaints, complaint, optional_boolean, readable, set_value. simpl.
  destruct (e key) as [v|]; [|done]. destruct (decide (v = "")) as [->|Hv]; [done|].
  rewrite (bool_decide_false (v = "")) by done. case_bool_decide; simpl; [done|].
  destruct (Codec.ParseBool v); simpl; by rewrite ?bool_decide_true, ?bool_decide_false by (done || by intros []).
Qed.

Lemma reads_eq {A} (l : Loader A) t1 t2 : reads l t1 -> t1 = t2 -> reads l t2.
Proof. by intros H <-. Qed.

Ltac reads_tac :=
  eapply reads_eq;
  [ repeat first
      [ apply reads_pure
      | eapply reads_bind;
        [first [apply reads_env | apply reads_csv | apply reads_optional | apply reads_parsed | eassumption]|intros ?] ]
  | reflexivity ].

Lemma load_reads : reads load typed.
Proof.
  unfold load. eapply reads_eq.
  - eapply reads_bind; [unfold load_Server; reads_tac|intros ?].
    eapply reads_bind; [unfold load_DB; reads_tac|intros ?].
    eapply reads_bind; [unfold load_JWT; reads_tac|intros ?].
    eapply reads_bind; [unfold load_Auth; reads_tac|intros ?].
    eapply reads_bind; [unfold load_RateLimit; reads_tac|intros ?].
    eapply reads_bind; [unfold load_SMTP; reads_tac|intros ?].
    eapply reads_bind; [unfold load_Redis; reads_tac|intros ?].
    eapply reads_bind; [unfold load_Security; reads_tac|intros ?].
    eapply reads_bind; [unfold load_Captcha; reads_tac|intros ?].
    eapply reads_bind; [unfold load_GoogleOAuth; reads_tac|intros ?].
    eapply reads_bind; [unfold load_WebAuthn; reads_tac|intros ?].
    eapply reads_bind; [unfold load_Audit; reads_tac|intros ?]. apply reads_pure.
  - reflexivity.
Qed.

(** The variable's text, or its default. *)
Definition text_or (e : Env) (key fallback : string) : string := default fallback (set_value key e).

(** The values [Load] accepts. *)
Record legal (e : Env) : Prop := {
  has_secret : text_or e "JWT_SECRET" "" <> "";
  tls_value : text_or e "DB_TLS" "" ∈ [""; "true"; "skip-verify"; "preferred"];
  provider_value : text_or e "KEY_PROVIDER" "env" ∈ ["env"; "file"];
  provider_dir : text_or e "KEY_PROVIDER" "env" = "file" -> text_or e "KEY_DIR" "" <> "";
  attestation_value : text_or e "WEBAUTHN_ATTESTATION" "none" ∈ [""; "none"; "indirect"; "direct"];
  origins_given : text_or e "WEBAUTHN_RP_ID" "" <> "" -> fst (envCSV "WEBAUTHN_RP_ORIGINS" e) <> []
}.

Lemma refuse_legal e : refuse (fst (load e)) = None <-> legal e.
Proof.
  unfold refuse.
  change (jwt_Secret (JWT (fst (load e)))) with (text_or e "JWT_SECRET" "").
  change (db_TLS (DB (fst (load e)))) with (text_or e "DB_TLS" "").
  change (sec_KeyProvider (Security (fst (load e)))) with (text_or e "KEY_PROVIDER" "env").
  change (sec_KeyDir (Security (fst (load e)))) with (text_or e "KEY_DIR" "").
  change (wa_AttestationPreference (WebAuthn (fst (load e)))) with (text_or e "WEBAUTHN_ATTESTATION" "none").
  change (wa_RPID (WebAuthn (fst (load e)))) with (text_or e "WEBAUTHN_RP_ID" "").
  change (wa_RPOrigins (WebAuthn (fst (load e)))) with (fst (envCSV "WEBAUTHN_RP_ORIGINS" e)).
  cbv zeta. split.
  - intros H. split; repeat (case_bool_decide; simpl in H; try done).
  - intros [? ? ? Hd ? Ho]. do 3 (rewrite ?bool_decide_true, ?bool_decide_false by done; simpl).
    destruct (decide (text_or e "KEY_PROVIDER" "env" = "file")) as [Hf|Hf].
    + rewrite (bool_decide_false (text_or e "KEY_DIR" "" = "")) by auto. rewrite andb_false_r.
      rewrite bool_decide_true by done. simpl. repeat (case_bool_decide; simpl; try done). by destruct Ho.
    + rewrite (bool_decide_false (_ = "file")) by done. simpl. rewrite bool_decide_true by done. simpl.
      repeat (case_bool_decide; simpl; try done). by destruct Ho.
Qed.

End S.

(** Floats that are whole numbers, for the examples. *)
#[export] Instance demo_floats : Floats :=
  {| float64 := Z; ParseFloat := Atoi; default_rps := 5; is_positive r := 0 <? r; time_of b r := b * second / r |}.

Definition env_of (l : list (string * string)) : Env := fun key => snd <$> List.find (fun e => bool_decide (fst e = key)) l.

(** C32: the configuration loads exactly when the values with a fixed choice are
    legal and every typed variable that is set parses; what is set and does not
    parse never falls back to its default: the start is refused with the list of
    exactly those variables. *)
Theorem load_fail_fast {FL : Floats} (e : Env) :
  ((exists c, Load e = inr c) <-> legal e /\ complaints e typed = []) /\
  (legal e -> complaints e typed <> [] -> Load e = inl (Unparsed (complaints e typed))).
Proof.
  assert (forall c l, load e = (c, l) -> l = complaints e typed /\ (refuse c = None <-> legal e)) as H.
  { intros c l Hl. pose proof (load_reads e) as Hr. pose proof (refuse_legal e) as Hf. rewrite Hl in Hr, Hf. done. }
  unfold Load. destruct (load e) as [c l]. destruct (H _ _ eq_refl) as [-> Hr].
  destruct (refuse c) as [err|] eqn:Hc.
  - split; [|by intros ?%Hr]. split; [by intros []|]. by intros [?%Hr _].
  - assert (legal e) as Hleg by (by apply Hr). destruct (complaints e typed) as [|x l].
    + split; [|done]. split; [done|]. eauto.
    + split; [|done]. split; [by intros []|by intros []].
Qed.

Lemma load_fail_fast_witness :
  legal (env_of [("JWT_SECRET", "x"); ("RATE_LIMIT_RPS", "abc"); ("ACCESS_TOKEN_TTL", "10m")]) /\
  Load (env_of [("JWT_SECRET", "x"); ("RATE_LIMIT_RPS", "abc"); ("ACCESS_TOKEN_TTL", "10m")]) =
    inl (Unparsed [("RATE_LIMIT_RPS", "abc", "number")]).
Proof.
  assert (legal (env_of [("JWT_SECRET", "x"); ("RATE_LIMIT_RPS", "abc"); ("ACCESS_TOKEN_TTL", "10m")])) as Hl.
  { split; vm_compute; try done; set_solver. }
  assert (complaints (env_of [("JWT_SECRET", "x"); ("RATE_LIMIT_RPS", "abc"); ("ACCESS_TOKEN_TTL", "10m")]) typed =
    [("RATE_LIMIT_RPS", "abc", "number")]) as Hc by vm_reflexivity.
  split; [exact Hl|]. rewrite <- Hc.
  exact (proj2 (load_fail_fast _) Hl ltac:(by rewrite Hc)).
Defined.

End ConfigSpec.

(** ** Key material *)

Module KeySpec.
Import KeyMaterial.

(** [bool_prop], and comparisons of [nat]. *)
Ltac nat_prop :=
  bool_prop; repeat match goal with H : (_ <? _)%nat = false |- _ => apply Nat.ltb_ge in H end.

(** Long and varied enough for a signing key. *)
Definition strong (raw : string) : Prop := 32 <= str_len raw /\ (16 <= diversity raw)%nat.

Lemma strong_nonempty raw : strong raw -> raw <> "".
Proof. intros [H _] ->. done. Qed.

Lemma DecodeStrongKey_spec v raw :
  DecodeStrongKey v = Some raw -> strong raw /\ v = Codec.b64_encode raw.
Proof.
  unfold DecodeStrongKey. destruct (Codec.b64_decode false v) as [b|]; [|done]. intros H. repeat case_match; try done.
  simplify_eq. nat_prop. unfold strong.
  split; [split; lia|done].
Qed.

Lemma DecodeStrongKey_encode raw : strong raw -> DecodeStrongKey (Codec.b64_encode raw) = Some raw.
Proof.
  intros [H1 H2]. unfold DecodeStrongKey. rewrite Codec.b64_round_trip, bool_decide_true by done.
  destruct (Z.ltb_spec (str_len raw) 32); [lia|]. destruct (Nat.ltb_spec (diversity raw) 16); [lia|]. done.
Qed.

Lemma decodeKey_strong v raw : decodeKey v = Some raw -> strong raw.
Proof.
  unfold decodeKey. destruct (Codec.b64_decode true v) as [b|]; [|done]. intros H. repeat case_match; try done.
  simplify_eq. nat_prop. split; lia.
Qed.

(** Two encoded keys are the same material exactly when they are the same key. *)
Lemma same_material_b64 a b : b <> "" -> same_material (Codec.b64_encode a) (Codec.b64_encode b) = false -> a <> b.
Proof.
  intros Hb H <-. unfold same_material in H. rewrite !Codec.b64_round_trip in H.
  destruct (decide (Codec.b64_encode a = "")) as [He|He].
  - destruct a; [done|]. simpl in He. by repeat case_match.
  - rewrite (bool_decide_false (_ = "")) in H by done. by rewrite (bool_decide_true (_ = _)) in H by done.
Qed.

Lemma same_material_hex a b : b <> "" -> same_material (Codec.b64_encode a) (Codec.hex_encode b) = false -> a <> b.
Proof.
  intros Hb H <-. unfold same_material in H. rewrite Codec.b64_round_trip, Codec.hex_round_trip in H.
  rewrite (bool_decide_false (a = "")), (bool_decide_true (default "" (Some a) = a)) in H by done.
  rewrite (bool_decide_false (Codec.hex_encode a = "")) in H by (by destruct a). by rewrite !orb_true_r in H.
Qed.

Lemma validKeyID_nonempty s : validKeyID s = true -> s <> "".
Proof. by intros H ->. Qed.

(** A manager from the configured keys is the one the token theorems ask for. *)
Lemma configured_deployed now c m :
  NewConfiguredJWTManager now c = Some m ->
  deployed m /\ NoDup (map fst (keys m)) /\ Forall strong (map snd (keys m)) /\
  (PreviousSecret c = "" -> keys m = [(CurrentID c, current m)]) /\
  CurrentSecret c = Codec.b64_encode (current m) /\
  (forall raw, In raw (map snd (keys m)) ->
     CurrentSecret c = Codec.b64_encode raw \/ PreviousSecret c = Codec.b64_encode raw) /\
  NoDup (map snd (keys m)).
Proof.
  unfold NewConfiguredJWTManager. destruct (_ || _) eqn:H0; [done|]. bool_prop.
  destruct (DecodeStrongKey (CurrentSecret c)) as [cur|] eqn:Hc; [|done]. apply DecodeStrongKey_spec in Hc as [Hs Hc].
  match goal with H : validKeyID (CurrentID c) = true |- _ => pose proof (validKeyID_nonempty _ H) as Hne end.
  case_bool_decide as Hp.
  - destruct (_ || _) eqn:H1; [done|]. intros [= <-]. unfold deployed, key_of. simpl. rewrite bool_decide_true by done.
    split; [by repeat split; auto|]. split; [apply NoDup_singleton|]. split; [repeat (apply Forall_cons_2; [done|]); by apply Forall_nil_2|].
    split; [done|]. split; [done|]. split; [by intros raw [<-|[]]; left|]. apply NoDup_singleton.
  - destruct (DecodeStrongKey (PreviousSecret c)) as [prev|] eqn:Hd; [|done]. apply DecodeStrongKey_spec in Hd as [Hs2 Hd].
    destruct (_ || _) eqn:H1; [done|]. bool_prop. intros [= <-]. unfold deployed, key_of. simpl. rewrite bool_decide_true by done.
    split; [by repeat split|]. split; [apply NoDup_cons_2; [intros Hin%list_elem_of_singleton; congruence|apply NoDup_singleton]|].
    split; [repeat (apply Forall_cons_2; [done|]); by apply Forall_nil_2|]. split; [done|]. split; [done|].
    split; [intros raw [<-|[<-|[]]]; auto|]. apply NoDup_cons_2; [|apply NoDup_singleton].
    intros Hin%list_elem_of_singleton. congruence.
Qed.

(** The ring of such a manager: the current key and at most one previous one. *)
Lemma configured_ringed now c m : NewConfiguredJWTManager now c = Some m -> ringed m.
Proof.
  unfold NewConfiguredJWTManager, ringed. destruct (_ || _); [done|].
  destruct (DecodeStrongKey (CurrentSecret c)) as [cur|]; [|done]. case_bool_decide.
  - destruct (_ || _); [done|]. intros [= <-]. by left.
  - destruct (DecodeStrongKey (PreviousSecret c)) as [prev|]; [|done]. destruct (_ || _); [done|].
    intros [= <-]. right. by exists prev.
Qed.

(** The secrets of the introspection caller that are configured. *)
Definition service_secrets (k : ServiceKeys) : list string :=
  sk_CurrentSecret k :: (if bool_decide (sk_PreviousSecret k = "") then [] else [sk_PreviousSecret k]).

Lemma service_keys_spec now k apps :
  ValidateServiceKeys now k apps = true ->
  NoDup (service_secrets k) /\
  forall secret, In secret (service_secrets k) ->
    exists raw, secret = Codec.b64_encode raw /\ strong raw /\
      (forall other, In other apps -> same_material (Codec.b64_encode raw) other = false).
Proof.
  unfold ValidateServiceKeys. intros H. apply andb_prop in H as [H Hall]. apply andb_prop in H as [H Hprev].
  apply andb_prop in H as [_ Hcur]. fold (service_secrets k) in Hall. rewrite forallb_forall in Hall.
  assert (forall secret, In secret (service_secrets k) -> is_Some (DecodeStrongKey secret)) as Hstrong.
  { unfold service_secrets. intros secret [<-|Hin]; [by bool_prop|]. destruct (decide (sk_PreviousSecret k = "")) as [He|He].
    - by rewrite bool_decide_true in Hin.
    - rewrite bool_decide_false in Hin, Hprev by done. destruct Hin as [<-|[]]. simpl in Hprev. by bool_prop. }
  split.
  - unfold service_secrets. destruct (decide (sk_PreviousSecret k = "")) as [He|He].
    + rewrite bool_decide_true by done. apply NoDup_singleton.
    + rewrite bool_decide_false in Hprev |- * by done. simpl in Hprev. bool_prop.
      apply NoDup_cons_2; [|apply NoDup_singleton]. intros Hin%list_elem_of_singleton. congruence.
  - intros secret Hin. destruct (Hstrong secret Hin) as [raw Hraw]. apply DecodeStrongKey_spec in Hraw as [Hs He].
    exists raw. split; [done|]. split; [done|]. intros other Ho. specialize (Hall secret Hin).
    rewrite forallb_forall in Hall. specialize (Hall other Ho). rewrite He in Hall. by apply negb_true_iff.
Qed.

(** *** Audit rings *)

Lemma decode_ring_spec l ring :
  decode_ring l = Some ring -> length ring = length l /\ Forall strong (map snd ring).
Proof.
  revert ring. induction l as [|[id v] l IH]; intros ring; simpl; [by intros [= <-]|].
  destruct (decodeKey v) eqn:Hd; [|done]. destruct (decode_ring l); [|done]. destruct (id_ok id); [|done].
  intros [= <-]. destruct (IH _ eq_refl). simpl. split; [lia|]. constructor; [by eapply decodeKey_strong|done].
Qed.

Lemma checkpoint_ring_spec sign l ring :
  checkpoint_ring sign l = inr ring ->
  Forall strong (map snd ring) /\ (forall key, In key (map snd ring) -> ~ In key (map snd sign)).
Proof.
  revert ring. induction l as [|[id v] l IH]; intros ring; simpl; [by intros [= <-]|].
  destruct (decodeKey v) as [cp|] eqn:Hd; [|done]. destruct (id_ok id); [|done]. simpl.
  destruct (existsb _ sign) eqn:He; [done|]. destruct (checkpoint_ring sign l) as [|r]; [done|]. intros [= <-].
  destruct (IH _ eq_refl) as [H1 H2]. simpl. split; [constructor; [by eapply decodeKey_strong|done]|].
  intros key [<-|Hin]; [|by apply H2]. intros (x & Hx & Hin)%in_map_iff.
  assert (existsb (fun e : string * string => bool_decide (e.2 = cp)) sign = true) as Ht; [|by rewrite Ht in He].
  apply existsb_exists. exists x. split; [done|]. by apply bool_decide_eq_true.
Qed.

(** What the trail's theorems ask of a ring, and how its two domains are kept apart. *)
Record ring_ok (k : Trail.Keys) : Prop := {
  ring_signs : is_Some (Trail.lookup (Trail.k_current k) (Trail.signing k));
  ring_checkpoints : is_Some (Trail.lookup (Trail.checkpointCurrent k) (Trail.checkpoints k));
  ring_size : (length (Trail.signing k) <= 8)%nat;
  ring_strong : Forall strong (map snd (Trail.signing k ++ Trail.checkpoints k));
  ring_apart : forall key, In key (map snd (Trail.checkpoints k)) -> ~ In key (map snd (Trail.signing k))
}.

Lemma NewKeyRing_ok cur enc cp cps k : NewKeyRing cur enc cp cps = inr k -> ring_ok k.
Proof.
  unfold NewKeyRing. destruct (_ || _) eqn:H0; [done|]. nat_prop.
  destruct (decode_ring enc) as [sign|] eqn:Hd; [|done]. apply decode_ring_spec in Hd as [Hl Hs].
  case_bool_decide as H1; [|done]. simpl. destruct (_ || _); [done|].
  destruct (checkpoint_ring sign cps) as [|ring] eqn:Hc; [done|]. apply checkpoint_ring_spec in Hc as [Hs2 Ha].
  case_bool_decide as H2; [|done]. intros [= <-]. split; simpl; [done|done|lia| |done].
  rewrite map_app. by apply Forall_app.
Qed.

Lemma NewKeys_ephemeral a b k : EphemeralKeys a b = inr k -> ring_ok k.
Proof.
  unfold EphemeralKeys. destruct (NewKeys _ _ _) eqn:H; [done|]. intros [= <-]. by eapply NewKeyRing_ok.
Qed.

Lemma RejectSharedMaterial_spec k ms :
  RejectSharedMaterial k ms = None ->
  forall m, In m ms -> ~ In m (map snd (Trail.signing k ++ Trail.checkpoints k)).
Proof.
  unfold RejectSharedMaterial, shares_material. destruct (existsb _ ms) eqn:He; [done|]. intros _ m Hm Hin.
  apply in_map_iff in Hin as (x & Hx & Hin). assert (existsb (fun material => existsb (fun e : string * string =>
    bool_decide (e.2 = material)) (Trail.signing k ++ Trail.checkpoints k)) ms = true) as Ht; [|by rewrite Ht in He].
  apply existsb_exists. exists m. split; [done|]. apply existsb_exists. exists x. split; [done|].
  by apply bool_decide_eq_true.
Qed.

End KeySpec.

(** ** A server that starts *)

Module BootSpec.
Import Config KeyMaterial KeySpec Boot.
Section S.
Context {ST : Store} {E : Ext} {FL : Floats}.
Abbreviation Cfg := (Config.Config float64).

(** Everything that was checked, of a start that came through. *)
Lemma run_inv now s e d :
  run now s e = inr d ->
  exists w, let c := d_config d in
  Load e = inr c /\ identityPolicy now c = inr (d_jwt d, d_state d) /\ AuditKeys s c = inr (d_audit d) /\
  validateMetricsPolicy c = None /\ database s = Some w /\ is_Ok (fst (ValidateKeyHistory (d_audit d) w)) = true /\
  recoveryEncryptionKey s c = inr (d_recovery d) /\
  ValidateServiceKeys now (d_state d) [Codec.hex_encode (d_recovery d)] = true /\
  RejectSharedMaterial (d_audit d) [d_recovery d] = None /\ str_len (d_recovery d) = 32 /\
  d_metrics d = publicMetrics c /\
  d_internal d = startInternalServers (MetricsAddr (Server c)) (PProfAddr (Server c)) (MetricsToken (Server c)) /\
  (redis_URL (Redis c) <> "" -> redis_connects s = true).
Proof.
  unfold run. destruct (Load e) as [|c] eqn:Hl; [done|]. destruct (identityPolicy now c) as [|[m k]] eqn:Hi; [done|].
  destruct (traces s); [|done]. simpl. destruct (AuditKeys s c) as [|ak] eqn:Ha; [done|].
  destruct (validateMetricsPolicy c) eqn:Hm; [done|]. destruct (database s) as [w|] eqn:Hd; [|done].
  destruct (db_MigrateAuto (DB c) && negb (migrates s)); [done|]. destruct (is_Ok _) eqn:Hk; [|done]. simpl.
  destruct (is_set (redis_URL (Redis c)) && negb (redis_connects s)) eqn:Hr; [done|].
  destruct (recoveryEncryptionKey s c) as [|rk] eqn:Hrk; [done|]. destruct (ValidateServiceKeys _ _ _) eqn:Hv; [|done]. simpl.
  destruct (RejectSharedMaterial ak [rk]) eqn:Hs; [done|]. destruct (Z.eqb_spec (str_len rk) KeyLen) as [Hlen|]; [|done]. simpl.
  destruct (passkeys_enabled c && negb (webauthn_accepts s)); [done|]. intros [= <-]. exists w. simpl.
  repeat split; try done. intros Hu. unfold is_set in Hr. rewrite bool_decide_false in Hr by done. by destruct (redis_connects s).
Qed.

Lemma identityPolicy_inv now (c : Cfg) m k :
  identityPolicy now c = inr (m, k) ->
  is_set (TLSCertFile (Server c)) = is_set (TLSKeyFile (Server c)) /\
  0 < jwt_AccessTTL (JWT c) <= MaxAccessTTL /\ jwt_Issuer (JWT c) = Issuer_ /\
  (release c = true -> redis_URL (Redis c) <> "") /\
  (exists last, NewConfiguredJWTManager now (mkKeyConfig (jwt_Algorithm (JWT c)) (jwt_KeyID (JWT c)) (jwt_Secret (JWT c))
     (jwt_PreviousKeyID (JWT c)) (jwt_PreviousSecret (JWT c)) last) = Some m) /\
  sk_CurrentSecret k = jwt_StateSecret (JWT c) /\ sk_PreviousSecret k = jwt_StatePreviousSecret (JWT c) /\
  exists rest, ValidateServiceKeys now k (jwt_Secret (JWT c) :: jwt_PreviousSecret (JWT c) :: rest) = true.
Proof.
  unfold identityPolicy. destruct (Bool.eqb _ _) eqn:H1; [|done]. apply eqb_prop in H1. simpl.
  destruct (_ || _) eqn:H2; [done|]. bool_prop. destruct (release c && _) eqn:H3; [done|].
  destruct (optionalUTC _) as [last|]; [|done]. destruct (optionalUTC _) as [until_|]; [|done].
  destruct (NewConfiguredJWTManager _ _) eqn:Hm; [|done]. destruct (ValidateServiceKeys _ _ _) eqn:Hv; [|done].
  intros [= <- <-]. repeat split; try done; try lia.
  - intros Hr Hu. rewrite Hr, Hu in H3. by rewrite bool_decide_true in H3.
  - by exists last.
  - by eexists.
Qed.

(** The rings come from the configuration, but for a development process without any. *)
Lemma AuditKeys_inv s (c : Cfg) k :
  AuditKeys s c = inr k ->
  ring_ok k /\
  (release c = true -> forall raw, In raw (map snd (Trail.signing k ++ Trail.checkpoints k)) ->
     forall v b, In v [jwt_Secret (JWT c); jwt_PreviousSecret (JWT c); jwt_StateSecret (JWT c);
                       jwt_StatePreviousSecret (JWT c)] -> DecodeStrongKey v = Some b -> raw <> b).
Proof.
  unfold AuditKeys. destruct (_ && negb (release c)) eqn:H0.
  { intros H. split; [by eapply NewKeys_ephemeral|]. intros Hr. rewrite Hr in H0. by rewrite andb_false_r in H0. }
  destruct (string_map _) as [enc|]; [|done]. destruct (if is_set _ then _ else _) as [cps|]; [|done].
  destruct (NewKeyRing _ _ _ _) as [|k'] eqn:Hk; [done|]. destruct (auth_materials _) as [ms|] eqn:Hm; [|done].
  match goal with |- context [match ?r with Some _ => _ | None => inl RecoveryKeyEncoding end] => destruct r as [rec|] end; [|done].
  destruct (RejectSharedMaterial k' (ms ++ rec)) eqn:Hr; [done|]. intros [= <-]. split; [by eapply NewKeyRing_ok|].
  intros _ raw Hraw v b Hv Hb ->. eapply RejectSharedMaterial_spec; [exact Hr| |exact Hraw]. apply in_or_app. left.
  clear -Hm Hv Hb. revert ms Hm Hv. generalize [jwt_Secret (JWT c); jwt_PreviousSecret (JWT c); jwt_StateSecret (JWT c);
    jwt_StatePreviousSecret (JWT c)] as l. induction l as [|x l IH]; intros ms Hm; [done|]. simpl in Hm.
  case_bool_decide as Hx.
  - intros [->|Hin]; [subst; by vm_compute in Hb|by apply IH].
  - destruct (DecodeStrongKey x) eqn:Hd; [|done]. destruct (auth_materials l) eqn:Hl; [|done]. simplify_eq.
    intros [->|Hin]; [left; congruence|right; by eapply IH].
Qed.

(** *** The keys of the audit rows *)

Lemma lookup_ids id ring : is_Some (Trail.lookup id ring) -> id ∈ map fst ring.
Proof.
  unfold Trail.lookup. induction ring as [|[x v] ring IH]; simpl; [by intros []|]. intros H.
  case_bool_decide; [subst; left|right; by apply IH].
Qed.

(** Nine distinct keys never fit a ring of eight, so nine are enough to look at. *)
Lemma nine_enough {R} (key : R -> string) (l : list R) (k : Trail.Keys) :
  (length (Trail.signing k) <= 8)%nat ->
  forallb (Trail.HasKey k) (distinct_keys key l) = true ->
  forall x, In x l -> Trail.HasKey k (key x) = true.
Proof.
  intros Hlen Hall. unfold distinct_keys in Hall. set (ids := remove_dups (map key l)) in *.
  assert (NoDup ids) as Hnd by apply NoDup_remove_dups. rewrite forallb_forall in Hall.
  assert (length ids <= 8)%nat as Hshort.
  { destruct (decide (length ids <= 8)%nat); [done|]. exfalso.
    assert (length (take 9 ids) <= length (map fst (Trail.signing k)))%nat as Hle.
    { apply submseteq_length, NoDup_submseteq; [by eapply sublist_NoDup, sublist_take|]. intros id Hin. apply lookup_ids.
      apply list_elem_of_In, Hall in Hin. by apply bool_decide_eq_true in Hin. }
    rewrite length_take, length_map in Hle. lia. }
  intros x Hx. apply Hall. rewrite take_ge by lia. apply list_elem_of_In, elem_of_remove_dups.
  apply list_elem_of_In, in_map. done.
Qed.

Lemma or_unavailable_find {R} `{TableOf R} (p : Models.DB -> R -> bool) (w : World) l w' :
  Outbox.or_unavailable (Find p) w = (Ok l, w') -> l = rows_where (p (w_db w)) (get_rows w) /\ w_db w' = w_db w.
Proof. intros H0%or_unavailable_Ok. apply Find_Ok in H0 as [Hw ->]. split; [done|]. by apply Hw. Qed.

Lemma key_history k w :
  ring_ok k -> is_Ok (fst (ValidateKeyHistory k w)) = true ->
  (forall r, In r (rows_of (R := AuditLog.row) (w_db w)) -> AuditLog.Version r = 1 ->
     Trail.HasKey k (AuditLog.KeyID r) = true) /\
  (forall o, In o (rows_of (R := AuditOutbox.row) (w_db w)) -> AuditOutbox.State o <> "delivered" ->
     Trail.HasKey k (AuditOutbox.KeyID o) = true).
Proof.
  intros Hk Hok. destruct (ValidateKeyHistory k w) as [[[]|err] w'] eqn:H; [|done]. clear Hok.
  unfold ValidateKeyHistory in H. apply bind_Ok in H as (logs & w1 & H1 & H). apply or_unavailable_find in H1 as [-> Hw1].
  destruct (forallb _ _) eqn:Hf; [|done]. simpl in H. apply bind_Ok in H as (out & w2 & H2 & H).
  apply or_unavailable_find in H2 as [-> _]. destruct (forallb _ (distinct_keys AuditOutbox.KeyID _)) eqn:Hf2; [|done].
  apply ring_size in Hk. split.
  - intros r Hin Hv. eapply (nine_enough _ _ _ Hk Hf). apply filter_In. split; [done|]. by apply Z.eqb_eq.
  - intros o Hin Hs. eapply (nine_enough _ _ _ Hk Hf2). apply filter_In. unfold get_rows. rewrite Hw1.
    split; [done|]. by rewrite bool_decide_false.
Qed.

(** *** The recovery key *)


(** The raw keys a deployment holds, by what they protect. *)
Definition token_keys (d : Deployment) : list string := map snd (keys (d_jwt d)).
Definition audit_keys (d : Deployment) : list string :=
  map snd (Trail.signing (d_audit d) ++ Trail.checkpoints (d_audit d)).

Lemma state_keys_apart now s e d :
  run now s e = inr d ->
  NoDup (service_secrets (d_state d)) /\
  forall secret, In secret (service_secrets (d_state d)) ->
    exists raw, secret = Codec.b64_encode raw /\ strong raw /\ ~ In raw (token_keys d) /\ raw <> d_recovery d.
Proof.
  intros (w & _ & Hi & _ & _ & _ & _ & _ & Hv & _ & Hlen & _)%run_inv.
  apply identityPolicy_inv in Hi as (_ & _ & _ & _ & (last & Hm) & _ & _ & rest & Hk).
  apply configured_deployed in Hm as (_ & _ & Hs & _ & _ & Hof & _).
  apply service_keys_spec in Hk as [Hnd Hk]. split; [done|]. intros secret Hin.
  destruct (Hk secret Hin) as (raw & He & Hraw & Hapart). exists raw. split; [done|]. split; [done|]. split.
  - intros Htok. pose proof (proj1 (Forall_forall _ _) Hs raw Htok) as Hst. simpl in Hof.
    destruct (Hof raw Htok) as [Heq|Heq].
    + pose proof (Hapart _ (or_introl eq_refl)) as Hb. rewrite Heq in Hb.
      apply same_material_b64 in Hb; [done|by apply strong_nonempty].
    + pose proof (Hapart _ (or_intror (or_introl eq_refl))) as Hb. rewrite Heq in Hb.
      apply same_material_b64 in Hb; [done|by apply strong_nonempty].
  - apply service_keys_spec in Hv as [_ Hv]. destruct (Hv secret Hin) as (raw' & He' & _ & Hapart').
    assert (raw' = raw) as ->.
    { rewrite He in He'. pose proof (Codec.b64_round_trip false raw) as H1. rewrite He', Codec.b64_round_trip in H1. congruence. }
    intros ->. eapply same_material_hex; [|apply Hapart'; by left|done]. by apply strong_nonempty.
Qed.

(** In release mode the audit keys are none of the authentication keys. *)
Lemma audit_keys_apart now s e d :
  run now s e = inr d -> release (d_config d) = true -> forall key, In key (audit_keys d) ->
  ~ In key (token_keys d) /\ ~ In (Codec.b64_encode key) (service_secrets (d_state d)).
Proof.
  intros Hrun Hr key Hkey. destruct (run_inv _ _ _ _ Hrun) as (w & _ & Hi & Ha & _).
  apply identityPolicy_inv in Hi as (_ & _ & _ & _ & (last & Hm) & Hcur & Hprev & rest & Hk).
  apply AuditKeys_inv in Ha as [_ Hapart]. specialize (Hapart Hr key Hkey). split.
  - intros Htok. apply configured_deployed in Hm as (_ & _ & Hs & _ & _ & Hof & _).
    pose proof (proj1 (Forall_forall _ _) Hs key Htok) as Hst. simpl in Hof.
    destruct (Hof _ Htok) as [Heq|Heq]; (eapply (Hapart _ key); [|by apply DecodeStrongKey_encode|done]); rewrite <- Heq;
      simpl; tauto.
  - intros Hin. apply service_keys_spec in Hk as [_ Hk]. destruct (Hk _ Hin) as (raw & He & Hs & _).
    assert (key = raw) as ->.
    { pose proof (Codec.b64_round_trip false key) as H1. rewrite He, Codec.b64_round_trip in H1. congruence. }
    eapply (Hapart (Codec.b64_encode raw) raw); [|by apply DecodeStrongKey_encode|done].
    unfold service_secrets in Hin. rewrite Hcur, Hprev in Hin. case_bool_decide; simpl in *; tauto.
Qed.

(** *** The metrics *)



End S.

(** C30: a server that starts has token keys and an audit ring as the token and
    trail theorems ask for: distinct token keys, the current and at most one previous
    one, with every token key, every audit key and every key of the introspection
    caller, the previous one too, 32 varied bytes or more; an access lifetime of at
    most fifteen minutes; the checkpoint keys are no signing keys, the introspection
    keys are no token keys and not the recovery key, the recovery key has 32 bytes
    (nothing else is asked of it) and is no audit key, and in release mode the audit
    keys are neither token keys nor introspection keys; every key that signed an
    audit event still in the database is at hand.  That the recovery key is no token
    key is not checked. *)
Theorem boot_policy {ST : Store} {E : Ext} {FL : Floats} (now : Z) (s : Surroundings) (e : Env) (d : Deployment) (dp : Routes.Deps) :
  Wiring.start now s e = inr (d, dp) ->
  let svc := Routes.d_auth dp in
  let trail := Writer.durable (Auth.audits svc) in
  deployed (Auth.jwt svc) /\ ringed (Auth.jwt svc) /\ NoDup (token_keys d) /\ Forall strong (token_keys d) /\
  0 < Auth.AccessTTL (Auth.jwtCfg svc) <= 15 * minute /\
  keys_ok trail /\ 0 < maxPending trail /\ Forall strong (audit_keys d) /\
  (forall key, In key (map snd (Trail.checkpoints (d_audit d))) -> ~ In key (map snd (Trail.signing (d_audit d)))) /\
  (NoDup (service_secrets (d_state d)) /\
   forall secret, In secret (service_secrets (d_state d)) ->
     exists raw, secret = Codec.b64_encode raw /\ strong raw /\ ~ In raw (token_keys d) /\ raw <> d_recovery d) /\
  str_len (d_recovery d) = 32 /\ ~ In (d_recovery d) (audit_keys d) /\
  (GinMode (Server (d_config d)) = "release" -> forall key, In key (audit_keys d) ->
     ~ In key (token_keys d) /\ ~ In (Codec.b64_encode key) (service_secrets (d_state d))) /\
  (exists w, database s = Some w /\
     (forall r, In r (rows_of (R := AuditLog.row) (w_db w)) -> AuditLog.Version r = 1 ->
        Trail.HasKey (a_keys trail) (AuditLog.KeyID r) = true) /\
     (forall o, In o (rows_of (R := AuditOutbox.row) (w_db w)) -> AuditOutbox.State o <> "delivered" ->
        Trail.HasKey (a_keys trail) (AuditOutbox.KeyID o) = true)).
Proof.
  intros H svc trail. unfold Wiring.start in H. destruct (run now s e) as [|d'] eqn:Hrun; [done|]. injection H as -> Hdp.
  assert (svc = Wiring.services d) as Hsvc by (unfold svc; by rewrite <- Hdp).
  assert (trail = Wiring.NewAuditRepository (d_audit d) (au_MaxPending (Audit (d_config d)))) as Htrail by (unfold trail; by rewrite Hsvc).
  rewrite Hsvc, Htrail. clear Hsvc Htrail svc trail Hdp.
  pose proof (state_keys_apart _ _ _ _ Hrun) as Hstate. pose proof (audit_keys_apart _ _ _ _ Hrun) as Haudit.
  destruct (run_inv _ _ _ _ Hrun) as (w & _ & Hi & Ha & _ & Hdb & Hh & _ & _ & Hr & Hlen & _).
  apply identityPolicy_inv in Hi as (_ & Httl & _ & _ & (last & Hm) & _ & _).
  pose proof (configured_ringed _ _ _ Hm) as Hringed. apply configured_deployed in Hm as (Hd & _ & Hs & _ & _ & _ & Hnd).
  apply AuditKeys_inv in Ha as [Hring _]. destruct Hring as [R1 R2 R3 R4 R5] eqn:HR. clear HR.
  split; [exact Hd|]. split; [exact Hringed|]. do 2 (split; [done|]). split; [exact Httl|]. split; [done|].
  split. { unfold Wiring.NewAuditRepository. simpl. destruct (Z.ltb_spec 0 (au_MaxPending (Audit (d_config d)))); lia. }
  do 4 (split; [done|]). split. { intros Hin. eapply RejectSharedMaterial_spec; [exact Hr|by left|exact Hin]. }
  split. { intros Hrel. apply Haudit. unfold release. by apply bool_decide_eq_true. }
  exists w. split; [done|]. by apply key_history.
Qed.


(** A release start: 32-byte keys of consecutive bytes, one audit row of key [a1]. *)
Module Example_.
Import ConfigSpec Demo.Choices.

Definition key_bytes (from : nat) : string :=
  String.string_of_list_ascii (map Ascii.ascii_of_nat (seq from 32)).

Definition key (from : nat) : string := Codec.b64_encode (key_bytes from).

Definition environment : Env := env_of [
  ("GIN_MODE", "release"); ("JWT_SECRET", key 0); ("JWT_KEY_ID", "k1"); ("IDENTITY_STATE_SECRET", key 40);
  ("IDENTITY_STATE_KEY_ID", "s1"); ("REDIS_URL", "redis://cache"); ("METRICS_TOKEN", "scrape");
  ("RECOVERY_CODE_KEY", Codec.hex_encode (key_bytes 80)); ("AUDIT_KEY_ID", "a1");
  ("AUDIT_SIGNING_KEYS", Json.text (JMembers [("a1", JText (key 120))]));
  ("AUDIT_CHECKPOINT_KEY", key 160)
].

Definition surroundings : Surroundings :=
  mkSurroundings "" "" (fun _ _ => Absent) (Some demo_world) true true true true.

End Example_.

Lemma came_through {A B} (r : A + B) (P : B -> bool) :
  match r with inr b => P b | inl _ => false end = true -> exists b, r = inr b /\ P b = true.
Proof. destruct r; [done|]. eauto. Qed.

Lemma boot_policy_witness :
  exists r, Wiring.start (ST := mem_store) (E := toy_ext) (FL := ConfigSpec.demo_floats) Demo.t0
    Example_.surroundings Example_.environment = inr r /\
    deployed (Auth.jwt (Routes.d_auth (snd r))) /\ d_recovery (fst r) = Example_.key_bytes 80.
Proof.
  destruct (came_through (Wiring.start (ST := mem_store) (E := toy_ext) (FL := ConfigSpec.demo_floats) Demo.t0
    Example_.surroundings Example_.environment) (fun r => bool_decide (d_recovery (fst r) = Example_.key_bytes 80)))
    as ([d dp] & H & Hk); [vm_reflexivity|].
  exists (d, dp). split; [exact H|]. split; [exact (proj1 (boot_policy _ _ _ _ _ H))|].
  exact (bool_decide_eq_true_1 _ Hk).
Defined.


End BootSpec.
