(* ===== verification/IntrospectSpec.v ===== *)
(** * What introspection answers

    [vouched]: what a caller and a token must show.  [Handle] says nothing of a
    token that is not vouched for but one of seven fixed texts, keeps no state but its rate counter, and lets no
    answer be cached. *)

From S2P Require Import Prelude Store Models World Json Sql Repos Jwt JwtSpec AuditTrail AuditSpec Boot Common Identity Http Handlers Webhook Endpoints Routes Demo IdentitySpec Evolve Frames SignInSpec HttpSpec.

Open Scope Z_scope.
Open Scope monad_scope.

Section S.
Context {ST : Store} {SL : StoreLaws ST} {E : Ext} {J : JwtLib} {W : Wire}.
Import Boot.KeyMaterial Introspection.







(** *** What it leaves alone *)





(** *** The answers *)











End S.


(** ** Witness *)

Import Choices.

Module IntroDemo.

(** Alice may read the chat through her role. *)
Definition db : DB :=
  mkDB (users Demo.db) [] [Demo.alice_session] [] [] [] [] [] [] [] Demo.tenants_
    [Role.mk 1 "default" "user"] [Permission.mk 1 "chat:read"] [RolePermission.mk 1 1] [UserRole.mk 1 1] [] [] [] [] [] [] 10.

Definition start : World := mkWorld Demo.t0 [] 0 0 db Mem.NewInMemoryStore None [].

Definition jake : Token :=
  match fst (IssueAccessV1 Toy.manager 1 "user" "alice@finn.io" (15 * minute) 0 0 "s1" "default" ["chat:read"] start) with
  | Ok t => t | Error _ => Text "" end.

Definition claims : Claims :=
  match VerifyAccessV1 Toy.manager Demo.t0 jake JakeAudience with Ok c => c | Error _ => Demo.claims end.

Definition wire : Wire := {|
  token_of s := if bool_decide (s = "jake-token") then jake else Text s;
  valid_email s := true;
  bind_message _ := "invalid request body";
  bucket_allow _ _ := true
|}.

Definition introspector : Introspection.Introspector :=
  Introspection.mkIntrospector Toy.manager (Boot.KeyMaterial.mkServiceKeys "s1" "service-key" "s0" "old-key" (Demo.t0 + hour)).

Definition asking (kid key tenant : string) : GinCtx :=
  Routes.start (mkRequest "POST" ["api"; "v1"; "identity"; "introspect"]
    [("X-Service-Key-ID", kid); ("Authorization", "Bearer " +:+ key)] [] [] "finn" "10.0.0.9" "10.0.0.9:1" true
    (mkBody 100 (Some [("token", JText "jake-token"); ("tenant_id", JText tenant)]) None)).

End IntroDemo.

Import IntroDemo.

Definition status (r : Res Response * World (ST := mem_store)) : option Z :=
  match fst r with Ok r => Some (code r) | Error _ => None end.

Example introspect_runs :
  map (fun x => status (Introspection.Handle (W := IntroDemo.wire) introspector
    (asking (fst (fst x)) (snd (fst x)) (snd x)) IntroDemo.start))
    [("s1", "service-key", "default"); ("s0", "old-key", "default"); ("s1", "old-key", "default"); ("s1", "service-key", "acme")]
  = [Some 200; Some 200; Some 401; Some 403].
Proof. vm_reflexivity. Qed.

