(* ===== verification/AuditBuffer.v ===== *)
(** * The buffered audit writer ([services/async_audit.go])

    [AsyncAuditWriter] over a repository that is not durable: the calls of
    [Record], the worker that inserts batches (or panics in an insert), and [Close],
    as the steps of their goroutines.  (Over the durable repository [Record] admits to the outbox:
    [AuditTrail].)  Entries are abstract but for their detail. *)

From S2P Require Import Prelude.

Open Scope nat_scope.

(** ** UTF-8 and the detail column *)

Module Detail.

Definition maxAuditDetail : nat := 500.

Definition between (lo hi : N) (a : Ascii.ascii) : bool := (lo <=? byte_of a)%N && (byte_of a <=? hi)%N.
Definition continues : Ascii.ascii -> bool := between 128 191.

(** The bytes of the first rune of a text, where it is well formed. *)
Definition rune (s : string) : option nat :=
  match s with
  | EmptyString => None
  | String a s1 =>
      if (byte_of a <? 128)%N then Some 1 else
      match s1 with
      | EmptyString => None
      | String b s2 =>
          if between 194 223 a then if continues b then Some 2 else None else
          match s2 with
          | EmptyString => None
          | String c s3 =>
              let second := if (byte_of a =? 224)%N then between 160 191 b
                            else if (byte_of a =? 237)%N then between 128 159 b else continues b in
              if between 224 239 a then if second && continues c then Some 3 else None else
              match s3 with
              | EmptyString => None
              | String d _ =>
                  let second := if (byte_of a =? 240)%N then between 144 191 b
                                else if (byte_of a =? 244)%N then between 128 143 b else continues b in
                  if between 240 244 a && second && continues c && continues d then Some 4 else None
              end
          end
      end
  end.

Fixpoint cut (n : nat) (s : string) : string :=
  match n, s with S n, String a s => String a (cut n s) | _, _ => "" end.

Fixpoint skip (n : nat) (s : string) : string :=
  match n, s with S n, String _ s => skip n s | _, _ => s end.

Fixpoint valid_runes (fuel : nat) (s : string) : bool :=
  match s with
  | EmptyString => true
  | _ => match fuel, rune s with S fuel, Some w => valid_runes fuel (skip w s) | _, _ => false end
  end.

(** [utf8.ValidString] *)
Definition ValidString (s : string) : bool := valid_runes (String.length s) s.

(** [for len(d) > 0 && !utf8.ValidString(d) { d = d[:len(d)-1] }] *)
Fixpoint back_off (n : nat) (s : string) : string :=
  match n with
  | O => ""
  | S m => if ValidString (cut n s) then cut n s else back_off m s
  end.

(** [truncateDetail] *)
Definition truncateDetail (detail : string) : string :=
  if String.length detail <=? maxAuditDetail then detail else back_off maxAuditDetail detail.

(** *** Its correctness *)

Lemma rune_width s w : rune s = Some w -> 1 <= w <= 4 /\ w <= String.length s.
Proof.
  unfold rune. destruct s as [|a [|b [|c [|d s]]]]; cbv zeta; repeat case_match; intros Hrun; simplify_eq; simpl; lia.
Qed.

(** A rune is told from its own bytes. *)
Lemma rune_cut s w n : rune s = Some w -> w <= n -> rune (cut n s) = Some w.
Proof.
  destruct s as [|a [|b [|c [|d s]]]], n as [|[|[|[|n]]]]; cbn [cut]; intros H Hn;
    try (apply rune_width in H as Hw; simpl in *; lia); unfold rune in *; cbv zeta in *;
    repeat case_match; simplify_eq; try lia; try done; congruence.
Qed.

Lemma length_cut n s : n <= String.length s -> String.length (cut n s) = n.
Proof. revert s. induction n as [|n IH]; intros [|a s]; simpl; intros H; try lia. rewrite IH; lia. Qed.

Lemma length_skip n s : String.length (skip n s) = String.length s - n.
Proof. revert s. induction n as [|n IH]; intros [|a s]; simpl; try lia. apply IH. Qed.

Lemma skip_cut w n s : w <= n -> skip w (cut n s) = cut (n - w) (skip w s).
Proof.
  revert n s. induction w as [|w IH]; intros n s H; [by rewrite Nat.sub_0_r|].
  destruct n as [|n]; [lia|]. destruct s as [|a s]; [by destruct (S n - S w)|]. simpl. apply IH. lia.
Qed.

Lemma valid_enough f1 : forall f2 s, String.length s <= f1 -> String.length s <= f2 -> valid_runes f1 s = valid_runes f2 s.
Proof.
  induction f1 as [|f1 IH]; intros f2 [|a s] H1 H2; cbn [String.length] in *; [by destruct f2|lia|by destruct f2|].
  destruct f2 as [|f2]; [lia|]. cbn [valid_runes]. destruct (rune (String a s)) as [w|] eqn:Hr; [|done].
  apply rune_width in Hr as [Hw _]. pose proof (length_skip w (String a s)) as Hl. cbn [String.length] in Hl.
  apply IH; lia.
Qed.

(** One rune, then the rest. *)
Lemma valid_step s w : rune s = Some w -> ValidString s = ValidString (skip w s).
Proof.
  intros Hr. pose proof (rune_width s w Hr) as [Hw Hl]. pose proof (length_skip w s) as Hk.
  unfold ValidString at 1. destruct s as [|a s]; [done|].
  change (String.length (String a s)) with (S (String.length s)) in *. cbn [valid_runes]. rewrite Hr.
  apply valid_enough; lia.
Qed.

Lemma valid_rune a s : ValidString (String a s) = true -> exists w, rune (String a s) = Some w.
Proof. unfold ValidString. cbn [String.length valid_runes]. destruct (rune (String a s)); [eauto|done]. Qed.

(** Within three bytes before any point of a valid text, a rune ends. *)
Lemma valid_near s : forall n, ValidString s = true -> n <= String.length s ->
  exists k, k <= 3 /\ k <= n /\ ValidString (cut (n - k) s) = true.
Proof.
  remember (String.length s) as l eqn:Hl. revert s Hl. induction l as [l IH] using lt_wf_ind. intros s -> n Hv Hn.
  destruct s as [|a s]; [exists 0; simpl in Hn; replace n with 0 by lia; repeat split; lia|].
  destruct (valid_rune a s Hv) as [w Hr]. pose proof (rune_width _ _ Hr) as [Hw Hlen].
  destruct (decide (n < w)) as [Hlt|Hge].
  { exists n. rewrite Nat.sub_diag. split; [lia|]. split; [lia|done]. }
  pose proof (length_skip w (String a s)) as Hk.
  destruct (IH (String.length (skip w (String a s)))) with (s := skip w (String a s)) (n := n - w) as (k & H3 & Hkn & Hvk);
    [lia|done|by rewrite <- (valid_step _ _ Hr)|lia|].
  exists k. split; [done|]. split; [lia|]. rewrite (valid_step _ w) by (apply rune_cut; [done|lia]).
  rewrite skip_cut by lia. by replace (n - k - w) with (n - w - k) by lia.
Qed.

Lemma back_off_near s j : forall n, j <= n -> ValidString (cut (n - j) s) = true ->
  exists m, back_off n s = cut m s /\ m <= n /\ n <= m + j /\ ValidString (cut m s) = true.
Proof.
  induction j as [|j IH]; intros [|n] Hj Hv; [by exists 0|rewrite Nat.sub_0_r in Hv|lia|].
  - exists (S n). cbn [back_off]. rewrite Hv. repeat split; lia || done.
  - cbn [back_off]. destruct (ValidString (cut (S n) s)) eqn:Hs; [exists (S n); repeat split; lia || done|].
    destruct (IH n) as (m & -> & H1 & H2 & H3); [lia|exact Hv|]. exists m. repeat split; lia || done.
Qed.

(** A valid text is cut to a valid one, a prefix of at most 500 bytes that stops
    less than four bytes short of the column; a text that fits is kept. *)
Theorem truncate_detail (s : string) :
  ValidString s = true ->
  ValidString (truncateDetail s) = true /\
  (exists m, truncateDetail s = cut m s /\ m <= maxAuditDetail /\
     (m = String.length s \/ (maxAuditDetail < String.length s /\ maxAuditDetail <= m + 3))).
Proof.
  intros Hv. unfold truncateDetail. destruct (Nat.leb_spec (String.length s) maxAuditDetail) as [Hl|Hl].
  - split; [done|]. exists (String.length s). split; [|split; [done|by left]].
    clear. by induction s as [|a s IH]; [|simpl; rewrite <- IH].
  - destruct (valid_near s maxAuditDetail Hv) as (k & Hk & Hkn & Hvk); [lia|].
    destruct (back_off_near s k maxAuditDetail Hkn Hvk) as (m & -> & H1 & H2 & H3). split; [done|]. exists m. split; [done|]. split; [done|]. right. lia.
Qed.

End Detail.

(** ** The goroutines *)

Module Buffered.

Record entry := mkEntry { event : string; detail : string }.

#[global] Instance entry_eq_dec : EqDecision entry.
Proof. solve_decision. Defined.

Definition truncated (e : entry) : entry := mkEntry (event e) (Detail.truncateDetail (detail e)).

(** [NewAsyncAuditWriter] without a durable repository: no buffer means synchronous. *)
Record Config := mkConfig { size : nat; flushBatch : nat }.

Definition syncMode (c : Config) : bool := size c =? 0.

Definition NewConfig (BufferSize FlushBatch : Z) : Config :=
  mkConfig (Z.to_nat BufferSize) (if (FlushBatch <=? 0)%Z then 64 else Z.to_nat FlushBatch).

(** What the goroutines share, what the worker holds, the calls of [Record] that
    read [closing] as unset and have not reached the channel; and, to state what
    becomes of them, the entries stored, counted as dropped, lost without a count,
    and recorded. *)
Record State := mkState {
  buffer : list entry; batch : list entry; sending : list entry;
  stored : list entry; dropped : list entry; lost : list entry; recorded : list entry;
  closing : bool; stopped : bool; draining : bool; exited : bool
}.

Definition NewState : State := mkState [] [] [] [] [] [] [] false false false false.

(** A batch insert stores some of the entries; the difference is counted. *)
Fixpoint inserted (kept : list bool) (l : list entry) : list entry * list entry :=
  match l with
  | [] => ([], [])
  | e :: l => let (i, d) := inserted (tl kept) l in if hd true kept then (e :: i, d) else (i, e :: d)
  end.

(** How an insert ends; the number it reports is that of the entries it stored. *)
Inductive Outcome := Inserted (kept : list bool) | Panicked (kept : list bool).

(** An insert that panics is recovered: the worker ends, and what it had not stored
    of the batch is counted nowhere. *)
Definition flush (o : Outcome) (s : State) : State :=
  match batch s, o with
  | [], _ => s
  | l, Inserted kept =>
      let (i, d) := inserted kept l in
      mkState (buffer s) [] (sending s) (stored s ++ i) (dropped s ++ d) (lost s) (recorded s)
        (closing s) (stopped s) (draining s) (exited s)
  | l, Panicked kept =>
      let (i, d) := inserted kept l in
      mkState (buffer s) [] (sending s) (stored s ++ i) (dropped s) (lost s ++ d) (recorded s)
        (closing s) (stopped s) (draining s) true
  end.

(** The worker takes an entry, and flushes a full batch. *)
Definition take_one (c : Config) (o : Outcome) (s : State) : option State :=
  match buffer s with
  | [] => None
  | e :: rest =>
      let s := mkState rest (batch s ++ [e]) (sending s) (stored s) (dropped s) (lost s) (recorded s)
                 (closing s) (stopped s) (draining s) (exited s) in
      Some (if flushBatch c <=? length (batch s) then flush o s else s)
  end.

Inductive Event :=
  | ERecord (e : entry) (ok : bool) (* a call of Record, up to its read of closing; a direct write succeeds or not *)
  | ESend (i : nat)                (* the select of the i-th of those calls *)
  | ETake (o : Outcome)            (* the worker receives *)
  | ETick (o : Outcome)            (* the worker's ticker *)
  | EClosing                       (* Close: closing.Store(true) *)
  | EStop                          (* Close: close(stopCh) *)
  | ESeeStop                       (* the worker sees stopCh *)
  | EExit (o : Outcome).           (* the drain found the buffer empty *)

Definition step (c : Config) (ev : Event) (s : State) : option State :=
  match ev with
  | ERecord e ok =>
      let e := truncated e in
      Some (if syncMode c || closing s
            then mkState (buffer s) (batch s) (sending s) (if ok then stored s ++ [e] else stored s) (dropped s)
                   (if ok then lost s else lost s ++ [e]) (recorded s ++ [e])
                   (closing s) (stopped s) (draining s) (exited s)
            else mkState (buffer s) (batch s) (sending s ++ [e]) (stored s) (dropped s) (lost s) (recorded s ++ [e])
                   (closing s) (stopped s) (draining s) (exited s))
  | ESend i =>
      match nth_error (sending s) i with
      | None => None
      | Some e =>
          let sending := firstn i (sending s) ++ skipn (S i) (sending s) in
          Some (if length (buffer s) <? size c
                then mkState (buffer s ++ [e]) (batch s) sending (stored s) (dropped s) (lost s) (recorded s)
                       (closing s) (stopped s) (draining s) (exited s)
                else mkState (buffer s) (batch s) sending (stored s) (dropped s ++ [e]) (lost s) (recorded s)
                       (closing s) (stopped s) (draining s) (exited s))
      end
  | ETake o => if syncMode c || exited s then None else take_one c o s
  | ETick o => if syncMode c || exited s || draining s then None else Some (flush o s)
  | EClosing =>
      if syncMode c then Some s else
      Some (mkState (buffer s) (batch s) (sending s) (stored s) (dropped s) (lost s) (recorded s) true (stopped s) (draining s) (exited s))
  | EStop =>
      if closing s then
        Some (mkState (buffer s) (batch s) (sending s) (stored s) (dropped s) (lost s) (recorded s) (closing s) true (draining s) (exited s))
      else None
  | ESeeStop =>
      if stopped s && negb (exited s) then
        Some (mkState (buffer s) (batch s) (sending s) (stored s) (dropped s) (lost s) (recorded s) (closing s) (stopped s) true (exited s))
      else None
  | EExit o =>
      match buffer s with
      | [] =>
          if draining s && negb (exited s) then
            let s := flush o s in
            Some (mkState (buffer s) (batch s) (sending s) (stored s) (dropped s) (lost s) (recorded s)
                    (closing s) (stopped s) (draining s) true)
          else None
      | _ => None
      end
  end.

Fixpoint run (c : Config) (evs : list Event) (s : State) : option State :=
  match evs with
  | [] => Some s
  | ev :: evs => match step c ev s with Some s => run c evs s | None => None end
  end.

(** ** What becomes of the entries *)

Lemma inserted_split kept l : Permutation l (fst (inserted kept l) ++ snd (inserted kept l)).
Proof.
  revert kept. induction l as [|e l IH]; intros kept; [done|]. cbn [inserted]. specialize (IH (tl kept)).
  destruct (inserted (tl kept) l) as [i d]. destruct (hd true kept); simpl in *; [by constructor|].
  rewrite <- Permutation_middle. by constructor.
Qed.

Definition everything (s : State) : list entry :=
  stored s ++ dropped s ++ lost s ++ buffer s ++ batch s ++ sending s.

(** Every recorded entry is in exactly one place, what is held is bounded, and an
    ended worker holds nothing. *)
Record sound (c : Config) (s : State) : Prop := {
  sd_places : Permutation (recorded s) (everything s);
  sd_buffer : length (buffer s) <= size c;
  sd_batch : length (batch s) <= flushBatch c;
  sd_sync : syncMode c = true -> buffer s = [] /\ batch s = [] /\ sending s = [];
  sd_exit : exited s = true -> batch s = [];
  sd_drain : draining s = true -> stopped s = true;
  sd_stop : stopped s = true -> closing s = true
}.

(** Places are compared by counting. *)
Lemma counted (l l' : list entry) :
  (forall e, count_occ entry_eq_dec l e = count_occ entry_eq_dec l' e) -> Permutation l l'.
Proof. intros H. by apply (Permutation_count_occ entry_eq_dec). Qed.

Lemma count_split kept l e :
  count_occ entry_eq_dec (fst (inserted kept l)) e + count_occ entry_eq_dec (snd (inserted kept l)) e =
  count_occ entry_eq_dec l e.
Proof.
  rewrite <- count_occ_app. symmetry. by apply (Permutation_count_occ entry_eq_dec), inserted_split.
Qed.

Lemma count_nth l i x e : nth_error l i = Some x ->
  count_occ entry_eq_dec l e = count_occ entry_eq_dec [x] e + count_occ entry_eq_dec (firstn i l ++ skipn (S i) l) e.
Proof.
  intros H. apply nth_error_split in H as (l1 & l2 & -> & <-).
  replace (skipn (S (length l1)) (l1 ++ x :: l2)) with l2.
  2: { rewrite skipn_app, skipn_all2 by lia. by replace (S (length l1) - length l1) with 1 by lia. }
  rewrite firstn_app, firstn_all, Nat.sub_diag. cbn [firstn]. rewrite app_nil_r, !count_occ_app. cbn [count_occ].
  destruct (entry_eq_dec x e); lia.
Qed.

Ltac count_places H :=
  let e := fresh "e" in apply counted; intros e; pose proof (proj1 (Permutation_count_occ entry_eq_dec _ _) H e) as Hc;
  unfold everything in *; simpl in *; rewrite ?count_occ_app in *; simpl in *.

Lemma flush_batch o s : batch (flush o s) = [].
Proof. unfold flush. destruct (batch s) eqn:Hb; [done|]. destruct o as [k|k]; by destruct (inserted k _). Qed.

Lemma flush_places o s : Permutation (recorded s) (everything s) ->
  Permutation (recorded (flush o s)) (everything (flush o s)).
Proof.
  intros P. unfold flush. destruct (batch s) as [|x l] eqn:Hb; [done|]. rewrite <- Hb.
  destruct o as [k|k]; pose proof (count_split k (batch s)) as Hs; destruct (inserted k (batch s)) as [i d];
    simpl in Hs; count_places P; specialize (Hs e); lia.
Qed.

(** What an insert leaves as it was. *)
Lemma flush_same o s : let s' := flush o s in
  buffer s' = buffer s /\ sending s' = sending s /\ recorded s' = recorded s /\ closing s' = closing s /\
  stopped s' = stopped s /\ draining s' = draining s.
Proof. unfold flush. destruct (batch s); [done|]. destruct o as [k|k]; by destruct (inserted k _). Qed.

Lemma flush_sound c o s : sound c s -> sound c (flush o s).
Proof.
  intros [P B1 B2 Sy Ex Dr St]. pose proof (flush_batch o s) as Hb. pose proof (flush_places o s P) as Hp.
  pose proof (flush_same o s) as (F1 & F2 & F3 & F4 & F5 & F6). split; [done|..]; rewrite ?Hb, ?F1, ?F2, ?F4, ?F5, ?F6;
    simpl; try done; try lia.
  intros H. by destruct (Sy H) as (? & _ & ?).
Qed.

Lemma record_sound c e ok s s' : sound c s -> step c (ERecord e ok) s = Some s' -> sound c s'.
Proof.
  intros [P B1 B2 Sy Ex Dr St] [= <-].
  destruct (syncMode c || closing s) eqn:Hg, ok; split; simpl; try assumption; try (count_places P; lia);
    intros H; by rewrite H in Hg.
Qed.

Lemma send_sound c i s s' : sound c s -> step c (ESend i) s = Some s' -> sound c s'.
Proof.
  intros [P B1 B2 Sy Ex Dr St] H. cbn [step] in H. destruct (nth_error (sending s) i) as [x|] eqn:Hn; [|done].
  assert (syncMode c <> true) as Hsy.
  { intros [_ [_ Hx]]%Sy. rewrite Hx in Hn. by destruct i. }
  pose proof (fun e => count_nth _ _ _ e Hn) as Hx. injection H as <-.
  destruct (Nat.ltb_spec (length (buffer s)) (size c)); split; simpl; try assumption; try (by intros ?%Hsy);
    try (rewrite length_app; simpl; lia); count_places P; specialize (Hx e); rewrite count_occ_app in Hx; simpl in Hx; lia.
Qed.

Lemma take_sound c o s s' : sound c s -> step c (ETake o) s = Some s' -> sound c s'.
Proof.
  intros Hs H. pose proof Hs as [P B1 B2 Sy Ex Dr St]. cbn [step] in H.
  destruct (syncMode c || exited s) eqn:Hg; [done|]. apply orb_false_iff in Hg as [Hsy Hex].
  unfold take_one in H. destruct (buffer s) as [|x rest] eqn:Hb; [done|]. cbv zeta in H.
  set (s1 := mkState _ _ _ _ _ _ _ _ _ _ _) in H.
  assert (Permutation (recorded s1) (everything s1)) as P1
    by (count_places P; rewrite Hb in Hc; simpl in Hc; destruct (entry_eq_dec x e); lia).
  destruct (Nat.leb_spec (flushBatch c) (length (batch s1))) as [Hf|Hf]; injection H as <-.
  - pose proof (flush_batch o s1) as Hb1. pose proof (flush_places o s1 P1) as Hp.
    pose proof (flush_same o s1) as (F1 & F2 & F3 & F4 & F5 & F6).
    split; [done|..]; rewrite ?Hb1, ?F1, ?F2, ?F4, ?F5, ?F6; simpl; try assumption; try (simpl in B1; lia); congruence.
  - split; simpl; try assumption; try (simpl in *; lia); congruence.
Qed.

Lemma step_sound c ev s s' : sound c s -> step c ev s = Some s' -> sound c s'.
Proof.
  intros Hs H. destruct ev as [e ok|i|o|o| | | |o];
    [by eapply record_sound|by eapply send_sound|by eapply take_sound|..];
    pose proof Hs as [P B1 B2 Sy Ex Dr St]; cbn [step] in H.
  - destruct (_ || _ || _); [done|]. injection H as <-. by apply flush_sound.
  - destruct (syncMode c) eqn:Hsy; injection H as <-; [done|]. split; simpl; try assumption; congruence.
  - destruct (closing s) eqn:Hcl; [|done]. injection H as <-. by split.
  - destruct (stopped s) eqn:Hst; [|done]. destruct (exited s) eqn:Hex; [done|]. injection H as <-.
    split; simpl; try assumption; congruence.
  - destruct (buffer s) as [|x rest] eqn:Hb; [|done]. destruct (draining s && negb (exited s)) eqn:Hd; [|done].
    pose proof (flush_batch o s) as Hbatch. destruct (flush_sound c o s Hs) as [P1 C1 C2 Sy1 Ex1 Dr1 St1].
    injection H as <-. by split.
Qed.

Lemma run_sound c evs : forall s s', sound c s -> run c evs s = Some s' -> sound c s'.
Proof.
  induction evs as [|ev evs IH]; intros s s' Hs H; cbn [run] in H; [by injection H as <-|].
  destruct (step c ev s) as [s1|] eqn:H1; [|done]. eapply IH; [|exact H]. by eapply step_sound.
Qed.

Lemma new_sound c : sound c NewState.
Proof. split; simpl; try done; lia. Qed.

(** ** Closing *)

(** What the worker does from the signal on, with these inserts: it empties the
    buffer, and ends. *)
Definition receive (kept : nat -> list bool) (i : nat) : Event := ETake (Inserted (kept i)).

Definition drain (kept : nat -> list bool) (s : State) : list Event :=
  ESeeStop :: map (receive kept) (seq 0 (length (buffer s))) ++ [EExit (Inserted (kept (length (buffer s))))].

Lemma inserted_all l : inserted [] l = (l, []).
Proof. induction l as [|e l IH]; [done|]. simpl. by rewrite IH. Qed.

(** An insert that does not panic. *)
Lemma flush_inserted k s : let s' := flush (Inserted k) s in
  exited s' = exited s /\ lost s' = lost s /\ (k = [] -> dropped s' = dropped s).
Proof.
  unfold flush. destruct (batch s) as [|x l] eqn:Hb; [done|]. destruct (inserted k (x :: l)) as [i d] eqn:Hi.
  split; [done|]. split; [done|]. intros ->. rewrite inserted_all in Hi. injection Hi as _ <-. simpl. by rewrite app_nil_r.
Qed.

Lemma drain_run c kept : syncMode c = false -> forall l j s, buffer s = l -> draining s = true -> exited s = false ->
  exists s', run c (map (receive kept) (seq j (length l)) ++ [EExit (Inserted (kept (j + length l)))]) s = Some s' /\
    exited s' = true /\ buffer s' = [] /\ sending s' = sending s /\ lost s' = lost s /\ recorded s' = recorded s /\
    ((forall i, kept i = []) -> dropped s' = dropped s).
Proof.
  intros Hsy. induction l as [|x l IH]; intros j s Hb Hd He.
  - cbn [seq map app run step length]. rewrite Hb, Hd, He. cbn [negb andb].
    pose proof (flush_same (Inserted (kept (j + 0))) s) as (F1 & F2 & F3 & _).
    pose proof (flush_inserted (kept (j + 0)) s) as (F4 & F5 & F6).
    eexists. split; [reflexivity|]. simpl. rewrite F1, F2, F3, F5. repeat (split; [done|]). intros Hk. by apply F6.
  - cbn [seq map app run length]. unfold receive at 1. cbn [step]. rewrite Hsy, He. cbn [orb]. unfold take_one.
    rewrite Hb. cbv zeta. set (s1 := mkState _ _ _ _ _ _ _ _ _ _ _).
    set (s2 := if flushBatch c <=? _ then _ else s1).
    assert (buffer s2 = l /\ draining s2 = true /\ exited s2 = false /\ sending s2 = sending s /\ lost s2 = lost s /\
      recorded s2 = recorded s /\ ((forall i, kept i = []) -> dropped s2 = dropped s)) as (E1 & E2 & E3 & E4 & E5 & E6 & E7).
    { pose proof (flush_same (Inserted (kept j)) s1) as (F1 & F2 & F3 & _ & _ & F7).
      pose proof (flush_inserted (kept j) s1) as (F4 & F5 & F6).
      unfold s2. destruct (flushBatch c <=? _); [|by repeat split].
      rewrite F1, F2, F3, F4, F5, F7. repeat (split; [done|]). intros Hk. by apply F6. }
    destruct (IH (S j) s2 E1 E2 E3) as (s' & Hr & H1 & H2 & H3 & H4 & H5 & H6). exists s'.
    replace (j + S (length l)) with (S j + length l) by lia. split; [exact Hr|].
    rewrite H3, H4, H5. repeat (split; [done|]). intros Hk. by rewrite (H6 Hk), (E7 Hk).
Qed.

(** The call after which a close leaves an entry behind: it read [closing] first. *)
Definition straggler (e : entry) : list Event :=
  [ERecord e true; EClosing; EStop; ESeeStop; EExit (Inserted []); ESend 0].

Lemma exited_keeps c ev s s' : exited s = true -> step c ev s = Some s' ->
  exited s' = true /\ exists l, buffer s' = buffer s ++ l.
Proof.
  intros He H. destruct ev as [e ok|i|o|o| | | |o]; cbn [step] in H;
    rewrite ?He, ?orb_true_r, ?andb_false_r in H; try discriminate H.
  - injection H as <-. destruct (syncMode c || closing s); (split; [done|]); exists []; by rewrite app_nil_r.
  - destruct (nth_error _ _) as [x|]; [|done]. injection H as <-.
    destruct (length (buffer s) <? size c); (split; [done|]); [by exists [x]|exists []; by rewrite app_nil_r].
  - destruct (syncMode c); injection H as <-; (split; [done|]); exists []; by rewrite app_nil_r.
  - destruct (closing s); [|done]. injection H as <-. split; [done|]. exists []. by rewrite app_nil_r.
  - by destruct (buffer s).
Qed.

(** *** Losses that nothing counts *)

(** The step is no failed direct write and no panic. *)
Definition uneventful (ev : Event) : bool :=
  match ev with
  | ERecord _ ok => ok
  | ETake (Panicked _) | ETick (Panicked _) | EExit (Panicked _) => false
  | _ => true
  end.

Lemma uneventful_step c ev s s' : uneventful ev = true -> step c ev s = Some s' -> lost s' = lost s.
Proof.
  assert (forall k s, lost (flush (Inserted k) s) = lost s) as Hf by (intros k x; apply flush_inserted).
  intros Hu H. destruct ev as [e []|i|[k|k]|[k|k]| | | |[k|k]]; try done; cbn [step] in H.
  - injection H as <-. by destruct (syncMode c || closing s).
  - destruct (nth_error _ _); [|done]. injection H as <-. by destruct (_ <? _).
  - destruct (_ || _); [done|]. unfold take_one in H. destruct (buffer s); [done|]. injection H as <-.
    destruct (_ <=? _); [|done]. by rewrite Hf.
  - destruct (_ || _ || _); [done|]. injection H as <-. by rewrite Hf.
  - by destruct (syncMode c); injection H as <-.
  - destruct (closing s); [|done]. by injection H as <-.
  - destruct (stopped s && _); [|done]. by injection H as <-.
  - destruct (buffer s); [|done]. destruct (_ && _); [|done]. injection H as <-. simpl. by rewrite Hf.
Qed.

Lemma uneventful_run c evs : forall s s', forallb uneventful evs = true -> lost s = [] ->
  run c evs s = Some s' -> lost s' = [].
Proof.
  induction evs as [|ev evs IH]; intros s s' Hu Hl H; cbn [run] in H; [by injection H as <-|].
  simpl in Hu. apply andb_prop in Hu as [Hu Hu']. destruct (step c ev s) as [s1|] eqn:H1; [|done].
  eapply IH; [done| |exact H]. by rewrite (uneventful_step _ _ _ _ Hu H1).
Qed.

(** C38: Whatever the interleaving of callers, worker and close, with whatever
    inserts and direct writes fail or panic: every recorded entry, its detail cut, is
    in exactly one place: stored, counted as dropped, still held by the buffer, the
    batch or a caller, or lost without a count; the buffer keeps to its size and the
    batch to its limit.  Lost without a count are only direct writes that failed (the
    writer has no buffer or is closing) and the batch of a worker that panicked.
    Once a close has signalled a worker that has not ended, it ends within one step
    for each buffered entry and two more, whatever its inserts store, unless one
    panics: then everything is stored, counted, or held by a caller; and if all its
    inserts succeed nothing more is dropped. *)
Theorem writer_conserves (c : Config) (evs : list Event) (s : State) :
  run c evs NewState = Some s ->
  Permutation (recorded s) (everything s) /\ length (buffer s) <= size c /\ length (batch s) <= flushBatch c /\
  (syncMode c = true -> Permutation (recorded s) (stored s ++ dropped s ++ lost s)) /\
  (forallb uneventful evs = true -> lost s = []) /\
  (syncMode c = false -> stopped s = true -> exited s = false -> forall kept,
   exists s', run c (drain kept s) s = Some s' /\ exited s' = true /\ lost s' = lost s /\
     Permutation (recorded s) (stored s' ++ dropped s' ++ lost s' ++ sending s) /\
     ((forall i, kept i = []) -> dropped s' = dropped s)).
Proof.
  intros H. pose proof (run_sound c evs _ _ (new_sound c) H) as Hs. pose proof Hs as [P B1 B2 Sy Ex Dr St].
  split; [done|]. split; [done|]. split; [done|]. split; [|split].
  - intros (H1 & H2 & H3)%Sy. rewrite P. unfold everything. by rewrite H1, H2, H3, !app_nil_r.
  - intros Hev. exact (uneventful_run c evs NewState s Hev eq_refl H).
  - intros Hsy Hst He kept. unfold drain. cbn [run step]. rewrite Hst, He. cbn [negb andb].
    set (s1 := mkState _ _ _ _ _ _ _ _ _ _ _).
    destruct (drain_run c kept Hsy (buffer s) 0 s1) as (s' & Hr & H1 & H2 & H3 & H4 & H5 & H6); [done..|].
    exists s'. split; [exact Hr|]. split; [done|]. split; [done|]. split; [|exact H6].
    assert (sound c s1) as Hs1 by (split; simpl; try assumption; try done; intros; first [by apply St|congruence]).
    pose proof (run_sound c _ _ _ Hs1 Hr) as [P' _ _ _ Ex' _ _]. specialize (Ex' H1).
    rewrite H5 in P'. simpl in P'. rewrite P'. unfold everything. by rewrite H2, H3, Ex'.
Qed.

(** A caller that read [closing] before a close and reaches the channel after the
    drain leaves its entry in the buffer for ever: neither stored nor counted. *)
Theorem straggler_lost (c : Config) (e : entry) (evs : list Event) (s : State) :
  0 < size c -> run c (straggler e ++ evs) NewState = Some s ->
  In (truncated e) (buffer s) /\ exited s = true.
Proof.
  intros Hsize. destruct c as [[|sz] fb]; [simpl in Hsize; lia|].
  assert (forall evs s s', exited s = true -> In (truncated e) (buffer s) -> run (mkConfig (S sz) fb) evs s = Some s' ->
    In (truncated e) (buffer s') /\ exited s' = true) as Hkeep.
  { clear. induction evs as [|ev evs IH]; intros s s' He Hin H; cbn [run] in H; [by injection H as <-|].
    destruct (step _ ev s) as [s1|] eqn:H1; [|done]. apply exited_keeps in H1 as (He1 & l & Hl); [|done].
    eapply IH; [exact He1| |exact H]. rewrite Hl. apply in_app_iff. by left. }
  intros H. simpl in H. eapply Hkeep; [| |exact H]; [done|]. by left.
Qed.

(** ** Witness *)

Definition demo_config : Config := NewConfig 2 2.

(** Three calls on a buffer of two, the worker busy, then a close. *)
Definition demo_events : list Event :=
  [ ERecord (mkEntry "login" "a") true; ERecord (mkEntry "login" "b") true; ERecord (mkEntry "login" "c") true;
    ESend 1; ESend 0; ESend 0; ETake (Inserted []); EClosing; EStop ].

Definition demo_state : State :=
  mkState [mkEntry "login" "a"] [mkEntry "login" "b"] [] [] [mkEntry "login" "c"] []
    [mkEntry "login" "a"; mkEntry "login" "b"; mkEntry "login" "c"] true true false false.

(** The insert of the full batch panics after its first entry; a late call finds the
    writer closing, and its direct write fails. *)
Example losses : lost <$> run demo_config (demo_events ++
    [ETake (Panicked [true; false]); ERecord (mkEntry "login" "d") false]) NewState =
  Some [mkEntry "login" "a"; mkEntry "login" "d"].
Proof. vm_reflexivity. Qed.

Lemma writer_conserves_witness :
  run demo_config demo_events NewState = Some demo_state /\ length (dropped demo_state) = 1 /\
  exists s', run demo_config (drain (fun _ => []) demo_state) demo_state = Some s' /\ exited s' = true /\
    dropped s' = dropped demo_state.
Proof.
  assert (run demo_config demo_events NewState = Some demo_state) as Hr by vm_reflexivity.
  destruct (writer_conserves demo_config demo_events demo_state Hr) as (_ & _ & _ & _ & _ & Hd).
  split; [exact Hr|]. split; [reflexivity|].
  destruct (Hd eq_refl eq_refl eq_refl (fun _ => [])) as (s' & H1 & H2 & _ & _ & H3).
  exists s'. split; [exact H1|]. split; [exact H2|]. by apply H3.
Defined.

End Buffered.
