(* ===== verification/Sealing.v ===== *)
(** * Sealed secrets ([internal/crypto/crypto.go])

    [Encryptor] over AES-256-GCM, which is a class of parameters with its laws:
    what was sealed opens, and nothing else does.  An encryptor is what the
    second-factor service seals its secrets with. *)

From S2P Require Import Prelude Store Codec Models World Totp Boot.

Open Scope Z_scope.

(** AES-256-GCM under a key of 32 bytes: the ciphertext with its tag. *)
Class Aead := {
  gcm_Seal : string -> string -> string -> string;        (* key, nonce, plaintext *)
  gcm_Open : string -> string -> string -> option string;
  random_bytes : nat -> nat -> string                     (* the n-th draw of that many *)
}.

Definition overhead : nat := 16.
Definition nonceLen : nat := 12.

Class AeadLaws (A : Aead) : Prop := {
  open_seal : forall k n p, gcm_Open k n (gcm_Seal k n p) = Some p;
  open_only : forall k n c p, gcm_Open k n c = Some p -> c = gcm_Seal k n p;
  seal_length : forall k n p, String.length (gcm_Seal k n p) = (String.length p + overhead)%nat;
  random_length : forall n l, String.length (random_bytes n l) = l
}.

Module Encryptor.
Section S.
Context {A : Aead}.

Record Encryptor := mkEncryptor { key : string }.

(** [NewEncryptor] *)
Definition NewEncryptor (k : string) : option Encryptor :=
  if str_len k =? KeyMaterial.KeyLen then Some (mkEncryptor k) else None.

(** [Encryptor.Encrypt] with the n-th nonce. *)
Definition Encrypt (e : Encryptor) (n : nat) (plaintext : string) : string :=
  let nonce := random_bytes n nonceLen in
  Codec.b64_encode (nonce +:+ gcm_Seal (key e) nonce plaintext).

(** [Encryptor.Decrypt] *)
Definition Decrypt (e : Encryptor) (encoded : string) : option string :=
  match Codec.b64_decode false encoded with
  | None => None
  | Some raw =>
      if (String.length raw <? nonceLen + overhead)%nat then None
      else gcm_Open (key e) (String.substring 0 nonceLen raw) (String.substring nonceLen (String.length raw - nonceLen) raw)
  end.

(** The package functions [Encrypt] and [Decrypt]: an encryptor for one call. *)
Definition EncryptOnce (k : string) (n : nat) (plaintext : string) : option string :=
  (fun e => Encrypt e n plaintext) <$> NewEncryptor k.

Definition DecryptOnce (k encoded : string) : option string :=
  e ← NewEncryptor k; Decrypt e encoded.

(** The library of the second-factor service with this encryptor. *)
Definition sealing (e : Encryptor) (generate : nat -> string -> string -> string * string)
    (valid : Z -> string -> string -> bool) : Otp :=
  {| totp_generate := generate; totp_valid := valid; seal := Encrypt e; unseal := Decrypt e |}.

Lemma substring_app s t : String.substring (String.length s) (String.length t) (s +:+ t) = t.
Proof.
  induction s as [|a s IH]; [apply substring_zero; lia|]. rewrite str_app_cons. exact IH.
Qed.

Lemma substring_front s t : String.substring 0 (String.length s) (s +:+ t) = s.
Proof. induction s as [|a s IH]; [by destruct t|]. rewrite str_app_cons. cbn [String.length String.substring]. by rewrite IH. Qed.

Lemma app_length s t : String.length (s +:+ t) = (String.length s + String.length t)%nat.
Proof. induction s as [|a s IH]; [done|]. rewrite str_app_cons. cbn [String.length]. by rewrite IH. Qed.

(** What is split off a text makes it up. *)
Lemma substring_parts n s : (n <= String.length s)%nat ->
  s = String.substring 0 n s +:+ String.substring n (String.length s - n) s.
Proof.
  revert n. induction s as [|a s IH]; intros [|n] Hn; cbn [String.length String.substring Nat.sub] in *; [done|lia| |].
  - rewrite substring_zero by lia. done.
  - rewrite str_app_cons, <- IH by lia. done.
Qed.

Context {L : AeadLaws A}.

(** A sealed text opens under the same key as what was sealed; whatever opens is
    the seal of its plaintext under that key and some nonce: nothing else, altered,
    cut or of another key, is taken for a secret; and only keys of 32 bytes make an
    encryptor. *)
Theorem sealed_exactly (k : string) (e : Encryptor) :
  NewEncryptor k = Some e ->
  str_len k = 32 /\
  (forall n p, Decrypt e (Encrypt e n p) = Some p) /\
  (forall s p, Decrypt e s = Some p ->
     exists nonce, String.length nonce = nonceLen /\
       Codec.b64_decode false s = Some (nonce +:+ gcm_Seal k nonce p)).
Proof.
  unfold NewEncryptor. destruct (Z.eqb_spec (str_len k) KeyMaterial.KeyLen) as [Hk|]; [|done]. intros [= <-].
  split; [done|]. split.
  - intros n p. unfold Encrypt, Decrypt. cbv zeta. rewrite Codec.b64_round_trip, app_length, random_length, seal_length.
    destruct (Nat.ltb_spec (nonceLen + (String.length p + overhead)) (nonceLen + overhead)); [lia|].
    replace (nonceLen + (String.length p + overhead) - nonceLen)%nat with (String.length p + overhead)%nat by lia.
    set (c := gcm_Seal _ _ _).
    pose proof (substring_front (random_bytes n nonceLen) c) as Hf. pose proof (substring_app (random_bytes n nonceLen) c) as Hb.
    rewrite random_length in Hf, Hb. unfold c in Hb at 1. rewrite seal_length in Hb. fold c in Hb.
    rewrite Hf, Hb. apply open_seal.
  - intros s p. unfold Decrypt. destruct (Codec.b64_decode false s) as [raw|]; [|done].
    destruct (Nat.ltb_spec (String.length raw) (nonceLen + overhead)); [done|]. intros Ho%open_only.
    exists (String.substring 0 nonceLen raw). split.
    + assert (nonceLen <= String.length raw)%nat as Hl by lia. revert Hl. generalize nonceLen. clear.
      induction raw as [|a raw IH]; intros [|n] Hn; cbn [String.length String.substring] in *; [done|lia|done|]. by rewrite IH by lia.
    + cbn [key] in Ho. rewrite <- Ho. f_equal. apply substring_parts. lia.
Qed.

End S.
End Encryptor.
