(* ===== verification/Logging.v ===== *)
(** * Redaction of the log ([internal/logging/redact.go])

    The attributes of a log record as trees, and the handler that strips the values
    of secret-shaped keys before they reach the sink. *)

From S2P Require Import Prelude.

(** A [slog.Value]: a plain one by its text, a group, or a [LogValuer], which the
    sink resolves when it writes. *)
Inductive Value :=
  | VText (s : string)
  | VGroup (members : list (string * Value))
  | VLogValuer (resolved : Value).

Definition Attr : Type := string * Value.

Module Redact.

Definition redacted : string := "[REDACTED]".

Definition secretKeys : list string :=
  [ "authorization"; "access_token"; "refresh_token"; "id_token"; "bearer"; "password"; "passwd"; "pwd"; "secret";
    "client_secret"; "secret_key"; "private_key"; "api_key"; "apikey"; "token"; "jwt"; "code"; "totp"; "totp_code";
    "recovery_code"; "cookie"; "set_cookie"; "credentials"; "dsn" ].

Definition secret (key : string) : bool := bool_decide (to_lower key ∈ secretKeys).

(** [redactAttr] *)
Fixpoint redact_value (v : Value) : Value :=
  match v with
  | VGroup members =>
      VGroup (map (fun m => (fst m, if secret (fst m) then VText redacted else redact_value (snd m))) members)
  | v => v
  end.

Definition redactAttr (a : Attr) : Attr := (fst a, if secret (fst a) then VText redacted else redact_value (snd a)).

(** What reaches the sink: groups opened and attributes attached, in order. *)
Inductive Attached := Group (name : string) | Attrs (attrs : list Attr).

Record RedactingHandler := mkHandler { attached : list Attached }.

Definition WithAttrs (h : RedactingHandler) (attrs : list Attr) : RedactingHandler :=
  mkHandler (attached h ++ [Attrs (map redactAttr attrs)]).

Definition WithGroup (h : RedactingHandler) (name : string) : RedactingHandler :=
  mkHandler (attached h ++ [Group name]).

(** The record the next handler is given. *)
Definition Handle (h : RedactingHandler) (attrs : list Attr) : list Attached :=
  attached h ++ [Attrs (map redactAttr attrs)].

(** ** What is written *)

(** The sink writes the resolved values, under the keys above them. *)
Fixpoint written (keys : list string) (v : Value) : list (list string * string) :=
  match v with
  | VText s => [(keys, s)]
  | VGroup members => flat_map (fun m => written (keys ++ [fst m]) (snd m)) members
  | VLogValuer v => written keys v
  end.

(** No value is computed by the sink. *)
Fixpoint eager (v : Value) : bool :=
  match v with
  | VText _ => true
  | VGroup members => forallb (fun m => eager (snd m)) members
  | VLogValuer _ => false
  end.

Section Value_ind.
Variable P : Value -> Prop.
Hypothesis P_text : forall s, P (VText s).
Hypothesis P_group : forall members, Forall (fun m => P (snd m)) members -> P (VGroup members).
Hypothesis P_lazy : forall v, P v -> P (VLogValuer v).

Fixpoint value_ind' (v : Value) : P v :=
  match v with
  | VText s => P_text s
  | VGroup members =>
      P_group members ((fix go (l : list (string * Value)) : Forall (fun m => P (snd m)) l :=
        match l with [] => Forall_nil_2 _ | m :: l => Forall_cons_2 _ m l (value_ind' (snd m)) (go l) end) members)
  | VLogValuer v => P_lazy v (value_ind' v)
  end.

End Value_ind.

(** The keys from a point on are safe, or the text is the mark. *)
Lemma redacted_written v : eager v = true -> forall keys path s,
  In (path, s) (written keys (redact_value v)) -> exists below, path = keys ++ below /\
    (Forall (fun k => secret k = false) below \/ s = redacted).
Proof.
  induction v as [s0|members IH|v IH] using value_ind'; intros He keys path s Hin; [|clear -IH He Hin|done].
  - destruct Hin as [[= <- <-]|[]]. exists []. split; [by rewrite app_nil_r|by left].
  - cbn [redact_value written] in Hin. apply in_flat_map in Hin as (m & Hm & Hin).
    apply in_map_iff in Hm as ([k v] & <- & Hm). cbn [fst snd] in Hin.
    cbn [eager] in He. rewrite forallb_forall in He. specialize (He _ Hm).
    destruct (secret k) eqn:Hk.
    + destruct Hin as [[= <- <-]|[]]. exists [k]. split; [done|by right].
    + pose proof (proj1 (List.Forall_forall _ _) IH _ Hm He _ _ _ Hin) as (below & -> & Hb).
      exists (k :: below). rewrite <- app_assoc. split; [done|]. destruct Hb as [Hb|Hb]; [left|by right]. by constructor.
Qed.

(** No attribute written under a secret key, at any depth, shows its value,
    whether of the record or attached before, when no value is left for the sink to
    compute; a record without secret keys is handed on unchanged. *)
Theorem redaction_complete (attrs : list Attr) :
  (forallb (fun a => eager (snd a)) attrs = true ->
   forall a path s, In a (map redactAttr attrs) -> In (path, s) (written [fst a] (snd a)) ->
     Exists (fun k => secret k = true) path -> s = redacted) /\
  (forall h, Handle h attrs = attached (WithAttrs h attrs)) /\
  map redactAttr (map redactAttr attrs) = map redactAttr attrs.
Proof.
  split; [|split; [done|]].
  - intros He a path s Ha Hin Hsec. apply in_map_iff in Ha as ([k v] & <- & Ha).
    rewrite forallb_forall in He. specialize (He _ Ha). unfold redactAttr in Hin. cbn [fst snd] in *.
    destruct (secret k) eqn:Hk; [by destruct Hin as [[= <- <-]|[]]|].
    apply redacted_written in Hin as (below & -> & [Hb|Hb]); [exfalso|done|done].
    apply Exists_exists in Hsec as (x & Hx & Hsx). apply in_app_iff in Hx as [[->|[]]|Hx]; [congruence|].
    pose proof (proj1 (List.Forall_forall _ _) Hb x Hx). simpl in *. congruence.
  - assert (forall v, redact_value (redact_value v) = redact_value v) as Hidem.
    { induction v as [s0|members IH|v IH] using value_ind'; [done| |done]. cbn [redact_value]. f_equal.
      rewrite map_map. apply map_ext_in. intros [k v] Hm. cbn [fst snd]. destruct (secret k); [done|].
      f_equal. exact (proj1 (List.Forall_forall _ _) IH _ Hm). }
    rewrite map_map. apply map_ext. intros [k v]. unfold redactAttr. cbn [fst snd]. destruct (secret k); [done|].
    by rewrite Hidem.
Qed.

(** A value the sink computes is not looked into: a secret member of the group it
    resolves to is written. *)
Theorem redaction_lazy_leak (s : string) :
  In (["user"; "password"], s)
    (written ["user"] (snd (redactAttr ("user", VLogValuer (VGroup [("password", VText s)]))))).
Proof. left. reflexivity. Qed.

End Redact.
