(* ===== verification/Screening.v ===== *)
(** * Screening by other services ([services/breached_password.go], [services/captcha.go])

    The check of a password against known breaches and the check of a captcha
    answer.  The HTTP exchange and SHA-1 are parameters; what is sent, and what is
    made of every answer, is modelled. *)

From S2P Require Import Prelude Store Codec World Json.

Open Scope Z_scope.

(** The exchange of the n-th request: the status and body, or a failure to connect,
    to read, or in time. *)
Record HttpRequest := mkRequest { method : string; url : string; body : string }.

Class Http := {
  fetch : nat -> HttpRequest -> option (Z * string);
  sha1_hex : string -> string
}.

(** ** Breached passwords *)

Module Breach.
Section S.
Context {H : Http}.

Definition DefaultHIBPEndpoint : string := "https://api.pwnedpasswords.com/range/".

Record BreachedPasswordChecker := mkChecker { endpoint : string }.

Definition NewBreachedPasswordChecker (endpoint : string) : BreachedPasswordChecker :=
  mkChecker (if bool_decide (endpoint = "") then DefaultHIBPEndpoint else endpoint).

Fixpoint to_upper (s : string) : string :=
  match s with
  | EmptyString => ""
  | String a s => let n := byte_of a in
      String (if (97 <=? n)%N && (n <=? 122)%N then Codec.chr (n - 32) else a) (to_upper s)
  end.

(** [calculateHIBPSHA1Prefix] *)
Definition calculateHIBPSHA1Prefix (pwd : string) : string * string :=
  let digest := to_upper (sha1_hex pwd) in
  (String.substring 0 5 digest, String.substring 5 (String.length digest - 5) digest).

Definition max_body : Z := 2 ^ 20.

Definition limited (s : string) : string :=
  if str_len s <=? max_body then s else String.substring 0 (Z.to_nat max_body) s.

Definition range_request (c : BreachedPasswordChecker) (prefix : string) : HttpRequest :=
  mkRequest "GET" (endpoint c +:+ prefix) "".

(** [Breached]; a nil checker is none. *)
Definition Breached (c : option BreachedPasswordChecker) (n : nat) (password : string) : bool :=
  match c with
  | None => false
  | Some c =>
      if bool_decide (password = "") then false else
      let (prefix, suffix) := calculateHIBPSHA1Prefix password in
      match fetch n (range_request c prefix) with
      | Some (status, body) =>
          if negb (status =? 200) then false else str_contains (suffix +:+ ":") (to_upper (limited body))
      | None => false
      end
  end.

(** What leaves the process tells passwords apart by five digits only; the answer
    is a hit only when the service answered with the rest of the digest, and a
    failure of any kind is no hit. *)
Theorem breach_screen (c : BreachedPasswordChecker) (n : nat) (password : string) :
  (forall other, fst (calculateHIBPSHA1Prefix other) = fst (calculateHIBPSHA1Prefix password) ->
     range_request c (fst (calculateHIBPSHA1Prefix other)) = range_request c (fst (calculateHIBPSHA1Prefix password))) /\
  (Breached (Some c) n password = true <->
   password <> "" /\ exists body, fetch n (range_request c (fst (calculateHIBPSHA1Prefix password))) = Some (200, body) /\
     str_contains (snd (calculateHIBPSHA1Prefix password) +:+ ":") (to_upper (limited body)) = true).
Proof.
  split; [by intros other ->|]. unfold Breached. case_bool_decide as Hp.
  - split; [done|]. by intros [H' _].
  - destruct (calculateHIBPSHA1Prefix password) as [prefix suffix]. cbn [fst snd].
    destruct (fetch n _) as [[status text]|].
    + destruct (Z.eqb_spec status 200) as [->|Hs]; cbn [negb].
      * split; [intros Hc; split; [done|by exists text]|by intros (_ & b & [= <-] & Hc)].
      * split; [done|]. intros (_ & b & [= ? _] & _). done.
    + split; [done|]. by intros (_ & b & [=] & _).
Qed.

End S.
End Breach.

(** ** Captcha *)

Module Captcha.

(** [url.QueryEscape] *)
Definition unreserved (a : Ascii.ascii) : bool :=
  let n := byte_of a in
  ((48 <=? n) && (n <=? 57) || (65 <=? n) && (n <=? 90) || (97 <=? n) && (n <=? 122))%N ||
  Ascii.eqb a "-" || Ascii.eqb a "_" || Ascii.eqb a "." || Ascii.eqb a "~".

Definition upper_hex (n : N) : Ascii.ascii := if (n <? 10)%N then Codec.chr (48 + n) else Codec.chr (55 + n).

Fixpoint QueryEscape (s : string) : string :=
  match s with
  | EmptyString => ""
  | String a s =>
      if unreserved a then String a (QueryEscape s)
      else if Ascii.eqb a " " then String "+" (QueryEscape s)
      else String "%" (String (upper_hex (byte_of a / 16)) (String (upper_hex (byte_of a mod 16)) (QueryEscape s)))
  end.

(** [url.QueryUnescape], on what is well formed. *)
Fixpoint QueryUnescape (s : string) : option string :=
  match s with
  | EmptyString => Some ""
  | String a s1 =>
      if Ascii.eqb a "%" then
        match s1 with
        | String b (String c s) =>
            match Codec.hex_value b, Codec.hex_value c, QueryUnescape s with
            | Some x, Some y, Some r => Some (String (Codec.chr (x * 16 + y)) r)
            | _, _, _ => None
            end
        | _ => None
        end
      else String (if Ascii.eqb a "+" then " "%char else a) <$> QueryUnescape s1
  end.

(** [form.Encode()], the keys sorted. *)
Definition form (secret token : string) : string :=
  "response=" +:+ QueryEscape token +:+ "&secret=" +:+ QueryEscape secret.

Record TurnstileVerifier := mkTurnstile { secret : string; endpoint : string }.

Definition NewTurnstileVerifier (secret : string) : TurnstileVerifier :=
  mkTurnstile secret "https://challenges.cloudflare.com/turnstile/v0/siteverify".

Inductive Verdict := Accepted | Rejected | Failed.

(** The boolean field: the members of that name in order. *)
Fixpoint bool_field (name : string) (o : Obj) (acc : bool) : option bool :=
  match o with
  | [] => Some acc
  | (k, v) :: o =>
      if bool_decide (to_lower k = to_lower name) then
        match v with
        | JTrue => bool_field name o true
        | JFalse => bool_field name o false
        | JNull => bool_field name o acc
        | _ => None
        end
      else bool_field name o acc
  end.

Definition is_text (v : JV) : bool := match v with JText _ | JNull => true | _ => false end.

(** Every member [error-codes] holds texts. *)
Definition codes_ok (o : Obj) : bool :=
  forallb (fun m => negb (bool_decide (to_lower (fst m) = "error-codes")) ||
    match snd m with JNull => true | JList l => forallb is_text l | _ => false end) o.

(** The first value of the answer, decoded. *)
Definition decoded (text : string) : option bool :=
  match Json.value (2 * String.length text + 2) text with
  | Some (JMembers o, _) => if codes_ok o then bool_field "success" o false else None
  | Some (JNull, _) => Some false
  | _ => None
  end.

Section S.
Context {H : Http}.

(** [TurnstileVerifier.Verify] *)
Definition Verify (v : TurnstileVerifier) (n : nat) (token : string) : Verdict :=
  if bool_decide (trim_space token = "") then Rejected else
  match fetch n (mkRequest "POST" (endpoint v) (form (secret v) token)) with
  | None => Failed
  | Some (_, text) =>
      match decoded text with
      | Some true => Accepted
      | Some false => Rejected
      | None => Failed
      end
  end.

End S.

(** *** The form cannot be steered *)

Lemma hex_upper n : (n < 16)%N -> Codec.hex_value (upper_hex n) = Some n /\ unreserved (upper_hex n) = true.
Proof.
  intros Hn. assert (forallb (fun n => bool_decide (Codec.hex_value (upper_hex n) = Some n) && unreserved (upper_hex n))
    (map N.of_nat (seq 0 16)) = true) as Hall by vm_reflexivity.
  rewrite forallb_forall in Hall. assert (In n (map N.of_nat (seq 0 16))) as Hin.
  { apply in_map_iff. exists (N.to_nat n). split; [lia|]. apply in_seq. lia. }
  apply Hall, andb_prop in Hin as [H1 H2]. by apply bool_decide_eq_true in H1.
Qed.

Definition plain (a : Ascii.ascii) : bool := negb (Ascii.eqb a "&" || Ascii.eqb a "=").

Lemma escape_plain s : str_forall plain (QueryEscape s) = true.
Proof.
  assert (forall a, unreserved a = true -> plain a = true) as Hu.
  { intros a Ha. unfold plain. apply negb_true_iff, orb_false_iff. split; apply Ascii.eqb_neq; intros ->; by vm_compute in Ha. }
  induction s as [|a s IH]; [done|]. cbn [QueryEscape]. pose proof (Codec.byte_bound a).
  destruct (unreserved a) eqn:Ha; [|destruct (Ascii.eqb a " ")]; cbn [str_forall]; rewrite IH.
  - by rewrite Hu.
  - done.
  - change (plain "%") with true. rewrite !Hu; [done|apply hex_upper..]; [apply N.mod_lt; lia|apply N.Div0.div_lt_upper_bound; lia].
Qed.

Lemma escape_back s : QueryUnescape (QueryEscape s) = Some s.
Proof.
  induction s as [|a s IH]; [done|]. cbn [QueryEscape]. destruct (unreserved a) eqn:Ha.
  - cbn [QueryUnescape]. destruct (Ascii.eqb_spec a "%") as [->|_]; [by vm_compute in Ha|].
    destruct (Ascii.eqb_spec a "+") as [->|_]; [by vm_compute in Ha|]. by rewrite IH.
  - destruct (Ascii.eqb_spec a " ") as [->|_]; cbn [QueryUnescape]; [by rewrite IH|].
    pose proof (Codec.byte_bound a). destruct (hex_upper (byte_of a / 16)) as [-> _]; [apply N.Div0.div_lt_upper_bound; lia|].
    destruct (hex_upper (byte_of a mod 16)) as [-> _]; [apply N.mod_lt; lia|]. change (Ascii.eqb "%" "%") with true. rewrite IH.
    do 2 f_equal. rewrite N.mul_comm, <- N.div_mod' by lia. apply Codec.chr_byte.
Qed.

(** The answer of a visitor reaches the service as the one parameter [response]
    next to the site's secret, whatever it holds; an empty one is not sent; and a
    visitor is let through only when the service answered that it succeeded. *)
Theorem captcha_sound {H : Http} (v : TurnstileVerifier) (n : nat) (token : string) :
  (exists r s, split_on "&" (form (secret v) token) = ["response=" +:+ r; "secret=" +:+ s] /\
     no_byte "=" r /\ no_byte "=" s /\ QueryUnescape r = Some token /\ QueryUnescape s = Some (secret v)) /\
  (Verify v n token = Accepted <->
   trim_space token <> "" /\ exists status text,
     fetch n (mkRequest "POST" (endpoint v) (form (secret v) token)) = Some (status, text) /\ decoded text = Some true).
Proof.
  assert (forall s, no_byte "&" (QueryEscape s) /\ no_byte "=" (QueryEscape s)) as Hp.
  { intros s. pose proof (escape_plain s) as Hs. unfold no_byte. revert Hs. generalize (QueryEscape s). clear.
    induction s as [|a s IH]; [done|]. cbn [str_forall]. intros [Ha Hs]%andb_prop. destruct (IH Hs) as [-> ->].
    unfold plain in Ha. apply negb_true_iff, orb_false_iff in Ha as [H1 H2]. apply Ascii.eqb_neq in H1, H2.
    by rewrite !bool_decide_false by done. }
  split.
  - exists (QueryEscape token), (QueryEscape (secret v)). destruct (Hp token) as [T1 T2], (Hp (secret v)) as [S1 S2].
    split; [|split; [done|split; [done|split; apply escape_back]]].
    unfold form. change ("response=" +:+ QueryEscape token +:+ "&secret=" +:+ QueryEscape (secret v)) with
      ("response=" +:+ QueryEscape token +:+ String "&" ("secret=" +:+ QueryEscape (secret v))).
    rewrite <- str_app_assoc. rewrite split_on_app by exact T1. f_equal. by apply split_on_no_byte.
  - unfold Verify. case_bool_decide as He.
    + split; [done|]. by intros [Hn _].
    + destruct (fetch n _) as [[status text]|].
      * destruct (decoded text) as [[]|] eqn:Hd.
        -- split; [|done]. intros _. split; [done|]. by exists status, text.
        -- split; [done|]. by intros (_ & ? & ? & [= <- <-] & ?); congruence.
        -- split; [done|]. by intros (_ & ? & ? & [= <- <-] & ?); congruence.
      * split; [done|]. by intros (_ & ? & ? & [=] & ?).
Qed.

End Captcha.
