(* ===== verification/MailSpec.v ===== *)
(** * What leaves the process by mail

    [receive]: how a mail server reads the data of a message.  A delivery gives
    credentials and message only to a relay that completed TLS for its host, and
    the relay reads back exactly the lines of the notice, whatever the names,
    devices and details in it hold. *)

From S2P Require Import Prelude Store Codec NetIP NetIPSpec Models World Mail.

Open Scope Z_scope.
Import MailText Smtp.

(** ** The receiving side (RFC 5321, 4.5.2) *)

(** A line up to CRLF, and the text after it. *)
Fixpoint read_line (s : string) : option (string * string) :=
  match s with
  | EmptyString => None
  | String a s' =>
      match s' with
      | String b rest =>
          if Ascii.eqb a cr && Ascii.eqb b lf then Some ("", rest)
          else match read_line s' with Some (l, r) => Some (String a l, r) | None => None end
      | EmptyString => None
      end
  end.

Definition unstuff (l : string) : string := if has_prefix "." l then String.substring 1 (String.length l - 1) l else l.

(** The lines up to the one of a single dot, and the text after it. *)
Fixpoint receive (fuel : nat) (s : string) : option (list string * string) :=
  match fuel with
  | O => None
  | S fuel =>
      match read_line s with
      | None => None
      | Some (l, rest) =>
          if bool_decide (l = ".") then Some ([], rest) else
          match receive fuel rest with Some (ls, after) => Some (unstuff l :: ls, after) | None => None end
      end
  end.

(** No line break of either kind. *)
Definition one_line (s : string) : Prop := validHeaderValue s = true.

(** ** Lines *)

Lemma one_line_app s t : one_line s -> one_line t -> one_line (s +:+ t).
Proof.
  unfold one_line, validHeaderValue. induction s as [|a s IH]; [done|]. rewrite str_app_cons. simpl.
  intros [-> Hs]%andb_prop Ht. by apply IH.
Qed.

Lemma read_one_line l rest : one_line l -> read_line (l +:+ crlf +:+ rest) = Some (l, rest).
Proof.
  unfold one_line, validHeaderValue. induction l as [|a l IH]; intros H; [done|]. simpl in H.
  apply andb_prop in H as [Ha Hl]. rewrite str_app_cons. specialize (IH Hl). cbn [read_line].
  apply negb_true_iff, orb_false_iff in Ha as [Ha _].
  destruct (l +:+ crlf +:+ rest) as [|b s] eqn:Hs.
  { destruct l; discriminate Hs. }
  rewrite Ha. cbn [andb]. by rewrite IH.
Qed.

Definition stuff (l : string) : string := if has_prefix "." l then String "." l else l.

Lemma stuffed l : one_line l -> one_line (stuff l) /\ stuff l <> "." /\ unstuff (stuff l) = l.
Proof.
  intros Hl. unfold stuff. destruct (has_prefix "." l) eqn:Hp.
  - split; [done|]. destruct l as [|a l]; [done|]. split; [done|]. unfold unstuff.
    cbn [String.length String.substring Nat.sub]. change (has_prefix "." (String "." (String a l))) with true.
    f_equal. apply substring_zero. lia.
  - split; [done|]. split; [by intros ->|]. unfold unstuff. by rewrite Hp.
Qed.

Lemma receive_line fuel l rest ls after : one_line l -> receive fuel rest = Some (ls, after) ->
  receive (S fuel) (stuff l +:+ crlf +:+ rest) = Some (l :: ls, after).
Proof.
  intros Hl Hr. destruct (stuffed l Hl) as (H1 & H2 & H3). cbn [receive].
  by rewrite read_one_line, bool_decide_false, Hr, H3.
Qed.

Lemma receive_end fuel rest : receive (S fuel) ("." +:+ crlf +:+ rest) = Some ([], rest).
Proof. done. Qed.

(** ** The writer *)

Definition at_start (st : Dot) : bool := match st with Begin | BeginLine => true | _ => false end.

Lemma in_data l s : one_line l -> dot_writer InData (l +:+ s) = l +:+ dot_writer InData s.
Proof.
  unfold one_line, validHeaderValue. induction l as [|a l IH]; [done|]. simpl. intros [Ha Hl]%andb_prop.
  apply negb_true_iff, orb_false_iff in Ha as [H1 H2]. rewrite !str_app_cons. cbn [dot_writer].
  rewrite H1, H2. cbv zeta. by rewrite IH.
Qed.

(** From the start of a line the writer stuffs the line and goes on inside it. *)
Lemma from_start st l s : at_start st = true -> one_line l -> l <> "" ->
  dot_writer st (l +:+ s) = stuff l +:+ dot_writer InData s.
Proof.
  destruct l as [|a l]; [done|]. intros Hst Hl _. pose proof Hl as H. unfold one_line, validHeaderValue in H. simpl in H.
  apply andb_prop in H as [Ha H]. apply negb_true_iff, orb_false_iff in Ha as [H1 H2].
  rewrite str_app_cons. unfold stuff. cbn [has_prefix].
  destruct st; try discriminate Hst; cbn [dot_writer]; cbv zeta; rewrite H1, H2, in_data by exact H;
    destruct (Ascii.eqb_spec a "."%char) as [->|Hne]; rewrite ?decide_True, ?decide_False by congruence; done.
Qed.

Lemma line_written st l s : at_start st = true -> one_line l ->
  dot_writer st (l +:+ newline +:+ s) = stuff l +:+ crlf +:+ dot_writer BeginLine s /\
  dot_writer st (l +:+ crlf +:+ s) = stuff l +:+ crlf +:+ dot_writer BeginLine s.
Proof.
  intros Hst Hl. destruct (decide (l = "")) as [->|Hne]; [by destruct st|].
  by rewrite !(from_start st l) by done.
Qed.

Lemma last_written st l : at_start st = true -> one_line l -> l <> "" ->
  dot_writer st l = stuff l +:+ crlf +:+ "." +:+ crlf.
Proof. intros Hst Hl Hne. rewrite <- (str_app_nil l) at 1. by rewrite from_start. Qed.

(** Lines joined by either line break are received as those lines. *)
Fixpoint joined (ls : list (string * bool)) (last : string) : string :=
  match ls with
  | [] => last
  | (l, dos) :: ls => l +:+ (if dos : bool then crlf else newline) +:+ joined ls last
  end.

Lemma joined_received ls last : forall st fuel, at_start st = true -> Forall (fun l => one_line (fst l)) ls ->
  one_line last -> last <> "" -> (length ls + 2 <= fuel)%nat ->
  receive fuel (dot_writer st (joined ls last)) = Some (map fst ls ++ [last], "").
Proof.
  induction ls as [|[l dos] ls IH]; intros st fuel Hst Hls Hlast Hne Hfuel; cbn [joined map app] in *.
  - rewrite last_written by done. do 2 (destruct fuel as [|fuel]; [simpl in Hfuel; lia|]).
    apply receive_line; [done|]. apply (receive_end fuel "").
  - apply Forall_cons_1 in Hls as [Hl Hls]. simpl in Hl, Hfuel. destruct fuel as [|fuel]; [lia|].
    destruct (line_written st l (joined ls last) Hst Hl) as [H1 H2].
    destruct dos; rewrite ?H1, ?H2; (apply receive_line; [done|apply IH; (done || lia)]).
Qed.

(** ** Values on one line *)

Lemma forall_impl (p q : Ascii.ascii -> bool) s :
  (forall a, p a = true -> q a = true) -> str_forall p s = true -> str_forall q s = true.
Proof.
  intros H. induction s as [|a s IH]; [done|]. simpl. intros [Ha Hs]%andb_prop. rewrite (H a Ha). by apply IH.
Qed.

(** A byte above 32 is no line break. *)
Lemma no_break a : (32 < byte_of a)%N -> negb (is_break a) = true.
Proof.
  intros H. apply negb_true_iff, orb_false_iff. split; apply Ascii.eqb_neq; intros ->; vm_compute in H; discriminate.
Qed.

Lemma envelope_line a : validEnvelopeAddr a = true -> one_line a.
Proof.
  unfold validEnvelopeAddr. intros [_ H]%andb_prop. eapply forall_impl; [|exact H].
  intros c Hc. apply negb_true_iff, orb_false_iff in Hc as [Hc _]. apply no_break. by apply N.leb_gt.
Qed.

Lemma concat_line sep ls : one_line sep -> Forall one_line ls -> one_line (String.concat sep ls).
Proof.
  intros Hs H. induction H as [|l ls Hl Hls IH]; [done|]. destruct ls as [|l' ls]; [done|].
  change (one_line (l +:+ sep +:+ String.concat sep (l' :: ls))). by repeat apply one_line_app.
Qed.

Lemma not_space a : is_space a = false -> negb (is_break a) = true.
Proof.
  intros H. apply negb_true_iff, orb_false_iff. split; apply Ascii.eqb_neq; intros ->; vm_compute in H; discriminate.
Qed.

Lemma words_lines s : Forall one_line (words s).
Proof.
  induction s as [|a s IH]; [constructor|]. cbn [words]. destruct (is_space a) eqn:Ha; [done|].
  assert (forall w, one_line w -> one_line (String a w)) as Hcons.
  { intros w Hw. unfold one_line, validHeaderValue in *. simpl. by rewrite not_space. }
  destruct s as [|b s]; [constructor; [by apply Hcons|constructor]|].
  destruct (is_space b); [constructor; [by apply Hcons|done]|].
  destruct (words (String b s)) as [|w ws]; [constructor; [by apply Hcons|constructor]|].
  apply Forall_cons_1 in IH as [Hw Hws]. constructor; [by apply Hcons|done].
Qed.

Lemma display_line v : one_line (safeMailDisplayValue v).
Proof. apply concat_line; [done|apply words_lines]. Qed.

Lemma digit_above a : Codec.is_digit a = true -> negb (is_break a) = true.
Proof. unfold Codec.is_digit. intros [H _]%andb_prop. apply no_break. apply N.leb_le in H. lia. Qed.

Lemma octet_line n : byte_ok n -> one_line (fmt_d n).
Proof.
  intros Hn. destruct (octets n Hn) as (H & _ & _). destruct (fmt_d n) as [|a s] eqn:Hf; [done|].
  unfold Net.octet in H. destruct (str_forall Codec.is_digit (String a s)) eqn:Hd; [|done].
  eapply forall_impl; [apply digit_above|exact Hd].
Qed.

Lemma hex_above a : is_Some (Codec.hex_value a) -> negb (is_break a) = true.
Proof.
  intros [v Hv]. apply no_break. unfold Codec.hex_value in Hv.
  repeat case_match; simplify_eq; rewrite ?andb_true_iff, ?N.leb_le in *; lia.
Qed.

Lemma hex_line g : one_line (Net.hex_text g).
Proof.
  unfold one_line, validHeaderValue, Net.hex_text. cbv zeta.
  repeat case_match; cbn [str_forall]; rewrite !hex_above by (rewrite hex_back; eauto); done.
Qed.

Lemma ip_line ip : length ip = 16%nat -> Forall byte_ok ip -> one_line (Net.ip_text ip).
Proof.
  intros Hlen Hok. unfold Net.ip_text. destruct (Net.To4 ip) as [v4|] eqn:H4.
  - apply To4_mapped in H4 as [-> _]; [|done]. apply Forall_app in Hok as [_ [_ Hok]%Forall_app].
    apply concat_line; [done|]. apply Forall_map. eapply Forall_impl; [|exact Hok]. apply octet_line.
  - assert (forall gs, one_line (Net.colons gs)) as Hc.
    { intros gs. apply concat_line; [done|]. apply Forall_map, Forall_forall. intros g _. apply hex_line. }
    unfold Net.v6_text. destruct (Net.longest _ _ _ _) as [start [|len]]; [apply Hc|].
    repeat apply one_line_app; try apply Hc. done.
Qed.

Lemma mail_ip_line ip : one_line (safeMailIP ip).
Proof.
  unfold safeMailIP. destruct (Net.ParseIP _) as [p|] eqn:Hp; [|done]. apply ParseIP_ok in Hp as [? ?]. by apply ip_line.
Qed.

Lemma padded_line n : forall v rest, one_line rest -> one_line (Rfc3339.padded n v rest).
Proof.
  induction n as [|n IH]; intros v rest Hr; [done|]. cbn [Rfc3339.padded]. apply IH.
  unfold one_line, validHeaderValue in *. cbn [str_forall]. rewrite Hr, andb_true_r.
  pose proof (Z.mod_pos_bound v 10 ltac:(lia)). apply no_break. unfold Codec.chr, byte_of.
  rewrite Ascii.N_ascii_embedding by lia. lia.
Qed.

Lemma time_line t : one_line (Rfc3339.format_utc t).
Proof.
  unfold Rfc3339.format_utc. cbv zeta. destruct (Rfc3339.civil _) as [[y m] d].
  assert (forall a s, negb (is_break a) = true -> one_line s -> one_line (String a s)) as Hc.
  { intros a s Ha Hs. unfold one_line, validHeaderValue in *. simpl. by rewrite Ha. }
  repeat first [apply padded_line | apply Hc; [done|]]. done.
Qed.

(** ** Notices *)

Section Notices.
Variable token_text : Token -> string.
Hypothesis token_line : forall token, one_line (token_text token).

(** Recipient, subject, and the lines of a notice but the last, and the last. *)
Definition letter (t : Z) (m : Mail) : option (string * string * list string * string) :=
  let time := Rfc3339.format_utc t in
  match m with
  | PasswordReset to token => Some (to, "Password reset",
      ["Use this token to reset your password: " +:+ token_text token; ""], "If you did not request a reset, ignore this email.")
  | EmailVerification to token => Some (to, "Verify your email",
      ["Use this token to verify your email: " +:+ token_text token; ""], "If you did not create an account, ignore this email.")
  | NewLoginAlert to ip device => Some (to, "New sign-in to your account",
      ["A new sign-in to your account was detected."; ""; "IP address: " +:+ safeMailIP ip;
       "Device:     " +:+ safeMailDisplayValue device; "Time (UTC): " +:+ time; ""],
      "If this was you, no action is needed. If you do not recognize this sign-in, change your password immediately and revoke unknown sessions.")
  | DuplicateRegisterAlert to => Some (to, "Security alert: Attempted registration with your account",
      ["An attempt was made to register a new account using your email address or username."; "";
       "Time (UTC): " +:+ time; ""],
      "If this was you, you can log in or reset your password. If you did not attempt this, no action is needed; your account remains secure.")
  | SecurityAlert to event detail => Some (to, event,
      ["A security event occurred on your account."; ""; "Event:  " +:+ safeMailDisplayValue event;
       "Detail: " +:+ safeMailDisplayValue detail; "Time:   " +:+ time; ""],
      "If you did not authorize this action, change your password immediately and revoke active sessions.")
  | Posted _ _ => None
  end.

Lemma notice_letter t m : notice token_text t m =
  (fun '(to, subject, lines, last) => (to, subject, String.concat newline (lines ++ [last]))) <$> letter t m.
Proof.
  destruct m; cbn [notice letter fmap option_fmap option_map app String.concat]; [done|..]; do 2 f_equal;
    rewrite ?str_app_assoc; reflexivity.
Qed.

Lemma letter_lines t m to subject lines last : letter t m = Some (to, subject, lines, last) ->
  Forall one_line lines /\ one_line last /\ last <> "".
Proof.
  pose proof (time_line t). destruct m; intros [= <- <- <- <-]; (split; [|by split]);
    repeat (constructor; [first [done|apply one_line_app; [done|]]|]);
    auto using mail_ip_line, display_line.
Qed.

End Notices.

(** ** Deliveries *)

(** The commands that carry credentials, addresses or the message. *)
Definition confidential (c : Command) : bool :=
  match c with AuthPlain _ _ | MailFrom _ | RcptTo _ | DataStart | Wire _ => true | _ => false end.

Definition header_lines (from to subject : string) : list string :=
  ["From: " +:+ from; "To: " +:+ to; "Subject: " +:+ subject; "MIME-Version: 1.0";
   "Content-Type: text/plain; charset=UTF-8"].

Lemma play_prefix relay cs log err : play relay cs = (log, err) ->
  (err = None /\ log = map (fun c => (c, true)) cs) \/
  (exists pre c post, cs = pre ++ c :: post /\ err = Some (Refused c) /\ log = map (fun c => (c, true)) pre ++ [(c, false)]).
Proof.
  revert relay log err. induction cs as [|c cs IH]; intros relay log err; cbn [play]; [intros [= <- <-]; by left|].
  destruct (hd true relay).
  - destruct (play (tl relay) cs) as [log' err'] eqn:Hp. intros [= <- <-].
    apply IH in Hp as [[-> ->]|(pre & c' & post & -> & -> & ->)]; [by left|]. right. by exists (c :: pre), c', post.
  - intros [= <- <-]. right. by exists [], c, cs.
Qed.

(** What precedes a command in the log precedes it in the dialogue, accepted. *)
Lemma play_order relay cs log err pre c b post : play relay cs = (log, err) -> log = pre ++ (c, b) :: post ->
  exists pre' post', cs = pre' ++ c :: post' /\ pre = map (fun c => (c, true)) pre'.
Proof.
  intros Hp ->. apply play_prefix in Hp as [[_ H]|(done_ & c' & rest & -> & _ & H)].
  - symmetry in H. apply map_eq_app in H as (pre' & l & -> & <- & H). destruct l as [|x l]; [done|].
    injection H as -> _ _. by exists pre', l.
  - assert (forall k, [(c', false)] = k ++ (c, b) :: post -> pre = map (fun c => (c, true)) done_ ++ k ->
      exists pre' post', done_ ++ c' :: rest = pre' ++ c :: post' /\ pre = map (fun c => (c, true)) pre') as Hlast.
    { intros [|x k] Hk ->; [|by destruct k]. injection Hk as <- _ _. rewrite app_nil_r. by exists done_, rest. }
    apply app_eq_inv in H as [(k & Hpre & Hk)|(k & Hd & Hk)]; [by eapply Hlast|].
    destruct k as [|x k]; [apply (Hlast []); [done|by rewrite Hd, !app_nil_r]|].
    injection Hk as <- _. apply map_eq_app in Hd as (pre' & l & -> & <- & Hd). destruct l as [|y l]; [done|].
    injection Hd as -> _ _. exists pre', (l ++ c' :: rest). by rewrite <- app_assoc.
Qed.

(** In a dialogue TLS for the relay's host comes before anything confidential. *)
Lemma dialogue_secured n to subject body pre c post :
  dialogue n to subject body = pre ++ c :: post -> confidential c = true ->
  In (Handshake (host n)) pre \/ In (StartTLS (host n)) pre.
Proof.
  unfold dialogue. intros H Hc.
  destruct (implicitTLS n), (bool_decide (user n = "")); cbn [app] in H;
    repeat (destruct pre as [|? pre]; [injection H as <- H; first [discriminate Hc|simpl; tauto]
                                       |cbn [app] in H; injection H as <- H; try (simpl; tauto)]).
Qed.

Lemma quit_last n to subject body pre c post :
  dialogue n to subject body = pre ++ c :: post -> ~ In Quit pre.
Proof.
  assert (exists d, dialogue n to subject body = d ++ [Quit] /\ ~ In Quit d) as (d & -> & Hd).
  { exists (removelast (dialogue n to subject body)). unfold dialogue.
    destruct (implicitTLS n), (bool_decide (user n = "")); cbn [app removelast In]; (split; [reflexivity|intuition discriminate]). }
  intros H Hin. destruct (exists_last (l := c :: post)) as (q & x & Hq); [done|]. rewrite Hq, app_assoc in H.
  apply app_inj_tail in H as [-> _]. apply Hd, in_app_iff. by left.
Qed.

Section Mail.
Variable token_text : Token -> string.
Hypothesis token_line : forall token, one_line (token_text token).

Lemma message_joined n to subject lines last :
  message n to subject (String.concat newline (lines ++ [last])) =
  joined (map (fun l => (l, true)) (header_lines (from n) to subject ++ [""]) ++ map (fun l => (l, false)) lines) last.
Proof.
  assert (String.concat newline (lines ++ [last]) = joined (map (fun l => (l, false)) lines) last) as ->.
  { induction lines as [|l lines IH]; [done|]. cbn [map joined app]. rewrite <- IH. by destruct lines. }
  done.
Qed.

Lemma wire_received n to subject lines last fuel :
  validEnvelopeAddr to = true -> validEnvelopeAddr (from n) = true -> one_line subject ->
  Forall one_line lines -> one_line last -> last <> "" -> (length lines + 8 <= fuel)%nat ->
  receive fuel (dot_writer Begin (message n to subject (String.concat newline (lines ++ [last])))) =
    Some (header_lines (from n) to subject ++ "" :: lines ++ [last], "").
Proof.
  intros Ht Hf Hs Hl Hlast Hne Hfuel. rewrite message_joined. rewrite joined_received; try done.
  - f_equal. f_equal. rewrite map_app, !map_map. cbn [fst]. rewrite !map_id, <- !app_assoc. done.
  - apply Forall_app. split; apply Forall_map; [|done]. cbn [header_lines app].
    apply envelope_line in Ht, Hf. repeat (constructor; [first [done|by apply one_line_app]|]). constructor.
  - rewrite length_app, !length_map. simpl. lia.
Qed.

End Mail.

(** C37: whatever the relay answers, a notice is given out only after a completed
    TLS handshake for the configured host: no credential, address or text before
    it; it is addressed to its recipient alone; the data sent is read back by a
    receiving server as the five headers, an empty line and the lines of the notice, each without a
    line break of any kind, and nothing after them, whatever the user name,
    device, address or detail in it; and the delivery succeeds exactly when every
    command was accepted. *)
Theorem mail_sound (token_text : Token -> string) (n : SMTPNotifier) (relay : list bool) (t : Z) (m : Mail)
    (to subject : string) (lines : list string) (last : string) :
  (forall token, one_line (token_text token)) ->
  letter token_text t m = Some (to, subject, lines, last) ->
  let (log, err) := deliver token_text n relay t m in
  (forall pre c b post, log = pre ++ (c, b) :: post -> confidential c = true ->
     In (Handshake (host n), true) pre \/ In (StartTLS (host n), true) pre) /\
  (forall a b, In (RcptTo a, b) log -> a = to) /\
  (forall wire b fuel, In (Wire wire, b) log -> (length lines + 8 <= fuel)%nat ->
     receive fuel wire = Some (header_lines (from n) to subject ++ "" :: lines ++ [last], "") /\
     Forall one_line (header_lines (from n) to subject ++ "" :: lines ++ [last])) /\
  (err = None <-> In (Quit, true) log).
Proof.
  intros Htok Hm. destruct (letter_lines _ Htok _ _ _ _ _ _ Hm) as (Hl & Hlast & Hne).
  unfold deliver. rewrite notice_letter, Hm. cbn [fmap option_fmap option_map]. unfold send.
  assert (forall e, let (log, err) := ([] : list (Command * bool), Some e : option MailError) in
    (forall pre c b post, log = pre ++ (c, b) :: post -> confidential c = true ->
       In (Handshake (host n), true) pre \/ In (StartTLS (host n), true) pre) /\
    (forall a b, In (RcptTo a, b) log -> a = to) /\
    (forall wire b fuel, In (Wire wire, b) log -> (length lines + 8 <= fuel)%nat ->
       receive fuel wire = Some (header_lines (from n) to subject ++ "" :: lines ++ [last], "") /\
       Forall one_line (header_lines (from n) to subject ++ "" :: lines ++ [last])) /\
    (err = None <-> In (Quit, true) log)) as Hnone.
  { intros e. split; [by intros [|? ?]|]. by repeat split. }
  destruct (negb (Enabled n)); [apply Hnone|]. destruct (validEnvelopeAddr to) eqn:Hto; [|apply Hnone].
  destruct (validEnvelopeAddr (from n)) eqn:Hfrom; [|apply Hnone].
  destruct (validHeaderValue subject) eqn:Hsub; [|apply Hnone]. cbn [negb].
  set (body := String.concat newline (lines ++ [last])). destruct (play relay _) as [log err] eqn:Hp.
  assert (forall c b, In (c, b) log -> In c (dialogue n to subject body)) as Hin.
  { intros c b Hc. apply in_split in Hc as (pre & post & Hc). eapply play_order in Hp as (pre' & post' & -> & _); [|exact Hc].
    apply in_elt. }
  split; [|split; [|split]].
  - intros pre c b post Hlog Hc. eapply play_order in Hp as (pre' & post' & Hd & ->); [|exact Hlog].
    apply dialogue_secured in Hd as [H|H]; [left|right|done]; by apply (in_map (fun c => (c, true))) in H.
  - intros a b H%Hin. unfold dialogue in H. rewrite !in_app_iff in H.
    destruct (implicitTLS n), (bool_decide (user n = "")); simpl in H; intuition congruence.
  - intros wire b fuel H%Hin Hfuel. assert (wire = dot_writer Begin (message n to subject body)) as ->.
    { unfold dialogue in H. rewrite !in_app_iff in H.
      destruct (implicitTLS n), (bool_decide (user n = "")); cbn [In] in H; intuition congruence. }
    split; [by apply wire_received|]. apply envelope_line in Hto, Hfrom. apply Forall_app. split.
    + repeat (constructor; [first [done|by apply one_line_app]|]). constructor.
    + constructor; [done|]. apply Forall_app. by split; [|constructor].
  - apply play_prefix in Hp as [[-> ->]|(pre & c & post & Hd & -> & ->)].
    + split; [intros _|done]. apply (in_map (fun c => (c, true))). unfold dialogue. rewrite !in_app_iff. simpl. tauto.
    + split; [done|]. intros H. exfalso. apply in_app_iff in H as [H|[[=]|[]]].
      apply in_map_iff in H as (c' & [= ->] & H). by eapply quit_last.
Qed.

(** ** Witness *)

Definition demo_smtp : SMTPNotifier := NewSMTPNotifier "mail.finn.io" "587" "finn" "secret" "no-reply@finn.io".

(** A device name that tries to end the message and to address another one. *)
Definition demo_alert : Mail :=
  NewLoginAlert "bob@acme.io" "203.0.113.7 " ("curl" +:+ crlf +:+ "." +:+ crlf +:+ "RCPT TO:<eve@evil.io>").

Definition no_text (t : Token) : string := "token".

Example mail_plaintext_refused :
  deliver no_text demo_smtp [true; true; false] 0 demo_alert =
  ([(Dial "mail.finn.io:587", true); (Greeting, true); (AskStartTLS, false)], Some (Refused AskStartTLS)).
Proof. vm_reflexivity. Qed.

Lemma mail_sound_witness :
  exists wire, In (Wire wire, true) (fst (deliver no_text demo_smtp [] 0 demo_alert)) /\
    receive 20 wire = Some (
      [ "From: no-reply@finn.io"; "To: bob@acme.io"; "Subject: New sign-in to your account"; "MIME-Version: 1.0";
        "Content-Type: text/plain; charset=UTF-8"; ""; "A new sign-in to your account was detected."; "";
        "IP address: 203.0.113.7"; "Device:     curl . RCPT TO:<eve@evil.io>"; "Time (UTC): 1970-01-01T00:00:00Z"; "";
        "If this was you, no action is needed. If you do not recognize this sign-in, change your password immediately and revoke unknown sessions." ], "").
Proof.
  pose proof (mail_sound no_text demo_smtp [] 0 demo_alert _ _ _ _ (fun _ => eq_refl) eq_refl) as H.
  destruct (deliver no_text demo_smtp [] 0 demo_alert) as [log err] eqn:Hd. destruct H as (_ & _ & H & _).
  assert (exists wire, In (Wire wire, true) log) as [wire Hw].
  { change log with (fst (log, err)). rewrite <- Hd. eexists. vm_compute. do 8 right. left. reflexivity. }
  exists wire. split; [exact Hw|]. rewrite (proj1 (H wire true 20%nat Hw ltac:(simpl; lia))). vm_reflexivity.
Defined.
