(* ===== verification/WebhookSpec.v ===== *)
(** * Webhooks reach only public addresses, and stop after five attempts

    The byte tests of the screening are the CIDR blocks they stand for; whatever
    the resolver answers at registration and at each dial, a request goes out only
    to an address outside them; an attempt settles its delivery in one of three
    ways. *)

From S2P Require Import Prelude Store Models NetIP World Sql Common Webhook Demo.

Open Scope Z_scope.
Open Scope monad_scope.

(** ** Address blocks *)

Definition address_ok (ip : IP) : Prop := (length ip = 4%nat \/ length ip = 16%nat) /\ Forall byte_ok ip.

(** The number an address is. *)
Definition value (ip : IP) : Z := fold_left (fun acc b => acc * 256 + b) ip 0.

(** An address of [w] bits in the block of a base and a prefix length. *)
Definition within (w v : Z) (block : Z * Z) : Prop := v / 2 ^ (w - snd block) = fst block / 2 ^ (w - snd block).

Definition v4_base (a b : Z) : Z := a * 2 ^ 24 + b * 2 ^ 16.

(** Unspecified, private, loopback, link-local, multicast. *)
Definition blocks4 : list (Z * Z) :=
  [ (0, 32); (v4_base 10 0, 8); (v4_base 127 0, 8); (v4_base 169 254, 16); (v4_base 172 16, 12);
    (v4_base 192 168, 16); (v4_base 224 0, 4) ].

(** Unspecified, loopback, unique-local, link-local, multicast. *)
Definition blocks6 : list (Z * Z) :=
  [ (0, 128); (1, 128); (252 * 2 ^ 120, 7); (254 * 2 ^ 120 + 128 * 2 ^ 112, 10); (255 * 2 ^ 120, 8) ].

(** An IPv4 address written in sixteen bytes: ::ffff:0:0/96. *)
Definition mapped (ip : IP) : bool := (length ip =? 16)%nat && (value ip / 2 ^ 32 =? 65535).

Definition restricted (ip : IP) : Prop :=
  if (length ip =? 4)%nat then Exists (within 32 (value ip)) blocks4
  else if mapped ip then Exists (within 32 (value ip mod 2 ^ 32)) blocks4
  else Exists (within 128 (value ip)) blocks6.

Lemma value_from acc ip : fold_left (fun acc b => acc * 256 + b) ip acc = acc * 256 ^ Z.of_nat (length ip) + value ip.
Proof.
  unfold value. revert acc. induction ip as [|b ip IH]; intros acc; cbn [fold_left length]; [cbn; lia|].
  rewrite IH, (IH (0 * 256 + b)), Nat2Z.inj_succ, Z.pow_succ_r by lia. lia.
Qed.

Lemma value_app l1 l2 : value (l1 ++ l2) = value l1 * 256 ^ Z.of_nat (length l2) + value l2.
Proof. unfold value at 1. rewrite fold_left_app. apply value_from. Qed.

Lemma value_bound l : Forall byte_ok l -> 0 <= value l < 256 ^ Z.of_nat (length l).
Proof.
  induction l as [|b l IH] using rev_ind; intros H; [done|]. apply Forall_app in H as [Hl Hb].
  apply Forall_inv in Hb. apply IH in Hl. rewrite value_app, length_app, Nat2Z.inj_add, Z.pow_add_r by lia.
  change (256 ^ Z.of_nat (length [b])) with 256. change (value [b]) with b. unfold byte_ok in Hb. revert Hl.
  generalize (256 ^ Z.of_nat (length l)). intros p Hl. lia.
Qed.

(** The leading bytes are the value shifted. *)
Lemma value_prefix l1 l2 :
  Forall byte_ok l2 -> value (l1 ++ l2) / 2 ^ (8 * Z.of_nat (length l2)) = value l1.
Proof.
  intros H. apply value_bound in H. rewrite value_app, Z.pow_mul_r by lia. change (2 ^ 8) with 256.
  rewrite Z.div_add_l by lia. rewrite Z.div_small by done. lia.
Qed.

Lemma value_inj l1 l2 : length l1 = length l2 -> Forall byte_ok l1 -> Forall byte_ok l2 -> value l1 = value l2 -> l1 = l2.
Proof.
  revert l2. induction l1 as [|b l IH] using rev_ind; intros l2 Hlen H1 H2 Hv.
  { by destruct l2. }
  destruct l2 as [|c l2 _] using rev_ind; [rewrite length_app in Hlen; simpl in Hlen; lia|].
  rewrite !length_app in Hlen. simpl in Hlen. apply Forall_app in H1 as [H1 Hb]. apply Forall_app in H2 as [H2 Hc].
  apply Forall_inv in Hb, Hc. unfold byte_ok in Hb, Hc. rewrite !value_app in Hv. cbn in Hv.
  change (Z.pow_pos 256 1) with 256 in Hv. f_equal; [apply IH; try done; lia|f_equal; lia].
Qed.

(** A mask of the leading bits is a quotient. *)
Lemma mask_quotient m k : (m, k) ∈ [(240, 16); (254, 2); (192, 64); (15, 1)] -> k <> 1 ->
  forall b c, byte_ok b -> (Z.land b m =? c * k) = (b / k =? c).
Proof.
  intros Hin Hk b c Hb.
  assert (forallb (fun b => Z.land b m =? b / k * k) (map Z.of_nat (seq 0 256)) = true) as Hall.
  { repeat (apply elem_of_cons in Hin as [[= -> ->]|Hin]; [first [done|by vm_compute]|]). by apply elem_of_nil in Hin. }
  rewrite forallb_forall in Hall. assert (Z.land b m = b / k * k) as ->.
  { apply Z.eqb_eq, Hall. apply in_map_iff. exists (Z.to_nat b). unfold byte_ok in Hb. split; [lia|]. apply in_seq. lia. }
  assert (0 < k) by (repeat (apply elem_of_cons in Hin as [[= -> ->]|Hin]; [lia|]); by apply elem_of_nil in Hin).
  destruct (Z.eqb_spec (b / k) c) as [->|Hne]; [by rewrite Z.eqb_refl|]. apply Z.eqb_neq. nia.
Qed.

Lemma land_240 b c : byte_ok b -> (Z.land b 240 =? c * 16) = (b / 16 =? c).
Proof. apply mask_quotient; [set_solver|done]. Qed.

Lemma land_254 b c : byte_ok b -> (Z.land b 254 =? c * 2) = (b / 2 =? c).
Proof. apply mask_quotient; [set_solver|done]. Qed.

Lemma land_192 b c : byte_ok b -> (Z.land b 192 =? c * 64) = (b / 64 =? c).
Proof. apply mask_quotient; [set_solver|done]. Qed.

(** The quotient by a power of two, of which a power of 256 is taken off first. *)
Lemma quotient_of l1 l2 r :
  0 <= r -> Forall byte_ok l2 -> value (l1 ++ l2) / 2 ^ (8 * Z.of_nat (length l2) + r) = value l1 / 2 ^ r.
Proof.
  intros Hr H. rewrite Z.pow_add_r by lia. rewrite <- Z.div_div by (try apply Z.pow_nonzero; try apply Z.pow_pos_nonneg; lia).
  by rewrite value_prefix.
Qed.

Ltac quotient l1 l2 r :=
  let H := fresh "Hq" in
  pose proof (quotient_of l1 l2 r) as H; cbn [length app] in H;
  match type of H with _ -> _ -> _ / 2 ^ ?e = _ => let e' := eval vm_compute in e in change e with e' in H end;
  specialize (H ltac:(lia) ltac:(repeat (apply Forall_cons_2; [done|]); apply Forall_nil_2)).

Lemma blocked_v4 a b c d :
  Forall byte_ok [a; b; c; d] ->
  Net.blockedIP [a; b; c; d] = true <-> Exists (within 32 (value [a; b; c; d])) blocks4.
Proof.
  intros H. assert (byte_ok a /\ byte_ok b /\ byte_ok c /\ byte_ok d) as (Ha & Hb & Hc & Hd).
  { repeat match goal with H : Forall _ (_ :: _) |- _ => apply Forall_cons_1 in H as [? H] end. done. }
  assert (value [a; b; c; d] = ((a * 256 + b) * 256 + c) * 256 + d) as Hv by done.
  quotient [a] [b; c; d] 0. quotient [a] [b; c; d] 4. quotient [a; b] [c; d] 0. quotient [a; b] [c; d] 4.
  change (value [a]) with a in *. change (value [a; b]) with (a * 256 + b) in *.
  unfold Net.blockedIP, Net.IsLoopback, Net.IsPrivate, Net.IsLinkLocalUnicast, Net.IsLinkLocalMulticast,
    Net.IsMulticast, Net.IsUnspecified, Net.To4, Net.byte_at. cbn [length Nat.eqb nth].
  change 16 with (1 * 16) at 1. change 224 with (14 * 16) at 2. rewrite !land_240 by done.
  unfold blocks4. rewrite !Exists_cons, Exists_nil. unfold within. cbn [fst snd].
  repeat match goal with |- context [2 ^ (32 - ?k)] => let e := eval vm_compute in (32 - k) in change (32 - k) with e end.
  rewrite Hq, Hq0, Hq1, Hq2, Hv. change (2 ^ 0) with 1. change (2 ^ 4) with 16. rewrite !Z.div_1_r.
  change (v4_base 10 0 / 2 ^ 24) with 10. change (v4_base 127 0 / 2 ^ 24) with 127.
  change (v4_base 169 254 / 2 ^ 16) with (169 * 256 + 254). change (v4_base 172 16 / 2 ^ 20) with 2753.
  change (v4_base 192 168 / 2 ^ 16) with (192 * 256 + 168). change (v4_base 224 0 / 2 ^ 28) with 14.
  rewrite !orb_true_iff, !andb_true_iff, !Z.eqb_eq, bool_decide_eq_true. unfold byte_ok in *.
  assert ([a; b; c; d] = [0; 0; 0; 0] <-> a = 0 /\ b = 0 /\ c = 0 /\ d = 0) as -> by (split; [by intros [=]|by intros (-> & -> & -> & ->)]).
  assert (((a * 256 + b) * 256 + c) * 256 + d = 0 <-> a = 0 /\ b = 0 /\ c = 0 /\ d = 0) as -> by lia.
  assert (a * 256 + b = 169 * 256 + 254 <-> a = 169 /\ b = 254) as -> by lia.
  assert (a * 256 + b = 192 * 256 + 168 <-> a = 192 /\ b = 168) as -> by lia.
  assert ((a * 256 + b) / 16 = 2753 <-> a = 172 /\ b / 16 = 1) as -> by (Z.to_euclidean_division_equations; lia).
  assert (a = 224 -> a / 16 = 14) by (intros ->; done). clear -H0. tauto.
Qed.

Definition prefix4in6 : IP := repeat 0 10 ++ [255; 255].

Lemma To4_16 ip :
  length ip = 16%nat -> Forall byte_ok ip -> Net.To4 ip = if mapped ip then Some (drop 12 ip) else None.
Proof.
  intros Hlen H. unfold Net.To4, mapped. rewrite Hlen. cbn [Nat.eqb andb].
  assert ((value ip / 2 ^ 32 =? 65535) = bool_decide (take 12 ip = prefix4in6)) as ->.
  { rewrite <- (take_drop 12 ip) in H. apply Forall_app in H as [H1 H2].
    pose proof (value_prefix (take 12 ip) (drop 12 ip) H2) as Hp. rewrite take_drop, length_drop, Hlen in Hp.
    change (8 * Z.of_nat (16 - 12)) with 32 in Hp. rewrite Hp. destruct (decide (take 12 ip = prefix4in6)) as [->|Hne].
    - by rewrite bool_decide_true.
    - rewrite bool_decide_false by done. apply Z.eqb_neq. intros Hv. apply Hne, value_inj; try done.
      + rewrite length_take, Hlen. done.
      + unfold prefix4in6, byte_ok. simpl. repeat (apply Forall_cons_2; [lia|]). apply Forall_nil_2. }
  clear H. do 16 (destruct ip as [|? ip]; [discriminate Hlen|]). destruct ip; [|discriminate Hlen].
  unfold Net.byte_at, prefix4in6. cbn [seq forallb nth take drop repeat app].
  match goal with |- (if ?p then _ else _) = (if ?q then _ else _) => assert (p = q) as ->; [|done] end.
  apply eq_true_iff_eq. rewrite !andb_true_iff, !Z.eqb_eq, bool_decide_eq_true. split.
  - intros [[(-> & -> & -> & -> & -> & -> & -> & -> & -> & -> & _) ->] ->]. done.
  - intros [=]. subst. tauto.
Qed.

Lemma loopback_value ip : length ip = 16%nat -> Forall byte_ok ip -> ip = Net.IPv6loopback <-> value ip = 1.
Proof.
  intros Hl H. split; [by intros ->|]. intros Hv. apply value_inj; try done. unfold byte_ok. simpl.
  repeat (apply Forall_cons_2; [lia|]). apply Forall_nil_2.
Qed.

Lemma unspecified_value ip : length ip = 16%nat -> Forall byte_ok ip -> ip = Net.IPv6unspecified <-> value ip = 0.
Proof.
  intros Hl H. split; [by intros ->|]. intros Hv. apply value_inj; try done. unfold byte_ok. simpl.
  repeat (apply Forall_cons_2; [lia|]). apply Forall_nil_2.
Qed.

Lemma blocked_v6 ip :
  length ip = 16%nat -> Forall byte_ok ip -> mapped ip = false ->
  Net.blockedIP ip = true <-> Exists (within 128 (value ip)) blocks6.
Proof.
  intros Hlen H Hm. pose proof (To4_16 ip Hlen H) as H4. rewrite Hm in H4.
  unfold Net.blockedIP, Net.IsLoopback, Net.IsPrivate, Net.IsLinkLocalUnicast, Net.IsLinkLocalMulticast,
    Net.IsMulticast, Net.IsUnspecified, Net.v6. rewrite !H4, Hlen. cbn [Nat.eqb andb].
  rewrite !orb_true_iff, !bool_decide_eq_true, loopback_value, unspecified_value by done.
  destruct ip as [|a [|b rest]]; [done|done|].
  assert (byte_ok a /\ byte_ok b /\ Forall byte_ok rest) as (Ha & Hb & Hr).
  { apply Forall_cons_1 in H as [? H]. by apply Forall_cons_1 in H as [? H]. }
  assert (length rest = 14%nat) as Hrest by (simpl in Hlen; lia).
  pose proof (quotient_of [a] (b :: rest) 0 ltac:(lia) (Forall_cons_2 _ _ _ Hb Hr)) as Q1.
  pose proof (quotient_of [a] (b :: rest) 1 ltac:(lia) (Forall_cons_2 _ _ _ Hb Hr)) as Q2.
  pose proof (quotient_of [a; b] rest 6 ltac:(lia) Hr) as Q3. cbn [length app] in Q1, Q2, Q3. rewrite Hrest in Q1, Q2, Q3.
  change (8 * Z.of_nat 15 + 0) with 120 in Q1. change (8 * Z.of_nat 15 + 1) with 121 in Q2.
  change (8 * Z.of_nat 14 + 6) with 118 in Q3. change (value [a]) with a in *. change (value [a; b]) with (a * 256 + b) in *.
  unfold Net.byte_at. cbn [nth]. change 252 with (126 * 2). change 128 with (2 * 64). rewrite land_254, land_192 by done.
  unfold blocks6. rewrite !Exists_cons, Exists_nil. unfold within. cbn [fst snd].
  change (2 * 64 - 128) with 0. change (2 * 64 - 7) with 121. change (2 * 64 - 10) with 118. change (2 * 64 - 8) with 120.
  rewrite Q1, Q2, Q3. change (2 ^ 0) with 1. change (2 ^ 1) with 2. change (2 ^ 6) with 64. rewrite !Z.div_1_r.
  change (126 * 2 * 2 ^ 120 / 2 ^ 121) with 126. change ((254 * 2 ^ 120 + 2 * 64 * 2 ^ 112) / 2 ^ 118) with 1018.
  change (255 * 2 ^ 120 / 2 ^ 120) with 255. rewrite !andb_true_iff, !Z.eqb_eq. unfold byte_ok in *.
  assert ((a * 256 + b) / 64 = 1018 <-> a = 254 /\ b / 64 = 2) as -> by (Z.to_euclidean_division_equations; lia).
  clear. tauto.
Qed.

(** The screening is exact: it refuses an address when it lies in one of the
    blocks and only then, IPv4 written in sixteen bytes included. *)
Lemma blocked_exact ip : address_ok ip -> Net.blockedIP ip = true <-> restricted ip.
Proof.
  intros [[Hlen|Hlen] H]; unfold restricted; rewrite Hlen; cbn [Nat.eqb].
  - do 4 (destruct ip as [|? ip]; [discriminate Hlen|]). destruct ip; [|discriminate Hlen]. by apply blocked_v4.
  - destruct (mapped ip) eqn:Hm; [|by apply blocked_v6].
    assert (length (drop 12 ip) = 4%nat) as Hd by (rewrite length_drop; lia).
    rewrite <- (take_drop 12 ip) in H. apply Forall_app in H as [H1 H2]. assert (value ip mod 2 ^ 32 = value (drop 12 ip)) as ->.
    { rewrite <- (take_drop 12 ip) at 1. rewrite value_app, Hd. change (256 ^ Z.of_nat 4) with (2 ^ 32).
      rewrite Z.add_comm, Z.mod_add by done. apply Z.mod_small. pose proof (value_bound _ H2) as Hb. by rewrite Hd in Hb. }
    assert (Net.blockedIP ip = Net.blockedIP (drop 12 ip)) as ->.
    { unfold Net.blockedIP. rewrite To4_16 by (done || rewrite <- (take_drop 12 ip); by apply Forall_app). rewrite Hm.
      assert (Net.To4 (drop 12 ip) = Some (drop 12 ip)) as Ht by (unfold Net.To4; by rewrite Hd). by rewrite Ht. }
    destruct (drop 12 ip) as [|a [|b [|c [|d [|]]]]]; try discriminate Hd. by apply blocked_v4.
Qed.

(** ** What one delivery does *)

Section Delivery.
Context {ST : Store} {E : Ext} {N : Network} (s : WebhookService) (Hs : allowLocalhost s = false).
Import Webhook.

(** The answer to some question about the host, none of whose addresses is blocked. *)
Definition screened (host : string) (ips : list IP) : Prop :=
  (exists n, lookup_ip n host = Some ips) /\ Forall (fun ip => Net.blockedIP ip = false) ips.

Lemma none_blocked ips : existsb Net.blockedIP ips = false -> Forall (fun ip => Net.blockedIP ip = false) ips.
Proof.
  intros H. apply Forall_forall. intros ip Hin. destruct (Net.blockedIP ip) eqn:Hb; [|done].
  assert (existsb Net.blockedIP ips = true) as Ht by (apply existsb_exists; eauto). by rewrite Ht in H.
Qed.

Lemma resolve_run host w : exists w', resolve host w = (Ok (lookup_ip (w_rand w) host), w') /\ same_state w w'.
Proof. eexists. split; [done|]. by repeat split. Qed.

Lemma validate_inv url w r w' :
  ValidateURL s url w = (r, w') ->
  same_state w w' /\
  match r with
  | Ok _ => exists u ips, url_parse url = Some u /\ u_scheme u ∈ ["http"; "https"] /\ screened (u_hostname u) ips
  | Error _ => True
  end.
Proof.
  unfold ValidateURL. destruct (url_parse url) as [u|]; [|by intros [= <- <-]; split; [apply same_refl|]].
  destruct (_ || _) eqn:Hc; [by intros [= <- <-]; split; [apply same_refl|]|].
  assert (u_scheme u ∈ ["http"; "https"]) as Hscheme.
  { apply orb_false_iff in Hc as [Hc _]. destruct (decide (u_scheme u = "http")) as [->|]; [set_solver|].
    rewrite (bool_decide_false (u_scheme u = "http")) in Hc by done. simpl in Hc. bool_prop. set_solver. }
  rewrite Hs. unfold bind. destruct (resolve_run (u_hostname u) w) as (w1 & -> & Hw).
  destruct (lookup_ip _ _) as [ips|] eqn:Hl; [|by intros [= <- <-]].
  destruct (existsb _ _) eqn:Hb; intros [= <- <-]; [done|]. split; [done|]. exists u, ips. split; [done|]. split; [done|].
  split; [eauto|by apply none_blocked].
Qed.

Lemma dial_inv u w r w' :
  dial s u w = (r, w') ->
  same_state w w' /\ exists d, r = Ok d /\ match d with
                                | inl (_, e) => True
                                | inr a => exists ip n ips, a = Some ip /\ lookup_ip n (u_hostname u) = Some ips /\ In ip ips /\
                                             Net.blockedIP ip = false
                                end.
Proof.
  unfold dial. rewrite Hs. unfold bind. destruct (resolve_run (u_hostname u) w) as (w1 & -> & Hw).
  destruct (lookup_ip _ _) as [[|ip rest]|] eqn:Hl; try by intros [= <- <-]; split; [done|]; eexists.
  destruct (List.find _ _) as [bad|] eqn:Hf; intros [= <- <-]; (split; [done|]; eexists; split; [done|]); [done|].
  exists ip, (w_rand w), (ip :: rest). split; [done|]. split; [done|]. split; [by left|].
  by apply (find_none _ _ Hf ip); left.
Qed.

(** What an attempt leaves: delivered on a 2xx answer, given up at the fifth
    attempt, else waiting for two to the power of the attempts minutes. *)
Definition settled (t n : Z) (answer : option Z) (status : string) (next : option Z) : Prop :=
  (exists code, answer = Some code /\ 200 <= code < 300 /\ status = "delivered" /\ next = None) \/
  ((forall code, answer = Some code -> ~ 200 <= code < 300) /\
   ((n < 5 /\ status = "pending" /\ next = Some (t + 2 ^ n * minute)) \/ (5 <= n /\ status = "failed" /\ next = None))).

Lemma after_failure_settled t n answer :
  (forall code, answer = Some code -> ~ 200 <= code < 300) ->
  settled t n answer (fst (after_failure t n)) (snd (after_failure t n)).
Proof. intros H. right. split; [done|]. unfold after_failure. destruct (Z.leb_spec 5 n); [right|left]; simpl; auto with lia. Qed.

(** The row of the delivery, rewritten or, where the statement failed, not. *)
Definition stored (id status : string) (n : Z) (next answer : option Z) (msg : string) (d d' : DB) : Prop :=
  d' = d \/ d' = set_rows (update_where (fun x => bool_decide (WebhookDelivery.ID x = id))
                             (WebhookDelivery.set_outcome status n next answer msg) (rows_of d)) d.

Lemma update_stored id status n next answer msg w :
  exists w', Calls.quietly (WebhookRepository.UpdateDeliveryStatus id status n next answer msg) w = (Ok tt, w') /\
    stored id status n next answer msg (w_db w) (w_db w') /\ w_mail w' = w_mail w /\ w_now w' = w_now w.
Proof.
  unfold Calls.quietly, WebhookRepository.UpdateDeliveryStatus, bind, try_.
  destruct (Updates _ _ w) as [[k|e] w1] eqn:Hu.
  - apply Updates_Ok in Hu as [(Hd & _ & _ & Hn & Hm) _]. eexists. split; [done|]. split; [right; exact Hd|]. done.
  - apply stmt_cases in Hu as (w2 & (Hd & _ & _ & Hn & Hm) & [[_ ->]|[=]]). eexists. split; [done|]. split; [by left|]. done.
Qed.

(** One delivery, on every branch. *)
Definition attempt (d : WebhookDelivery.row) (secret url : string) (w : World) (d' : WebhookDelivery.row)
    (err : option Err) (w' : World) : Prop :=
  w_now w' = w_now w /\
  ((d' = d /\ err <> None /\ w_db w' = w_db w /\ w_mail w' = w_mail w) \/
   exists answer status next msg,
     d' = tried d /\ (err = None <-> status = "delivered") /\
     ((answer = None /\ w_mail w' = w_mail w) \/
      (exists ip u ips n, w_mail w' = w_mail w ++ [Posted (Some ip) (request_of d secret url)] /\ url_parse url = Some u /\
         lookup_ip n (u_hostname u) = Some ips /\ In ip ips /\ Net.blockedIP ip = false)) /\
     settled (w_now w) (WebhookDelivery.Attempts d + 1) answer status next /\
     stored (WebhookDelivery.ID d) status (WebhookDelivery.Attempts d + 1) next answer msg (w_db w) (w_db w')).

(** The request went to an address of the host that is not blocked. *)
Definition posted (u : URL) (r : HookRequest) (w w' : World) : Prop :=
  exists ip ips n, w_mail w' = w_mail w ++ [Posted (Some ip) r] /\ lookup_ip n (u_hostname u) = Some ips /\
    In ip ips /\ Net.blockedIP ip = false.

Lemma do_run u r w :
  exists x w', Do s u r w = (Ok x, w') /\ w_db w' = w_db w /\ w_now w' = w_now w /\
    ((w_mail w' = w_mail w /\ exists e, x = inl e) \/ posted u r w w').
Proof.
  unfold Do. destruct (dial s u w) as [d w1] eqn:Hd. apply dial_inv in Hd as Hx.
  destruct Hx as [(Hd1 & _ & _ & Hn1 & Hm1) (x & -> & Hx)]. rewrite (bind_run _ _ _ _ _ Hd). destruct x as [e|a].
  - exists (inl e), w1. repeat split; try done. left. eauto.
  - destruct Hx as (ip & n & ips & -> & Hl & Hin & Hb). eexists _, _. split; [reflexivity|]. split; [exact Hd1|].
    split; [exact Hn1|]. right. exists ip, ips, n. cbn. by rewrite Hm1.
Qed.

(** A failed attempt is written down, and the error answered. *)
Definition written_off (d : WebhookDelivery.row) (answer : option Z) (msg : string) (err : Err) (t : Z)
    : M (WebhookDelivery.row * option Err) :=
  let (status, next) := after_failure t (WebhookDelivery.Attempts (tried d)) in
  Calls.quietly (WebhookRepository.UpdateDeliveryStatus (WebhookDelivery.ID (tried d)) status
    (WebhookDelivery.Attempts (tried d)) next answer msg) ;;; ret (tried d, Some err).

Lemma written_off_run d answer msg err t w :
  (forall code, answer = Some code -> ~ 200 <= code < 300) ->
  exists w' status next, written_off d answer msg err t w = (Ok (tried d, Some err), w') /\ w_now w' = w_now w /\
    w_mail w' = w_mail w /\ status <> "delivered" /\
    settled t (WebhookDelivery.Attempts d + 1) answer status next /\
    stored (WebhookDelivery.ID d) status (WebhookDelivery.Attempts d + 1) next answer msg (w_db w) (w_db w').
Proof.
  intros Hcode. pose proof (after_failure_settled t (WebhookDelivery.Attempts d + 1) answer Hcode) as Hset.
  unfold written_off. change (WebhookDelivery.Attempts (tried d)) with (WebhookDelivery.Attempts d + 1).
  destruct (after_failure _ _) as [status next]. cbn [fst snd] in Hset.
  destruct (update_stored (WebhookDelivery.ID (tried d)) status (WebhookDelivery.Attempts d + 1) next answer msg w)
    as (w' & Hq & Hst & Hm & Hn). exists w', status, next. rewrite (bind_run _ _ _ _ _ Hq). repeat split; try done.
  intros ->. destruct Hset as [(code & Ha & Hr & _)|[_ [(_ & [=] & _)|(_ & [=] & _)]]]. by destruct (Hcode code Ha).
Qed.

Lemma attempt_made d secret url w :
  exists d' err w', DeliverOne s d secret url w = (Ok (d', err), w') /\ attempt d secret url w d' err w'.
Proof.
  destruct (ValidateURL s url w) as [v w1] eqn:Hv. unfold DeliverOne.
  rewrite (bind_run (try_ (ValidateURL s url)) _ w v w1) by (unfold try_; by rewrite Hv).
  apply validate_inv in Hv as [(Hd1 & _ & _ & Hn1 & Hm1) Hv]. destruct v as [[]|e].
  2: { exists d, (Some e), w1. split; [done|]. split; [done|]. left. done. }
  destruct Hv as (u & ips & Hu & _ & _). rewrite Hu.
  destruct (do_run u (request_of d secret url) w1) as (x & w2 & Hdo & Hd2 & Hn2 & Hpost).
  rewrite (bind_run _ _ _ _ _ Hdo). erewrite bind_run; [|reflexivity].
  assert (forall answer msg err, (forall code, answer = Some code -> ~ 200 <= code < 300) ->
    ((w_mail w2 = w_mail w1 /\ answer = None) \/ posted u (request_of d secret url) w1 w2) ->
    exists w', written_off d answer msg err (w_now w2) w2 = (Ok (tried d, Some err), w') /\
      attempt d secret url w (tried d) (Some err) w') as Hfail.
  { intros answer msg err Hcode Hp. destruct (written_off_run d answer msg err (w_now w2) w2 Hcode)
      as (w' & status & next & Hrun & Hn & Hm & Hne & Hset & Hst).
    exists w'. split; [exact Hrun|]. split; [congruence|]. right. exists answer, status, next, msg. split; [done|].
    split; [by split|]. rewrite Hd2, Hd1 in Hst. rewrite Hn2, Hn1 in Hset. split; [|done].
    destruct Hp as [[Hp ->]|(ip & ips' & n & Hp & Hl & Hin & Hb)]; [left; split; [done|congruence]|right].
    exists ip, u, ips', n. split; [congruence|]. done. }
  destruct x as [[msg err]|code].
  - destruct (Hfail None msg err ltac:(done)) as (w' & Hrun & Hatt).
    { destruct Hpost as [[Hm _]|Hp]; [by left|by right]. }
    exists (tried d), (Some err), w'. split; [exact Hrun|exact Hatt].
  - assert (posted u (request_of d secret url) w1 w2) as Hp by (destruct Hpost as [[_ (e & [=])]|Hp]; exact Hp).
    destruct ((200 <=? code) && (code <? 300)) eqn:Hok.
    + destruct (update_stored (WebhookDelivery.ID (tried d)) "delivered" (WebhookDelivery.Attempts (tried d)) None (Some code) "" w2)
        as (w' & Hq & Hst & Hm & Hn). exists (tried d), None, w'. rewrite (bind_run _ _ _ _ _ Hq). split; [done|]. split; [congruence|].
      right. exists (Some code), "delivered", None, "". split; [done|]. split; [done|]. split.
      { right. destruct Hp as (ip & ips' & n & Hp & Hl & Hin & Hb). exists ip, u, ips', n. split; [congruence|]. done. }
      split; [left; exists code; bool_prop; auto with lia|]. rewrite Hd2, Hd1 in Hst. done.
    + destruct (Hfail (Some code) ("HTTP " +:+ fmt_d code) EInfra) as (w' & Hrun & Hatt); [|by right|].
      { intros c [= <-] Hc. destruct (Z.leb_spec 200 code), (Z.ltb_spec code 300); try done; lia. }
      exists (tried d), (Some EInfra), w'. split; [exact Hrun|exact Hatt].
Qed.

End Delivery.

(** C34: outside the test fixtures a delivery sends at most its one request, signed
    with the endpoint's secret, and only to an address in none of the blocks for
    loopback, private, link-local, multicast and unspecified addresses, IPv4 or
    IPv6 or the one written as the other, whatever the resolver answered before
    and answers now; an endpoint is registered only for an http or https URL whose
    host resolved to such addresses alone. *)
Theorem webhook_no_ssrf {ST : Store} {E : Ext} {N : Network} (s : WebhookService) :
  allowLocalhost s = false ->
  (forall n host ips, lookup_ip n host = Some ips -> Forall address_ok ips) ->
  (forall d secret url w r w', Webhook.DeliverOne s d secret url w = (r, w') ->
     w_mail w' = w_mail w \/
     exists ip, w_mail w' = w_mail w ++ [Posted (Some ip) (Webhook.request_of d secret url)] /\ ~ restricted ip) /\
  (forall ctx tid url events w ep w', Webhook.RegisterEndpoint s ctx tid url events w = (Ok ep, w') ->
     exists u n ips, url_parse url = Some u /\ u_scheme u ∈ ["http"; "https"] /\
       lookup_ip n (u_hostname u) = Some ips /\ Forall (fun ip => ~ restricted ip) ips).
Proof.
  intros Hs Hnet.
  assert (forall n host ips ip, lookup_ip n host = Some ips -> In ip ips -> Net.blockedIP ip = false -> ~ restricted ip) as Hfree.
  { intros n host ips ip Hl Hin Hb Hr. apply Hnet in Hl. pose proof (proj1 (List.Forall_forall _ _) Hl ip Hin) as Hok.
    apply blocked_exact in Hr; [congruence|done]. }
  split.
  - intros d secret url w r w' H. destruct (attempt_made s Hs d secret url w) as (d' & err & w2 & H2 & _ & Hatt).
    rewrite H in H2. injection H2 as -> ->. destruct Hatt as [(_ & _ & _ & Hm)|(a & st & nx & msg & _ & _ & Hp & _)]; [by left|].
    destruct Hp as [[_ Hm]|(ip & u & ips & n & Hm & _ & Hl & Hin & Hb)]; [by left|]. right. exists ip. split; [done|]. by eapply Hfree.
  - intros ctx tid url events w ep w' H. unfold Webhook.RegisterEndpoint in H. apply bind_Ok in H as ([] & w1 & Hv & _).
    apply (validate_inv s Hs) in Hv as [_ (u & ips & Hu & Hsch & (n & Hl) & Hb)]. exists u, n, ips. repeat split; try done.
    apply List.Forall_forall. intros ip Hin. eapply Hfree; [exact Hl|exact Hin|]. by apply (proj1 (List.Forall_forall _ _) Hb).
Qed.

(** A delivery always ends: refused before anything was sent and left as it
    was, or tried once more, and then delivered on a 2xx answer, given up at the
    fifth attempt, or waiting; unless the write failed, it is not picked up again
    before two to the power of its attempts minutes have passed, and never after
    the fifth attempt or a success. *)
Theorem webhook_attempt {ST : Store} {E : Ext} {N : Network} (s : WebhookService) (d : WebhookDelivery.row)
    (secret url : string) (w : World) :
  allowLocalhost s = false ->
  exists d' err w', Webhook.DeliverOne s d secret url w = (Ok (d', err), w') /\ attempt d secret url w d' err w' /\
    (w_db w' <> w_db w -> forall t x, In x (rows_of (w_db w')) -> WebhookDelivery.ID x = WebhookDelivery.ID d ->
       WebhookRepository.waiting t x = true ->
       WebhookDelivery.Attempts x = WebhookDelivery.Attempts d + 1 /\ WebhookDelivery.Attempts x < 5 /\
       w_now w + 2 ^ (WebhookDelivery.Attempts d + 1) * minute <= t).
Proof.
  intros Hs. destruct (attempt_made s Hs d secret url w) as (d' & err & w' & Hrun & Hatt). exists d', err, w'.
  split; [exact Hrun|]. split; [exact Hatt|]. intros Hne t x Hin Hid Hwait.
  destruct Hatt as [_ [(_ & _ & Hdb & _)|(a & st & nx & msg & _ & _ & _ & Hset & [Hst|Hst])]]; [done|done|].
  rewrite Hst in Hin. change (rows_of (set_rows ?l ?db)) with l in Hin. apply in_map_iff in Hin as (y & <- & Hy).
  unfold WebhookRepository.waiting in Hwait. case_bool_decide as Hidy; [|done]. cbn in Hwait |- *.
  destruct Hset as [(code & _ & _ & -> & ->)|[_ [(Hn & -> & ->)|(_ & -> & ->)]]]; [done| |done].
  cbn in Hwait. apply Z.leb_le in Hwait. lia.
Qed.

(** ** Witnesses *)

Import Choices.

Definition demo_delivery : WebhookDelivery.row :=
  WebhookDelivery.mk "d1" "e1" "login" "{}" "pending" 3 None None "" Demo.t0.

Lemma demo_addresses n host ips : lookup_ip (Network := demo_network) n host = Some ips -> Forall address_ok ips.
Proof.
  intros H. assert (ips = [[93; 184; 216; 34]] \/ ips = [[10; 0; 0; 1]]) as [->| ->]
    by (cbn in H; destruct (n <=? 1)%nat; injection H as <-; auto);
    (apply Forall_cons_2; [|apply Forall_nil_2]); (split; [by left|]); unfold byte_ok;
    repeat (apply Forall_cons_2; [lia|]); apply Forall_nil_2.
Qed.

Lemma webhook_no_ssrf_witness :
  let (r, w') := Webhook.DeliverOne Webhook.NewWebhookService demo_delivery "k" "https://hooks.example/in" Demo.start in
  w_mail w' = w_mail Demo.start \/
  exists ip, w_mail w' = w_mail Demo.start ++ [Posted (Some ip) (Webhook.request_of demo_delivery "k" "https://hooks.example/in")] /\
    ~ restricted ip.
Proof.
  destruct (Webhook.DeliverOne Webhook.NewWebhookService demo_delivery "k" "https://hooks.example/in" Demo.start) as [r w'] eqn:H.
  exact (proj1 (webhook_no_ssrf Webhook.NewWebhookService eq_refl demo_addresses) _ _ _ _ _ _ H).
Defined.

Lemma webhook_attempt_witness :
  exists d' err w', Webhook.DeliverOne Webhook.NewWebhookService demo_delivery "k" "https://hooks.example/in" Demo.start = (Ok (d', err), w') /\
    attempt demo_delivery "k" "https://hooks.example/in" Demo.start d' err w'.
Proof.
  destruct (webhook_attempt Webhook.NewWebhookService demo_delivery "k" "https://hooks.example/in" Demo.start eq_refl)
    as (d' & err & w' & Hrun & Hatt & _). exists d', err, w'. split; [exact Hrun|exact Hatt].
Defined.
