(* ===== verification/ExportSpec.v ===== *)
(** * The export of the trail loses nothing

    Every event of the tenant, once, in order, in both formats. *)

From Stdlib Require Import Sorting.Sorted.
From S2P Require Import Prelude Store Models Codec World Json JsonSpec Sql Repos Common AuditExport Demo.

Open Scope Z_scope.
Open Scope monad_scope.

Lemma insert_by_perm {R} (before : R -> R -> bool) x l : Permutation (insert_by before x l) (x :: l).
Proof.
  induction l as [|y l IH]; [done|]. simpl. destruct (before x y); [done|].
  rewrite IH. apply perm_swap.
Qed.

Lemma order_by_perm {R} (before : R -> R -> bool) l : Permutation (order_by before l) l.
Proof. induction l as [|x l IH]; [done|]. simpl. by rewrite insert_by_perm, IH. Qed.

Lemma order_by_sorted {R} (before : R -> R -> bool) l :
  (forall a b, before a b = false -> before b a = true) ->
  Sorted (fun a b => before a b = true) (order_by before l).
Proof.
  intros Htot. induction l as [|x l IH]; [constructor|]. simpl. revert IH. generalize (order_by before l) as k.
  induction k as [|y k IHk]; intros Hs; simpl; [by repeat constructor|].
  destruct (before x y) eqn:Hxy; [by constructor; [|constructor]|].
  apply Sorted_inv in Hs as [Hk Hy]. constructor; [by apply IHk|].
  destruct k as [|z k]; simpl; [by constructor; apply Htot|].
  destruct (before x z); constructor; [by apply Htot|]. by inversion Hy.
Qed.

Lemma streamed_total a b : Exporter.streamed a b = false -> Exporter.streamed b a = true.
Proof.
  unfold Exporter.streamed. intros H.
  repeat match goal with
  | H : context [?x <? ?y] |- _ => destruct (Z.ltb_spec x y)
  | H : context [?x =? ?y] |- _ => destruct (Z.eqb_spec x y)
  | H : context [?x <=? ?y] |- _ => destruct (Z.leb_spec x y)
  end; simpl in H; try done;
  repeat match goal with
  | |- context [?x <? ?y] => destruct (Z.ltb_spec x y)
  | |- context [?x =? ?y] => destruct (Z.eqb_spec x y)
  | |- context [?x <=? ?y] => destruct (Z.leb_spec x y)
  end; simpl; try done; lia.
Qed.

Lemma json_whole e : Json.whole (Exporter.json_of e) = true.
Proof.
  unfold Exporter.json_of, Exporter.when_set. cbn [Json.whole]. rewrite !forallb_app. cbn [forallb snd].
  destruct (AuditLog.UserID e), (AuditLog.Success e), (AuditLog.Sequence e), (AuditLog.ActorID e =? 0);
    repeat case_bool_decide; reflexivity.
Qed.

(** C35: an export holds every event of the caller's tenant and no other, each
    once, in the order of the trail; the CSV is read back by a CSV reader as the
    header and exactly the fields of those events, whatever text they hold, and
    every line of the other format as the event's object. *)
Theorem export_lossless {ST : Store} (ctx : Ctx) (format : string) (w : World) (body ctype : string) (w' : World) :
  Exporter.ExportAuditLogs ctx format w = (Ok (body, ctype), w') ->
  same_state w w' /\
  exists entries,
    Permutation entries (rows_where (fun e => bool_decide (AuditLog.TenantID e = FromContext ctx)) (rows_of (w_db w))) /\
    Sorted (fun a b => Exporter.streamed a b = true) entries /\
    ((ctype = "text/csv" /\ Csv.read Csv.Start "" [] body = Some (Exporter.csv_header :: map Exporter.csv_row entries)) \/
     (ctype = "application/x-ndjson" /\ to_lower (trim_space format) = "ndjson" /\
      exists lines, body = foldr (fun l rest => l +:+ Exporter.newline +:+ rest) "" lines /\
        map Json.parse lines = map (fun e => Some (Exporter.json_of e)) entries)).
Proof.
  intros H. unfold Exporter.ExportAuditLogs, Exporter.StreamAll in H.
  apply bind_Ok in H as (entries & w1 & H1 & H). apply bind_Ok in H1 as (tid & w2 & H2 & H1).
  apply bind_Ok in H1 as (rows & w3 & H3 & H1). injection H1 as <- <-.
  assert (tid = FromContext ctx /\ w2 = w) as [-> ->].
  { unfold scopeTenant in H2. destruct (_ && _); [done|]. by injection H2 as -> ->. }
  apply Find_Ok in H3 as [Hw ->].
  assert (w' = w3) as -> by (destruct (bool_decide _); by injection H as <- <- <-). split; [exact Hw|].
  eexists. split; [apply order_by_perm|]. split; [apply order_by_sorted, streamed_total|].
  case_bool_decide as Hf; injection H as <- <-.
  - right. split; [done|]. split; [done|]. set (l := order_by _ _). exists (map (fun e => Json.text (Exporter.json_of e)) l).
    split; [by induction l as [|e l IH]; [|simpl; rewrite IH]|]. rewrite map_map. apply map_ext.
    intros e. apply parse_text, json_whole.
  - left. split; [done|]. apply Csv.read_write. apply Forall_cons_2; [done|]. apply Forall_forall. intros r Hr.
    by apply in_map_iff in Hr as (e & <- & _).
Qed.

Import Choices.

(** An event whose text holds quotes, a comma and a line end. *)
Definition awkward : AuditLog.row :=
  AuditLog.mk 7 "default" (Some 1) "a,b@finn.io" "login" "10.0.0.1" true
    ("said " +:+ String Csv.dq (String Csv.lf ",")) "" "" Demo.t0 1 "uuid-1" (Some 3) "k1" "authenticated" 1 "uuid-2" "".

Definition awkward_world : World := set_db (set_rows [awkward] Demo.db) Demo.start.

Lemma export_lossless_witness :
  exists body ctype w', Exporter.ExportAuditLogs Demo.ctx "csv" awkward_world = (Ok (body, ctype), w') /\
    Csv.read Csv.Start "" [] body = Some [Exporter.csv_header; Exporter.csv_row awkward].
Proof.
  assert (is_Ok (fst (Exporter.ExportAuditLogs Demo.ctx "csv" awkward_world)) = true) as Hok by vm_reflexivity.
  destruct (Exporter.ExportAuditLogs Demo.ctx "csv" awkward_world) as [[[body ctype]|e] w'] eqn:H; [|discriminate Hok].
  exists body, ctype, w'. split; [reflexivity|].
  destruct (export_lossless _ _ _ _ _ _ H) as (_ & entries & Hp & _ & [[_ Hr]|(_ & Hf & _)]); [|exfalso; revert Hf; vm_compute; discriminate].
  rewrite Hr. assert (rows_where (fun e => bool_decide (AuditLog.TenantID e = FromContext Demo.ctx)) (rows_of (w_db awkward_world)) =
    [awkward]) as Hrows by vm_reflexivity. rewrite Hrows in Hp. apply Permutation_sym, Permutation_length_1_inv in Hp as ->.
  reflexivity.
Defined.
