(* ===== verification/AuditOps.v ===== *)
(** * The outbox under its worker ([audit_repository.go], [audit_outbox.go],
    [services/async_audit.go])

    What the repository offers besides admission: the fire-and-forget [Record],
    batches, the tenant's listing, the backlog; and the worker that empties the
    outbox.  Without faults a dispatch delivers everything that is due, and the
    backlog reads empty. *)

From S2P Require Import Prelude Store Models World Sql Repos AuditTrail AuditSpec Identity Admin IdentitySpec Frames.

Open Scope Z_scope.
Open Scope monad_scope.

Module AuditOps.
Section S.
Context {ST : Store} {E : Ext}.

(** ** [AuditRepository] *)

Definition Record_ (r : AuditRepository) (ctx : Ctx) (e : AuditLog.row) : M unit :=
  let! res := try_ (Outbox.Admit r ctx e) in
  match res with
  | Error _ => update_op (op_fail ErrUnavailable)
  | Ok _ =>
      let! op := current_op in
      if bool_decide (is_Some op) then ret tt else try_ (Outbox.Dispatch r 100) ;;; ret tt
  end.

(** The admissions of a batch: they stop at the first that fails. *)
Fixpoint admit_all (r : AuditRepository) (ctx : Ctx) (entries : list AuditLog.row) (n : nat) : M nat :=
  match entries with
  | [] => ret n
  | e :: entries =>
      let! res := try_ (Outbox.Admit r ctx e) in
      match res with Error _ => ret n | Ok _ => admit_all r ctx entries (S n) end
  end.

Definition BatchInsert (r : AuditRepository) (ctx : Ctx) (entries : list AuditLog.row) : M nat :=
  let! n := admit_all r ctx entries 0 in
  let! op := current_op in
  if bool_decide (is_Some op) then ret n else try_ (Outbox.Dispatch r 100) ;;; ret n.

(** A date alone does not authorize the destruction of signed history. *)
Definition PurgeOlderThan (cutoff : Z) : M Z := fail ErrPolicy.

Definition FindAllPaginated (ctx : Ctx) (tenantID : string) (page limit : Z) : M (list AuditLog.row * Z) :=
  let! tid := scopeTenant ctx tenantID in
  let! total := Count (fun _ e => bool_decide (AuditLog.TenantID e = tid)) in
  let! rows := Find (fun _ e => bool_decide (AuditLog.TenantID e = tid)) in
  ret (Page.slice page limit (order_by (newest AuditLog.CreatedAt) (order_by (newest AuditLog.ID) rows)), total).

Record AuditBacklog := mkBacklog { Pending : Z; Dead : Z; Oldest : option Z }.

Definition waiting (o : AuditOutbox.row) : bool :=
  bool_decide (AuditOutbox.State o = "pending") || bool_decide (AuditOutbox.State o = "leased").

Definition is_delivered (o : AuditOutbox.row) : bool := bool_decide (AuditOutbox.State o = "delivered").

Definition Backlog : M AuditBacklog :=
  let! p := Count (fun _ => waiting) in
  let! d := Count (fun _ o => bool_decide (AuditOutbox.State o = "dead")) in
  let! rows := Find (fun _ o => negb (is_delivered o)) in
  ret (mkBacklog p d (head (order_by Z.leb (map AuditOutbox.CreatedAt rows)))).

(** The pending and dead events, and the age of the oldest. *)
Definition OutboxStats : M (Z * Z * Z) :=
  let! b := Backlog in
  let! t := now in
  ret (Pending b, Dead b, match Oldest b with Some o => t - o | None => 0 end).

(** ** The durable worker *)

(** One flush: what was delivered, the error that stopped it, and the statistics
    when they can be read. *)
Definition flush (r : AuditRepository) (flushBatch : nat) : M (nat * option Err * option (Z * Z * Z)) :=
  let! (n, err) := Outbox.Dispatch r flushBatch in
  let! stats := try_ OutboxStats in
  ret (n, err, match stats with Ok s => Some s | Error _ => None end).

(** What the worker waits for: its ticker, a wake-up, the stop. *)
Inductive Signal := Tick | Wake | Stop.

(** Every signal flushes; the stop is the last. *)
Fixpoint durableWorker (r : AuditRepository) (flushBatch : nat) (signals : list Signal) : M unit :=
  match signals with
  | [] => ret tt
  | Stop :: _ => flush r flushBatch ;;; ret tt
  | _ :: signals => flush r flushBatch ;;; durableWorker r flushBatch signals
  end.

(** ** Without faults, what is due is delivered *)

(** No external call is going to fail, and no operation is bound. *)
Definition idle (w : World) : Prop := calm w /\ w_op w = None.

(** An undelivered entry the worker can deliver: due, with leases left, its event
    there, and its place in the trail free. *)
Definition deliverable (now_ : Z) (logs : list AuditLog.row) (o : AuditOutbox.row) : Prop :=
  Outbox.due now_ o = true /\ AuditOutbox.Attempts o < Outbox.auditMaxAttempts /\
  exists e, AuditOutbox.Payload o = JEvent e /\
    forall l, In l logs -> AuditLog.EventID l <> AuditLog.EventID e /\ Outbox.log_clash e l = false.

Definition all_deliverable (w : World) : Prop := forall o, In o (audit_outbox (w_db w)) ->
  is_delivered o = false -> deliverable (w_now w) (audit_logs (w_db w)) o.

Definition undelivered_rows (w : World) : list AuditOutbox.row :=
  rows_where (fun o => negb (is_delivered o)) (audit_outbox (w_db w)).

Ltac idle_tac := match goal with H : idle _ |- calm _ => solve [apply H] end.

Lemma transaction_idle {A} (m : M A) w a w' :
  idle w -> m w = (Ok a, w') -> idle w' -> transaction m w = (Ok a, w').
Proof.
  intros [Hf Ho] Hm [Hf' _]. unfold transaction, fault. rewrite Hf, Hm, Ho. simpl. by rewrite Hf'.
Qed.

(** The outbox is a queue: what is first among the due rows is due. *)
Lemma first_due now_ os o rest :
  order_by Outbox.earlier (rows_where (Outbox.due now_) os) = o :: rest -> In o os /\ Outbox.due now_ o = true.
Proof.
  intros H. assert (In o (rows_where (Outbox.due now_) os)) as Hx; [|by apply filter_In in Hx].
  apply (order_by_In Outbox.earlier). rewrite H. by left.
Qed.

Lemma order_by_nil {R} (before : R -> R -> bool) (l : list R) : order_by before l = [] -> l = [].
Proof. destruct l as [|x l]; [done|]. simpl. by destruct (order_by before l) as [|y k]; simpl; [|destruct (before x y)]. Qed.

Abbreviation put_outbox os w := (put_rows (R := AuditOutbox.row) os w).

Lemma Claim_idle w o rest :
  idle w -> order_by Outbox.earlier (rows_where (Outbox.due (w_now w)) (audit_outbox (w_db w))) = o :: rest ->
  AuditOutbox.Attempts o < Outbox.auditMaxAttempts ->
  exists token w1, Outbox.Claim (w_now w) w = (Ok (Some (Outbox.lease (w_now w) token o)), w1) /\
    idle w1 /\ w_now w1 = w_now w /\
    w_db w1 = set_rows (update_where (fun x => bool_decide (AuditOutbox.EventID x = AuditOutbox.EventID o))
                          (fun _ => Outbox.lease (w_now w) token o) (audit_outbox (w_db w))) (w_db w).
Proof.
  intros Hc Ho Ha. pose proof Hc as [Hf Hop].
  set (token := new_uuid (w_uuid w)). set (o' := Outbox.lease (w_now w) token o).
  assert (AuditOutbox.State o' = "leased" /\ AuditOutbox.EventID o' = AuditOutbox.EventID o) as [Hs He].
  { unfold o', Outbox.lease. simpl. destruct (Z.ltb_spec Outbox.auditMaxAttempts (AuditOutbox.Attempts o + 1)); [lia|done]. }
  eexists token, _. split.
  - unfold Outbox.Claim, bind at 1, try_ at 1. erewrite transaction_idle; [..|done| |].
    + cbv beta iota. fold o'. rewrite bool_decide_false by (rewrite Hs; done). reflexivity.
    + unfold bind at 1, Find. rewrite stmt_calm by idle_tac. cbn. unfold get_rows. cbn. unfold rows_where in Ho. rewrite Ho.
      unfold bind at 1, NewUUID at 1. fold token o'. unfold bind at 1, Outbox.save, bind at 1, Updates.
      rewrite stmt_calm by idle_tac. reflexivity.
    + done.
  - simpl. rewrite He. done.
Qed.

Lemma Claim_none w :
  idle w -> order_by Outbox.earlier (rows_where (Outbox.due (w_now w)) (audit_outbox (w_db w))) = [] ->
  Outbox.Claim (w_now w) w = (Ok None, w).
Proof.
  intros Hc Ho. pose proof Hc as [Hf Hop]. unfold Outbox.Claim, bind at 1, try_, transaction, fault.
  rewrite Hf. unfold bind, Find. rewrite stmt_calm by idle_tac. cbn. unfold get_rows. cbn. unfold rows_where in Ho. rewrite Ho.
  cbn. by destruct w.
Qed.

Lemma Create_idle {R} `{TableOf R} clash (mk : Z -> R) w :
  idle w -> existsb (clash (mk (next_id (w_db w)))) (get_rows w) = false ->
  Create clash mk w = (Ok (mk (next_id (w_db w))), set_db (set_next_id (next_id (w_db w) + 1)
    (set_rows (get_rows w ++ [mk (next_id (w_db w))]) (w_db w))) w).
Proof. intros Hc He. unfold Create. rewrite stmt_calm by idle_tac. by rewrite He. Qed.

Lemma insert_event_idle e w :
  idle w -> (forall l, In l (audit_logs (w_db w)) ->
    AuditLog.EventID l <> AuditLog.EventID e /\ Outbox.log_clash e l = false) ->
  exists w', Outbox.insert_event e w = (Ok tt, w') /\ idle w' /\ w_now w' = w_now w /\
    w_db w' = set_next_id (next_id (w_db w) + 1)
      (set_rows (audit_logs (w_db w) ++ [AuditLog.set_ID (next_id (w_db w)) e]) (w_db w)).
Proof.
  intros Hc Hl. unfold Outbox.insert_event, bind at 1, try_. rewrite First_calm by idle_tac.
  rewrite (proj2 (first_where_None _ _)) by (intros l Hin; apply bool_decide_eq_false, (Hl l Hin)).
  rewrite decide_True by done. unfold bind. rewrite Create_idle; [|done|].
  - eexists. split; [reflexivity|]. done.
  - apply not_true_is_false. intros (l & Hin & Hcl)%existsb_exists. destruct (Hl l Hin) as [_ Hno].
    change (Outbox.log_clash e l = true) in Hcl. congruence.
Qed.

Lemma Deliver_idle r w o e :
  idle w -> NoDup (map AuditOutbox.EventID (audit_outbox (w_db w))) -> In o (audit_outbox (w_db w)) ->
  AuditOutbox.State o = "leased" -> AuditOutbox.LeaseUntil o = Some (w_now w + Outbox.auditLease) ->
  AuditOutbox.Payload o = JEvent e -> Outbox.payload_matches o e = true -> Trail.Verify (a_keys r) e = None ->
  (forall l, In l (audit_logs (w_db w)) ->
    AuditLog.EventID l <> AuditLog.EventID e /\ Outbox.log_clash e l = false) ->
  exists w' id, Outbox.Deliver r o w = (Ok tt, w') /\ idle w' /\ w_now w' = w_now w /\
    audit_logs (w_db w') = audit_logs (w_db w) ++ [AuditLog.set_ID id e] /\
    audit_outbox (w_db w') = update_where
      (fun x => bool_decide (AuditOutbox.EventID x = AuditOutbox.EventID o)) delivered (audit_outbox (w_db w)).
Proof.
  intros Hc Hnd Hin Hs Hu Hp Hm Hv Hl.
  assert (first_where (fun x => bool_decide (AuditOutbox.EventID x = AuditOutbox.EventID o))
            (audit_outbox (w_db w)) = Some o) as Hf.
  { destruct (first_where _ _) as [x|] eqn:Hx.
    - apply first_where_Some in Hx as [Hix Hx]. bool_prop. f_equal.
      by apply (NoDup_map_inj AuditOutbox.EventID (audit_outbox (w_db w))).
    - apply first_where_None with (r := o) in Hx; [|done]. by rewrite bool_decide_true in Hx. }
  destruct (insert_event_idle e w Hc Hl) as (w3 & Hi & Hc3 & Hn3 & Hd3).
  eexists _, _. split.
  - unfold Outbox.Deliver. eapply transaction_idle; [done| |].
    + unfold bind at 1. rewrite First_calm by idle_tac. change (rows_of (w_db w)) with (audit_outbox (w_db w)).
      rewrite Hf, Hs. rewrite (bool_decide_false ("leased" = "delivered")) by done.
      unfold bind at 1, now at 1. unfold Outbox.lease_live. rewrite Hs, Hu.
      rewrite !bool_decide_true by done. cbn [andb]. destruct (Z.ltb_spec (w_now w) (w_now w + Outbox.auditLease)) as [_|Hx];
        [|unfold Outbox.auditLease, second, millisecond in Hx; lia].
      cbn [negb]. rewrite Hp, Hm. cbn [negb]. rewrite Hv. unfold bind at 1. rewrite Hi.
      unfold bind at 1. rewrite Updates_calm by idle_tac. unfold bind at 1. rewrite Updates_calm by idle_tac. reflexivity.
    + done.
  - cbn. rewrite Hd3. done.
Qed.

Context (r : AuditRepository).

(** What a drain keeps: the chain, and that what is left can be delivered. *)
Definition drainable (w : World) : Prop := idle w /\ db_chain r (w_db w) /\ all_deliverable w.

Abbreviation same_id o := (fun x => bool_decide (AuditOutbox.EventID x = AuditOutbox.EventID o)).

(** Delivering [o] leaves what else is there deliverable. *)
Lemma still_deliverable w w' o o' e id :
  drainable w -> In o (audit_outbox (w_db w)) -> AuditOutbox.Payload o = JEvent e ->
  is_delivered o' = true -> w_now w' = w_now w ->
  audit_logs (w_db w') = audit_logs (w_db w) ++ [AuditLog.set_ID id e] ->
  audit_outbox (w_db w') = update_where (same_id o) (fun _ => o') (audit_outbox (w_db w)) ->
  all_deliverable w'.
Proof.
  intros (_ & Hch & Hall) Hin Hp Hd Hn Hl Ho y Hy Hyd. rewrite Hn, Hl. rewrite Ho in Hy.
  apply update_where_In in Hy as (x & Hx & ->).
  destruct (bool_decide (AuditOutbox.EventID x = AuditOutbox.EventID o)) eqn:Hq; [congruence|]. bool_prop.
  destruct (Hall x Hx Hyd) as (Hdue & Hatt & ex & Hpx & Hfree).
  split; [done|]. split; [done|]. exists ex. split; [done|].
  intros l [Hin'|[<-|[]]]%in_app_or; [by apply Hfree|]. cbn.
  destruct (signed _ _ _ Hch o e Hin Hp) as (Hm & _). destruct (signed _ _ _ Hch x ex Hx Hpx) as (Hmx & _).
  unfold Outbox.payload_matches in Hm, Hmx. bool_prop.
  assert (AuditLog.EventID e <> AuditLog.EventID ex) as Hne by congruence. split; [done|].
  unfold Outbox.log_clash. cbn. rewrite (bool_decide_false (AuditLog.EventID ex = AuditLog.EventID e)) by congruence.
  rewrite andb_false_r. cbn. apply andb_false_iff.
  destruct (decide (AuditLog.TenantID ex = AuditLog.TenantID e)) as [Ht|Ht];
    [right|left; by apply bool_decide_eq_false].
  replace (AuditLog.Sequence ex) with (Some (AuditOutbox.Sequence x)) by congruence.
  replace (AuditLog.Sequence e) with (Some (AuditOutbox.Sequence o)) by congruence.
  apply Z.eqb_neq. intros Hs. assert (x = o) as ->; [|done].
  apply (NoDup_map_inj (fun o => (AuditOutbox.TenantID o, AuditOutbox.Sequence o)) (audit_outbox (w_db w)));
    [apply Hch|done|done|congruence].
Qed.

(** One round of the worker: the first due entry is claimed and delivered. *)
Lemma round w o rest :
  drainable w ->
  order_by Outbox.earlier (rows_where (Outbox.due (w_now w)) (audit_outbox (w_db w))) = o :: rest ->
  exists c w1 w2 e id, Outbox.Claim (w_now w) w = (Ok (Some c), w1) /\ Outbox.Deliver r c w1 = (Ok tt, w2) /\
    drainable w2 /\ w_now w1 = w_now w /\ w_now w2 = w_now w /\
    In o (undelivered_rows w) /\ AuditOutbox.Payload o = JEvent e /\
    audit_logs (w_db w2) = audit_logs (w_db w) ++ [AuditLog.set_ID id e] /\
    exists o', is_delivered o' = true /\ AuditOutbox.EventID o' = AuditOutbox.EventID o /\
      audit_outbox (w_db w2) = update_where (same_id o) (fun _ => o') (audit_outbox (w_db w)).
Proof.
  intros HJ Ho. pose proof HJ as (Hc & Hch & Hall). destruct (first_due _ _ _ _ Ho) as [Hin Hdue].
  assert (is_delivered o = false) as Hund.
  { unfold is_delivered. apply bool_decide_eq_false. intros Hs. unfold Outbox.due in Hdue. by rewrite Hs in Hdue. }
  destruct (Hall o Hin Hund) as (_ & Hatt & e & Hp & Hfree).
  destruct (signed _ _ _ Hch o e Hin Hp) as (Hm & Hv & _).
  destruct (Claim_idle w o rest Hc Ho Hatt) as (token & w1 & Hcl & Hc1 & Hn1 & Hd1).
  set (c := Outbox.lease (w_now w) token o) in *.
  assert (c = AuditOutbox.set_Attempts (AuditOutbox.Attempts o + 1)
    (AuditOutbox.set_LeaseUntil (Some (w_now w + Outbox.auditLease))
      (AuditOutbox.set_LeaseToken token (AuditOutbox.set_State "leased" o)))) as Hceq.
  { unfold c, Outbox.lease. cbn. destruct (Z.ltb_spec Outbox.auditMaxAttempts (AuditOutbox.Attempts o + 1)); [lia|done]. }
  assert (AuditOutbox.EventID c = AuditOutbox.EventID o) as Hid by (rewrite Hceq; done).
  assert (db_chain r (w_db w1)) as Hch1.
  { replace w1 with (snd (Outbox.Claim (w_now w) w)) by (by rewrite Hcl). by apply claim_keeps. }
  assert (audit_outbox (w_db w1) = update_where (same_id o) (fun _ => c) (audit_outbox (w_db w))) as Ho1 by (by rewrite Hd1).
  destruct (Deliver_idle r w1 c e) as (w2 & id & Hdl & Hc2 & Hn2 & Hl2 & Ho2); try done.
  - apply Hch1.
  - rewrite Ho1. apply update_where_In. exists o. split; [done|]. by rewrite bool_decide_true.
  - by rewrite Hceq.
  - by rewrite Hceq, Hn1.
  - by rewrite Hceq.
  - rewrite Hceq. exact Hm.
  - rewrite Hd1. exact Hfree.
  - assert (audit_logs (w_db w1) = audit_logs (w_db w)) as Hl1 by (by rewrite Hd1).
    rewrite Hl1 in Hl2. rewrite Hn1 in Hn2.
    assert (audit_outbox (w_db w2) = update_where (same_id o) (fun _ => delivered c) (audit_outbox (w_db w))) as Ho2'.
    { rewrite Ho2, Ho1, Hid. unfold update_where. rewrite map_map. apply map_ext. intros x. cbn beta.
      destruct (bool_decide (AuditOutbox.EventID x = _)) eqn:Hx; [|by rewrite Hx].
      by rewrite Hid, bool_decide_true. }
    exists c, w1, w2, e, id. split; [done|]. split; [done|]. split; [split; [done|split]|].
    + replace w2 with (snd (Outbox.Deliver r c w1)) by (by rewrite Hdl). by apply deliver_keeps.
    + by apply (still_deliverable w w2 o (delivered c) e id).
    + split; [done|]. split; [done|]. split.
      { unfold undelivered_rows, rows_where. apply filter_In. by rewrite Hund. }
      split; [done|]. split; [done|]. exists (delivered c). by split.
Qed.

Lemma undelivered_rows_update w w' o o' :
  NoDup (map AuditOutbox.EventID (audit_outbox (w_db w))) -> In o (undelivered_rows w) -> is_delivered o' = true ->
  audit_outbox (w_db w') = update_where (same_id o) (fun _ => o') (audit_outbox (w_db w)) ->
  length (undelivered_rows w) = S (length (undelivered_rows w')) /\
  forall x, In x (undelivered_rows w) -> x = o \/ In x (undelivered_rows w').
Proof.
  intros Hnd Hin Hd Ho. unfold undelivered_rows in *. apply filter_In in Hin as [Hin Hu]. rewrite Ho. split.
  - pose proof (count_where_update AuditOutbox.EventID (same_id o) (fun o => negb (is_delivered o)) (fun _ => o')
      (audit_outbox (w_db w)) o Hnd Hin (fun x => bool_decide_eq_true _)) as Hn.
    cbn beta in Hn. rewrite Hu, Hd in Hn. cbn in Hn. unfold count_where in Hn. lia.
  - intros x Hx. apply filter_In in Hx as [Hx Hux].
    destruct (bool_decide (AuditOutbox.EventID x = AuditOutbox.EventID o)) eqn:Hq.
    + left. bool_prop. by apply (NoDup_map_inj AuditOutbox.EventID (audit_outbox (w_db w))).
    + right. apply filter_In. split; [|done]. apply update_where_In. exists x. by rewrite Hq.
Qed.

Definition delivers (w w' : World) (added : list AuditLog.row) : Prop :=
  audit_logs (w_db w') = audit_logs (w_db w) ++ added /\
  length added = length (undelivered_rows w) /\
  (forall o e, In o (undelivered_rows w) -> AuditOutbox.Payload o = JEvent e ->
     exists id, In (AuditLog.set_ID id e) added) /\
  map AuditOutbox.EventID (audit_outbox (w_db w')) = map AuditOutbox.EventID (audit_outbox (w_db w)) /\
  undelivered_rows w' = [].

Lemma dispatch_drains limit : forall n w, drainable w -> (length (undelivered_rows w) <= limit)%nat ->
  exists w' added, Outbox.dispatch_loop r limit n w = (Ok ((n + length (undelivered_rows w))%nat, None), w') /\
    drainable w' /\ delivers w w' added.
Proof.
  assert (forall w, undelivered_rows w = [] -> delivers w w []) as Hnil.
  { intros w Hw. unfold delivers. rewrite Hw, app_nil_r. repeat split; try done. }
  induction limit as [|limit IH]; intros n w HJ Hle; cbn [Outbox.dispatch_loop].
  { exists w, []. destruct (undelivered_rows w) eqn:Hw; [|cbn in Hle; lia]. rewrite Nat.add_0_r. auto. }
  unfold bind at 1, now at 1, bind at 1, try_ at 1.
  destruct (order_by Outbox.earlier (rows_where (Outbox.due (w_now w)) (audit_outbox (w_db w)))) as [|o rest] eqn:Ho.
  - rewrite Claim_none by (apply HJ || done). apply order_by_nil in Ho.
    assert (undelivered_rows w = []) as Hw.
    { destruct (undelivered_rows w) as [|x l] eqn:Hw; [done|]. exfalso.
      assert (In x (undelivered_rows w)) as Hx by (rewrite Hw; by left). apply filter_In in Hx as [Hx Hux].
      apply negb_true_iff in Hux. destruct HJ as (_ & _ & Hall). destruct (Hall x Hx Hux) as [Hdue _].
      assert (In x (rows_where (Outbox.due (w_now w)) (audit_outbox (w_db w)))) as Hin by (by apply filter_In).
      by rewrite Ho in Hin. }
    exists w, []. rewrite Hw, Nat.add_0_r. auto.
  - destruct (round w o rest HJ Ho) as (c & w1 & w2 & e & id & Hcl & Hdl & HJ2 & _ & _ & Hin & Hp & Hl & o' & Hd & Hid & Ho2).
    rewrite Hcl. unfold bind at 1, try_ at 1. rewrite Hdl.
    destruct (undelivered_rows_update w w2 o o') as [Hlen Hrest]; try done; [apply HJ|].
    destruct (IH (S n) w2 HJ2 ltac:(lia)) as (w' & added & Hloop & HJ' & Ha & Hla & Hev & Hids & Hu).
    exists w', (AuditLog.set_ID id e :: added). rewrite Hloop, Hlen. split; [f_equal; f_equal; f_equal; lia|].
    split; [done|]. split; [by rewrite Ha, Hl, <- app_assoc|]. split; [cbn; lia|]. split.
    + intros x ex Hx Hpx. destruct (Hrest x Hx) as [->|Hx'].
      * exists id. left. congruence.
      * destruct (Hev x ex Hx' Hpx) as [i Hi]. exists i. by right.
    + split; [|done]. rewrite Hids, Ho2. apply map_update_same. intros x _ Hq. bool_prop. congruence.
Qed.

Lemma undelivered_none w : undelivered_rows w = [] -> forall o, In o (audit_outbox (w_db w)) -> is_delivered o = true.
Proof.
  intros Hw o Hin. destruct (is_delivered o) eqn:Hd; [done|].
  assert (In o (undelivered_rows w)) as Hx by (apply filter_In; by rewrite Hd). by rewrite Hw in Hx.
Qed.

Lemma OutboxStats_empty w : idle w -> undelivered_rows w = [] -> OutboxStats w = (Ok (0, 0, 0), w).
Proof.
  intros Hc Hw. pose proof (undelivered_none w Hw) as Hall.
  assert (forall p : AuditOutbox.row -> bool, (forall o, is_delivered o = true -> p o = false) ->
    count_where p (audit_outbox (w_db w)) = 0%nat) as Hz.
  { intros p Hp. apply count_where_zero. intros o Hin. by apply Hp, Hall. }
  unfold OutboxStats, Backlog, bind at 1, bind at 1, Count. rewrite stmt_calm by idle_tac.
  change (get_rows w) with (audit_outbox (w_db w)).
  unfold bind at 1. rewrite stmt_calm by idle_tac. change (get_rows w) with (audit_outbox (w_db w)).
  unfold bind at 1, Find. rewrite stmt_calm by idle_tac. change (rows_where _ (get_rows w)) with (undelivered_rows w).
  rewrite !Hz, Hw; [done| |]; intros o Hd; unfold is_delivered in Hd; bool_prop; unfold waiting; by rewrite Hd.
Qed.

Lemma heads_empty hs os : chain_ok r hs os -> (forall o, In o os -> is_delivered o = true) ->
  forall h, In h hs -> AuditHead.Pending h = 0.
Proof.
  intros Hch Hall h Hin. rewrite (pending _ _ _ Hch h Hin). unfold undelivered.
  rewrite (proj2 (count_where_zero _ _)); [done|]. intros o Ho. unfold is_delivered in Hall.
  by rewrite (Hall o Ho), andb_false_r.
Qed.

(** C27: what is admitted is delivered.  Without faults, one flush of the durable
    worker over an outbox within its batch, whose undelivered entries are due, have
    leases left and find their place in the trail free, delivers every one of them
    exactly once: the trail grows by their events and by nothing else, every entry
    is delivered, no tenant has anything pending, no entry is lost or added, and
    the statistics it publishes are those of an empty backlog. *)
Theorem outbox_drains (w : World) (flushBatch : nat)
    (Hidle : idle w) (Hchain : db_chain r (w_db w)) (Hready : all_deliverable w)
    (Hfits : (length (undelivered_rows w) <= Nat.min (Nat.max flushBatch 1) 1000)%nat) :
  exists w' added,
    flush r flushBatch w = (Ok (length (undelivered_rows w), None, Some (0, 0, 0)), w') /\
    audit_logs (w_db w') = audit_logs (w_db w) ++ added /\
    length added = length (undelivered_rows w) /\
    (forall o e, In o (undelivered_rows w) -> AuditOutbox.Payload o = JEvent e ->
       exists id, In (AuditLog.set_ID id e) added) /\
    map AuditOutbox.EventID (audit_outbox (w_db w')) = map AuditOutbox.EventID (audit_outbox (w_db w)) /\
    (forall o, In o (audit_outbox (w_db w')) -> is_delivered o = true) /\
    (forall h, In h (audit_heads (w_db w')) -> AuditHead.Pending h = 0).
Proof.
  destruct (dispatch_drains _ 0 w (conj Hidle (conj Hchain Hready)) Hfits)
    as (w' & added & Hd & (Hc' & Hch' & _) & Ha & Hla & Hev & Hids & Hu).
  exists w', added. unfold flush, bind at 1, Outbox.Dispatch. rewrite Hd. cbn [Nat.add].
  unfold bind, try_. rewrite OutboxStats_empty by done.
  pose proof (undelivered_none w' Hu) as Hall. repeat (split; [done|]). by apply (heads_empty _ _ Hch').
Qed.

End S.

#[local] Existing Instance toy_ext.

(** Two events of one tenant, admitted and waiting. *)
Definition two_admitted : World (ST := mem_store) :=
  run_call demo_repo (CAdmit demo_ctx demo_refusal) (run_call demo_repo (CAdmit demo_ctx demo_event) demo_start).

Lemma two_ready : all_deliverable two_admitted.
Proof.
  intros o Hin _.
  assert (forallb (fun o => match AuditOutbox.Payload o with JEvent _ => true | _ => false end &&
    (Outbox.due (w_now two_admitted) o && (AuditOutbox.Attempts o <? Outbox.auditMaxAttempts)))
    (audit_outbox (w_db two_admitted)) = true) as Hall by vm_reflexivity.
  pose proof (proj1 (forallb_forall _ _) Hall o Hin) as Ho.
  apply andb_true_iff in Ho as [Hp' [Hd Ha]%andb_true_iff].
  split; [exact Hd|]. split; [by apply Z.ltb_lt|]. destruct (AuditOutbox.Payload o) as [|e|] eqn:Hp; [discriminate| |discriminate].
  exists e. split; [done|].
  assert (audit_logs (w_db two_admitted) = []) as -> by vm_reflexivity. intros l [].
Qed.

Lemma outbox_drains_witness : exists w' added,
  flush demo_repo 64 two_admitted = (Ok (2%nat, None, Some (0, 0, 0)), w') /\
  audit_logs (w_db w') = added /\ length added = 2%nat /\
  (forall o, In o (audit_outbox (w_db w')) -> is_delivered o = true) /\
  (forall h, In h (audit_heads (w_db w')) -> AuditHead.Pending h = 0).
Proof.
  assert (db_chain demo_repo (w_db two_admitted)) as Hchain.
  { refine (call_keeps demo_repo demo_keys_ok (ltac:(done)) (CAdmit demo_ctx demo_refusal) _
      (call_keeps demo_repo demo_keys_ok (ltac:(done)) (CAdmit demo_ctx demo_event) demo_start _)).
    by split; simpl; try constructor. }
  assert (length (undelivered_rows two_admitted) = 2%nat) as Hlen by vm_reflexivity.
  assert (audit_logs (w_db two_admitted) = []) as Hlogs by vm_reflexivity.
  assert (idle two_admitted) as Hidle by (split; unfold calm; vm_reflexivity).
  destruct (outbox_drains demo_repo two_admitted 64 Hidle Hchain two_ready) as (w' & added & H1 & H2 & H3 & _ & _ & H4 & H5).
  { rewrite Hlen. lia. }
  rewrite Hlen in H1, H3. rewrite Hlogs in H2. exists w', added.
  split; [exact H1|]. split; [exact H2|]. split; [exact H3|]. split; [exact H4|exact H5].
Defined.

End AuditOps.
